(* ===== verification/_CoqProject ===== *)
-Q . S2P
Prelude.v
GoStr.v
Json.v
Types.v
Tdjson.v
Quota.v
Db.v
Registry.v
Counters.v
Chats.v
Guard.v
Admit.v
Paths.v
Utf8.v
UploadStore.v
Sends.v
LocalFiles.v
Call.v
Subs.v
Sha256.v
Gcm.v
Secret.v
Tokens.v
Delivery.v
Dispatch.v
Pipeline.v
Sync.v
Auth.v
Gateway.v
RuleApi.v
Api.v
Serving.v
Login.v
Worker.v
Downloads.v
Manage.v
Integrity.v
Updates.v
Retention.v
Migrations.v
Schema.v
SchemaDb.v
Lease.v
System.v
Obs.v
Duration.v
Entry.v
Loops.v
Failover.v
Fleet.v
