(* ===== verification/Prelude.v ===== *)
(** Verification of the Telegram control API server (Go, under src/).

The program lets HTTP clients drive Telegram accounts through TDLib. A gateway
(internal/router) authenticates a request, finds the worker that holds the
account in the Postgres registry (internal/store) and proxies to it; uploads it
stores itself on a volume the workers share (internal/upload). A worker
(internal/session, internal/api) holds the TDLib clients of its accounts,
guards and counts every call (internal/quota), logs accounts in, routes updates
to webhooks, and shares the accounts out with its peers through heartbeats and
claims in the registry. This library models these parts as the code has them,
one file per part, and proves what makes each correct. In the order of
_CoqProject:

- Prelude, GoStr, Json, Paths, Utf8, Sha256, Gcm: the language side. Results,
  machine integers and list lemmas; the strings, strconv, path and utf8
  functions of Go on byte strings; encoding/json decoding on trees of raw
  JSON (case-insensitive fields, nulls, partial stores before an error);
  SHA-256, HMAC and AES-GCM as executable functions. Lemmas only, except what
  the parts below need of them.
- Types, Tdjson (tdjson/raw.go): the shared records and errors; requests to
  TDLib, its errors, and the wait a flood error asks for.
- Db, Registry, Counters, Tokens (store/store.go, limits.go, migrations.go):
  the registry as one record of finite maps. Each store function is a function
  on it, which PostgreSQL runs as one atomic statement or transaction; a
  statement that can fail returns a [dberr]. Claims are exclusive, counting a
  call is all or nothing and never overfills a window, token scopes are what
  was granted.
- Integrity, Migrations: every statement as a step of one relation; from an
  empty registry on, references, unique columns and column types hold in every
  reachable registry. Each schema migration runs exactly once over any sequence
  of starts that fail where they may.
- Schema, SchemaDb (store/migrations.go): the SQL of the six versions as data,
  and PostgreSQL's effect of the statements it uses (CREATE TABLE, ADD COLUMN,
  the backfill UPDATE and DELETE, SET NOT NULL, indexes) on tables of rows. From
  every version ever deployed, with any rows its constraints allow, the
  remaining ones go through, keep every row but the deliveries of no
  subscription, and end in a valid database. SchemaDb writes a registry of Db out
  as rows: what Db keeps as an invariant is what the declared constraints check.
- Lease: who may hold a session, as an abstract machine of one lease (claim,
  assign, release, renew), a class of what a registry owes it, and the store's
  statements as its instance. A holder that beats in time keeps its lease
  against everyone else.
- Quota (quota/quota.go), Guard (session/guard.go), Admit (session/limits.go):
  the policy of the rules, the windows in Moscow time, the cooldowns and the
  pace of one account, and the admission of one call made of them. A flood wait
  is respected until its end and survives a restart; writes are a second apart;
  a refused call is not counted, an admitted one exactly under the rules that are
  enforced for it.
- Chats, LocalFiles, Call (session/manager.go, uploads.go): what happens to a
  call: a refused one never reaches TDLib, an admitted one reaches it once, with
  the caller's params or the id TDLib gave for a username, and once more only
  after TDLib said it did not know the chat and loaded it; no file outside
  the uploads volume is named in a call that goes out (but see the recorded
  exception for numbers past float64).
- UploadStore (upload/store.go, router/files.go): resumable uploads; what was
  appended in order is what Complete hands out.
- Sends, Subs, Delivery, Pipeline, Sync, Dispatch, Updates (session/sends.go, subs.go,
  deliver.go, updateHandler): one TDLib update from the receiver goroutine
  through the snapshot of the subscriptions, the bounded queue, the writer and
  the registry to the signed POST with its retries. Updates are routed exactly
  to the subscriptions that accept them; one is queued, stored or counted as
  lost, or else went in one of the two ways an update is lost untold, which are
  named: its write failed, or its session was dropped, when the worker no longer
  held it; a worker's snapshots follow the registry; a queued delivery settles
  after at most ten attempts that are recorded; one session's updates touch no
  other session. The dispatcher's run has the steps of its peers in it, for the
  rows of any session or, where the count is at stake, of the others only.
- Secret (secret/secret.go): what was encrypted decrypts, under the same key.
- Auth, Gateway, RuleApi (router/router.go, limits.go), Api, Serving, Downloads
  (api/server.go, session/downloads.go): the endpoints; a scoped token reaches
  its sessions and nothing else, a request goes to the session's live owner, and
  what the gateway proxies the worker serves under the same route. The request
  is modelled as it arrives ([Gateway.at_worker]): the client's own identity
  header dropped, the authenticated one stated, and then the headers of the last
  hop removed, as the reverse proxy of net/http/httputil does last. A client that
  names the identity header in Connection thus arrives without one.
- Login (session/authorizer.go, manager.go): one login as an event machine over
  all interleavings of go-tdlib, submits, resends, timeouts and aborts, and of
  the writes of its status to the registry, each of which may fail.
- Worker, Loops, Manage, Retention (session/manager.go, deliver.go): a worker's
  reconciler, heartbeat and shutdown, the loops and waits around them, the
  creation and removal of accounts, and the periodic purge, which deletes nothing
  that is still needed. A worker's log tells when a client was opened, closed,
  its login aborted and its row released; a closing and an abort carry the
  registry of that moment, so that what happens before what can be stated.
- System: one call from the client through the gateway and the worker to TDLib,
  made of Auth, Gateway, Serving and Call. What reaches TDLib was asked for by
  someone entitled to it, at the session's live owner, and is not reserved.
- Failover, Fleet (session/manager.go, store/store.go): the workers together. A
  worker left alone by its peers has everything that can be reopened from disk
  within a number of rounds known beforehand. Any number of workers, their
  passes cut into statements and openings and interleaved in any way, with
  accounts created, workers started, stopped and lost in between: while
  heartbeats arrive in time no two have the same session in their hands. Run
  without interference the pieces are Worker's pass (lemma pass_alone).
- Obs (obs/obs.go), Duration, Entry (cmd/gateway, cmd/worker, cmd/smoke): telemetry, which
  changes nothing but where log lines go; time.ParseDuration with its float64
  fraction; the environment, the start and the stop of both processes, and the
  smoke test (cmd/smoke). A process that starts has a token or a key and a
  migrated database.

Conventions. Times are nanoseconds since the epoch in Z. Code that is not in
the repository is a parameter: [td_send] (or [td]) is TDLib's answer to a
request, [opens] what opening a client comes to, [clock] the clock's readings,
[up] whether a statement reaches PostgreSQL, [order] Go's random map order,
[fresh]/[rand] generated ids and random bytes, [quote] the %q verb on error
texts, [url_ok] url.Parse, [text] the JSON text of a tree, [time_text] a date's
text. Oracles are indexed by a tick, so two uses may answer differently. Stateful code
runs in a small state monad: [M] over [world] for one call (Admit, Call), [N] over [node]
for a worker (Worker, Manage); concurrent parts are step functions or relations
over events in any order (Login, Dispatch, Pipeline, Sends, Integrity).

Bounds and fuel. int32, int64 and time.Duration arithmetic wraps or is refused
where the code's does ([wrap64], [in_int32]). Fuel is the JSON depth in
[Sends.dec_srm], where the tree's own depth is enough (lemma dec_srm_enough there),
the length of the text in [Duration.parse_terms] (lemma parse_terms_fuel) and the
rounds of [Loops.waitLeave], of which timeout / 100 ms + 2 are enough (theorem
waitLeave_bounded); every other recursion is structural, and loops over ticks are
folds over any number of rounds.

Abstractions. Quota and retry arithmetic on floats (math.Pow, math.Min) is on
integers, exact in the range used. Generated uuids and upload ids are taken as
unused. In Schema a column's type is checked, an integer's range is left to Db, a
default computed by the server (now(), gen_random_uuid()) is never filled into
existing rows, which no version asks for, and an index is a name. A file system
write succeeds. The workers' clock zone is UTC in the purge's calendar
arithmetic. TDLib's typed update objects are an inductive type with the fields
the code reads.

In Fleet a step is one statement or one opening up to the call of NewClient,
whose reads of the registry are taken together; worker ids differ, a client ends
with its process. That a worker stops between two passes and takes on no account
after it was told to, and that a creation writes its owner, are conditions of the
theorem there, not of the steps: the code does not ensure them, and examples
straggler (Fleet) and owner_write_lost (Manage) show what happens without.

Not modelled, and why. Listening, signals and the draining of requests are
net/http's and the runtime's: Entry starts where serving begins and takes up at
the stop, with the time the draining took as a parameter. net/http's reverse
proxying of bodies and of headers other than the identity's (a worker's address
is taken to have no path of its own), its timeouts and logging wrappers. The
OpenTelemetry SDK is a parameter of Obs. The tickers themselves: Loops runs their
bodies any number of times. The web UI, Docker files and documents hold no logic
of the program.
*)

From Stdlib Require Export Ascii String ZArith Lia.
From stdpp Require Export base tactics list gmap strings pretty fin_maps sets sorting relations.

(** * Results of fallible operations

    Go's [(value, error)] pairs: an operation returns either its value or an
    error value, never both in the code modelled here. *)

Inductive res (E A : Type) : Type :=
| Ok (a : A)
| Err (e : E).
Arguments Ok {E A} _.
Arguments Err {E A} _.

Definition res_bind {E A B : Type} (r : res E A) (f : A → res E B) : res E B :=
  match r with
  | Ok a => f a
  | Err e => Err e
  end.

Declare Scope tg_scope.
Delimit Scope tg_scope with tg.
Notation "'let!' x := c1 'in' c2" := (res_bind c1 (λ x, c2))
  (at level 10, x pattern, c1 at level 100, c2 at level 200) : tg_scope.
Open Scope tg_scope.

Lemma res_bind_ok {E A B : Type} (r : res E A) (f : A → res E B) (b : B) :
  res_bind r f = Ok b ↔ ∃ a, r = Ok a ∧ f a = Ok b.
Proof. destruct r; simpl; split; [eauto|by intros (?&[= ->]&?)|done|by intros (?&[=]&?)]. Qed.

Lemma res_bind_err {E A B : Type} (r : res E A) (f : A → res E B) (e : E) :
  res_bind r f = Err e ↔ r = Err e ∨ ∃ a, r = Ok a ∧ f a = Err e.
Proof.
  destruct r; simpl; split; eauto.
  - by intros [[=]|(?&[= ->]&?)].
  - intros [= ->]. by left.
  - by intros [[= ->]|(?&[=]&?)].
Qed.

(** * Machine integers *)

(** A Go [int64] operation that overflows wraps around in two's complement. *)
Definition wrap64 (z : Z) : Z :=
  ((z + 2 ^ 63) mod 2 ^ 64 - 2 ^ 63)%Z.

Definition in_int64 (z : Z) : bool := ((- 2 ^ 63 <=? z) && (z <? 2 ^ 63))%Z.
Definition in_int32 (z : Z) : bool := ((- 2 ^ 31 <=? z) && (z <? 2 ^ 31))%Z.

Lemma wrap64_id (z : Z) : (- 2 ^ 63 <= z < 2 ^ 63)%Z → wrap64 z = z.
Proof. intros H. unfold wrap64. rewrite Z.mod_small; lia. Qed.

Lemma wrap64_range (z : Z) : (- 2 ^ 63 <= wrap64 z < 2 ^ 63)%Z.
Proof.
  unfold wrap64. pose proof (Z.mod_pos_bound (z + 2 ^ 63) (2 ^ 64)). lia.
Qed.

Lemma in_int64_spec (z : Z) : in_int64 z = true ↔ (- 2 ^ 63 <= z < 2 ^ 63)%Z.
Proof. unfold in_int64. rewrite andb_true_iff, Z.leb_le, Z.ltb_lt. done. Qed.

Lemma in_int32_spec (z : Z) : in_int32 z = true ↔ (- 2 ^ 31 <= z < 2 ^ 31)%Z.
Proof. unfold in_int32. rewrite andb_true_iff, Z.leb_le, Z.ltb_lt. done. Qed.

(** Conversion to a Go [int32] keeps the low 32 bits. *)
Definition wrap32 (z : Z) : Z :=
  ((z + 2 ^ 31) mod 2 ^ 32 - 2 ^ 31)%Z.

Lemma wrap32_id (z : Z) : (- 2 ^ 31 <= z < 2 ^ 31)%Z → wrap32 z = z.
Proof. intros H. unfold wrap32. rewrite Z.mod_small; lia. Qed.

(** * Time

    A [time.Time] is the number of nanoseconds since the Unix epoch, a
    [time.Duration] a number of nanoseconds. *)

Definition nanosecond : Z := 1.
Definition millisecond : Z := 10 ^ 6.
Definition second : Z := 10 ^ 9.
Definition minute : Z := 60 * second.
Definition hour : Z := 60 * minute.
Definition day : Z := 24 * hour.

(** The zero [time.Time] is January 1 of the year 1, 00:00 UTC. *)
Definition zero_time : Z := -62135596800 * second.

(** [t.Sub(u)]: the difference, saturated at the ends of [int64]. *)
Definition time_sub (t u : Z) : Z :=
  Z.max (- 2 ^ 63) (Z.min (2 ^ 63 - 1) (t - u)).

Lemma time_sub_small (t u : Z) :
  (- 2 ^ 63 <= t - u < 2 ^ 63)%Z → time_sub t u = (t - u)%Z.
Proof. unfold time_sub. lia. Qed.

(** * Shared automation *)

(** Turns boolean tests in the hypotheses and the goal into propositions. *)
Ltac bool_props :=
  repeat match goal with
  | H : context [andb _ _ = true] |- _ => rewrite andb_true_iff in H
  | H : context [andb _ _ = false] |- _ => rewrite andb_false_iff in H
  | H : context [orb _ _ = true] |- _ => rewrite orb_true_iff in H
  | H : context [orb _ _ = false] |- _ => rewrite orb_false_iff in H
  | H : context [negb _ = true] |- _ => rewrite negb_true_iff in H
  | H : context [negb _ = false] |- _ => rewrite negb_false_iff in H
  | H : context [(_ <=? _)%Z = true] |- _ => rewrite Z.leb_le in H
  | H : context [(_ <=? _)%Z = false] |- _ => rewrite Z.leb_gt in H
  | H : context [(_ <? _)%Z = true] |- _ => rewrite Z.ltb_lt in H
  | H : context [(_ <? _)%Z = false] |- _ => rewrite Z.ltb_ge in H
  | H : context [(_ =? _)%Z = true] |- _ => rewrite Z.eqb_eq in H
  | H : context [(_ =? _)%Z = false] |- _ => rewrite Z.eqb_neq in H
  | H : context [(_ <=? _)%nat = true] |- _ => rewrite Nat.leb_le in H
  | H : context [(_ <=? _)%nat = false] |- _ => rewrite Nat.leb_gt in H
  | H : context [(_ <? _)%nat = true] |- _ => rewrite Nat.ltb_lt in H
  | H : context [(_ <? _)%nat = false] |- _ => rewrite Nat.ltb_ge in H
  | H : context [(_ =? _)%nat = true] |- _ => rewrite Nat.eqb_eq in H
  | H : context [(_ =? _)%nat = false] |- _ => rewrite Nat.eqb_neq in H
  | H : context [String.eqb _ _ = true] |- _ => rewrite String.eqb_eq in H
  | H : context [String.eqb _ _ = false] |- _ => rewrite String.eqb_neq in H
  | |- context [andb _ _ = true] => rewrite andb_true_iff
  | |- context [andb _ _ = false] => rewrite andb_false_iff
  | |- context [orb _ _ = true] => rewrite orb_true_iff
  | |- context [orb _ _ = false] => rewrite orb_false_iff
  | |- context [negb _ = true] => rewrite negb_true_iff
  | |- context [negb _ = false] => rewrite negb_false_iff
  | |- context [(_ <=? _)%Z = true] => rewrite Z.leb_le
  | |- context [(_ <? _)%Z = true] => rewrite Z.ltb_lt
  | |- context [(_ =? _)%Z = true] => rewrite Z.eqb_eq
  | |- context [String.eqb _ _ = true] => rewrite String.eqb_eq
  | |- context [String.eqb _ _ = false] => rewrite String.eqb_neq
  end.

(** Splits on the outermost scrutinee of a match or if in the goal. *)
Ltac split_match :=
  match goal with
  | |- context [match ?x with _ => _ end] =>
      lazymatch x with
      | context [match _ with _ => _ end] => fail
      | _ => let E := fresh "Em" in destruct x eqn:E
      end
  end.

Ltac split_matches := repeat (split_match; simpl in *; try done).

(** Case analysis on the match inside a hypothesis, discarding absurd cases. *)
Ltac split_match_in H :=
  match type of H with
  | context [match ?x with _ => _ end] =>
      lazymatch x with
      | context [match _ with _ => _ end] => fail
      | _ => let E := fresh "Em" in destruct x eqn:E
      end
  end.

Ltac split_matches_in H := repeat (split_match_in H; simpl in *; simplify_eq).

(** * Lists *)

(** Keeps the first occurrence of each key of an association list's last
    binding: a Go map literal or decoded object, later keys win. *)
Definition last_binding {A : Type} (k : string) (kvs : list (string * A)) : option A :=
  foldl (λ acc kv, if String.eqb kv.1 k then Some kv.2 else acc) None kvs.

Lemma foldl_snoc {A B : Type} (f : A → B → A) (a : A) (l : list B) (b : B) :
  foldl f a (l ++ [b]) = f (foldl f a l) b.
Proof. by rewrite foldl_app. Qed.

Lemma last_binding_in {A : Type} (k : string) (kvs : list (string * A)) (a : A) :
  last_binding k kvs = Some a → (k, a) ∈ kvs.
Proof.
  unfold last_binding. revert a. induction kvs as [|[k' b] kvs IH] using rev_ind; [done|].
  intros a. rewrite foldl_snoc. simpl. rewrite elem_of_app, list_elem_of_singleton.
  destruct (String.eqb_spec k' k) as [->|]; [intros [= ->]; by right|left; by apply IH].
Qed.

(** A filter that keeps everything. *)
Lemma filter_all {A : Type} (P : A → Prop) `{!∀ x, Decision (P x)} (l : list A) :
  Forall P l → filter P l = l.
Proof.
  induction 1; [done|]. rewrite filter_cons_True by done. by f_equal.
Qed.

Lemma filter_none {A : Type} (P : A → Prop) `{!∀ x, Decision (P x)} (l : list A) :
  Forall (λ x, ¬ P x) l → filter P l = [].
Proof. induction 1; [done|]. by rewrite filter_cons_False. Qed.

Lemma take_subseteq {A : Type} (n : nat) (l : list A) : take n l ⊆ l.
Proof. intros x (i&Hi&_)%elem_of_take. by eapply list_elem_of_lookup_2. Qed.

Lemma NoDup_take {A : Type} (n : nat) (l : list A) : NoDup l → NoDup (take n l).
Proof. intros H. rewrite <- (take_drop n l) in H. by apply NoDup_app in H as [? _]. Qed.

(** Invariants of a run: a predicate preserved by each step of a list of
    operations holds after all of them. *)
Lemma foldl_inv {S Op : Type} (step : S → Op → S) (I : S → Prop) (ops : list Op) (s : S) :
  (∀ s op, op ∈ ops → I s → I (step s op)) → I s → I (foldl step s ops).
Proof.
  revert s. induction ops as [|op ops IH]; intros s Hstep Hs; simpl; [done|].
  apply IH.
  - intros s' op' Hop. apply Hstep. by apply list_elem_of_further.
  - apply Hstep; [apply list_elem_of_here|done].
Qed.

(** A measure that no step of a run decreases. *)
Lemma foldl_mono {S Op : Type} (step : S → Op → S) (m : S → Z) (ops : list Op) (s : S) :
  (∀ s op, (m s <= m (step s op))%Z) → (m s <= m (foldl step s ops))%Z.
Proof.
  revert s. induction ops as [|op ops IH]; intros s Hm; simpl; [lia|].
  specialize (IH (step s op) Hm). specialize (Hm s op). lia.
Qed.

Create HintDb tg.
#[export] Hint Resolve wrap64_id wrap32_id time_sub_small : tg.
