(* ===== verification/GoStr.v ===== *)
(** Go strings and paths: the functions of the [strings], [strconv], [path]
    and [path/filepath] packages the program uses, on byte strings, with the
    lemmas the components share. *)

From S2P Require Import Prelude.

#[global] Arguments String.append : simpl nomatch.

(** * Substrings *)

(** [s[n:]] for [n] within the string. *)
Fixpoint sdrop (n : nat) (s : string) : string :=
  match n, s with
  | O, _ => s
  | S n, String _ s' => sdrop n s'
  | S _, EmptyString => EmptyString
  end.

(** [s[:n]] for [n] within the string. *)
Fixpoint stake (n : nat) (s : string) : string :=
  match n, s with
  | O, _ => EmptyString
  | S n, String c s' => String c (stake n s')
  | S _, EmptyString => EmptyString
  end.

(** [strings.HasPrefix(s, p)]. *)
Definition has_prefix (s p : string) : bool := String.prefix p s.
#[global] Arguments has_prefix : simpl never.

(** [strings.CutPrefix(s, p)]. *)
Definition cut_prefix (s p : string) : option string :=
  if has_prefix s p then Some (sdrop (String.length p) s) else None.

(** [strings.TrimPrefix(s, p)]. *)
Definition trim_prefix (s p : string) : string :=
  default s (cut_prefix s p).

(** [strings.Index(s, sub)], [None] for -1. *)
Fixpoint sindex (s sub : string) : option nat :=
  if has_prefix s sub then Some O
  else match s with
       | EmptyString => None
       | String _ s' => S <$> sindex s' sub
       end.

(** [strings.LastIndex(s, sub)], [None] for -1. *)
Fixpoint slast_index (s sub : string) : option nat :=
  match s with
  | EmptyString => if has_prefix s sub then Some O else None
  | String _ s' =>
      match slast_index s' sub with
      | Some i => Some (S i)
      | None => if has_prefix s sub then Some O else None
      end
  end.

(** [strings.Contains(s, sub)]. *)
Definition scontains (s sub : string) : bool :=
  match sindex s sub with Some _ => true | None => false end.

(** [strings.ContainsAny(s, chars)] for single-byte [chars]. *)
Fixpoint any_char (P : ascii → bool) (s : string) : bool :=
  match s with
  | EmptyString => false
  | String c s' => P c || any_char P s'
  end.

(** [strings.Split(s, sep)] for a single-byte separator. *)
Fixpoint ssplit (sep : ascii) (s : string) : list string :=
  match s with
  | EmptyString => [""]
  | String c s' =>
      if Ascii.eqb c sep then "" :: ssplit sep s'
      else match ssplit sep s' with
           | [] => [String c ""]
           | w :: ws => String c w :: ws
           end
  end.

(** [strings.Join(l, sep)]. *)
Fixpoint sjoin (sep : string) (l : list string) : string :=
  match l with
  | [] => ""
  | [w] => w
  | w :: ws => w +:+ sep +:+ sjoin sep ws
  end.

(** Drops leading bytes satisfying [P]. *)
Fixpoint drop_while (P : ascii → bool) (s : string) : string :=
  match s with
  | String c s' => if P c then drop_while P s' else s
  | EmptyString => EmptyString
  end.

(** [strings.Trim(s, c)] for one byte. *)
Definition strim (P : ascii → bool) (s : string) : string :=
  String.rev (drop_while P (String.rev (drop_while P s))).

(** * White space

    [strings.TrimSpace] drops leading and trailing Unicode white space. The
    UTF-8 encodings of all white space runes are listed; the encoding is
    self-synchronizing, so a rune ends a string iff its bytes do. *)

Definition bytes (l : list nat) : string :=
  String.string_of_list_ascii (Ascii.ascii_of_nat <$> l).

Definition space_runes : list string :=
  (bytes <$> [[9]; [10]; [11]; [12]; [13]; [32]; [194; 133]; [194; 160];
              [225; 154; 128]; [226; 128; 168]; [226; 128; 169];
              [226; 128; 175]; [226; 129; 159]; [227; 128; 128]])%nat ++
  ((λ n, bytes [226; 128; n]) <$> seq 128 11).

Fixpoint first_space (l : list string) (s : string) : option string :=
  match l with
  | [] => None
  | r :: l => match cut_prefix s r with Some s' => Some s' | None => first_space l s end
  end.

Fixpoint trim_left_space (fuel : nat) (runes : list string) (s : string) : string :=
  match fuel with
  | O => s
  | S fuel => match first_space runes s with
              | Some s' => trim_left_space fuel runes s'
              | None => s
              end
  end.

(** [strings.TrimSpace]. The fuel is the string's length: a round that goes on
    drops at least one byte. *)
Definition trim_space (s : string) : string :=
  let s1 := trim_left_space (String.length s) space_runes s in
  String.rev (trim_left_space (String.length s1) (String.rev <$> space_runes) (String.rev s1)).

(** * Decimal numbers *)

Definition digit_val (c : ascii) : option Z :=
  let n := Z.of_nat (Ascii.nat_of_ascii c) in
  if ((48 <=? n) && (n <=? 57))%Z then Some (n - 48)%Z else None.

Fixpoint digits_val (acc : Z) (s : string) : option Z :=
  match s with
  | EmptyString => Some acc
  | String c s' => d ← digit_val c; digits_val (10 * acc + d)%Z s'
  end.

(** [strconv.Atoi] and [strconv.ParseInt(s, 10, 64)]: an optional sign and at
    least one decimal digit, within [int64]; [None] is any parse error. *)
Definition atoi (s : string) : option Z :=
  let '(sign, ds) :=
    match cut_prefix s "-", cut_prefix s "+" with
    | Some s', _ => ((-1)%Z, s')
    | _, Some s' => (1%Z, s')
    | _, _ => (1%Z, s)
    end in
  if String.eqb ds "" then None
  else n ← digits_val 0 ds;
       if in_int64 (sign * n) then Some (sign * n)%Z else None.

(** [strconv.Itoa], [strconv.FormatInt(_, 10)] and the [%d] verb. *)
Definition itoa (z : Z) : string := pretty z.

(** * Paths *)

Definition is_slash (c : ascii) : bool := Ascii.eqb c "/".

Definition comps_step (rooted : bool) (acc : list string) (w : string) : list string :=
  if String.eqb w "" || String.eqb w "." then acc
  else if String.eqb w ".." then
    match acc with
    | [] => if rooted then [] else [".."]
    | x :: acc' => if String.eqb x ".." then ".." :: acc else acc'
    end
  else w :: acc.

(** The components of a path after lexical processing: empty and [.]
    components go, [..] eats the component before it, and at the root it goes
    too. *)
Definition clean_comps (p : string) : list string :=
  rev (foldl (comps_step (has_prefix p "/")) [] (ssplit "/" p)).

(** [path/filepath.Clean] on Unix. *)
Definition path_clean (p : string) : string :=
  let cs := clean_comps p in
  if has_prefix p "/" then "/" +:+ sjoin "/" cs
  else match cs with [] => "." | _ => sjoin "/" cs end.

(** [path/filepath.Join(a, b)] on Unix. *)
Definition path_join (a b : string) : string :=
  match a, b with
  | EmptyString, EmptyString => ""
  | EmptyString, _ => path_clean b
  | _, EmptyString => path_clean a
  | _, _ => path_clean (a +:+ "/" +:+ b)
  end.

(** The text up to and including the last slash. *)
Definition up_to_slash (p : string) : string :=
  String.rev (drop_while (λ c, negb (is_slash c)) (String.rev p)).

(** [path/filepath.Dir] on Unix: the path without its last element, cleaned. *)
Definition path_dir (p : string) : string := path_clean (up_to_slash p).

(** [path.Base]. *)
Definition path_base (p : string) : string :=
  if String.eqb p "" then "."
  else
    let p1 := String.rev (drop_while is_slash (String.rev p)) in
    let p2 := sdrop (String.length (up_to_slash p1)) p1 in
    if String.eqb p2 "" then "/" else p2.

(** * Lemmas *)

Lemma prefix_app (p s : string) : String.prefix p (p +:+ s) = true.
Proof.
  induction p as [|c p IH]; simpl; [by destruct s|].
  by destruct (Ascii.ascii_dec c c).
Qed.

Lemma prefix_inv (p s : string) : String.prefix p s = true → ∃ t, s = p +:+ t.
Proof.
  revert s. induction p as [|c p IH]; intros s; simpl; [by exists s|].
  destruct s as [|d s]; simpl; [by intros|].
  destruct (Ascii.ascii_dec c d) as [->|]; [|by intros].
  intros (t&->)%IH. by exists t.
Qed.

Lemma has_prefix_spec (s p : string) : has_prefix s p = true ↔ ∃ t, s = p +:+ t.
Proof. split; [apply prefix_inv|]. intros (t&->). apply prefix_app. Qed.

Lemma sdrop_app (p s : string) : sdrop (String.length p) (p +:+ s) = s.
Proof. by induction p. Qed.

Lemma cut_prefix_app (p s : string) : cut_prefix (p +:+ s) p = Some s.
Proof. unfold cut_prefix, has_prefix. by rewrite prefix_app, sdrop_app. Qed.

Lemma cut_prefix_some (s p t : string) : cut_prefix s p = Some t ↔ s = p +:+ t.
Proof.
  split; [|intros ->; apply cut_prefix_app].
  unfold cut_prefix. destruct (has_prefix s p) eqn:E; [|done].
  apply has_prefix_spec in E as (u&->). intros [= <-]. by rewrite sdrop_app.
Qed.

Lemma app_assoc_s (a b c : string) : (a +:+ b) +:+ c = a +:+ (b +:+ c).
Proof. induction a; simpl; f_equal; done. Qed.

Lemma app_nil_r_s (a : string) : a +:+ "" = a.
Proof. induction a; simpl; congruence. Qed.

Lemma length_app_s (a b : string) :
  String.length (a +:+ b) = (String.length a + String.length b)%nat.
Proof. induction a; simpl; congruence. Qed.

Lemma stake_app (p s : string) : stake (String.length p) (p +:+ s) = p.
Proof. induction p; simpl; [by destruct s|congruence]. Qed.

Lemma stake_sdrop (n : nat) (s : string) : stake n s +:+ sdrop n s = s.
Proof. revert s. induction n; intros [|c s]; simpl; [done..|]. by rewrite IHn. Qed.

Lemma length_stake (n : nat) (s : string) :
  String.length (stake n s) = Nat.min n (String.length s).
Proof. revert s. induction n; intros [|c s]; simpl; [done..|]. by rewrite IHn. Qed.

Lemma has_prefix_app_r (s t p : string) : has_prefix s p = true → has_prefix (s +:+ t) p = true.
Proof.
  rewrite !has_prefix_spec. intros (u&->). exists (u +:+ t). apply app_assoc_s.
Qed.

Lemma scontains_prefix (s sub : string) : has_prefix s sub = true → scontains s sub = true.
Proof. unfold scontains. intros H. destruct s; simpl in *; by rewrite H. Qed.

Lemma scontains_cons (c : ascii) (s sub : string) :
  scontains s sub = true → scontains (String c s) sub = true.
Proof.
  unfold scontains. simpl.
  destruct (has_prefix (String c s) sub), (sindex s sub); by simpl.
Qed.

Lemma scontains_app (a sub b : string) : scontains (a +:+ sub +:+ b) sub = true.
Proof.
  induction a; simpl; [|by apply scontains_cons].
  apply scontains_prefix. apply prefix_app.
Qed.

(** [sindex] finds an occurrence, and [scontains] decides whether one exists. *)
Lemma sindex_some (s sub : string) (i : nat) :
  sindex s sub = Some i → s = stake i s +:+ sub +:+ sdrop (i + String.length sub) s.
Proof.
  revert i. induction s as [|c s IH]; intros i; simpl.
  - destruct (has_prefix "" sub) eqn:E; [|done]. intros [= <-].
    apply has_prefix_spec in E as (t&E). destruct sub; [done|discriminate].
  - destruct (has_prefix (String c s) sub) eqn:E.
    + intros [= <-]. apply has_prefix_spec in E as (t&E). simpl. rewrite E.
      by rewrite sdrop_app.
    + destruct (sindex s sub) eqn:Ei; simpl; [|done]. intros [= <-]. simpl.
      f_equal. by apply IH.
Qed.

Lemma scontains_spec (s sub : string) :
  scontains s sub = true ↔ ∃ a b, s = a +:+ sub +:+ b.
Proof.
  split.
  - unfold scontains. destruct (sindex s sub) as [i|] eqn:E; [|done]. intros _.
    eexists _, _. by apply sindex_some.
  - intros (a&b&->). apply scontains_app.
Qed.

Lemma slast_index_some (s sub : string) (i : nat) :
  slast_index s sub = Some i → s = stake i s +:+ sub +:+ sdrop (i + String.length sub) s.
Proof.
  revert i. induction s as [|c s IH]; intros i; simpl.
  - destruct (has_prefix "" sub) eqn:E; [|done]. intros [= <-].
    apply has_prefix_spec in E as (t&E). destruct sub; [done|discriminate].
  - destruct (slast_index s sub) as [j|] eqn:Ej.
    + intros [= <-]. simpl. f_equal. by apply IH.
    + destruct (has_prefix (String c s) sub) eqn:E; [|done]. intros [= <-].
      apply has_prefix_spec in E as (t&E). rewrite E. simpl. by rewrite sdrop_app.
Qed.

Lemma slast_index_none (s sub : string) : slast_index s sub = None ↔ scontains s sub = false.
Proof.
  induction s as [|c s IH]; simpl.
  - unfold scontains. simpl. by destruct (has_prefix "" sub).
  - unfold scontains in *. simpl.
    destruct (has_prefix (String c s) sub), (slast_index s sub), (sindex s sub);
      simpl in *; split; intros; try done; destruct IH as [IH1 IH2];
      first [by specialize (IH1 eq_refl) | by specialize (IH2 eq_refl)].
Qed.

(** Nothing after the last occurrence's start begins another. *)
Lemma slast_index_app (a sub b : string) :
  (∀ n, (0 < n)%nat → has_prefix (sdrop n (sub +:+ b)) sub = false) → sub ≠ "" →
  slast_index (a +:+ sub +:+ b) sub = Some (String.length a).
Proof.
  intros Hn Hne. induction a as [|c a IH]; simpl; [|by rewrite IH].
  assert (Hnone : ∀ s m, s = sdrop (S m) (sub +:+ b) → slast_index s sub = None).
  { induction s as [|c s IHs]; intros m Hs; simpl.
    - destruct sub; [done|]. done.
    - erewrite (IHs (S m)).
      + rewrite Hs, Hn by lia. done.
      + clear -Hs. revert m Hs. generalize (sub +:+ b). intros t.
        induction t as [|d t IHt]; intros m; simpl; [by destruct m|].
        destruct m; simpl; [by intros <-|]. apply IHt. }
  destruct (sub +:+ b) as [|c s] eqn:E; [by destruct sub|]. simpl.
  assert (Hp : has_prefix (String c s) sub = true) by (rewrite <- E; apply prefix_app).
  by rewrite (Hnone s 0%nat), Hp.
Qed.

(** ** Splitting and joining *)

Lemma ssplit_nonempty (sep : ascii) (s : string) : ssplit sep s ≠ [].
Proof. destruct s; simpl; [done|]. destruct (Ascii.eqb _ _); [done|]. by destruct (ssplit _ _). Qed.

(** No byte of the string is [c]. *)
Definition no_char (c : ascii) (s : string) : Prop := any_char (Ascii.eqb c) s = false.

Lemma no_char_cons (c d : ascii) (s : string) : no_char c (String d s) ↔ c ≠ d ∧ no_char c s.
Proof. unfold no_char. simpl. rewrite orb_false_iff, Ascii.eqb_neq. done. Qed.

Lemma ssplit_no_char (sep : ascii) (s : string) : Forall (no_char sep) (ssplit sep s).
Proof.
  induction s as [|c s IH]; simpl; [by repeat constructor|].
  destruct (Ascii.eqb_spec c sep) as [->|Hne]; [by constructor|].
  pose proof (ssplit_nonempty sep s). destruct (ssplit sep s) as [|w ws]; [done|].
  inversion IH; subst. constructor; [|done]. by rewrite no_char_cons.
Qed.

Lemma ssplit_app (sep : ascii) (a b : string) :
  no_char sep a → ssplit sep (a +:+ String sep b) = a :: ssplit sep b.
Proof.
  induction a as [|c a IH]; simpl; intros Ha.
  - by rewrite Ascii.eqb_refl.
  - apply no_char_cons in Ha as [Hne Ha]. rewrite IH by done.
    destruct (Ascii.eqb_spec c sep); [congruence|done].
Qed.

Lemma ssplit_single (sep : ascii) (a : string) : no_char sep a → ssplit sep a = [a].
Proof.
  induction a as [|c a IH]; simpl; intros Ha; [done|].
  apply no_char_cons in Ha as [Hne Ha]. rewrite IH by done.
  destruct (Ascii.eqb_spec c sep); [congruence|done].
Qed.

(** Splitting a join gives the words back when none holds the separator. *)
Lemma ssplit_sjoin (sep : ascii) (l : list string) :
  l ≠ [] → Forall (no_char sep) l → ssplit sep (sjoin (String sep "") l) = l.
Proof.
  intros Hne Hl. induction Hl as [|w ws Hw Hws IH]; [done|]. simpl.
  destruct ws as [|w' ws]; [by apply ssplit_single|].
  simpl. rewrite ssplit_app by done. f_equal. by apply IH.
Qed.

Lemma sjoin_inj (sep : ascii) (l1 l2 : list string) :
  l1 ≠ [] → l2 ≠ [] → Forall (no_char sep) l1 → Forall (no_char sep) l2 →
  sjoin (String sep "") l1 = sjoin (String sep "") l2 → l1 = l2.
Proof.
  intros Hn1 Hn2 H1 H2 Heq.
  by rewrite <- (ssplit_sjoin sep l1), <- (ssplit_sjoin sep l2), Heq.
Qed.

Lemma sjoin_ssplit (sep : ascii) (s : string) : sjoin (String sep "") (ssplit sep s) = s.
Proof.
  induction s as [|c s IH]; simpl; [done|].
  pose proof (ssplit_nonempty sep s).
  destruct (Ascii.eqb_spec c sep) as [->|]; simpl;
    destruct (ssplit sep s) as [|w [|w' ws]]; simpl in *; congruence.
Qed.

Lemma no_char_app (c : ascii) (a b : string) :
  no_char c (a +:+ b) ↔ no_char c a ∧ no_char c b.
Proof.
  unfold no_char. induction a as [|d a IH]; simpl; [naive_solver|].
  rewrite !orb_false_iff, IH. naive_solver.
Qed.

(** The unsplit text before the first separator is determined. *)
Lemma app_sep_inj (sep : ascii) (a b c d : string) :
  no_char sep a → no_char sep c →
  a +:+ String sep b = c +:+ String sep d → a = c ∧ b = d.
Proof.
  revert c. induction a as [|x a IH]; intros [|y c] Ha Hc; simpl.
  - by intros [= ->].
  - intros [= <- _]. by apply no_char_cons in Hc as [? _].
  - intros [= -> _]. by apply no_char_cons in Ha as [? _].
  - apply no_char_cons in Ha as [_ Ha]. apply no_char_cons in Hc as [_ Hc].
    intros [= -> Heq]. destruct (IH c Ha Hc Heq) as [-> ->]. done.
Qed.

#[export] Hint Resolve prefix_app cut_prefix_app scontains_app ssplit_no_char : tg.
