(* ===== verification/Json.v ===== *)
(** JSON values and Go's [encoding/json] decoding, as far as the program uses
    them: a raw message is a decoded tree, and each decoder says what Go stores
    in a target of a given type and whether [Unmarshal] reports an error.

    Two facts of [encoding/json] shape the decoders. Struct fields are matched
    to object keys regardless of case, and every matching key is stored in
    turn, so the last one wins. A value of the wrong type is skipped, decoding
    goes on, and the error is reported at the end. *)

From S2P Require Import Prelude GoStr.


Inductive json : Type :=
| JNull
| JBool (b : bool)
| JNum (z : Z)            (* a number written as an integer *)
| JLit (s : string)       (* a number with a fraction or an exponent *)
| JStr (s : string)
| JArr (l : list json)
| JObj (kvs : list (string * json)).

(** Induction over nested values. *)
Section json_ind.
Variable P : json → Prop.
Hypothesis Hnull : P JNull.
Hypothesis Hbool : ∀ b, P (JBool b).
Hypothesis Hnum : ∀ z, P (JNum z).
Hypothesis Hlit : ∀ s, P (JLit s).
Hypothesis Hstr : ∀ s, P (JStr s).
Hypothesis Harr : ∀ l, Forall P l → P (JArr l).
Hypothesis Hobj : ∀ kvs, Forall (λ kv, P kv.2) kvs → P (JObj kvs).

Fixpoint json_ind' (v : json) : P v :=
  match v with
  | JNull => Hnull
  | JBool b => Hbool b
  | JNum z => Hnum z
  | JLit s => Hlit s
  | JStr s => Hstr s
  | JArr l => Harr l ((fix go l : Forall P l :=
      match l with
      | [] => Forall_nil_2 P
      | x :: l => Forall_cons_2 P x l (json_ind' x) (go l)
      end) l)
  | JObj kvs => Hobj kvs ((fix go l : Forall (λ kv, P kv.2) l :=
      match l with
      | [] => Forall_nil_2 _
      | x :: l => Forall_cons_2 _ x l (json_ind' x.2) (go l)
      end) kvs)
  end.
End json_ind.

(** A [json.RawMessage]: [None] is the empty one. The program only ever holds
    messages that are empty or were produced by a decoder or an encoder, so a
    non-empty message is a well-formed value. *)
Abbreviation raw := (option json).

(** * Field names *)

Definition fold_ascii (c : ascii) : ascii :=
  let n := Ascii.nat_of_ascii c in
  if ((65 <=? n) && (n <=? 90))%nat then Ascii.ascii_of_nat (n + 32) else c.

(** Go folds keys with Unicode simple folding: among all runes only the Kelvin
    sign (bytes 226 132 170) and the long s (197 191) fold to ASCII letters. *)
Fixpoint fold_key_go (fuel : nat) (s : string) : string :=
  match fuel with
  | O => EmptyString
  | S fuel =>
      match cut_prefix s (bytes [226; 132; 170]%nat) with
      | Some s' => String "k" (fold_key_go fuel s')
      | None =>
          match cut_prefix s (bytes [197; 191]%nat) with
          | Some s' => String "s" (fold_key_go fuel s')
          | None => match s with
                    | EmptyString => EmptyString
                    | String c s' => String (fold_ascii c) (fold_key_go fuel s')
                    end
          end
      end
  end.

Definition fold_key (s : string) : string := fold_key_go (String.length s) s.

(** Does an object key name the struct field [name]? *)
Definition names (k name : string) : bool := String.eqb (fold_key k) (fold_key name).

(** * Decoders *)

(** What decoding stores, and whether no type error was met. *)
Definition dec (A : Type) : Type := A → json → A * bool.

Definition dec_int64 : dec Z := λ old v,
  match v with
  | JNum z => if in_int64 z then (z, true) else (old, false)
  | JNull => (old, true)
  | _ => (old, false)
  end.

Definition dec_int32 : dec Z := λ old v,
  match v with
  | JNum z => if in_int32 z then (z, true) else (old, false)
  | JNull => (old, true)
  | _ => (old, false)
  end.

Definition dec_bool : dec bool := λ old v,
  match v with
  | JBool b => (b, true)
  | JNull => (old, true)
  | _ => (old, false)
  end.

Definition dec_string : dec string := λ old v,
  match v with
  | JStr s => (s, true)
  | JNull => (old, true)
  | _ => (old, false)
  end.

(** Into a [json.RawMessage]: anything, null included. *)
Definition dec_raw : dec raw := λ _ v, (Some v, true).

(** Into a [[]json.RawMessage]; null empties it. *)
Definition dec_raw_list : dec (list json) := λ old v,
  match v with
  | JArr l => (l, true)
  | JNull => ([], true)
  | _ => (old, false)
  end.

(** Into a pointer [*T]: null clears it, anything else decodes into the value
    it points to, a zero one when it was nil. *)
Definition dec_ptr {A : Type} (zero : A) (d : dec A) : dec (option A) := λ old v,
  match v with
  | JNull => (None, true)
  | _ => let r := d (default zero old) v in (Some r.1, r.2)
  end.

(** Into a slice [[]T]: element [i] decodes into what index [i] of the slice
    held before, a zero value past its end. *)
Fixpoint dec_elems {A : Type} (zero : A) (d : dec A) (olds : list A) (vs : list json)
    : list A * bool :=
  match vs with
  | [] => ([], true)
  | v :: vs =>
      let r := d (default zero (head olds)) v in
      let rs := dec_elems zero d (tail olds) vs in
      (r.1 :: rs.1, r.2 && rs.2)
  end.

Definition dec_list {A : Type} (zero : A) (d : dec A) : dec (list A) := λ old v,
  match v with
  | JArr l => dec_elems zero d old l
  | JNull => ([], true)
  | _ => (old, false)
  end.

(** Into a struct: [set k] decodes one object entry into the struct. *)
Definition dec_struct {A : Type} (set : string → dec A) : dec A := λ old v,
  match v with
  | JObj kvs => foldl (λ r kv, let r' := set kv.1 r.1 kv.2 in (r'.1, r.2 && r'.2)) (old, true) kvs
  | JNull => (old, true)
  | _ => (old, false)
  end.

(** [json.Unmarshal(raw, &dst)]: an empty message is a syntax error. *)
Definition unmarshal {A : Type} (d : dec A) (zero : A) (r : raw) : A * bool :=
  match r with
  | None => (zero, false)
  | Some v => d zero v
  end.

(** The decoded struct when [Unmarshal] succeeds. *)
Definition unmarshal_ok {A : Type} (d : dec A) (zero : A) (r : raw) : option A :=
  let x := unmarshal d zero r in if x.2 then Some x.1 else None.

(** * Objects as Go maps *)

(** Into a [map[string]json.RawMessage]: keys are exact, later ones win. *)
Definition obj_map (kvs : list (string * json)) : gmap string json :=
  foldl (λ m kv, <[kv.1 := kv.2]> m) ∅ kvs.

(** [json.Unmarshal(raw, &m)] for such a map: [None] is an error. *)
Definition unmarshal_map (r : raw) : option (gmap string json) :=
  match r with
  | Some (JObj kvs) => Some (obj_map kvs)
  | Some JNull => Some ∅
  | _ => None
  end.

(** The object a Go map marshals to: its keys in byte order. *)
Definition le_key : relation (string * json) := λ x y, String.le x.1 y.1.
#[export] Instance le_key_dec : RelDecision le_key.
Proof. intros x y. unfold le_key. apply _. Defined.

Definition marshal_map (m : gmap string json) : json :=
  JObj (merge_sort le_key (map_to_list m)).

(** * Lemmas *)

Lemma foldl_insert_lookup (kvs : list (string * json)) (m : gmap string json) (k : string) :
  k ∉ kvs.*1 → foldl (λ m kv, <[kv.1 := kv.2]> m) m kvs !! k = m !! k.
Proof.
  revert m. induction kvs as [|[k' v] kvs IH]; intros m; simpl; [done|].
  rewrite not_elem_of_cons. intros [Hne Hk]. rewrite IH by done.
  by rewrite lookup_insert_ne.
Qed.

Lemma obj_map_app (l1 l2 : list (string * json)) (k : string) (v : json) :
  k ∉ l2.*1 → obj_map (l1 ++ (k, v) :: l2) !! k = Some v.
Proof.
  intros Hk. unfold obj_map. rewrite foldl_app. simpl.
  rewrite foldl_insert_lookup by done. apply lookup_insert_eq.
Qed.

Lemma foldl_insert_list_to_map (kvs : list (string * json)) (m : gmap string json) :
  NoDup kvs.*1 → (∀ k, k ∈ kvs.*1 → m !! k = None) →
  foldl (λ m kv, <[kv.1 := kv.2]> m) m kvs = list_to_map kvs ∪ m.
Proof.
  revert m. induction kvs as [|[k v] kvs IH]; intros m Hnd Hm; simpl.
  - by rewrite (left_id_L ∅ (∪)).
  - apply NoDup_cons in Hnd as [Hk Hnd]. simpl in *.
    rewrite IH.
    + rewrite <- insert_union_r by (by apply not_elem_of_list_to_map_1).
      by rewrite insert_union_l.
    + done.
    + intros k' Hk'. rewrite lookup_insert_ne by (intros ->; done).
      apply Hm. set_solver.
Qed.

(** Marshalling a map and decoding the object gives the map back. *)
Lemma obj_map_marshal (m : gmap string json) :
  obj_map (merge_sort le_key (map_to_list m)) = m.
Proof.
  pose proof (merge_sort_Permutation le_key (map_to_list m)) as Hp.
  assert (Hnd : NoDup (merge_sort le_key (map_to_list m)).*1).
  { rewrite Hp. apply NoDup_fst_map_to_list. }
  unfold obj_map. rewrite foldl_insert_list_to_map.
  - rewrite (right_id_L ∅ (∪)). rewrite (list_to_map_proper _ _ Hnd Hp).
    apply list_to_map_to_list.
  - done.
  - intros k _. apply lookup_empty.
Qed.

Lemma unmarshal_marshal_map (m : gmap string json) :
  unmarshal_map (Some (marshal_map m)) = Some m.
Proof. unfold unmarshal_map, marshal_map. by rewrite obj_map_marshal. Qed.

Lemma names_refl (k : string) : names k k = true.
Proof. apply String.eqb_refl. Qed.

#[export] Hint Resolve names_refl : tg.
