(* ===== verification/Types.v ===== *)
(** Data shared by the components: the registry's records, TDLib's error, the
    guard's refusal, and Go error values with [errors.As] over them. *)

From S2P Require Import Prelude GoStr Json.


(** ** Registry records *)

(** An operator's rate limit [internal/store/limits.go#Limit]. Optional
    strings are Go's [*string]; times are nanoseconds. *)
Record Limit := mkLimit {
  l_id : string;
  l_level : string;
  l_kind : option string;
  l_session : option string;
  l_token : option string;
  l_methods : list string;
  l_max : Z;
  l_per : string;
  l_label : option string;
  l_enabled : bool;
  l_created : Z;
}.

(** A scope of calls refused until a time [internal/store/store.go#Cooldown]. *)
Record Cooldown := mkCooldown {
  c_scope : string;
  c_until : Z;
  c_reason : string;
}.

(** What Telegram has said about an account [internal/store/store.go#Limits]. *)
Record Limits := mkLimits {
  ls_premium : option bool;
  ls_frozen : bool;
  ls_frozen_since : option Z;
  ls_deletion : option Z;
  ls_appeal : string;
  ls_spam : bool;
  ls_cooldowns : list Cooldown;
}.

(** The cooldown scope PEER_FLOOD imposes
    [internal/store/store.go:1212-1212#SpamLimitScope]. *)
Definition SpamLimitScope : string := "spam_limit".

(** ** Errors *)

(** TDLib's structured error [internal/tdjson/raw.go:50-54#Error]. The raw JSON it
    also carries is never read. *)
Record tderror := mkTdError { te_code : Z; te_message : string }.

(** A call the guard stopped [internal/session/guard.go#RefusedError]. *)
Record refused := mkRefused {
  r_reason : string;
  r_scope : string;
  r_until : Z;
  r_cause : string;
  r_limit : option Limit;
}.

(** Go error values met in the session layer. [EWrap] is [fmt.Errorf] with a
    [%w] verb at its end; [EMsg] is any error with nothing to unwrap to. *)
Inductive gerr :=
| ETd (e : tderror)
| ERefused (r : refused)
| EMsg (msg : string)
| EWrap (pre : string) (e : gerr).

(** [errors.As(err, &te)] for a [*tdjson.Error]. *)
Fixpoint as_td (e : gerr) : option tderror :=
  match e with
  | ETd t => Some t
  | EWrap _ e => as_td e
  | _ => None
  end.

(** [errors.As(err, &re)] for a [*RefusedError]. *)
Fixpoint as_refused (e : gerr) : option refused :=
  match e with
  | ERefused r => Some r
  | EWrap _ e => as_refused e
  | _ => None
  end.

(** The text of a TDLib error [internal/tdjson/raw.go#Error.Error]. *)
Definition td_error_text (e : tderror) : string :=
  "tdlib " +:+ itoa (te_code e) +:+ ": " +:+ te_message e.

(** The text of a refusal [internal/session/guard.go#RefusedError.Error];
    [quote] is the [%q] verb. *)
Definition refused_text (quote : string → string) (e : refused) : string :=
  if String.eqb (r_reason e) "pace" then
    "too many " +:+ r_scope e +:+ " calls queued on this session"
  else match String.eqb (r_reason e) "limit", r_limit e with
  | true, Some l =>
      let name := match l_label l with
                  | Some lb => if String.eqb lb "" then l_id l else lb
                  | None => l_id l
                  end in
      l_level l +:+ " limit " +:+ quote name +:+ ": " +:+ itoa (l_max l) +:+ " per " +:+
      l_per l +:+ " (" +:+ sjoin ", " (l_methods l) +:+ ")"
  | _, _ => r_scope e +:+ " is cooling down: " +:+ r_cause e
  end.

(** [err.Error()]. *)
Fixpoint error_text (quote : string → string) (e : gerr) : string :=
  match e with
  | ETd t => td_error_text t
  | ERefused r => refused_text quote r
  | EMsg m => m
  | EWrap pre e => pre +:+ error_text quote e
  end.

#[export] Instance refused_inhabited : Inhabited refused :=
  populate (mkRefused "" "" 0 "" None).

#[export] Instance Limit_eq_dec : EqDecision Limit.
Proof. solve_decision. Defined.
#[export] Instance Cooldown_eq_dec : EqDecision Cooldown.
Proof. solve_decision. Defined.
#[export] Instance Cooldown_inhabited : Inhabited Cooldown := populate (mkCooldown "" 0 "").
