(* ===== verification/Tdjson.v ===== *)
(** The bridge to TDLib (internal/tdjson/raw.go): requests are {method, params}
    pairs, answers are raw JSON or a structured error. The TDLib client itself
    is a parameter: a state and a function that takes a request. *)

From S2P Require Import Prelude GoStr Json Types.


(** ** Requests *)

(** A request [internal/tdjson/raw.go#rawRequest]; the [@extra] the client
    attaches is an argument of [MarshalJSON]. *)
Record rawRequest := mkReq { rq_method : string; rq_params : gmap string json }.

(** What a request becomes on the wire
    [internal/tdjson/raw.go#rawRequest.MarshalJSON]. *)
Definition MarshalJSON (r : rawRequest) (extra : string) : gmap string json :=
  let obj := <["@type" := JStr (rq_method r)]> (rq_params r) in
  if String.eqb extra "" then obj else <["@extra" := JStr extra]> obj.

(** ** Errors *)

(** The seconds a flood wait asks for
    [internal/tdjson/raw.go#Error.RetryAfter]. *)
Definition RetryAfter (e : tderror) : option Z :=
  if negb (te_code e =? 429)%Z && negb (te_code e =? 420)%Z then None
  else match slast_index (te_message e) "retry after " with
  | None => None
  | Some i =>
      match atoi (trim_space (sdrop (i + String.length "retry after ") (te_message e))) with
      | None => None
      | Some n => if (n <? 0)%Z then None else Some n
      end
  end.

Definition set_tderror (k : string) : dec tderror := λ e v,
  if names k "code" then
    let r := dec_int64 (te_code e) v in (mkTdError r.1 (te_message e), r.2)
  else if names k "message" then
    let r := dec_string (te_message e) v in (mkTdError (te_code e) r.1, r.2)
  else (e, true).

(** An error object from TDLib, with its text for when it cannot be read
    [internal/tdjson/raw.go#parseTdError]. *)
Definition parseTdError (data : json) (text : string) : tderror :=
  match unmarshal_ok (dec_struct set_tderror) (mkTdError 0 "") (Some data) with
  | Some e => if String.eqb (te_message e) "" then mkTdError 0 text else e
  | None => mkTdError 0 text
  end.

(** ** Dispatch *)

(** What the client hands back: a Go error (a cancelled context, a closed
    client), an error object with its text, or a result. *)
Inductive td_reply :=
| TdFail (msg : string)
| TdError (data : json) (text : string)
| TdResult (data : json).

(** The params of a request; [None] when they are not an object or null. *)
Definition request_params (params : raw) : option (gmap string json) :=
  match params with
  | None => Some ∅
  | Some JNull => Some ∅
  | Some (JObj kvs) => Some (obj_map kvs)
  | Some _ => None
  end.

Definition bad_params : gerr := EMsg "params must be a JSON object".

Definition reply_result (r : td_reply) : res gerr json :=
  match r with
  | TdFail msg => Err (EMsg msg)
  | TdError data text => Err (ETd (parseTdError data text))
  | TdResult data => Ok data
  end.

Section client.
Context {T : Type} (td_send : T → rawRequest → T * td_reply).

(** Runs a td_api method on a client [internal/tdjson/raw.go:118-134#Call]. *)
Definition td_call (t : T) (method : string) (params : raw) : T * res gerr json :=
  match request_params params with
  | None => (t, Err bad_params)
  | Some ps =>
      let r := td_send t (mkReq method ps) in
      (r.1, reply_result r.2)
  end.
End client.

(** Runs a synchronous method, with no session
    [internal/tdjson/raw.go#ExecuteSync]; [execute] is TDLib's td_execute. *)
Definition ExecuteSync (execute : rawRequest → td_reply) (method : string) (params : raw)
    : res gerr json :=
  match request_params params with
  | None => Err bad_params
  | Some ps => reply_result (execute (mkReq method ps))
  end.

(** ** Theorems *)

(** The object TDLib receives carries the requested method as its @type
    whatever the caller put in params, and otherwise exactly the params (apart
    from @extra): a method name checked by the gateway cannot be swapped by a
    crafted "@type" parameter. *)
Theorem marshal_method_wins (r : rawRequest) (extra : string) :
  MarshalJSON r extra !! "@type" = Some (JStr (rq_method r)) ∧
  delete "@extra" (delete "@type" (MarshalJSON r extra)) =
  delete "@extra" (delete "@type" (rq_params r)).
Proof.
  unfold MarshalJSON. split.
  - destruct (String.eqb _ _); [apply lookup_insert_eq|].
    rewrite lookup_insert_ne by done. apply lookup_insert_eq.
  - destruct (String.eqb _ _).
    + by rewrite delete_insert_eq.
    + rewrite delete_insert_ne by done. rewrite delete_insert_eq.
      by rewrite delete_insert_eq.
Qed.

Lemma RetryAfter_code (e : tderror) (n : Z) :
  RetryAfter e = Some n → te_code e = 429%Z ∨ te_code e = 420%Z.
Proof.
  unfold RetryAfter. destruct (te_code e =? 429)%Z eqn:E1, (te_code e =? 420)%Z eqn:E2;
    simpl; bool_props; auto. done.
Qed.

Lemma digits_val_nonneg (s : string) (acc n : Z) :
  (0 <= acc)%Z → digits_val acc s = Some n → (0 <= n)%Z.
Proof.
  revert acc. induction s as [|c s IH]; intros acc Hacc; simpl.
  - by intros [= <-].
  - unfold digit_val. destruct (_ && _) eqn:E; simpl; [|done].
    bool_props. apply IH. lia.
Qed.

Lemma atoi_range (s : string) (n : Z) : atoi s = Some n → in_int64 n = true.
Proof.
  unfold atoi.
  destruct (match cut_prefix s "-" with Some _ => _ | None => _ end) as [sign ds].
  destruct (String.eqb ds ""); [done|]. destruct (digits_val 0 ds) as [m|]; simpl; [|done].
  destruct (in_int64 (sign * m)) eqn:E; [|done]. by intros [= <-].
Qed.

Lemma RetryAfter_range (e : tderror) (n : Z) :
  RetryAfter e = Some n → (0 <= n < 2 ^ 63)%Z.
Proof.
  unfold RetryAfter. destruct (_ && _); [done|].
  destruct (slast_index _ _); [|done]. destruct (atoi _) as [m|] eqn:E; [|done].
  destruct (m <? 0)%Z eqn:E'; [done|]. intros [= <-]. bool_props.
  apply atoi_range, in_int64_spec in E. lia.
Qed.

(** A request that goes out names the method asked for. *)
Lemma td_call_sends {T : Type} (send : T → rawRequest → T * td_reply) t method params :
  (td_call send t method params).1 =
  match request_params params with
  | None => t
  | Some ps => (send t (mkReq method ps)).1
  end.
Proof. unfold td_call. by destruct (request_params params). Qed.
