(* ===== verification/Quota.v ===== *)
(** The policy of the operator's rate limits (internal/quota/quota.go): method
    groups, what a rule covers, how much a call counts, the window it counts
    in, and which rules bear on a session for a caller. *)

From S2P Require Import Prelude GoStr Json Types.


(** ** Method groups *)

(** The methods Telegram limits together
    [internal/quota/quota.go:19-46#groups]. *)
Definition groups : list (string * string) :=
  [("sendMessage", "@send"); ("sendMessageAlbum", "@send"); ("forwardMessages", "@send");
   ("resendMessages", "@send"); ("sendInlineQueryResultMessage", "@send");
   ("joinChat", "@join"); ("joinChatByInviteLink", "@join");
   ("addChatMember", "@invite"); ("addChatMembers", "@invite");
   ("searchPublicChat", "@resolve"); ("searchPublicChats", "@resolve");
   ("searchUserByPhoneNumber", "@resolve"); ("checkChatInviteLink", "@resolve");
   ("importContacts", "@contacts"); ("addContact", "@contacts");
   ("createNewSupergroupChat", "@create"); ("createNewBasicGroupChat", "@create");
   ("addMessageReaction", "@react"); ("setMessageReactions", "@react");
   ("viewMessages", "@view"); ("getChatHistory", "@history");
   ("searchChatMessages", "@history"); ("deleteMessages", "@delete");
   ("deleteChatHistory", "@delete"); ("getSupergroupMembers", "@members");
   ("searchChatMembers", "@members")].

(** [groups[method]] with Go's zero value for a missing key. *)
Definition group_of (method : string) : string :=
  default "" (last_binding method groups).

(** A method's group, or the method itself [internal/quota/quota.go#Scope]. *)
Definition Scope (method : string) : string :=
  default method (last_binding method groups).

(** [internal/quota/quota.go#IsGroup] *)
Definition IsGroup (name : string) : bool :=
  existsb (λ g, String.eqb g.2 name) groups.

Definition is_lower (c : ascii) : bool :=
  let n := Ascii.nat_of_ascii c in ((97 <=? n) && (n <=? 122))%nat.
Definition is_upper (c : ascii) : bool :=
  let n := Ascii.nat_of_ascii c in ((65 <=? n) && (n <=? 90))%nat.
Definition is_digit (c : ascii) : bool :=
  let n := Ascii.nat_of_ascii c in ((48 <=? n) && (n <=? 57))%nat.

(** The expression ^[a-z][A-Za-z0-9]*$
    [internal/quota/quota.go:66-66#methodName]. *)
Definition methodName (s : string) : bool :=
  match s with
  | EmptyString => false
  | String c s' =>
      is_lower c &&
      negb (any_char (λ c, negb (is_lower c || is_upper c || is_digit c)) s')
  end.

(** [internal/quota/quota.go#ValidPattern] *)
Definition ValidPattern (p : string) : bool :=
  String.eqb p "*" || IsGroup p || methodName p.

(** [internal/quota/quota.go#Matches] *)
Definition Matches (pattern method : string) : bool :=
  String.eqb pattern "*" || String.eqb pattern method ||
  (has_prefix pattern "@" && String.eqb (group_of method) pattern).

(** ** Weight of a call *)

(** The params [Count] reads. *)
Record countParams := mkCountParams {
  cp_only_local : bool;
  cp_messages : list json;
  cp_contents : list json;
  cp_users : list json;
  cp_contacts : list json;
}.

Definition set_countParams (k : string) : dec countParams := λ p v,
  if names k "only_local" then
    let r := dec_bool (cp_only_local p) v in
    (mkCountParams r.1 (cp_messages p) (cp_contents p) (cp_users p) (cp_contacts p), r.2)
  else if names k "message_ids" then
    let r := dec_raw_list (cp_messages p) v in
    (mkCountParams (cp_only_local p) r.1 (cp_contents p) (cp_users p) (cp_contacts p), r.2)
  else if names k "input_message_contents" then
    let r := dec_raw_list (cp_contents p) v in
    (mkCountParams (cp_only_local p) (cp_messages p) r.1 (cp_users p) (cp_contacts p), r.2)
  else if names k "user_ids" then
    let r := dec_raw_list (cp_users p) v in
    (mkCountParams (cp_only_local p) (cp_messages p) (cp_contents p) r.1 (cp_contacts p), r.2)
  else if names k "contacts" then
    let r := dec_raw_list (cp_contacts p) v in
    (mkCountParams (cp_only_local p) (cp_messages p) (cp_contents p) (cp_users p) r.1, r.2)
  else (p, true).

(** What decoding stores, its error ignored. *)
Definition count_params (params : raw) : countParams :=
  (unmarshal (dec_struct set_countParams) (mkCountParams false [] [] [] []) params).1.

(** The items one call carries, for the methods that carry several. *)
Definition call_items (method : string) (p : countParams) : nat :=
  if String.eqb method "forwardMessages" then length (cp_messages p)
  else if String.eqb method "sendMessageAlbum" then length (cp_contents p)
  else if String.eqb method "addChatMembers" then length (cp_users p)
  else if String.eqb method "importContacts" then length (cp_contacts p)
  else 0%nat.

(** How much one call counts against a rule
    [internal/quota/quota.go#Count]. *)
Definition Count (l : Limit) (method : string) (params : raw) : nat :=
  if negb (existsb (λ p, Matches p method) (l_methods l)) then 0%nat
  else
    let p := count_params params in
    if cp_only_local p then 0%nat
    else if existsb (String.eqb "*") (l_methods l) then 1%nat
    else Nat.max (call_items method p) 1.

(** ** Windows *)

(** [internal/quota/quota.go#Pers] *)
Definition Pers : list string := ["minute"; "hour"; "day"; "week"].

(** Moscow is three hours ahead of UTC [internal/quota/quota.go#moscow]. *)
Definition moscow_offset : Z := 3 * hour.

(** [t.Truncate(d)]. *)
Definition truncate (d t : Z) : Z := t - t mod d.

(** The civil day of a time in Moscow, counted from the epoch's. *)
Definition moscow_day (now : Z) : Z := (now + moscow_offset) / day.

(** The weekday of a civil day, 0 for Sunday: the epoch was a Thursday. *)
Definition weekday (d : Z) : Z := (d + 4) mod 7.

(** The fixed window of [per] that holds [now]
    [internal/quota/quota.go#Window]. [time.Date] at hour 0 in Moscow is the
    start of the civil day there; [AddDate] in UTC adds whole days. *)
Definition Window (per : string) (now : Z) : Z * Z :=
  if String.eqb per "minute" then
    let start := truncate minute now in (start, start + minute)%Z
  else if String.eqb per "hour" then
    let start := truncate hour now in (start, start + hour)%Z
  else
    let d := moscow_day now in
    let start := (d * day - moscow_offset)%Z in
    if String.eqb per "week" then
      let start := (start + Z.rem (- (weekday d + 6)) 7 * day)%Z in
      (start, start + 7 * day)%Z
    else (start, start + day)%Z.

(** ** Rules bearing on a session *)

(** Tells rules that cover the same calls in the same window
    [internal/quota/quota.go#signature]. *)
Definition signature (l : Limit) : string :=
  l_per l +:+ "|" +:+ sjoin "," (merge_sort String.le (l_methods l)).

(** [internal/quota/quota.go#Applied] *)
Record Applied := mkApplied { ap_limit : Limit; ap_replaced : string }.

Definition opt_is (o : option string) (s : string) : bool :=
  match o with Some x => String.eqb x s | None => false end.

Definition is_default (kind : string) (l : Limit) : bool :=
  String.eqb (l_level l) "session" && bool_decide (l_session l = None) && opt_is (l_kind l) kind.
Definition is_own (sid : string) (l : Limit) : bool :=
  String.eqb (l_level l) "session" && opt_is (l_session l) sid.
Definition is_mine (tok : string) (l : Limit) : bool :=
  String.eqb (l_level l) "token" && negb (String.eqb tok "") && opt_is (l_token l) tok.

(** The first pass: rules of the session and of the caller by signature, a
    later rule taking the place of an earlier one. *)
Definition index_rules (sid tok : string) (rules : list Limit)
    : gmap string string * gmap string string :=
  foldl (λ m l,
    if negb (l_enabled l) then m
    else if is_own sid l then (<[signature l := l_id l]> m.1, m.2)
    else if is_mine tok l then (m.1, <[signature l := l_id l]> m.2)
    else m) (∅, ∅) rules.

(** The second pass, one rule: what it contributes to the result. *)
Definition apply_rule (own mine : gmap string string) (sid kind tok : string) (l : Limit)
    : list Applied :=
  if negb (l_enabled l) then []
  else
    let sig := signature l in
    if is_default kind l then
      let by_own := default "" (own !! sig) in
      [mkApplied l (if String.eqb by_own "" then default "" (mine !! sig) else by_own)]
    else if is_own sid l then [mkApplied l (default "" (mine !! sig))]
    else if is_mine tok l then [mkApplied l ""]
    else [].

(** The enabled rules bearing on a session for a caller, each with the rule
    that takes its place there [internal/quota/quota.go#Applicable]. *)
Definition Applicable (rules : list Limit) (sid kind tok : string) : list Applied :=
  let m := index_rules sid tok rules in
  rules ≫= apply_rule m.1 m.2 sid kind tok.

(** A rule's shape as the gateway admits it: some method, valid patterns only,
    a known window. *)
Definition rule_shape (l : Limit) : bool :=
  negb (Nat.eqb (length (l_methods l)) 0) && forallb ValidPattern (l_methods l) &&
  existsb (String.eqb (l_per l)) Pers.

(** The level of a rule for a session and caller, [None] when it does not bear
    on them: defaults lowest, the caller's own rules highest. *)
Definition rank (sid kind tok : string) (l : Limit) : option nat :=
  if is_default kind l then Some 0%nat
  else if is_own sid l then Some 1%nat
  else if is_mine tok l then Some 2%nat
  else None.

(** ** Lemmas on windows *)

Lemma floor_window (M off n t : Z) : (0 < M)%Z →
  let s := ((n + off) / M * M - off)%Z in
  (s <= t < s + M)%Z ↔ ((t + off) / M = (n + off) / M)%Z.
Proof.
  intros HM s. subst s. split.
  - intros Ht. symmetry. apply Z.div_unique with (r := (t + off - (n + off) / M * M)%Z); lia.
  - intros <-. pose proof (Z.mod_pos_bound (t + off) M HM).
    pose proof (Z.div_mod (t + off) M). lia.
Qed.

Definition win_size (per : string) : Z :=
  if String.eqb per "minute" then minute
  else if String.eqb per "hour" then hour
  else if String.eqb per "week" then 7 * day else day.

Definition win_off (per : string) : Z :=
  if String.eqb per "minute" then 0
  else if String.eqb per "hour" then 0
  else if String.eqb per "week" then moscow_offset + 3 * day else moscow_offset.

Lemma win_size_pos (per : string) : (0 < win_size per)%Z.
Proof. unfold win_size. repeat destruct (String.eqb _ _); by vm_compute. Qed.

Lemma week_start (d : Z) : (d + Z.rem (- (weekday d + 6)) 7 = (d + 3) / 7 * 7 - 3)%Z.
Proof.
  unfold weekday.
  rewrite Z.rem_opp_l', Z.rem_mod_nonneg by (pose proof (Z.mod_pos_bound (d + 4) 7); lia).
  rewrite Zplus_mod_idemp_l. replace (d + 4 + 6)%Z with (d + 3 + 1 * 7)%Z by lia.
  rewrite Z_mod_plus_full. pose proof (Z.div_mod (d + 3) 7). lia.
Qed.

(** Every window is a cell of a uniform grid. *)
Lemma Window_floor (per : string) (now : Z) :
  Window per now =
  let s := ((now + win_off per) / win_size per * win_size per - win_off per)%Z in
  (s, s + win_size per)%Z.
Proof.
  unfold Window, win_off, win_size, truncate.
  destruct (String.eqb per "minute"), (String.eqb per "hour"); simpl;
    try (rewrite Z.add_0_r, Z.sub_0_r;
         match goal with |- context [(now mod ?m)%Z] =>
           replace (now - now mod m)%Z with (now / m * m)%Z
             by (pose proof (Z.div_mod now m ltac:(by vm_compute)); lia) end; done).
  destruct (String.eqb per "week"); [|done].
  replace (moscow_day now * day - moscow_offset +
           Z.rem (- (weekday (moscow_day now) + 6)) 7 * day)%Z
    with ((moscow_day now + Z.rem (- (weekday (moscow_day now) + 6)) 7) * day - moscow_offset)%Z
    by lia.
  rewrite week_start. unfold moscow_day.
  replace ((now + moscow_offset) / day + 3)%Z
    with ((now + (moscow_offset + 3 * day)) / day)%Z.
  - rewrite Z.div_div by (by vm_compute). rewrite (Z.mul_comm day 7).
    f_equal; [|f_equal]; lia.
  - replace (now + (moscow_offset + 3 * day))%Z with (now + moscow_offset + 3 * day)%Z by lia.
    by rewrite Z.div_add by (by vm_compute).
Qed.

(** The windows of a rule tile the time line. The window computed at an
    instant holds that instant, and another instant lies in it exactly when it
    computes the same window: so all calls counted under one window start fell
    into that window, and no call can fall between two windows. *)
Theorem Window_tiles (per : string) (now t : Z) :
  let w := Window per now in
  (w.1 <= now < w.2)%Z ∧ ((w.1 <= t < w.2)%Z ↔ Window per t = w).
Proof.
  rewrite !Window_floor. simpl. split; [by apply floor_window, eq_refl; apply win_size_pos|].
  rewrite floor_window by apply win_size_pos. split; [by intros ->|].
  intros [= Heq _]. pose proof (win_size_pos per). nia.
Qed.

(** A day window starts at midnight in Moscow, a week window on a Monday at
    midnight in Moscow, and both last a whole day and week. *)
Theorem Window_moscow (now : Z) :
  let d := Window "day" now in let w := Window "week" now in
  ((d.1 + moscow_offset) mod day = 0 ∧ d.2 = d.1 + day ∧
   (w.1 + moscow_offset) mod day = 0 ∧ weekday (moscow_day w.1) = 1 ∧
   w.2 = w.1 + 7 * day ∧ w.1 <= d.1 ∧ d.2 <= w.2)%Z.
Proof.
  unfold Window. simpl. pose proof (week_start (moscow_day now)) as Hw.
  set (d := moscow_day now) in *.
  set (r := Z.rem (- (weekday d + 6)) 7) in *.
  replace (d * day - moscow_offset + r * day + moscow_offset)%Z with ((d + r) * day)%Z by lia.
  assert (Hm : moscow_day (d * day - moscow_offset + r * day) = (d + r)%Z).
  { unfold moscow_day.
    replace (d * day - moscow_offset + r * day + moscow_offset)%Z with ((d + r) * day)%Z by lia.
    by apply Z.div_mul. }
  rewrite Hm, Z.sub_add, !Z.mod_mul by done. rewrite Hw.
  pose proof (Z.div_mod (d + 3) 7 ltac:(done)).
  pose proof (Z.mod_pos_bound (d + 3) 7 ltac:(done)).
  assert (0 < day)%Z by (by vm_compute).
  repeat split; try lia.
  - unfold weekday. replace ((d + 3) / 7 * 7 - 3 + 4)%Z with (1 + (d + 3) / 7 * 7)%Z by lia.
    by rewrite Z_mod_plus_full.
  - assert (-6 <= r <= 0)%Z by lia. nia.
  - assert (-6 <= r <= 0)%Z by lia. nia.
Qed.

(** ** Lemmas on rules *)

Lemma group_prefix : Forall (λ g, has_prefix g.2 "@" = true) groups.
Proof. by repeat constructor. Qed.

Lemma IsGroup_spec (p : string) : IsGroup p = true ↔ p ∈ groups.*2.
Proof.
  unfold IsGroup. rewrite existsb_exists, list_elem_of_fmap. split.
  - intros (x&Hx&<-%String.eqb_eq). exists x. by rewrite list_elem_of_In.
  - intros (x&->&Hx). exists x. by rewrite String.eqb_refl, <- list_elem_of_In.
Qed.

Lemma group_of_group (m g : string) : g ≠ "" → group_of m = g → IsGroup g = true ∧ Scope m = g.
Proof.
  unfold group_of, Scope. intros Hg.
  destruct (last_binding m groups) as [g'|] eqn:E; simpl; [intros ->|congruence].
  split; [|done]. apply IsGroup_spec, list_elem_of_fmap.
  exists (m, g). split; [done|]. by apply last_binding_in.
Qed.

(** The rule patterns agree with the cooldown scopes: a pattern covers a
    method iff it is "*", the method itself, or a group that is the method's
    scope. In particular a group pattern covers exactly the methods one
    cooldown of that group stops. *)
Theorem Matches_spec (p m : string) :
  Matches p m = true ↔ p = "*" ∨ p = m ∨ (IsGroup p = true ∧ Scope m = p).
Proof.
  unfold Matches. rewrite !orb_true_iff, andb_true_iff, !String.eqb_eq. split.
  - intros [[->| ->]|[Hp Hg]]; [by left|by right; left|]. right; right.
    apply group_of_group in Hg; [done|]. by intros ->.
  - intros [->|[->|[Hg Hs]]]; [by left; left|by left; right|].
    destruct (decide (p = m)) as [->|Hne]; [by left; right|right].
    apply IsGroup_spec, list_elem_of_fmap in Hg as (x&->&Hx). split.
    + pose proof group_prefix as Hall. rewrite Forall_forall in Hall. by apply Hall.
    + unfold Scope, group_of in *. by destruct (last_binding m groups).
Qed.

(** Indexing the rules selected by [P] under their signatures. *)
Definition index_by (P : Limit → bool) (rules : list Limit) : gmap string string :=
  foldl (λ m l, if P l then <[signature l := l_id l]> m else m) ∅ rules.

Lemma index_by_lookup (P : Limit → bool) (rules : list Limit) (sig : string) :
  match index_by P rules !! sig with
  | Some i => ∃ l, l ∈ rules ∧ P l = true ∧ signature l = sig ∧ l_id l = i
  | None => ∀ l, l ∈ rules → P l = true → signature l ≠ sig
  end.
Proof.
  unfold index_by. induction rules as [|l rules IH] using rev_ind; simpl.
  { rewrite lookup_empty. intros l Hl. by apply not_elem_of_nil in Hl. }
  rewrite foldl_snoc. set (m := foldl _ _ _) in *.
  assert (Hkeep : (P l = true → signature l ≠ sig) →
    match m !! sig with
    | Some i => ∃ l0, l0 ∈ rules ++ [l] ∧ P l0 = true ∧ signature l0 = sig ∧ l_id l0 = i
    | None => ∀ l0, l0 ∈ rules ++ [l] → P l0 = true → signature l0 ≠ sig
    end).
  { intros Hl. destruct (m !! sig) as [i|].
    - destruct IH as (l0&?&?). exists l0. rewrite elem_of_app. tauto.
    - intros l0 [?| ->%list_elem_of_singleton]%elem_of_app; [by apply IH|done]. }
  destruct (P l) eqn:HP; [|by apply Hkeep].
  destruct (decide (signature l = sig)) as [<-|Hne].
  - rewrite lookup_insert_eq. exists l. rewrite elem_of_app, list_elem_of_singleton. tauto.
  - rewrite lookup_insert_ne by done. by apply Hkeep.
Qed.

Definition own_sel (sid : string) (l : Limit) : bool := l_enabled l && is_own sid l.
Definition mine_sel (tok : string) (l : Limit) : bool := l_enabled l && is_mine tok l.

Lemma own_not_mine (sid tok : string) (l : Limit) : is_own sid l = true → is_mine tok l = false.
Proof.
  unfold is_own, is_mine. intros [->%String.eqb_eq _]%andb_true_iff. done.
Qed.

Lemma default_not_own (kind sid : string) (l : Limit) :
  is_default kind l = true → is_own sid l = false.
Proof.
  unfold is_default, is_own. intros [[_ Hs%bool_decide_eq_true]%andb_true_iff _]%andb_true_iff.
  rewrite Hs. by rewrite andb_false_r.
Qed.

Lemma default_not_mine (kind tok : string) (l : Limit) :
  is_default kind l = true → is_mine tok l = false.
Proof.
  unfold is_default, is_mine. intros [[->%String.eqb_eq _]%andb_true_iff _]%andb_true_iff.
  done.
Qed.

Lemma index_rules_split (sid tok : string) (rules : list Limit) :
  index_rules sid tok rules = (index_by (own_sel sid) rules, index_by (mine_sel tok) rules).
Proof.
  unfold index_rules, index_by. induction rules as [|l rules IH] using rev_ind; [done|].
  rewrite !foldl_snoc, IH. simpl. unfold own_sel, mine_sel.
  destruct (l_enabled l); simpl; [|done].
  destruct (is_own sid l) eqn:E; [by rewrite (own_not_mine _ tok _ E)|].
  by destruct (is_mine tok l).
Qed.

(** A rule present under a signature, as the sentinel "" sees it. *)
Lemma index_by_sentinel (P : Limit → bool) (rules : list Limit) (sig : string) :
  Forall (λ l, l_id l ≠ "") rules →
  default "" (index_by P rules !! sig) ≠ "" ↔
  ∃ l, l ∈ rules ∧ P l = true ∧ signature l = sig.
Proof.
  intros Hids. pose proof (index_by_lookup P rules sig) as H.
  destruct (index_by P rules !! sig) as [i|]; simpl.
  - destruct H as (l&Hl&HP&Hs&<-). rewrite Forall_forall in Hids. split; [eauto|].
    intros _. by apply Hids.
  - split; [done|]. intros (l&Hl&HP&Hs). by destruct (H l).
Qed.

Lemma rank_cases (sid kind tok : string) (l : Limit) :
  match rank sid kind tok l with
  | Some 0%nat => is_default kind l = true
  | Some 1%nat => is_default kind l = false ∧ is_own sid l = true
  | Some _ => is_default kind l = false ∧ is_own sid l = false ∧ is_mine tok l = true
  | None => is_default kind l = false ∧ is_own sid l = false ∧ is_mine tok l = false
  end.
Proof.
  unfold rank. destruct (is_default kind l), (is_own sid l), (is_mine tok l); done.
Qed.

(** Some enabled rule with the signature of [l] has a higher rank than [n]. *)
Definition outranked (rules : list Limit) (sid kind tok : string) (l : Limit) (n : nat) : Prop :=
  ∃ l' n', l' ∈ rules ∧ l_enabled l' = true ∧ signature l' = signature l ∧
           rank sid kind tok l' = Some n' ∧ (n < n')%nat.

Lemma outranked_split (rules : list Limit) (sid kind tok : string) (l : Limit) (n : nat) :
  Forall (λ l, l_id l ≠ "") rules →
  outranked rules sid kind tok l n ↔
  ((n < 1)%nat ∧ default "" (index_by (own_sel sid) rules !! signature l) ≠ "") ∨
  ((n < 2)%nat ∧ default "" (index_by (mine_sel tok) rules !! signature l) ≠ "").
Proof.
  intros Hids. rewrite !index_by_sentinel by done. unfold own_sel, mine_sel. split.
  - intros (l'&n'&Hl&He&Hs&Hr&Hn). pose proof (rank_cases sid kind tok l') as Hc.
    rewrite Hr in Hc. destruct n' as [|[|n']]; [lia| |].
    + left. split; [lia|]. exists l'. rewrite He. tauto.
    + right. split; [|exists l'; rewrite He; tauto]. unfold rank in Hr.
      repeat (split_match_in Hr; simplify_eq). lia.
  - intros [[Hn (l'&Hl&Hp&Hs)]|[Hn (l'&Hl&Hp&Hs)]]; apply andb_true_iff in Hp as [He Ho].
    + exists l', 1%nat. repeat split; [done..| |lia]. unfold rank. rewrite Ho.
      destruct (is_default kind l') eqn:Ed; [|done].
      by rewrite (default_not_own _ sid _ Ed) in Ho.
    + exists l', 2%nat. repeat split; [done..| |lia]. unfold rank. rewrite Ho.
      destruct (is_default kind l') eqn:Ed; [by rewrite (default_not_mine _ tok _ Ed) in Ho|].
      destruct (is_own sid l') eqn:Eo; [|done]. by rewrite (own_not_mine _ tok _ Eo) in Ho.
Qed.

(** Which rules are enforced. A rule is applied with no replacement exactly
    when it is enabled, bears on the session, kind and caller, and no enabled
    rule of the same window and methods bears on them at a higher level (the
    session's own rules above the defaults of the kind, the caller's token
    rules above both). Rule ids are never empty: the registry generates them. *)
Theorem Applicable_enforced (rules : list Limit) (sid kind tok : string) (l : Limit) :
  Forall (λ l, l_id l ≠ "") rules →
  mkApplied l "" ∈ Applicable rules sid kind tok ↔
  l ∈ rules ∧ l_enabled l = true ∧
  ∃ n, rank sid kind tok l = Some n ∧ ¬ outranked rules sid kind tok l n.
Proof.
  intros Hids. unfold Applicable. rewrite index_rules_split. simpl.
  rewrite list_elem_of_bind.
  assert (Hrule : ∀ x, mkApplied l "" ∈ apply_rule (index_by (own_sel sid) rules)
      (index_by (mine_sel tok) rules) sid kind tok x ↔
      x = l ∧ l_enabled l = true ∧
      ∃ n, rank sid kind tok l = Some n ∧ ¬ outranked rules sid kind tok l n).
  { intros x. setoid_rewrite outranked_split; [|done].
    set (o := index_by (own_sel sid) rules). set (m := index_by (mine_sel tok) rules).
    destruct (decide (x = l)) as [->|Hne].
    2:{ split; [|by intros (?&_)]. unfold apply_rule. intros H.
        repeat (split_match_in H; rewrite ?list_elem_of_singleton in H; try congruence);
          by apply not_elem_of_nil in H. }
    unfold apply_rule. destruct (l_enabled l) eqn:He; simpl.
    2:{ split; [by intros ?%not_elem_of_nil|]. by intros (_&?&_). }
    unfold rank.
    destruct (is_default kind l); [|destruct (is_own sid l); [|destruct (is_mine tok l)]];
      rewrite ?list_elem_of_singleton.
    - destruct (String.eqb_spec (default "" (o !! signature l)) "") as [Eo|Eo]; split.
      + intros [= Em]. repeat split; try done. exists 0%nat. split; [done|].
        intros [[_ H]|[_ H]]; congruence.
      + intros (_&_&n&[= <-]&Hn). f_equal.
        destruct (decide (default "" (m !! signature l) = "")) as [|Hm]; [done|].
        destruct Hn. right. split; [lia|done].
      + intros [= Eo']. congruence.
      + intros (_&_&n&[= <-]&Hn). destruct Hn. left. split; [lia|done].
    - split.
      + intros [= Em]. repeat split; try done. exists 1%nat. split; [done|].
        intros [[? H]|[_ H]]; [lia|congruence].
      + intros (_&_&n&[= <-]&Hn). f_equal.
        destruct (decide (default "" (m !! signature l) = "")) as [|Hm]; [done|].
        destruct Hn. right. split; [lia|done].
    - split; [|done]. intros _. repeat split; try done. exists 2%nat. split; [done|].
      intros [[? _]|[? _]]; lia.
    - split; [by intros ?%not_elem_of_nil|]. by intros (_&_&n&[=]&_). }
  split.
  - intros (x&Hin&Hx). apply Hrule in Hin as (->&He&Hn). done.
  - intros (Hl&He&Hn). exists l. split; [|done]. by apply Hrule.
Qed.

(** A session with a default and a rule of its own on the same methods. *)
Definition ex_default : Limit :=
  mkLimit "d" "session" (Some "user") None None ["@join"] 10 "day" None true 0.
Definition ex_own : Limit :=
  mkLimit "o" "session" None (Some "S") None ["@join"] 3 "day" None true 1.

Lemma Applicable_enforced_witness :
  mkApplied ex_own "" ∈ Applicable [ex_default; ex_own] "S" "user" "" ↔
  ex_own ∈ [ex_default; ex_own] ∧ l_enabled ex_own = true ∧
  ∃ n, rank "S" "user" "" ex_own = Some n ∧
       ¬ outranked [ex_default; ex_own] "S" "user" "" ex_own n.
Proof. apply (Applicable_enforced [ex_default; ex_own]). by repeat constructor. Defined.

Example default_replaced :
  Applicable [ex_default; ex_own] "S" "user" "" =
  [mkApplied ex_default "o"; mkApplied ex_own ""].
Proof. by vm_compute. Qed.

(** ** Lemmas on signatures *)

Lemma any_char_impl (P Q : ascii → bool) (s : string) :
  (∀ c, Q c = true → P c = true) → any_char P s = false → any_char Q s = false.
Proof.
  intros HPQ. induction s as [|c s IH]; simpl; [done|]. rewrite !orb_false_iff.
  intros [HP Hs]. split; [|by apply IH]. specialize (HPQ c).
  destruct (Q c); [|done]. rewrite HPQ in HP; done.
Qed.

Lemma ValidPattern_no_comma (p : string) : ValidPattern p = true → no_char "," p.
Proof.
  unfold ValidPattern. intros [[->%String.eqb_eq|Hg]%orb_true_iff|Hm]%orb_true_iff; [done| |].
  - assert (Hall : Forall (no_char ",") (groups.*2)) by (by repeat constructor).
    rewrite Forall_forall in Hall. by apply Hall, IsGroup_spec.
  - destruct p as [|c p]; [done|]. cbn [methodName] in Hm.
    apply andb_true_iff in Hm as [Hc Hp]. apply negb_true_iff in Hp.
    rewrite no_char_cons. split.
    + intros <-. by vm_compute in Hc.
    + revert Hp. apply any_char_impl. intros x Hx%Ascii.eqb_eq. by subst x.
Qed.

Lemma rule_shape_parts (l : Limit) :
  rule_shape l = true → l_methods l ≠ [] ∧ Forall (no_char ",") (l_methods l) ∧ no_char "|" (l_per l).
Proof.
  unfold rule_shape. intros [[Hn Hm]%andb_true_iff Hp]%andb_true_iff. split; [|split].
  - by destruct (l_methods l).
  - rewrite Forall_forall. intros p Hin. apply ValidPattern_no_comma.
    rewrite forallb_forall in Hm. apply Hm. by rewrite <- list_elem_of_In.
  - apply existsb_exists in Hp as (x&Hx&->%String.eqb_eq). simpl in Hx.
    by destruct Hx as [<-|[<-|[<-|[<-|[]]]]].
Qed.

(** Two rules of the shape the gateway admits have the same signature
    exactly when they count in the same window and list the same methods in
    some order: replacement never confuses rules that cover different calls,
    and never misses rules that cover the same. *)
Theorem signature_faithful (l1 l2 : Limit) :
  rule_shape l1 = true → rule_shape l2 = true →
  signature l1 = signature l2 ↔ l_per l1 = l_per l2 ∧ l_methods l1 ≡ₚ l_methods l2.
Proof.
  intros (Hn1&Hm1&Hp1)%rule_shape_parts (Hn2&Hm2&Hp2)%rule_shape_parts.
  unfold signature. split.
  - intros [Hp Heq]%app_sep_inj; [|done..]. split; [done|].
    apply sjoin_inj in Heq.
    + by rewrite <- (merge_sort_Permutation String.le (l_methods l1)), Heq, merge_sort_Permutation.
    + intros E. apply Hn1. apply Permutation_nil. rewrite <- E. apply merge_sort_Permutation.
    + intros E. apply Hn2. apply Permutation_nil. rewrite <- E. apply merge_sort_Permutation.
    + by rewrite merge_sort_Permutation.
    + by rewrite merge_sort_Permutation.
  - intros [-> Hperm]. do 3 f_equal.
    apply (Sorted_unique String.le); [apply Sorted_merge_sort, _..|].
    by rewrite !merge_sort_Permutation.
Qed.

Lemma signature_faithful_witness :
  signature (mkLimit "a" "session" (Some "user") None None ["@join"; "@send"] 1 "day" None true 0) =
  signature (mkLimit "b" "session" None (Some "S") None ["@send"; "@join"] 2 "day" None true 0) ↔
  "day" = "day" ∧ ["@join"; "@send"] ≡ₚ ["@send"; "@join"].
Proof.
  exact (signature_faithful
    (mkLimit "a" "session" (Some "user") None None ["@join"; "@send"] 1 "day" None true 0)
    (mkLimit "b" "session" None (Some "S") None ["@send"; "@join"] 2 "day" None true 0)
    eq_refl eq_refl).
Defined.

(** ** The package's own tests *)

Example test_scope :
  map Scope ["sendMessage"; "forwardMessages"; "searchPublicChat"; "getChatHistory"; "getMe"] =
  ["@send"; "@send"; "@resolve"; "@history"; "getMe"].
Proof. done. Qed.

Example test_patterns :
  forallb ValidPattern ["*"; "@send"; "@members"; "sendMessage"; "getChatHistory"] = true ∧
  existsb ValidPattern [""; "@nope"; "send*"; "wall.*"; "Send"; "send message"] = false.
Proof. by vm_compute. Qed.

Definition with_methods (ms : list string) : Limit :=
  mkLimit "" "" None None None ms 0 "" None false 0.

Example test_count :
  (Count (with_methods ["@send"]) "forwardMessages"
     (Some (JObj [("message_ids", JArr [JNum 1; JNum 2; JNum 3])])),
   Count (with_methods ["@send"]) "forwardMessages" (Some (JObj [("message_ids", JArr [])])),
   Count (with_methods ["*"]) "forwardMessages"
     (Some (JObj [("message_ids", JArr [JNum 1; JNum 2; JNum 3])])),
   Count (with_methods ["getChatHistory"]) "getChatHistory"
     (Some (JObj [("only_local", JBool true)])),
   Count (with_methods ["@contacts"]) "importContacts"
     (Some (JObj [("contacts", JArr [JObj []; JObj []; JObj []])]))) =
  (3, 1, 1, 0, 3)%nat.
Proof. by vm_compute. Qed.

(** Monday 2026-10-19 22:30:15 UTC: Tuesday 01:30 in Moscow. *)
Example test_window :
  let now := (1792449015 * second)%Z in
  (Window "minute" now, Window "day" now, Window "week" now) =
  ((1792449000 * second, 1792449060 * second),
   (1792443600 * second, 1792530000 * second),
   (1792357200 * second, 1792962000 * second))%Z.
Proof. by vm_compute. Qed.
