(* ===== verification/Db.v ===== *)
(** The registry database as migrations.go leaves it: one record of tables,
    each a finite map from primary keys to rows, with the statement forms the
    store package's SQL is written in. A statement sees the whole database and
    either changes it or fails and changes nothing, as in PostgreSQL. [now] is
    the statement's [now()]; ids are well-formed uuids (the driver refuses
    others before a statement runs); ids that a row's default generates are
    passed in. An outage is decided by the callers' models. *)

From S2P Require Import Prelude GoStr Json Types.


(** ** Errors of a statement *)

Inductive dberr :=
| DbForeignKey   (* 23503 *)
| DbUnique       (* 23505 *)
| DbCheck        (* 23514, 23502 *)
| DbRange        (* 22003: integer out of range *)
| DbNoRows       (* pgx.ErrNoRows *)
| DbDown.        (* no connection, cancelled, ... *)

#[export] Instance dberr_eq_dec : EqDecision dberr.
Proof. solve_decision. Defined.

(** ** Rows *)

(** [internal/store/migrations.go:37-43#tg_app] *)
Record app_row := mkApp {
  a_api_id : Z;
  a_hash_enc : string;
  a_label : option string;
  a_created : Z;
}.

(** [internal/store/migrations.go:45-54#proxy] *)
Record proxy_row := mkProxy {
  p_type : string;
  p_host : string;
  p_port : Z;
  p_username : option string;
  p_secret_enc : option string;
  p_label : option string;
  p_created : Z;
}.

(** Versions 4 and 6 add the last four columns. [last_seen_at], which no
    statement writes, is left out
    [internal/store/migrations.go:56-72#session]. *)
Record session_row := mkSession {
  s_kind : string;
  s_app : string;
  s_proxy : option string;
  s_phone : option string;
  s_bot_token_enc : option string;
  s_label : option string;
  s_status : string;
  s_db_dir : option string;
  s_db_key_enc : option string;
  s_worker : option string;
  s_created : Z;
  s_updated : Z;
  s_premium : option bool;
  s_frozen_at : option Z;
  s_deletion_at : option Z;
  s_appeal : option string;
}.

(** [internal/store/migrations.go:98-102#worker] *)
Record worker_row := mkWorker { w_addr : string; w_seen : Z }.

(** [internal/store/migrations.go:104-111#api_token] *)
Record token_row := mkToken {
  t_name : option string;
  t_hash : string;
  t_enabled : bool;
  t_all : bool;
  t_created : Z;
}.

(** Version 3 adds the owning token and the delivery status, and drops the
    uniqueness of (session, kind)
    [internal/store/migrations.go:75-84#update_subscription] *)
Record sub_row := mkSub {
  sb_session : string;
  sb_token : option string;
  sb_url : string;
  sb_secret_enc : option string;
  sb_filters : raw;
  sb_created : Z;
  sb_dropped : Z;
  sb_last_delivered : option Z;
  sb_last_error : option string;
  sb_last_error_at : option Z;
}.

(** Version 3 adds the subscription
    [internal/store/migrations.go:86-95#webhook_delivery] *)
Record delivery_row := mkDelivery {
  d_session : string;
  d_sub : string;
  d_payload : string;
  d_status : string;
  d_attempts : Z;
  d_next : Z;
  d_created : Z;
}.

(** [internal/store/migrations.go:131-141#sent_message] *)
Record sent_row := mkSent {
  sm_status : string;
  sm_final : option Z;
  sm_error : raw;
  sm_created : Z;
  sm_updated : Z;
}.

(** [internal/store/migrations.go:179-186#cooldown] *)
Record cooldown_row := mkCooldownRow {
  cd_until : Z;
  cd_reason : string;
  cd_created : Z;
}.

(** One window of a rule on one session [internal/store/limits.go#CounterKey]. *)
Record CounterKey := mkCounterKey {
  ck_limit : string;
  ck_bucket : string;
  ck_start : Z;
}.

#[export] Instance CounterKey_eq_dec : EqDecision CounterKey.
Proof. solve_decision. Defined.

#[export] Instance CounterKey_countable : Countable CounterKey.
Proof.
  refine (inj_countable' (λ k, (ck_limit k, ck_bucket k, ck_start k))
                         (λ x, mkCounterKey x.1.1 x.1.2 x.2) _).
  by intros [].
Defined.

(** ** Tables *)

Record db := mkDb {
  apps : gmap string app_row;
  proxies : gmap string proxy_row;
  sessions : gmap string session_row;
  workers : gmap string worker_row;
  tokens : gmap string token_row;
  token_apps : gset (string * string);
  token_sessions : gset (string * string);
  subs : gmap string sub_row;
  deliveries : gmap string delivery_row;
  sends : gmap (string * Z * Z) sent_row;
  cooldowns : gmap (string * string) cooldown_row;
  limits : gmap string Limit;
  counters : gmap CounterKey Z;
}.

Definition empty_db : db := mkDb ∅ ∅ ∅ ∅ ∅ ∅ ∅ ∅ ∅ ∅ ∅ ∅ ∅.

Definition with_apps f (d : db) := mkDb (f (apps d)) (proxies d) (sessions d) (workers d)
  (tokens d) (token_apps d) (token_sessions d) (subs d) (deliveries d) (sends d) (cooldowns d)
  (limits d) (counters d).
Definition with_proxies f (d : db) := mkDb (apps d) (f (proxies d)) (sessions d) (workers d)
  (tokens d) (token_apps d) (token_sessions d) (subs d) (deliveries d) (sends d) (cooldowns d)
  (limits d) (counters d).
Definition with_sessions f (d : db) := mkDb (apps d) (proxies d) (f (sessions d)) (workers d)
  (tokens d) (token_apps d) (token_sessions d) (subs d) (deliveries d) (sends d) (cooldowns d)
  (limits d) (counters d).
Definition with_workers f (d : db) := mkDb (apps d) (proxies d) (sessions d) (f (workers d))
  (tokens d) (token_apps d) (token_sessions d) (subs d) (deliveries d) (sends d) (cooldowns d)
  (limits d) (counters d).
Definition with_tokens f (d : db) := mkDb (apps d) (proxies d) (sessions d) (workers d)
  (f (tokens d)) (token_apps d) (token_sessions d) (subs d) (deliveries d) (sends d) (cooldowns d)
  (limits d) (counters d).
Definition with_token_apps f (d : db) := mkDb (apps d) (proxies d) (sessions d) (workers d)
  (tokens d) (f (token_apps d)) (token_sessions d) (subs d) (deliveries d) (sends d) (cooldowns d)
  (limits d) (counters d).
Definition with_token_sessions f (d : db) := mkDb (apps d) (proxies d) (sessions d) (workers d)
  (tokens d) (token_apps d) (f (token_sessions d)) (subs d) (deliveries d) (sends d) (cooldowns d)
  (limits d) (counters d).
Definition with_subs f (d : db) := mkDb (apps d) (proxies d) (sessions d) (workers d)
  (tokens d) (token_apps d) (token_sessions d) (f (subs d)) (deliveries d) (sends d) (cooldowns d)
  (limits d) (counters d).
Definition with_deliveries f (d : db) := mkDb (apps d) (proxies d) (sessions d) (workers d)
  (tokens d) (token_apps d) (token_sessions d) (subs d) (f (deliveries d)) (sends d) (cooldowns d)
  (limits d) (counters d).
Definition with_sends f (d : db) := mkDb (apps d) (proxies d) (sessions d) (workers d)
  (tokens d) (token_apps d) (token_sessions d) (subs d) (deliveries d) (f (sends d)) (cooldowns d)
  (limits d) (counters d).
Definition with_cooldowns f (d : db) := mkDb (apps d) (proxies d) (sessions d) (workers d)
  (tokens d) (token_apps d) (token_sessions d) (subs d) (deliveries d) (sends d) (f (cooldowns d))
  (limits d) (counters d).
Definition with_limits f (d : db) := mkDb (apps d) (proxies d) (sessions d) (workers d)
  (tokens d) (token_apps d) (token_sessions d) (subs d) (deliveries d) (sends d) (cooldowns d)
  (f (limits d)) (counters d).
Definition with_counters f (d : db) := mkDb (apps d) (proxies d) (sessions d) (workers d)
  (tokens d) (token_apps d) (token_sessions d) (subs d) (deliveries d) (sends d) (cooldowns d)
  (limits d) (f (counters d)).

(** ** Statement forms *)

(** [nullStr]: an empty string is stored as NULL
    [internal/store/store.go#nullStr]. *)
Definition nullStr (s : string) : option string :=
  if String.eqb s "" then None else Some s.

(** [COALESCE(x, '')]. *)
Definition coalesce (o : option string) : string := default "" o.

(** A key of a table: the referenced row of a foreign key exists. *)
Definition has {K A} `{Countable K} (k : K) (m : gmap K A) : bool := bool_decide (is_Some (m !! k)).

(** A nullable foreign key. *)
Definition has_opt {K A} `{Countable K} (o : option K) (m : gmap K A) : bool :=
  match o with Some k => has k m | None => true end.

(** Rows in the order of a key, ties in the order of the table's scan. *)
Definition le_by {A} (key : A → Z) : relation A := λ x y, (key x <= key y)%Z.

#[export] Instance le_by_dec {A} (key : A → Z) : RelDecision (le_by key).
Proof. intros x y. unfold le_by. apply _. Defined.
#[export] Instance le_by_trans {A} (key : A → Z) : Transitive (le_by key).
Proof. intros x y z. unfold le_by. lia. Qed.
#[export] Instance le_by_total {A} (key : A → Z) : Total (le_by key).
Proof. intros x y. unfold le_by. lia. Qed.

Definition order_by {A} (key : A → Z) (l : list A) : list A := merge_sort (le_by key) l.

(** The rows of a table that satisfy a condition. *)
Definition select {K A} `{Countable K} (P : K → A → bool) (m : gmap K A) : list (K * A) :=
  filter (λ kv, P kv.1 kv.2 = true) (map_to_list m).

(** [DELETE FROM m WHERE P]. *)
Definition delete_where {K A} `{Countable K} (P : K → A → bool) (m : gmap K A) : gmap K A :=
  filter (λ kv, P kv.1 kv.2 = false) m.

(** [UPDATE m SET f WHERE P]. *)
Definition update_where {K A} `{Countable K} (P : K → A → bool) (f : A → A) (m : gmap K A)
    : gmap K A :=
  map_imap (λ k v, Some (if P k v then f v else v)) m.

(** Rows removed by a [DELETE]. *)
Definition affected {K A} `{Countable K} (P : K → A → bool) (m : gmap K A) : nat :=
  length (select P m).

(** ** Cascades *)

(** Removing subscriptions takes their queued deliveries with them. *)
Definition delete_subs (P : string → sub_row → bool) (d : db) : db :=
  let gone id := match subs d !! id with Some s => P id s | None => false end in
  with_deliveries (delete_where (λ _ r, gone (d_sub r))) (with_subs (delete_where P) d).

(** Removing rules takes their counters with them. *)
Definition delete_limits (P : string → Limit → bool) (d : db) : db :=
  let gone id := match limits d !! id with Some l => P id l | None => false end in
  with_counters (delete_where (λ k _, gone (ck_limit k))) (with_limits (delete_where P) d).

Definition opt_eqb (o : option string) (s : string) : bool :=
  match o with Some x => String.eqb x s | None => false end.

(** Removing a session: subscriptions, deliveries, sends, cooldowns, grants
    and rules that refer to it go too. *)
Definition cascade_session (sid : string) (d : db) : db :=
  let d := with_sessions (delete sid) d in
  let d := with_token_sessions (filter (λ x, x.2 ≠ sid)) d in
  let d := delete_subs (λ _ s, String.eqb (sb_session s) sid) d in
  let d := with_deliveries (delete_where (λ _ r, String.eqb (d_session r) sid)) d in
  let d := with_sends (delete_where (λ k _, String.eqb k.1.1 sid)) d in
  let d := with_cooldowns (delete_where (λ k _, String.eqb k.1 sid)) d in
  delete_limits (λ _ l, opt_eqb (l_session l) sid) d.

(** Removing a token: its grants, subscriptions and rules go too. *)
Definition cascade_token (tid : string) (d : db) : db :=
  let d := with_tokens (delete tid) d in
  let d := with_token_apps (filter (λ x, x.1 ≠ tid)) d in
  let d := with_token_sessions (filter (λ x, x.1 ≠ tid)) d in
  let d := delete_subs (λ _ s, opt_eqb (sb_token s) tid) d in
  delete_limits (λ _ l, opt_eqb (l_token l) tid) d.

(** ** Referential integrity *)

(** What the schema's foreign keys and unique columns promise. *)
Record db_ok (d : db) : Prop := mkDbOk {
  ok_session : ∀ k s, sessions d !! k = Some s →
    is_Some (apps d !! s_app s) ∧ (∀ p, s_proxy s = Some p → is_Some (proxies d !! p));
  ok_token_app : ∀ t a, (t, a) ∈ token_apps d → is_Some (tokens d !! t) ∧ is_Some (apps d !! a);
  ok_token_session : ∀ t s, (t, s) ∈ token_sessions d →
    is_Some (tokens d !! t) ∧ is_Some (sessions d !! s);
  ok_sub : ∀ k s, subs d !! k = Some s →
    is_Some (sessions d !! sb_session s) ∧ (∀ t, sb_token s = Some t → is_Some (tokens d !! t));
  ok_delivery : ∀ k r, deliveries d !! k = Some r →
    is_Some (sessions d !! d_session r) ∧ is_Some (subs d !! d_sub r);
  ok_send : ∀ k r, sends d !! k = Some r → is_Some (sessions d !! k.1.1);
  ok_cooldown : ∀ k r, cooldowns d !! k = Some r → is_Some (sessions d !! k.1);
  ok_limit : ∀ k l, limits d !! k = Some l →
    (∀ s, l_session l = Some s → is_Some (sessions d !! s)) ∧
    (∀ t, l_token l = Some t → is_Some (tokens d !! t));
  ok_counter : ∀ k n, counters d !! k = Some n → is_Some (limits d !! ck_limit k);
  ok_db_dir : ∀ i j s t dir, sessions d !! i = Some s → sessions d !! j = Some t →
    s_db_dir s = Some dir → s_db_dir t = Some dir → i = j;
  ok_hash : ∀ i j s t, tokens d !! i = Some s → tokens d !! j = Some t → t_hash s = t_hash t → i = j;
}.

(** ** Lemmas on statement forms *)

Lemma has_spec {K A} `{Countable K} (k : K) (m : gmap K A) : has k m = true ↔ is_Some (m !! k).
Proof. unfold has. apply bool_decide_eq_true. Qed.

Lemma has_opt_spec {K A} `{Countable K} (o : option K) (m : gmap K A) :
  has_opt o m = true ↔ ∀ k, o = Some k → is_Some (m !! k).
Proof.
  destruct o as [k|]; simpl; [|naive_solver]. rewrite has_spec. naive_solver.
Qed.

Lemma opt_eqb_spec (o : option string) (s : string) : opt_eqb o s = true ↔ o = Some s.
Proof. destruct o; simpl; [rewrite String.eqb_eq; naive_solver|naive_solver]. Qed.

Lemma opt_eqb_false (o : option string) (s : string) : opt_eqb o s = false ↔ o ≠ Some s.
Proof. rewrite <- opt_eqb_spec. by destruct (opt_eqb o s). Qed.

Lemma lookup_delete_where {K A} `{Countable K} (P : K → A → bool) (m : gmap K A) (k : K) (a : A) :
  delete_where P m !! k = Some a ↔ m !! k = Some a ∧ P k a = false.
Proof. unfold delete_where. by rewrite map_lookup_filter_Some. Qed.

Lemma lookup_update_where {K A} `{Countable K} (P : K → A → bool) (f : A → A) (m : gmap K A) (k : K) :
  update_where P f m !! k = (λ v, if P k v then f v else v) <$> m !! k.
Proof. unfold update_where. rewrite map_lookup_imap. by destruct (m !! k). Qed.

Lemma elem_of_select {K A} `{Countable K} (P : K → A → bool) (m : gmap K A) (k : K) (a : A) :
  (k, a) ∈ select P m ↔ m !! k = Some a ∧ P k a = true.
Proof.
  unfold select. rewrite list_elem_of_filter, elem_of_map_to_list. simpl. tauto.
Qed.

Lemma NoDup_select {K A} `{Countable K} (P : K → A → bool) (m : gmap K A) :
  NoDup ((select P m).*1).
Proof.
  unfold select. pose proof (NoDup_fst_map_to_list m) as Hnd.
  induction (map_to_list m) as [|[k a] l IH]; [constructor|].
  simpl in Hnd. apply NoDup_cons in Hnd as [Hk Hnd]. rewrite filter_cons. simpl.
  destruct (decide _); simpl; [|by apply IH]. constructor; [|by apply IH].
  intros (x&->&Hx)%list_elem_of_fmap. apply Hk. apply list_elem_of_fmap.
  exists x. split; [done|]. by apply list_elem_of_filter in Hx as [_ ?].
Qed.

Lemma elem_of_order_by {A} (key : A → Z) (l : list A) (x : A) : x ∈ order_by key l ↔ x ∈ l.
Proof. unfold order_by. by rewrite merge_sort_Permutation. Qed.

Lemma order_by_sorted {A} (key : A → Z) (l : list A) :
  StronglySorted (le_by key) (order_by key l).
Proof. apply StronglySorted_merge_sort; apply _. Qed.

Lemma order_by_perm {A} (key : A → Z) (l : list A) : order_by key l ≡ₚ l.
Proof. apply merge_sort_Permutation. Qed.

Lemma is_Some_update_where {K A} `{Countable K} (P : K → A → bool) (f : A → A) (m : gmap K A) (k : K) :
  is_Some (update_where P f m !! k) ↔ is_Some (m !! k).
Proof. rewrite lookup_update_where. by rewrite fmap_is_Some. Qed.

Lemma is_Some_insert_mono {K A} `{Countable K} (m : gmap K A) (i j : K) (a : A) :
  is_Some (m !! j) → is_Some (<[i := a]> m !! j).
Proof. rewrite lookup_insert_is_Some'. tauto. Qed.

Lemma is_Some_alter {K A} `{Countable K} (f : A → A) (m : gmap K A) (i j : K) :
  is_Some (alter f i m !! j) ↔ is_Some (m !! j).
Proof. by rewrite lookup_alter_is_Some. Qed.

#[export] Hint Rewrite @has_spec @has_opt_spec @lookup_delete_where @lookup_update_where
  @elem_of_select @elem_of_order_by @is_Some_update_where @is_Some_alter
  opt_eqb_spec opt_eqb_false
  using typeclasses eauto : tg.
