(* ===== verification/Registry.v ===== *)
(** Apps, proxies, sessions and workers in the registry
    (internal/store/store.go): creation, listing, the login bookkeeping, and
    the ownership of sessions by workers. *)

From S2P Require Import Prelude GoStr Json Types Db.


(** ** Session row updates *)

Definition s_touch (now : Z) (s : session_row) : session_row :=
  mkSession (s_kind s) (s_app s) (s_proxy s) (s_phone s) (s_bot_token_enc s) (s_label s)
    (s_status s) (s_db_dir s) (s_db_key_enc s) (s_worker s) (s_created s) now
    (s_premium s) (s_frozen_at s) (s_deletion_at s) (s_appeal s).
Definition s_set_status (st : string) (s : session_row) : session_row :=
  mkSession (s_kind s) (s_app s) (s_proxy s) (s_phone s) (s_bot_token_enc s) (s_label s)
    st (s_db_dir s) (s_db_key_enc s) (s_worker s) (s_created s) (s_updated s)
    (s_premium s) (s_frozen_at s) (s_deletion_at s) (s_appeal s).
Definition s_set_worker (w : option string) (s : session_row) : session_row :=
  mkSession (s_kind s) (s_app s) (s_proxy s) (s_phone s) (s_bot_token_enc s) (s_label s)
    (s_status s) (s_db_dir s) (s_db_key_enc s) w (s_created s) (s_updated s)
    (s_premium s) (s_frozen_at s) (s_deletion_at s) (s_appeal s).
Definition s_set_db_dir (dir : option string) (s : session_row) : session_row :=
  mkSession (s_kind s) (s_app s) (s_proxy s) (s_phone s) (s_bot_token_enc s) (s_label s)
    (s_status s) dir (s_db_key_enc s) (s_worker s) (s_created s) (s_updated s)
    (s_premium s) (s_frozen_at s) (s_deletion_at s) (s_appeal s).
Definition s_set_label (l : option string) (s : session_row) : session_row :=
  mkSession (s_kind s) (s_app s) (s_proxy s) (s_phone s) (s_bot_token_enc s) l
    (s_status s) (s_db_dir s) (s_db_key_enc s) (s_worker s) (s_created s) (s_updated s)
    (s_premium s) (s_frozen_at s) (s_deletion_at s) (s_appeal s).
Definition s_set_proxy (p : option string) (s : session_row) : session_row :=
  mkSession (s_kind s) (s_app s) p (s_phone s) (s_bot_token_enc s) (s_label s)
    (s_status s) (s_db_dir s) (s_db_key_enc s) (s_worker s) (s_created s) (s_updated s)
    (s_premium s) (s_frozen_at s) (s_deletion_at s) (s_appeal s).

(** ** Apps and proxies *)

(** [internal/store/store.go#CreateApp] *)
Definition CreateApp (id : string) (now apiID : Z) (hashEnc label : string) (d : db)
    : res dberr (string * db) :=
  if has id (apps d) then Err DbUnique
  else Ok (id, with_apps <[id := mkApp apiID hashEnc (nullStr label) now]> d).

(** [internal/store/store.go#App] *)
Record App := mkAppOut { App_ID : string; App_APIID : Z; App_HashEnc : string; App_Label : string }.

(** [internal/store/store.go#GetApp] *)
Definition GetApp (id : string) (d : db) : res dberr App :=
  match apps d !! id with
  | Some a => Ok (mkAppOut id (a_api_id a) (a_hash_enc a) (coalesce (a_label a)))
  | None => Err DbNoRows
  end.

(** [internal/store/store.go#Proxy] *)
Record Proxy := mkProxyOut {
  Px_ID : string; Px_Type : string; Px_Host : string; Px_Port : Z;
  Px_Username : string; Px_SecretEnc : option string; Px_Label : string;
}.

Definition proxy_types : list string := ["socks5"; "http"; "mtproto"].

(** [internal/store/store.go#CreateProxy] *)
Definition CreateProxy (id : string) (now : Z) (p : Proxy) (d : db) : res dberr (string * db) :=
  if negb (existsb (String.eqb (Px_Type p)) proxy_types) then Err DbCheck
  else if has id (proxies d) then Err DbUnique
  else Ok (id, with_proxies <[id := mkProxy (Px_Type p) (Px_Host p) (Px_Port p)
    (nullStr (Px_Username p)) (Px_SecretEnc p) (nullStr (Px_Label p)) now]> d).

(** The label is not read back [internal/store/store.go#GetProxy]. *)
Definition GetProxy (id : string) (d : db) : res dberr Proxy :=
  match proxies d !! id with
  | Some p => Ok (mkProxyOut id (p_type p) (p_host p) (p_port p) (coalesce (p_username p))
                             (p_secret_enc p) "")
  | None => Err DbNoRows
  end.

(** [internal/store/store.go#UpdateAppLabel] *)
Definition UpdateAppLabel (id label : string) (d : db) : bool * db :=
  (has id (apps d),
   with_apps (alter (λ a, mkApp (a_api_id a) (a_hash_enc a) (nullStr label) (a_created a)) id) d).

(** [internal/store/store.go#UpdateProxyLabel] *)
Definition UpdateProxyLabel (id label : string) (d : db) : bool * db :=
  (has id (proxies d),
   with_proxies (alter (λ p, mkProxy (p_type p) (p_host p) (p_port p) (p_username p)
     (p_secret_enc p) (nullStr label) (p_created p)) id) d).

(** [internal/store/store.go#AppInfo] *)
Record AppInfo := mkAppInfo { ai_id : string; ai_api_id : Z; ai_label : string; ai_created : Z }.

(** [internal/store/store.go#ListApps] *)
Definition ListApps (d : db) : list AppInfo :=
  order_by ai_created
    (map (λ kv : string * app_row,
            mkAppInfo kv.1 (a_api_id kv.2) (coalesce (a_label kv.2)) (a_created kv.2))
         (map_to_list (apps d))).

(** [internal/store/store.go#ProxyInfo] *)
Record ProxyInfo := mkProxyInfo {
  pi_id : string; pi_type : string; pi_host : string; pi_port : Z;
  pi_username : string; pi_label : string; pi_created : Z;
}.

(** [internal/store/store.go#ListProxies] *)
Definition ListProxies (d : db) : list ProxyInfo :=
  order_by pi_created
    (map (λ kv : string * proxy_row,
            mkProxyInfo kv.1 (p_type kv.2) (p_host kv.2) (p_port kv.2) (coalesce (p_username kv.2))
                        (coalesce (p_label kv.2)) (p_created kv.2))
         (map_to_list (proxies d))).

(** ** Sessions *)

(** [internal/store/store.go#NewSession] *)
Record NewSession := mkNewSession {
  ns_kind : string; ns_app : string; ns_proxy : string; ns_phone : string;
  ns_bot_token_enc : option string; ns_db_key_enc : option string; ns_label : string;
}.

Definition session_kinds : list string := ["user"; "bot"].

(** [internal/store/store.go#CreateSession] *)
Definition CreateSession (id : string) (now : Z) (n : NewSession) (d : db)
    : res dberr (string * db) :=
  if negb (existsb (String.eqb (ns_kind n)) session_kinds) then Err DbCheck
  else if has id (sessions d) then Err DbUnique
  else if negb (has (ns_app n) (apps d) && has_opt (nullStr (ns_proxy n)) (proxies d))
  then Err DbForeignKey
  else Ok (id, with_sessions <[id := mkSession (ns_kind n) (ns_app n) (nullStr (ns_proxy n))
    (nullStr (ns_phone n)) (ns_bot_token_enc n) (nullStr (ns_label n)) "connecting" None
    (ns_db_key_enc n) None now now None None None None]> d).

(** [internal/store/store.go#Rehydratable] *)
Record Rehydratable := mkRehydratable {
  rh_id : string; rh_kind : string; rh_app : string; rh_proxy : string;
  rh_db_dir : string; rh_db_key_enc : string;
}.

(** The directory of another session is refused: db_dir is unique
    [internal/store/store.go#SetSessionDBDir]. *)
Definition SetSessionDBDir (now : Z) (id dir : string) (d : db) : res dberr db :=
  if has id (sessions d) &&
     bool_decide (select (λ k s, negb (String.eqb k id) && opt_eqb (s_db_dir s) dir) (sessions d) ≠ [])
  then Err DbUnique
  else Ok (with_sessions (alter (s_touch now ∘ s_set_db_dir (Some dir)) id) d).

(** [internal/store/store.go#UpdateSessionStatus] *)
Definition UpdateSessionStatus (now : Z) (id status : string) (d : db) : db :=
  with_sessions (alter (s_touch now ∘ s_set_status status) id) d.

Definition waiting_statuses : list string := ["connecting"; "awaiting_code"; "awaiting_password"].

Definition waiting (s : session_row) : bool := existsb (String.eqb (s_status s)) waiting_statuses.

Definition pending_for (phone : string) (s : session_row) : bool :=
  String.eqb (s_kind s) "user" && opt_eqb (s_phone s) phone && waiting s.

(** The newest unfinished login for a phone
    [internal/store/store.go#PendingUserLogin]. *)
Definition PendingUserLogin (phone : string) (d : db) : option string :=
  fst <$> head (order_by (λ kv, - s_created kv.2)%Z (select (λ _ s, pending_for phone s) (sessions d))).

(** Whether some worker is seen at or after the cutoff. *)
Definition alive_since (d : db) (cutoff : Z) (w : option string) : bool :=
  match w with
  | Some w => match workers d !! w with Some r => (cutoff <=? w_seen r)%Z | None => false end
  | None => false
  end.

Definition stale_login (d : db) (aliveCutoff grace now : Z) (s : session_row) : bool :=
  waiting s && (s_updated s <? now - grace)%Z && negb (alive_since d aliveCutoff (s_worker s)).

(** [internal/store/store.go#ExpireStaleLogins] *)
Definition ExpireStaleLogins (now aliveCutoff grace : Z) (d : db) : nat * db :=
  let P := λ (_ : string) s, stale_login d aliveCutoff grace now s in
  (affected P (sessions d),
   with_sessions (update_where P (s_touch now ∘ s_set_status "expired")) d).

(** Only the fields given are written; an empty proxy clears it
    [internal/store/store.go#UpdateSessionMeta]. *)
Definition UpdateSessionMeta (now : Z) (id : string) (label proxyID : option string) (d : db)
    : res dberr (bool * db) :=
  match label, proxyID with
  | None, None => Ok (true, d)
  | _, _ =>
      let fk := match proxyID with
                | Some p => has_opt (nullStr p) (proxies d)
                | None => true
                end in
      if has id (sessions d) && negb fk then Err DbForeignKey
      else
        let set := λ s,
          let s := match label with Some l => s_set_label (nullStr l) s | None => s end in
          let s := match proxyID with Some p => s_set_proxy (nullStr p) s | None => s end in
          s_touch now s in
        Ok (has id (sessions d), with_sessions (alter set id) d)
  end.

(** [internal/store/store.go#DeleteSession] *)
Definition DeleteSession (id : string) (d : db) : option string * db :=
  match sessions d !! id with
  | Some s => (Some (coalesce (s_db_dir s)), cascade_session id d)
  | None => (None, d)
  end.

(** ** Workers and ownership *)

(** [internal/store/store.go#RegisterWorker] *)
Definition RegisterWorker (now : Z) (id addr : string) (d : db) : db :=
  with_workers <[id := mkWorker addr now]> d.

(** [internal/store/store.go#SetSessionOwner] *)
Definition SetSessionOwner (now : Z) (sid wid : string) (d : db) : db :=
  with_sessions (alter (s_touch now ∘ s_set_worker (Some wid)) sid) d.

(** Whether a worker was seen after the cutoff. *)
Definition live (d : db) (cutoff : Z) (w : string) : bool :=
  match workers d !! w with Some r => (cutoff <? w_seen r)%Z | None => false end.

Definition live_opt (d : db) (cutoff : Z) (w : option string) : bool :=
  match w with Some w => live d cutoff w | None => false end.

Definition is_set {A} (o : option A) : bool := match o with Some _ => true | None => false end.

(** A session that can be reopened from disk. *)
Definition hydratable (s : session_row) : bool :=
  String.eqb (s_status s) "authorized" && is_set (s_db_dir s) && is_set (s_db_key_enc s).

(** An authorized session nobody live owns. *)
Definition orphan (d : db) (cutoff : Z) (s : session_row) : bool :=
  hydratable s && negb (live_opt d cutoff (s_worker s)).

Definition to_rehydratable (kv : string * session_row) : Rehydratable :=
  mkRehydratable kv.1 (s_kind kv.2) (s_app kv.2) (coalesce (s_proxy kv.2))
    (coalesce (s_db_dir kv.2)) (coalesce (s_db_key_enc kv.2)).

(** The rows one claim takes: [locked] are those a concurrent claim holds. *)
Definition claim_rows (locked : gset string) (cutoff : Z) (limit : nat) (d : db)
    : list (string * session_row) :=
  take limit (order_by (λ kv, s_updated kv.2)
    (select (λ k s, orphan d cutoff s && bool_decide (k ∉ locked)) (sessions d))).

(** [internal/store/store.go#ClaimOrphans] *)
Definition ClaimOrphans (now : Z) (locked : gset string) (wid : string) (cutoff : Z) (limit : nat)
    (d : db) : list Rehydratable * db :=
  let rows := claim_rows locked cutoff limit d in
  (map to_rehydratable rows,
   with_sessions (update_where (λ k _, bool_decide (k ∈ rows.*1))
                               (s_touch now ∘ s_set_worker (Some wid))) d).

(** Kind and live owner's address of a session
    [internal/store/store.go#SessionRoute]. *)
Definition SessionRoute (sid : string) (cutoff : Z) (d : db) : option (string * string) :=
  match sessions d !! sid with
  | None => None
  | Some s =>
      Some (s_kind s,
            match s_worker s with
            | Some w => match workers d !! w with
                        | Some r => if (cutoff <? w_seen r)%Z then w_addr r else ""
                        | None => ""
                        end
            | None => ""
            end)
  end.

Definition authorized (s : session_row) : bool := String.eqb (s_status s) "authorized".

Definition owned_authorized (wid : string) (s : session_row) : bool :=
  opt_eqb (s_worker s) wid && authorized s.

(** [internal/store/store.go#ReleaseSessions] *)
Definition ReleaseSessions (now : Z) (wid : string) (d : db) : nat * db :=
  let P := λ (_ : string) s, owned_authorized wid s in
  (affected P (sessions d), with_sessions (update_where P (s_touch now ∘ s_set_worker None)) d).

(** [internal/store/store.go#DeregisterWorker] *)
Definition DeregisterWorker (wid : string) (d : db) : db := with_workers (delete wid) d.

(** [internal/store/store.go#WorkerLoad] *)
Definition WorkerLoad (wid : string) (cutoff : Z) (d : db) : nat * nat * nat :=
  (affected (λ _ s, owned_authorized wid s) (sessions d),
   affected (λ _ s, authorized s) (sessions d),
   affected (λ _ w, (cutoff <? w_seen w)%Z) (workers d)).

(** [internal/store/store.go#ListOwned] *)
Definition ListOwned (wid : string) (d : db) : list Rehydratable :=
  map to_rehydratable (select (λ _ s, opt_eqb (s_worker s) wid && hydratable s) (sessions d)).

(** [internal/store/store.go#ForeignOwned] *)
Definition ForeignOwned (wid : string) (ids : list string) (cutoff : Z) (d : db) : list string :=
  if bool_decide (ids = []) then []
  else (select (λ k s, bool_decide (k ∈ ids) &&
          match s_worker s with
          | Some w => negb (String.eqb w wid) && live d cutoff w
          | None => false
          end) (sessions d)).*1.

(** [internal/store/store.go#ReleaseSession] *)
Definition ReleaseSession (now : Z) (sid : string) (d : db) : db :=
  with_sessions (alter (s_touch now ∘ s_set_worker None) sid) d.

(** [internal/store/store.go#PurgeWorkers] *)
Definition PurgeWorkers (before : Z) (d : db) : nat * db :=
  let P := λ (_ : string) w, (w_seen w <? before)%Z in
  (affected P (workers d), with_workers (delete_where P) d).

(** Least loaded first, then the one seen last. *)
Definition worker_before (d : db) : relation (string * worker_row) := λ x y,
  let load w := affected (λ _ s, owned_authorized w s) (sessions d) in
  (load x.1 < load y.1 ∨ load x.1 = load y.1 ∧ (w_seen y.2 <= w_seen x.2)%Z)%nat.

#[export] Instance worker_before_dec d : RelDecision (worker_before d).
Proof. intros x y. unfold worker_before. apply _. Defined.

(** [internal/store/store.go#PickWorker] *)
Definition PickWorker (cutoff : Z) (d : db) : string :=
  match head (merge_sort (worker_before d) (select (λ _ w, (cutoff <? w_seen w)%Z) (workers d))) with
  | Some kv => w_addr kv.2
  | None => ""
  end.

(** [internal/store/store.go#WorkerInfo] *)
Record WorkerInfo := mkWorkerInfo {
  wi_id : string; wi_addr : string; wi_seen : Z; wi_alive : bool; wi_sessions : nat;
}.

Definition le_id : relation WorkerInfo := λ x y, String.le (wi_id x) (wi_id y).
#[export] Instance le_id_dec : RelDecision le_id.
Proof. intros x y. unfold le_id. apply _. Defined.

(** [internal/store/store.go#ListWorkers] *)
Definition ListWorkers (cutoff : Z) (d : db) : list WorkerInfo :=
  merge_sort le_id
    (map (λ kv : string * worker_row,
            mkWorkerInfo kv.1 (w_addr kv.2) (w_seen kv.2) (cutoff <? w_seen kv.2)%Z
              (affected (λ _ s, owned_authorized kv.1 s) (sessions d)))
         (map_to_list (workers d))).

(** ** Session listings *)

(** [internal/store/store.go#SessionInfo] *)
Record SessionInfo := mkSessionInfo {
  si_id : string; si_kind : string; si_status : string; si_phone : string; si_label : string;
  si_worker : string; si_created : Z; si_app : string; si_app_label : string;
  si_proxy_id : string; si_proxy : string;
  si_premium : option bool; si_frozen : bool; si_spam_limited : bool;
}.

(** One row of the shared projection
    [internal/store/store.go:296-305#sessionListSQL]. *)
Definition session_info (now : Z) (d : db) (kv : string * session_row) : SessionInfo :=
  let s := kv.2 in
  mkSessionInfo kv.1 (s_kind s) (s_status s) (coalesce (s_phone s)) (coalesce (s_label s))
    (coalesce (s_worker s)) (s_created s) (s_app s)
    (match apps d !! s_app s with Some a => coalesce (a_label a) | None => "" end)
    (coalesce (s_proxy s))
    (match s_proxy s ≫= λ p, proxies d !! p with
     | Some p => p_type p +:+ " " +:+ p_host p +:+ ":" +:+ itoa (p_port p)
     | None => ""
     end)
    (s_premium s) (is_set (s_frozen_at s))
    (match cooldowns d !! (kv.1, SpamLimitScope) with
     | Some c => (now <? cd_until c)%Z
     | None => false
     end).

(** [internal/store/store.go#querySessions] *)
Definition querySessions (now : Z) (P : string → session_row → bool) (d : db) : list SessionInfo :=
  order_by si_created (map (session_info now d) (select P (sessions d))).

(** [internal/store/store.go#ListSessions] *)
Definition ListSessions (now : Z) (d : db) : list SessionInfo :=
  querySessions now (λ _ _, true) d.

(** ** Lemmas *)

Lemma live_opt_spec (d : db) (cutoff : Z) (w : option string) :
  live_opt d cutoff w = true ↔
  ∃ id r, w = Some id ∧ workers d !! id = Some r ∧ (cutoff < w_seen r)%Z.
Proof.
  unfold live_opt, live. destruct w as [id|]; [|naive_solver].
  destruct (workers d !! id) as [r|] eqn:E; rewrite ?Z.ltb_lt; naive_solver.
Qed.

Lemma claim_rows_spec (locked : gset string) (cutoff : Z) (limit : nat) (d : db) :
  let all := select (λ k s, orphan d cutoff s && bool_decide (k ∉ locked)) (sessions d) in
  let rows := claim_rows locked cutoff limit d in
  rows ⊆ all ∧ NoDup rows.*1 ∧ length rows = Nat.min limit (length all).
Proof.
  intros all rows. subst rows. unfold claim_rows. fold all. split; [|split].
  - intros x Hx%take_subseteq. by rewrite elem_of_order_by in Hx.
  - rewrite fmap_take. apply NoDup_take. rewrite order_by_perm. apply NoDup_select.
  - rewrite length_take. by rewrite order_by_perm.
Qed.

Lemma ids_to_rehydratable (l : list (string * session_row)) :
  rh_id <$> map to_rehydratable l = l.*1.
Proof.
  induction l as [|[k s] l IH]; [done|]. exact (f_equal (cons k) IH).
Qed.

Lemma ClaimOrphans_session now locked wid cutoff limit d k :
  sessions (ClaimOrphans now locked wid cutoff limit d).2 !! k =
  (if decide (k ∈ (claim_rows locked cutoff limit d).*1)
   then s_touch now ∘ s_set_worker (Some wid) else id) <$> sessions d !! k.
Proof.
  unfold ClaimOrphans. simpl. rewrite lookup_update_where.
  destruct (decide _) as [Hk|Hk].
  - by rewrite bool_decide_eq_true_2.
  - rewrite bool_decide_eq_false_2 by done. by destruct (sessions d !! k).
Qed.

Lemma claim_row_orphan locked cutoff limit d k :
  k ∈ (claim_rows locked cutoff limit d).*1 →
  ∃ s, sessions d !! k = Some s ∧ orphan d cutoff s = true ∧ k ∉ locked ∧
       (k, s) ∈ claim_rows locked cutoff limit d.
Proof.
  intros ([k' s]&->&Hx)%list_elem_of_fmap. exists s.
  destruct (claim_rows_spec locked cutoff limit d) as (Hsub&_&_).
  pose proof (Hsub _ Hx) as Hs. apply elem_of_select in Hs as [Hs Ho].
  apply andb_true_iff in Ho as [Ho Hl%bool_decide_eq_true]. done.
Qed.

(** What a claim takes. Every session it returns was authorized, on disk,
    held by no live worker and by no concurrent claim, and is now owned by the
    claimer; every other session is untouched; no session is returned twice;
    and as many are returned as there are to claim, up to the limit. *)
Theorem ClaimOrphans_spec now locked wid cutoff limit d :
  let out := ClaimOrphans now locked wid cutoff limit d in
  (∀ k, k ∈ rh_id <$> out.1 → ∃ s, sessions d !! k = Some s ∧ hydratable s = true ∧
     live_opt d cutoff (s_worker s) = false ∧ k ∉ locked ∧
     to_rehydratable (k, s) ∈ out.1 ∧
     sessions out.2 !! k = Some (s_touch now (s_set_worker (Some wid) s))) ∧
  (∀ k, k ∉ rh_id <$> out.1 → sessions out.2 !! k = sessions d !! k) ∧
  NoDup (rh_id <$> out.1) ∧
  length out.1 = Nat.min limit
    (affected (λ k s, orphan d cutoff s && bool_decide (k ∉ locked)) (sessions d)).
Proof.
  intros out. set (rows := claim_rows locked cutoff limit d).
  assert (Hout : out.1 = map to_rehydratable rows) by done.
  destruct (claim_rows_spec locked cutoff limit d) as (_&Hnd&Hlen).
  rewrite Hout, ids_to_rehydratable. repeat split.
  - intros k Hk. destruct (claim_row_orphan _ _ _ _ _ Hk) as (s&Hs&Ho&Hl&Hin).
    exists s. unfold orphan in Ho. apply andb_true_iff in Ho as [Hh Hlv%negb_true_iff].
    repeat split; try done.
    + by apply list_elem_of_fmap_2.
    + subst out. rewrite ClaimOrphans_session, decide_True by done. by rewrite Hs.
  - intros k Hk. subst out. rewrite ClaimOrphans_session, decide_False by done.
    by destruct (sessions d !! k).
  - done.
  - by rewrite length_map.
Qed.

(** Ownership is exclusive. Once a worker that is alive has claimed a
    session, no later claim by any worker takes it, and requests for it are
    routed to the claimer for as long as it is alive. *)
Theorem claims_exclusive now1 now2 l1 l2 w1 w2 c1 c2 n1 n2 d r :
  workers d !! w1 = Some r → (c2 < w_seen r)%Z →
  let o1 := ClaimOrphans now1 l1 w1 c1 n1 d in
  let o2 := ClaimOrphans now2 l2 w2 c2 n2 o1.2 in
  ∀ k, k ∈ rh_id <$> o1.1 →
    k ∉ rh_id <$> o2.1 ∧
    ∃ kind, SessionRoute k c2 o2.2 = Some (kind, w_addr r).
Proof.
  intros Hw Hc o1 o2 k Hk.
  assert (Hk1 : k ∈ (claim_rows l1 c1 n1 d).*1) by (by rewrite <- ids_to_rehydratable).
  destruct (claim_row_orphan _ _ _ _ _ Hk1) as (s&Hs&_&_&_).
  assert (Hs1 : sessions o1.2 !! k = Some (s_touch now1 (s_set_worker (Some w1) s))).
  { subst o1. rewrite ClaimOrphans_session, decide_True by done. by rewrite Hs. }
  assert (Hno : k ∉ (claim_rows l2 c2 n2 o1.2).*1).
  { intros Hk2. destruct (claim_row_orphan _ _ _ _ _ Hk2) as (s2&Hs2&Ho&_&_).
    rewrite Hs1 in Hs2. injection Hs2 as <-. unfold orphan in Ho.
    apply andb_true_iff in Ho as [_ Ho%negb_true_iff].
    assert (live_opt o1.2 c2 (Some w1) = true); [|simpl in *; congruence].
    apply live_opt_spec. exists w1, r. done. }
  split; [change o2.1 with (map to_rehydratable (claim_rows l2 c2 n2 o1.2));
          by rewrite ids_to_rehydratable|].
  exists (s_kind s). unfold SessionRoute. subst o2.
  rewrite ClaimOrphans_session, decide_False by done. rewrite Hs1. simpl. rewrite Hw.
  by rewrite (proj2 (Z.ltb_lt _ _) Hc).
Qed.

Definition ex_session : session_row :=
  mkSession "user" "app" None (Some "+1") None None "authorized" (Some "/d") (Some "key")
    None 0 0 None None None None.
Definition ex_db : db :=
  with_workers (λ _, {["w1" := mkWorker "http://w1" 100]})
    (with_sessions (λ _, {["s" := ex_session]}) empty_db).

Lemma claims_exclusive_witness :
  "s" ∉ rh_id <$> (ClaimOrphans 2 ∅ "w2" 50 5 (ClaimOrphans 1 ∅ "w1" 0 5 ex_db).2).1 ∧
  ∃ kind, SessionRoute "s" 50 (ClaimOrphans 2 ∅ "w2" 50 5 (ClaimOrphans 1 ∅ "w1" 0 5 ex_db).2).2
          = Some (kind, "http://w1").
Proof.
  apply (claims_exclusive 1 2 ∅ ∅ "w1" "w2" 0 50 5 5 ex_db (mkWorker "http://w1" 100)).
  - by vm_compute.
  - by vm_compute.
  - by left.
Defined.

(** A request reaches the live owner and nobody else. The route of a
    session is its kind with the owner's address when the owner was seen after
    the cutoff, the kind alone when there is no such owner, and nothing exactly
    when there is no such session. *)
Theorem SessionRoute_spec sid cutoff d :
  match SessionRoute sid cutoff d with
  | None => sessions d !! sid = None
  | Some (kind, addr) => ∃ s, sessions d !! sid = Some s ∧ kind = s_kind s ∧
      ((live_opt d cutoff (s_worker s) = false ∧ addr = "") ∨
       ∃ w r, s_worker s = Some w ∧ workers d !! w = Some r ∧ (cutoff < w_seen r)%Z ∧
              addr = w_addr r)
  end.
Proof.
  unfold SessionRoute. destruct (sessions d !! sid) as [s|] eqn:E; [|done].
  exists s. split; [done|]. split; [done|]. unfold live_opt, live.
  destruct (s_worker s) as [w|]; [|by left].
  destruct (workers d !! w) as [r|] eqn:Ew; [|by left].
  destruct (Z.ltb_spec cutoff (w_seen r)); [|by left]. right. by exists w, r.
Qed.

(** ** Logins *)

Lemma head_order_by {A} (key : A → Z) (l : list A) (x : A) :
  head (order_by key l) = Some x → x ∈ l ∧ ∀ y, y ∈ l → (key x <= key y)%Z.
Proof.
  pose proof (order_by_sorted key l) as Hs. intros Hx.
  destruct (order_by key l) as [|z zs] eqn:E; [done|]. injection Hx as ->.
  assert (Hin : ∀ y, y ∈ l ↔ y ∈ x :: zs) by (intros y; by rewrite <- E, elem_of_order_by).
  split; [apply Hin, list_elem_of_here|]. intros y Hy%Hin.
  apply StronglySorted_inv in Hs as [_ Hall]. rewrite Forall_forall in Hall.
  apply elem_of_cons in Hy as [->|Hy]; [lia|]. by apply Hall.
Qed.

Lemma PendingUserLogin_cases phone d :
  match PendingUserLogin phone d with
  | Some id => ∃ s, sessions d !! id = Some s ∧ pending_for phone s = true ∧
      ∀ id' s', sessions d !! id' = Some s' → pending_for phone s' = true →
        (s_created s' <= s_created s)%Z
  | None => ∀ id s, sessions d !! id = Some s → pending_for phone s = false
  end.
Proof.
  unfold PendingUserLogin.
  destruct (head _) as [[id s]|] eqn:E; simpl.
  - apply head_order_by in E as [[Hs Hp]%elem_of_select Hmin]. exists s.
    repeat split; [done..|]. intros id' s' Hs' Hp'.
    assert (Hin : (id', s') ∈ select (λ _ s, pending_for phone s) (sessions d))
      by (by apply elem_of_select).
    apply Hmin in Hin. simpl in Hin. lia.
  - apply head_None in E. intros id s Hs. destruct (pending_for phone s) eqn:Hp; [|done].
    assert (Hin : (id, s) ∈ order_by (λ kv, (- s_created kv.2)%Z)
              (select (λ _ s, pending_for phone s) (sessions d)))
      by (by apply elem_of_order_by, elem_of_select).
    rewrite E in Hin. by apply not_elem_of_nil in Hin.
Qed.

Lemma ExpireStaleLogins_session now cutoff grace d k :
  sessions (ExpireStaleLogins now cutoff grace d).2 !! k =
  (λ s, if stale_login d cutoff grace now s then s_touch now (s_set_status "expired" s) else s)
    <$> sessions d !! k.
Proof. unfold ExpireStaleLogins. simpl. by rewrite lookup_update_where. Qed.

Lemma pending_expired phone now s :
  pending_for phone (s_touch now (s_set_status "expired" s)) = false.
Proof. unfold pending_for, waiting. simpl. by rewrite !andb_false_r. Qed.

(** After stale logins are written off, a phone is pointed back only at a
    login that can still be answered: the newest of its waiting logins that are
    recent or whose owner is alive, and none when every waiting login of the
    phone was stale. *)
Theorem login_after_expiry phone now cutoff grace d :
  match PendingUserLogin phone (ExpireStaleLogins now cutoff grace d).2 with
  | Some id => ∃ s, sessions d !! id = Some s ∧ pending_for phone s = true ∧
      ((now - grace <= s_updated s)%Z ∨ alive_since d cutoff (s_worker s) = true) ∧
      ∀ id' s', sessions d !! id' = Some s' → pending_for phone s' = true →
        stale_login d cutoff grace now s' = false → (s_created s' <= s_created s)%Z
  | None => ∀ id s, sessions d !! id = Some s → pending_for phone s = true →
      stale_login d cutoff grace now s = true
  end.
Proof.
  pose proof (PendingUserLogin_cases phone (ExpireStaleLogins now cutoff grace d).2) as H.
  destruct (PendingUserLogin _ _) as [id|].
  - destruct H as (s'&Hs'&Hp&Hmax). rewrite ExpireStaleLogins_session in Hs'.
    apply fmap_Some in Hs' as (s&Hs&->). exists s.
    destruct (stale_login d cutoff grace now s) eqn:Est.
    { by rewrite pending_expired in Hp. }
    repeat split; [done..| |].
    + unfold stale_login in Est. assert (Hw : waiting s = true).
      { unfold pending_for in Hp. by apply andb_true_iff in Hp as [_ ?]. }
      rewrite Hw in Est. bool_props. naive_solver lia.
    + intros id' t Ht Hpt Hst. apply (Hmax id'); [|done].
      rewrite ExpireStaleLogins_session, Ht. simpl. by rewrite Hst.
  - intros id s Hs Hp. destruct (stale_login d cutoff grace now s) eqn:Est; [done|].
    specialize (H id s). rewrite ExpireStaleLogins_session, Hs in H. simpl in H.
    rewrite Est in H. by rewrite H in Hp.
Qed.
