(* ===== verification/Counters.v ===== *)
(** The operator's rules and their counters in the registry
    (internal/store/limits.go): rule management, and counting a call against
    all its rules at once in one transaction. *)

From S2P Require Import Prelude GoStr Json Types Db.


(** ** Rules *)

Inductive limit_err :=
| ErrLimitTarget
| LimitDb (e : dberr).

Definition limit_levels : list string := ["session"; "token"].
Definition limit_pers : list string := ["minute"; "hour"; "day"; "week"].

(** The table's CHECK constraints and the int4 column
    [internal/store/migrations.go:194-206#rate_limit]. *)
Definition limit_checks (l : Limit) : bool :=
  existsb (String.eqb (l_level l)) limit_levels &&
  match l_kind l with
  | Some k => existsb (String.eqb k) ["user"; "bot"]
  | None => true
  end &&
  (0 <? l_max l)%Z && existsb (String.eqb (l_per l)) limit_pers.

(** [internal/store/limits.go#CreateLimit] *)
Definition CreateLimit (id : string) (now : Z) (l : Limit) (d : db) : res limit_err (Limit * db) :=
  let l := mkLimit id (l_level l) (l_kind l) (l_session l) (l_token l) (l_methods l) (l_max l)
                   (l_per l) (l_label l) (l_enabled l) now in
  if negb (in_int32 (l_max l)) then Err (LimitDb DbRange)
  else if negb (limit_checks l) then Err (LimitDb DbCheck)
  else if has id (limits d) then Err (LimitDb DbUnique)
  else if negb (has_opt (l_session l) (sessions d) && has_opt (l_token l) (tokens d))
  then Err ErrLimitTarget
  else Ok (l, with_limits <[id := l]> d).

(** [internal/store/limits.go#GetLimit] *)
Definition GetLimit (id : string) (d : db) : option Limit := limits d !! id.

(** [internal/store/limits.go#ListLimits] *)
Definition ListLimits (d : db) : list Limit :=
  order_by l_created (map snd (map_to_list (limits d))).

(** [internal/store/limits.go#UpdateLimit] *)
Definition UpdateLimit (l : Limit) (d : db) : res dberr (Limit * db) :=
  match limits d !! l_id l with
  | None => Err DbNoRows
  | Some o =>
      let n := mkLimit (l_id o) (l_level o) (l_kind o) (l_session o) (l_token o) (l_methods l)
                       (l_max l) (l_per l) (l_label l) (l_enabled l) (l_created o) in
      if negb (in_int32 (l_max l)) then Err DbRange
      else if negb (limit_checks n) then Err DbCheck
      else Ok (n, with_limits <[l_id l := n]> d)
  end.

(** [internal/store/limits.go#DeleteLimit] *)
Definition DeleteLimit (id : string) (d : db) : bool * db :=
  (has id (limits d), delete_limits (λ k _, String.eqb k id) d).

(** ** Counters *)

(** [internal/store/limits.go#CounterUse] *)
Record CounterUse := mkUse { cu_key : CounterKey; cu_n : Z; cu_max : Z }.

(** The statement for one use, on the counters of its transaction: [None] when
    it affects no row. Parameters and sums are int4
    [internal/store/limits.go:123-130#TakeCounters]. *)
Definition take_one (rules : gmap string Limit) (m : gmap CounterKey Z) (u : CounterUse)
    : res dberr (option (gmap CounterKey Z)) :=
  if negb (in_int32 (cu_n u) && in_int32 (cu_max u)) then Err DbRange
  else if negb (cu_n u <=? cu_max u)%Z then Ok None
  else match m !! cu_key u with
       | Some c =>
           if negb (in_int32 (c + cu_n u)) then Err DbRange
           else if (c + cu_n u <=? cu_max u)%Z then Ok (Some (<[cu_key u := (c + cu_n u)%Z]> m))
           else Ok None
       | None =>
           if has (ck_limit (cu_key u)) rules then Ok (Some (<[cu_key u := cu_n u]> m))
           else Err DbForeignKey
       end.

(** The transaction's loop: the index of the first use that does not fit, or
    the counters to commit. *)
Fixpoint take_loop (rules : gmap string Limit) (i : nat) (uses : list CounterUse)
    (m : gmap CounterKey Z) : res dberr (nat + gmap CounterKey Z) :=
  match uses with
  | [] => Ok (inr m)
  | u :: uses =>
      let! r := take_one rules m u in
      match r with
      | None => Ok (inl i)
      | Some m => take_loop rules (S i) uses m
      end
  end.

(** -1 when all are counted; otherwise, and on an error, the transaction is
    rolled back [internal/store/limits.go#TakeCounters]. *)
Definition TakeCounters (uses : list CounterUse) (d : db) : res dberr (Z * db) :=
  let! r := take_loop (limits d) 0 uses (counters d) in
  match r with
  | inl i => Ok (Z.of_nat i, d)
  | inr m => Ok (-1, with_counters (λ _, m) d)%Z
  end.

Definition give_one (m : gmap CounterKey Z) (u : CounterUse) : gmap CounterKey Z :=
  alter (λ c, Z.max (c - cu_n u) 0)%Z (cu_key u) m.

(** One statement per use, each on its own; the first that fails ends it. The
    uses come from a counted call, so nothing is out of range
    [internal/store/limits.go#GiveBackCounters]. *)
Definition GiveBackCounters (uses : list CounterUse) (d : db) : db :=
  with_counters (λ m, foldl give_one m uses) d.

(** [internal/store/limits.go#Counters] *)
Definition read_counters (keys : list CounterKey) (d : db) : gmap CounterKey Z :=
  foldl (λ out k, <[k := default 0%Z (counters d !! k)]> out) ∅ keys.

(** [internal/store/limits.go#MaxCounter] *)
Definition MaxCounter (limitID : string) (start : Z) (d : db) : Z :=
  match (select (λ k _, String.eqb (ck_limit k) limitID && (ck_start k =? start)%Z)
                (counters d)).*2 with
  | [] => 0
  | c :: cs => foldl Z.max c cs
  end.

(** [internal/store/limits.go#PurgeCounters] *)
Definition PurgeCounters (t : Z) (d : db) : nat * db :=
  let P := λ k (_ : Z), (ck_start k <? t)%Z in
  (affected P (counters d), with_counters (delete_where P) d).

(** ** Lemmas *)

(** The count of a window, 0 when there is no row. *)
Definition count (m : gmap CounterKey Z) (k : CounterKey) : Z := default 0%Z (m !! k).

(** What uses add to a window. *)
Definition added (uses : list CounterUse) (k : CounterKey) : Z :=
  foldr (λ u acc, if decide (cu_key u = k) then (cu_n u + acc)%Z else acc) 0%Z uses.

Lemma added_app (l1 l2 : list CounterUse) k : added (l1 ++ l2) k = (added l1 k + added l2 k)%Z.
Proof. induction l1 as [|u l1 IH]; simpl; [lia|]. destruct (decide _); lia. Qed.

Lemma take_one_some rules m u m' :
  take_one rules m u = Ok (Some m') →
  (∀ k, count m' k = count m k + added [u] k)%Z ∧
  (count m (cu_key u) + cu_n u <= cu_max u ∨ m !! cu_key u = None ∧ cu_n u <= cu_max u)%Z.
Proof.
  unfold take_one, count. intros H. repeat (split_match_in H; simplify_eq/=).
  - split; [|bool_props; left; lia]. intros k. destruct (decide (cu_key u = k)) as [<-|].
    + rewrite lookup_insert_eq, Em1. simpl. lia.
    + rewrite lookup_insert_ne by done. lia.
  - split; [|bool_props; right; tauto]. intros k. destruct (decide (cu_key u = k)) as [<-|].
    + rewrite lookup_insert_eq, Em1. simpl. lia.
    + rewrite lookup_insert_ne by done. lia.
Qed.

Lemma take_one_none rules m u :
  take_one rules m u = Ok None →
  (cu_max u < cu_n u ∨ is_Some (m !! cu_key u) ∧ cu_max u < count m (cu_key u) + cu_n u)%Z.
Proof.
  unfold take_one, count. intros H. repeat (split_match_in H; simplify_eq/=); bool_props; eauto with lia.
Qed.

(** The loop counts a prefix that fits; it stops at the first use that does
    not, or has counted them all. *)
Lemma take_loop_spec rules uses i m r :
  take_loop rules i uses m = Ok r →
  match r with
  | inl j => ∃ pre u post mid, uses = pre ++ u :: post ∧ j = (i + length pre)%nat ∧
      take_loop rules i pre m = Ok (inr mid) ∧ take_one rules mid u = Ok None
  | inr m' => ∀ k, (count m' k = count m k + added uses k)%Z
  end.
Proof.
  revert i m. induction uses as [|u uses IH]; intros i m; simpl.
  { intros [= <-] k. lia. }
  destruct (take_one rules m u) as [[m1|]|] eqn:E; simpl; [| |done].
  - intros H. specialize (IH _ _ H). destruct r as [j|m'].
    + destruct IH as (pre&v&post&mid&->&->&Hl&Hn).
      exists (u :: pre), v, post, mid. simpl. rewrite E. simpl.
      repeat split; [lia|done|done].
    + intros k. rewrite IH. apply take_one_some in E as [E _]. specialize (E k).
      simpl in *. destruct (decide _); lia.
  - intros [= <-]. exists [], u, uses, m. simpl. by rewrite Nat.add_0_r.
Qed.

(** Room for one more use once the uses [pre] are counted. *)
Definition room (m : gmap CounterKey Z) (pre : list CounterUse) (u : CounterUse) : Prop :=
  (count m (cu_key u) + added pre (cu_key u) + cu_n u <= cu_max u)%Z.

(** A use the counters cannot take in once the uses [pre] are counted: its rule
    is no longer in the registry, or a number does not fit its column. *)
Definition unwritable (rules : gmap string Limit) (m : gmap CounterKey Z)
    (pre : list CounterUse) (u : CounterUse) : Prop :=
  has (ck_limit (cu_key u)) rules = false ∨ in_int32 (cu_n u) = false ∨
  in_int32 (cu_max u) = false ∨
  in_int32 (count m (cu_key u) + added pre (cu_key u) + cu_n u) = false.

Lemma take_one_cases rules m u :
  (0 <= count m (cu_key u))%Z →
  match take_one rules m u with
  | Ok (Some _) => room m [] u
  | Ok None => ¬ room m [] u
  | Err _ => unwritable rules m [] u
  end.
Proof.
  unfold take_one, count, room, unwritable, count. simpl. intros Hnn.
  rewrite Z.add_0_r. repeat split_match; bool_props; simpl in *; try lia; tauto.
Qed.

Lemma room_cons m m1 u0 pre u :
  (∀ k, count m1 k = count m k + added [u0] k)%Z → room m1 pre u ↔ room m (u0 :: pre) u.
Proof. intros H. unfold room. rewrite H. simpl. destruct (decide _); lia. Qed.

Lemma unwritable_cons rules m m1 u0 pre u :
  (∀ k, count m1 k = count m k + added [u0] k)%Z →
  unwritable rules m1 pre u ↔ unwritable rules m (u0 :: pre) u.
Proof.
  intros H. unfold unwritable. rewrite H.
  replace (count m (cu_key u) + added [u0] (cu_key u) + added pre (cu_key u) + cu_n u)%Z
    with (count m (cu_key u) + added (u0 :: pre) (cu_key u) + cu_n u)%Z; [done|].
  simpl. destruct (decide _); lia.
Qed.

(** The loop in terms of room: all the uses have some; or the first one
    without stops it; or it meets one that cannot be written. *)
Lemma take_loop_room rules uses i m :
  Forall (λ u, 0 <= cu_n u)%Z uses → (∀ k, 0 <= count m k)%Z →
  match take_loop rules i uses m with
  | Ok (inr _) => ∀ pre u post, uses = pre ++ u :: post → room m pre u
  | Ok (inl j) => ∃ pre u post, uses = pre ++ u :: post ∧ j = (i + length pre)%nat ∧
                                ¬ room m pre u
  | Err _ => ∃ pre u post, uses = pre ++ u :: post ∧ unwritable rules m pre u
  end.
Proof.
  revert i m. induction uses as [|u0 uses IH]; intros i m Hpos Hnn; simpl.
  { intros [|] ? ? [=]. }
  apply Forall_cons in Hpos as [H0 Hpos].
  pose proof (take_one_cases rules m u0 (Hnn _)) as Hone.
  destruct (take_one rules m u0) as [[m1|]|er] eqn:E; simpl.
  - apply take_one_some in E as [E _].
    assert (Hnn1 : ∀ k, (0 <= count m1 k)%Z).
    { intros k. rewrite E. simpl. specialize (Hnn k). destruct (decide _); lia. }
    specialize (IH (S i) m1 Hpos Hnn1). destruct (take_loop rules (S i) uses m1) as [[j|m2]|er].
    + destruct IH as (pre&u&post&->&->&Hr). exists (u0 :: pre), u, post. simpl.
      rewrite <- (room_cons _ _ _ _ _ E). repeat split; [lia|done].
    + intros [|x pre] u post [= -> ->]; [done|]. rewrite <- (room_cons _ _ _ _ _ E). by eapply IH.
    + destruct IH as (pre&u&post&->&Hu). exists (u0 :: pre), u, post.
      by rewrite <- (unwritable_cons _ _ _ _ _ _ E).
  - exists [], u0, uses. rewrite Nat.add_0_r. done.
  - by exists [], u0, uses.
Qed.

(** A use fits the counters when it does not take its window past its maximum. *)
Definition use_fits (m : gmap CounterKey Z) (u : CounterUse) : Prop :=
  (cu_n u <= cu_max u ∧ (is_Some (m !! cu_key u) → count m (cu_key u) + cu_n u <= cu_max u))%Z.

(** Counting a call is all or nothing. When it succeeds every window has
    grown by exactly what the call's uses add to it; otherwise nothing at all
    has changed and the index returned is that of the first use that does not
    fit once those before it are counted. *)
Theorem TakeCounters_all_or_none uses d :
  match TakeCounters uses d with
  | Err _ => True
  | Ok (i, d') =>
      (i = -1 ∧ d' = with_counters (λ _, counters d') d ∧
       ∀ k, count (counters d') k = count (counters d) k + added uses k)%Z ∨
      (d' = d ∧ ∃ pre u post mid, uses = pre ++ u :: post ∧ i = Z.of_nat (length pre) ∧
       TakeCounters pre d = Ok (-1, mid)%Z ∧ ¬ use_fits (counters mid) u)
  end.
Proof.
  unfold TakeCounters.
  destruct (take_loop (limits d) 0 uses (counters d)) as [[j|m]|] eqn:E; simpl; [| |done];
    apply take_loop_spec in E.
  - right. destruct E as (pre&u&post&mid&->&->&Hl&Hn). split; [done|].
    exists pre, u, post, (with_counters (λ _, mid) d). rewrite Hl. simpl.
    repeat split. intros [Hf1 Hf2]. apply take_one_none in Hn as [|[Hs ?]]; [lia|].
    specialize (Hf2 Hs). simpl in *. lia.
  - left. done.
Qed.

(** ** A window over a run of calls *)

(** Calls on some sessions, each counted when it comes in and possibly given
    back later; the state keeps the uses of the calls counted and not given
    back. *)
Inductive quota_ev :=
| EvCall (uses : list CounterUse)
| EvRelease (i : nat).

Definition quota_step (st : db * list (list CounterUse)) (ev : quota_ev)
    : db * list (list CounterUse) :=
  match ev with
  | EvCall uses =>
      match TakeCounters uses st.1 with
      | Ok (i, d) => if (i =? -1)%Z then (d, uses :: st.2) else (d, st.2)
      | Err _ => st
      end
  | EvRelease i =>
      match st.2 !! i with
      | Some uses => (GiveBackCounters uses st.1, delete i st.2)
      | None => st
      end
  end.

Definition in_use (calls : list (list CounterUse)) (k : CounterKey) : Z :=
  added (concat calls) k.

Definition pos_use (u : CounterUse) : Prop := (0 < cu_n u)%Z.

Lemma added_nonneg uses k : Forall pos_use uses → (0 <= added uses k)%Z.
Proof.
  induction 1 as [|u uses Hu _ IH]; simpl; [lia|]. unfold pos_use in Hu. destruct (decide _); lia.
Qed.

Lemma in_use_nonneg calls k : Forall (Forall pos_use) calls → (0 <= in_use calls k)%Z.
Proof. intros H. by apply added_nonneg, Forall_concat. Qed.

Lemma in_use_cons uses calls k : in_use (uses :: calls) k = (added uses k + in_use calls k)%Z.
Proof. unfold in_use. simpl. apply added_app. Qed.

Lemma in_use_delete calls i uses k :
  calls !! i = Some uses → in_use calls k = (added uses k + in_use (delete i calls) k)%Z.
Proof.
  revert i. induction calls as [|c calls IH]; intros [|i]; [done|done| |]; simpl.
  - intros [= ->]. apply in_use_cons.
  - intros Hi. rewrite !in_use_cons, (IH _ Hi). lia.
Qed.

Lemma give_back_count uses m k :
  Forall pos_use uses → (∀ k, added uses k <= count m k)%Z →
  count (foldl give_one m uses) k = (count m k - added uses k)%Z.
Proof.
  intros Hpos. revert m k. induction Hpos as [|u uses Hu Hpos IH]; intros m k Hle; simpl; [lia|].
  assert (Hc : ∀ k, count (give_one m u) k = (count m k - added [u] k)%Z).
  { intros k'. unfold give_one, count. simpl. specialize (Hle (cu_key u)).
    simpl in Hle. rewrite decide_True in Hle by done.
    pose proof (added_nonneg uses (cu_key u) Hpos). unfold count in Hle.
    destruct (decide (cu_key u = k')) as [<-|].
    - rewrite lookup_alter_eq. destruct (m !! cu_key u); simpl in *; [lia|]. unfold pos_use in Hu. lia.
    - rewrite lookup_alter_ne by done. lia. }
  rewrite IH.
  - rewrite Hc. simpl. destruct (decide _); lia.
  - intros k'. rewrite Hc. specialize (Hle k'). simpl in *. destruct (decide _); lia.
Qed.

(** No window is past its cap, and each holds exactly what is outstanding. *)
Definition quota_inv (cap : CounterKey → Z) (st : db * list (list CounterUse)) : Prop :=
  Forall (Forall pos_use) st.2 ∧
  ∀ k, count (counters st.1) k = in_use st.2 k ∧ (count (counters st.1) k <= cap k)%Z.

Definition good_use (cap : CounterKey → Z) (u : CounterUse) : Prop :=
  pos_use u ∧ (cu_max u <= cap (cu_key u))%Z.

Lemma take_loop_cap cap rules i uses m m' :
  Forall (good_use cap) uses → take_loop rules i uses m = Ok (inr m') →
  (∀ k, count m k <= cap k)%Z → (∀ k, count m' k <= cap k)%Z.
Proof.
  intros Hg. revert i m. induction Hg as [|u uses [Hu Hcap] _ IH]; intros i m; simpl.
  { by intros [= ->]. }
  destruct (take_one rules m u) as [[m1|]|] eqn:E; simpl; [|done|done]. intros H Hm.
  apply (IH _ _ H). intros k. apply take_one_some in E as [Hk Hfit]. rewrite Hk. simpl.
  destruct (decide (cu_key u = k)) as [<-|]; [|specialize (Hm k); lia].
  destruct Hfit as [|[Hn ?]]; [lia|]. unfold count. rewrite Hn. simpl. lia.
Qed.

Lemma quota_step_inv cap st ev :
  (∀ uses, ev = EvCall uses → Forall (good_use cap) uses) →
  quota_inv cap st → quota_inv cap (quota_step st ev).
Proof.
  destruct st as [d calls]. intros Hev [Hpos Hk]. simpl in *.
  destruct ev as [uses|i]; simpl.
  - specialize (Hev uses eq_refl). unfold TakeCounters.
    destruct (take_loop (limits d) 0 uses (counters d)) as [[j|m]|] eqn:E; simpl.
    + destruct (Z.eqb_spec (Z.of_nat j) (-1)); [lia|done].
    + assert (Hp : Forall pos_use uses) by (eapply Forall_impl; [exact Hev|by intros u [? _]]).
      pose proof (take_loop_cap cap _ _ _ _ _ Hev E (λ k, proj2 (Hk k))) as Hcap.
      apply take_loop_spec in E. split; [by constructor|]. simpl. intros k.
      split; [|apply Hcap]. rewrite E, in_use_cons. destruct (Hk k) as [-> _]. lia.
    + done.
  - destruct (calls !! i) as [uses|] eqn:E; [|done]. split; simpl.
    + by apply Forall_delete.
    + intros k. assert (Hp : Forall pos_use uses) by (by eapply Forall_lookup_1 in Hpos).
      assert (Hd : Forall (Forall pos_use) (delete i calls)) by (by apply Forall_delete).
      rewrite give_back_count; [|done|].
      * destruct (Hk k) as [-> Hc]. rewrite (in_use_delete _ _ _ k E).
        rewrite (in_use_delete _ _ _ k E) in Hc. pose proof (added_nonneg uses k Hp). lia.
      * intros k'. destruct (Hk k') as [-> _]. rewrite (in_use_delete _ _ _ k' E).
        pose proof (in_use_nonneg _ k' Hd). lia.
Qed.

(** C1: A rule holds over any run of calls on any number of sessions, taken and
    given back in any order: at every moment the count of a window is exactly
    what the calls counted and not given back add up to, and never more than
    the rule's maximum for it. *)
Theorem window_never_overfilled (cap : CounterKey → Z) (evs : list quota_ev) (d : db) :
  counters d = ∅ → (∀ k, 0 <= cap k)%Z →
  (∀ uses, EvCall uses ∈ evs → Forall (good_use cap) uses) →
  let st := foldl quota_step (d, []) evs in
  ∀ k, count (counters st.1) k = in_use st.2 k ∧ (in_use st.2 k <= cap k)%Z.
Proof.
  intros Hd Hcap Hev st k.
  assert (Hinv : quota_inv cap st).
  { apply foldl_inv.
    - intros s ev Hin. apply quota_step_inv. intros uses ->. by apply Hev.
    - split; [constructor|]. intros k'. simpl. rewrite Hd. split; [done|apply Hcap]. }
  destruct Hinv as [_ Hk]. destruct (Hk k) as [<- ?]. done.
Qed.

Definition ex_key : CounterKey := mkCounterKey "l" "s" 0.
Definition ex_rule_db : db :=
  with_limits (λ _, {["l" := mkLimit "l" "session" (Some "user") None None ["@send"] 3 "day" None true 0]})
    empty_db.

Lemma window_never_overfilled_witness :
  let st := foldl quota_step (ex_rule_db, [])
    [EvCall [mkUse ex_key 2 3]; EvCall [mkUse ex_key 2 3]; EvRelease 0; EvCall [mkUse ex_key 3 3]] in
  count (counters st.1) ex_key = in_use st.2 ex_key ∧ (in_use st.2 ex_key <= 3)%Z.
Proof.
  apply (window_never_overfilled (λ _, 3%Z)).
  - done.
  - lia.
  - intros uses H. rewrite !elem_of_cons in H.
    destruct H as [[= ->]|[[= ->]|[H|[[= ->]|H%not_elem_of_nil]]]]; try done;
      (constructor; [by split|constructor]).
Defined.

Example window_run :
  let st := foldl quota_step (ex_rule_db, [])
    [EvCall [mkUse ex_key 2 3]; EvCall [mkUse ex_key 2 3]; EvRelease 0; EvCall [mkUse ex_key 3 3]] in
  (count (counters st.1) ex_key, length st.2) = (3%Z, 1).
Proof. by vm_compute. Qed.
