(* ===== verification/Chats.v ===== *)
(** Chat ids in call parameters (internal/session/manager.go): telling a
    username from a numeric id, recognising TDLib's errors for a chat it has
    not loaded, and decoding an id into the call that loads the chat. *)

From S2P Require Import Prelude GoStr Json Types Tdjson.


(** ** Reading chat_id *)

Definition set_chat_raw (k : string) : dec raw := λ o v,
  if names k "chat_id" then dec_raw o v else (o, true).

(** A chat_id that is a JSON string
    [internal/session/manager.go#stringChatID]. *)
Definition stringChatID (params : raw) : option string :=
  match unmarshal_ok (dec_struct set_chat_raw) None params with
  | Some (Some (JStr s)) => Some s
  | _ => None
  end.

Definition set_chat_int (k : string) : dec Z := λ o v,
  if names k "chat_id" then dec_int64 o v else (o, true).

(** A numeric chat_id, not zero
    [internal/session/manager.go#numericChatID]. *)
Definition numericChatID (params : raw) : option Z :=
  match unmarshal_ok (dec_struct set_chat_int) 0%Z params with
  | Some id => if (id =? 0)%Z then None else Some id
  | None => None
  end.

(** TDLib's phrasings for a chat it has not materialized; [text] is the
    error's text [internal/session/manager.go#isChatUnresolved]. *)
Definition isChatUnresolved (text : string) : bool :=
  scontains text "Chat not found" || scontains text "Chat info not found" ||
  scontains text "CHANNEL_INVALID".

(** ** Loading a chat *)

(** [internal/session/manager.go:1214-1214#chanBase] *)
Definition chanBase : Z := -1000000000000.
(** [internal/session/manager.go:1215-1215#secretBase] *)
Definition secretBase : Z := -2000000000000.

(** The call that makes TDLib materialize the chat of the parameters, decoded
    from the id; its arguments are a Go map
    [internal/session/manager.go#forceLoadChat]. *)
Definition forceLoadChat (params : raw) : option (string * raw) :=
  match numericChatID params with
  | None => None
  | Some id =>
      if (0 <? id)%Z then
        Some ("createPrivateChat",
              Some (marshal_map {["user_id" := JNum id; "force" := JBool true]}))
      else if (id <=? secretBase)%Z then None
      else if (id <=? chanBase)%Z then
        Some ("createSupergroupChat",
              Some (marshal_map {["supergroup_id" := JNum (wrap64 (chanBase - id))]}))
      else
        Some ("createBasicGroupChat",
              Some (marshal_map {["basic_group_id" := JNum (wrap64 (- id))]}))
  end.

(** ** The encoding of peers in ids *)

(** Peers by type with their own ids. *)
Inductive peer :=
| PUser (id : Z)
| PBasicGroup (id : Z)
| PSupergroup (id : Z).

(** TDLib's DialogId, the encoding of the Bot API. *)
Definition dialog_id (p : peer) : Z :=
  match p with
  | PUser id => id
  | PBasicGroup id => - id
  | PSupergroup id => chanBase - id
  end.

(** Ids as TDLib hands them out. *)
Definition peer_ok (p : peer) : Prop :=
  match p with
  | PUser id => (0 < id < 2 ^ 63)%Z
  | PBasicGroup id => (0 < id < - chanBase)%Z
  | PSupergroup id => (0 <= id < - chanBase)%Z
  end.

(** The constructor of a peer's chat and the argument that names it. *)
Definition peer_constructor (p : peer) : string * string * Z :=
  match p with
  | PUser id => ("createPrivateChat", "user_id", id)
  | PBasicGroup id => ("createBasicGroupChat", "basic_group_id", id)
  | PSupergroup id => ("createSupergroupChat", "supergroup_id", id)
  end.

(** ** Theorems *)

Lemma numericChatID_spec (id : Z) :
  in_int64 id = true → id ≠ 0%Z →
  numericChatID (Some (JObj [("chat_id", JNum id)])) = Some id.
Proof.
  intros Hi Hz. unfold numericChatID, unmarshal_ok, unmarshal, dec_struct, set_chat_int. simpl.
  rewrite Hi. simpl. by rewrite (proj2 (Z.eqb_neq _ _) Hz).
Qed.

Lemma peer_int64 (p : peer) : peer_ok p → in_int64 (dialog_id p) = true ∧ dialog_id p ≠ 0%Z.
Proof.
  rewrite in_int64_spec. unfold chanBase.
  destruct p; unfold peer_ok, dialog_id, chanBase; intros; lia.
Qed.

(** An id is decoded to the peer it encodes. For every user, basic group
    and supergroup, the call chosen for its chat id is the constructor of that
    kind of chat with the peer's own id as its argument: the three ranges
    neither overlap nor lose an id, and the arithmetic does not overflow. *)
Theorem forceLoadChat_decodes (p : peer) :
  peer_ok p →
  ∃ args, forceLoadChat (Some (JObj [("chat_id", JNum (dialog_id p))])) =
            Some ((peer_constructor p).1.1, args) ∧
          (unmarshal_map args ≫= λ m, m !! (peer_constructor p).1.2) =
            Some (JNum (peer_constructor p).2).
Proof.
  intros Hp. destruct (peer_int64 p Hp) as [Hi Hz].
  unfold forceLoadChat. rewrite numericChatID_spec by done.
  destruct p as [id|id|id]; simpl in Hp |- *; unfold chanBase, secretBase in *.
  - rewrite (proj2 (Z.ltb_lt _ _)) by lia. eexists. split; [done|].
    rewrite unmarshal_marshal_map. done.
  - rewrite (proj2 (Z.ltb_ge _ _)) by lia. rewrite (proj2 (Z.leb_gt _ _)) by lia.
    rewrite (proj2 (Z.leb_gt _ _)) by lia. eexists. split; [done|].
    rewrite unmarshal_marshal_map. simpl. rewrite lookup_singleton_eq, wrap64_id by lia.
    do 2 f_equal. lia.
  - rewrite (proj2 (Z.ltb_ge _ _)) by lia. rewrite (proj2 (Z.leb_gt _ _)) by lia.
    rewrite (proj2 (Z.leb_le _ _)) by lia. eexists. split; [done|].
    rewrite unmarshal_marshal_map. simpl. rewrite lookup_singleton_eq, wrap64_id by lia.
    do 2 f_equal. lia.
Qed.

Lemma forceLoadChat_decodes_witness :
  ∃ args, forceLoadChat (Some (JObj [("chat_id", JNum (-1001234567890))])) =
            Some ("createSupergroupChat", args) ∧
          (unmarshal_map args ≫= λ m, m !! "supergroup_id") = Some (JNum 1234567890).
Proof. apply (forceLoadChat_decodes (PSupergroup 1234567890)). by vm_compute. Defined.

Example secret_chats_left_alone :
  forceLoadChat (Some (JObj [("chat_id", JNum (-2000000000001))])) = None.
Proof. by vm_compute. Qed.

Example username_is_not_numeric :
  let p := Some (JObj [("chat_id", JStr "@x")]) in
  (stringChatID p, numericChatID p) = (Some "@x", None).
Proof. by vm_compute. Qed.
