(* ===== verification/Guard.v ===== *)
(** The call guard of one session (internal/session/guard.go): cooldowns, the
    pace of writes and the account flags, kept in memory and copied to the
    registry by writes that go out on their own, in any order. *)

From S2P Require Import Prelude GoStr Json Types Tdjson Quota Db.


(** [internal/session/guard.go:29-29#paceInterval] *)
Definition paceInterval : Z := second.
(** [internal/session/guard.go:30-30#maxPaceWait] *)
Definition maxPaceWait : Z := 10 * second.
(** [internal/session/guard.go:31-31#spamLimitCooldown] *)
Definition spamLimitCooldown : Z := 24 * hour.

(** [internal/session/guard.go#pacedGroups] *)
Definition pacedGroups (scope : string) : bool :=
  existsb (String.eqb scope) ["@send"; "@join"; "@invite"; "@create"; "@contacts"].

(** One session's cooldowns, pace and flags [internal/session/guard.go#guard].
    A nil map behaves as an empty one. *)
Record guard := mkGuard {
  g_cool : gmap string Cooldown;
  g_next : Z;
  g_premium : option bool;
  g_frozen : bool;
  g_myID : Z;
}.

(** The zero value a session starts with. *)
Definition new_guard : guard := mkGuard ∅ zero_time None false 0.

(** ** Cooldowns *)

(** [internal/session/guard.go#guard.load] *)
Definition load (l : Limits) (g : guard) : guard :=
  mkGuard (foldl (λ m c, <[c_scope c := c]> m) ∅ (ls_cooldowns l)) (g_next g)
          (ls_premium l) (ls_frozen l) (g_myID g).

(** The running cooldown on a scope [internal/session/guard.go#guard.active]. *)
Definition active (g : guard) (scope : string) (now : Z) : option Cooldown :=
  match g_cool g !! scope with
  | Some c => if (now <? c_until c)%Z then Some c else None
  | None => None
  end.

(** [internal/session/guard.go#guard.set] *)
Definition set (c : Cooldown) (g : guard) : guard * bool :=
  let cool := mkGuard (<[c_scope c := c]> (g_cool g)) (g_next g) (g_premium g) (g_frozen g) (g_myID g) in
  match g_cool g !! c_scope c with
  | Some cur => if (c_until c <=? c_until cur)%Z then (g, false) else (cool, true)
  | None => (cool, true)
  end.

(** [internal/session/guard.go#guard.clear] *)
Definition clear (scope : string) (g : guard) : guard :=
  mkGuard (delete scope (g_cool g)) (g_next g) (g_premium g) (g_frozen g) (g_myID g).

(** ** Pace *)

(** The wait for the next paced slot, booked when it is not too long
    [internal/session/guard.go#guard.reserve]. *)
Definition reserve (now : Z) (g : guard) : guard * (Z * bool) :=
  let next := if (g_next g <? now)%Z then now else g_next g in
  let with_next n := mkGuard (g_cool g) n (g_premium g) (g_frozen g) (g_myID g) in
  let wait := time_sub next now in
  if (maxPaceWait <? wait)%Z then (with_next next, (wait, false))
  else (with_next (next + paceInterval)%Z, (wait, true)).

(** ** Flags *)

(** [internal/session/guard.go#guard.flags] *)
Definition flags (g : guard) (now : Z) : option bool * bool * bool :=
  (g_premium g, g_frozen g,
   match active g SpamLimitScope now with Some _ => true | None => false end).

(** Registry writes a guard sends off, each in a goroutine of its own. *)
Inductive gwrite :=
| WCooldown (c : Cooldown)
| WFrozen (b : bool)
| WFreeze (since : Z) (deletion : Z) (appeal : string)
| WPremium (b : bool).

(** [internal/session/guard.go#coolDown] *)
Definition coolDown (c : Cooldown) (g : guard) : guard * list gwrite :=
  let r := set c g in (r.1, if r.2 then [WCooldown c] else []).

(** [internal/session/guard.go#setFrozen] *)
Definition setFrozen (frozen : bool) (g : guard) : guard * list gwrite :=
  (mkGuard (g_cool g) (g_next g) (g_premium g) frozen (g_myID g),
   if Bool.eqb (g_frozen g) frozen then [] else [WFrozen frozen]).

(** A freeze as TDLib reports it; dates are Unix seconds
    [internal/session/guard.go#noteFreeze]. *)
Definition noteFreeze (isFrozen : bool) (freezing deletion : Z) (appeal : string) (g : guard)
    : guard * list gwrite :=
  if negb isFrozen then setFrozen false g
  else
    (mkGuard (g_cool g) (g_next g) (g_premium g) true (g_myID g),
     [WFreeze (freezing * second) (if (0 <? deletion)%Z then deletion * second else zero_time)%Z
              appeal]).

(** An option's value as TDLib sends it. *)
Inductive option_value :=
| OptBoolean (b : bool)
| OptInteger (n : Z)
| OptEmpty
| OptString (s : string).

(** [internal/session/guard.go#notePremium] *)
Definition notePremium (v : option_value) (g : guard) : guard * list gwrite :=
  let premium := match v with OptBoolean b => b | _ => false end in
  let changed := match g_premium g with Some p => negb (Bool.eqb p premium) | None => true end in
  (mkGuard (g_cool g) (g_next g) (Some premium) (g_frozen g) (g_myID g),
   if changed then [WPremium premium] else []).

(** [internal/session/guard.go#noteMyID] *)
Definition noteMyID (v : option_value) (g : guard) : guard :=
  match v with
  | OptInteger n => mkGuard (g_cool g) (g_next g) (g_premium g) (g_frozen g) n
  | _ => g
  end.

(** ** What an answer says *)

(** Duration arithmetic wraps: [time.Duration(secs) * time.Second]. *)
Definition flood_until (now secs : Z) : Z := now + wrap64 (secs * second).

(** The cooldowns a call's answer imposes, and whether the account is frozen;
    [None] for a call that went through
    [internal/session/guard.go#signals]. *)
Definition signals (scope : string) (err : option gerr) (now : Z)
    : list Cooldown * option bool :=
  match err with
  | None => if pacedGroups scope then ([], Some false) else ([], None)
  | Some e =>
      match as_td e with
      | None => ([], None)
      | Some te =>
          (match RetryAfter te with
           | Some secs => [mkCooldown scope (flood_until now secs) (te_message te)]
           | None => []
           end ++
           (if scontains (te_message te) "PEER_FLOOD"
            then [mkCooldown SpamLimitScope (now + spamLimitCooldown)%Z (te_message te)] else []),
           if scontains (te_message te) "FROZEN_" then Some true else None)
      end
  end.

(** Cooldowns one after the other, with the writes they send off. *)
Definition coolDowns (cds : list Cooldown) (g : guard) : guard * list gwrite :=
  foldl (λ r c, let r' := coolDown c r.1 in (r'.1, r.2 ++ r'.2)) (g, []) cds.

(** [internal/session/guard.go#observe] *)
Definition observe (kind scope : string) (err : option gerr) (now : Z) (g : guard)
    : guard * list gwrite :=
  if negb (String.eqb kind "user") then (g, [])
  else
    let s := signals scope err now in
    let r := coolDowns s.1 g in
    match s.2 with
    | Some frozen => let r' := setFrozen frozen r.1 in (r'.1, r.2 ++ r'.2)
    | None => r
    end.

(** A message that failed after the call returned
    [internal/session/guard.go#observeSendFailed]. *)
Definition observeSendFailed (kind : string) (error : option (Z * string)) (now : Z) (g : guard)
    : guard * list gwrite :=
  match error with
  | None => (g, [])
  | Some (code, msg) => observe kind "@send" (Some (ETd (mkTdError code msg))) now g
  end.

(** [internal/session/guard.go#checkCooldown] *)
Definition checkCooldown (g : guard) (scope : string) (now : Z) : option refused :=
  match active g scope now with
  | None => None
  | Some c => Some (mkRefused "cooldown" scope (c_until c) (c_reason c) None)
  end.

(** ** The account in the registry *)

Definition s_set_freeze (at_ deletion : option Z) (appeal : option string) (s : session_row)
    : session_row :=
  mkSession (s_kind s) (s_app s) (s_proxy s) (s_phone s) (s_bot_token_enc s) (s_label s)
    (s_status s) (s_db_dir s) (s_db_key_enc s) (s_worker s) (s_created s) (s_updated s)
    (s_premium s) at_ deletion appeal.
Definition s_set_premium (p : option bool) (s : session_row) : session_row :=
  mkSession (s_kind s) (s_app s) (s_proxy s) (s_phone s) (s_bot_token_enc s) (s_label s)
    (s_status s) (s_db_dir s) (s_db_key_enc s) (s_worker s) (s_created s) (s_updated s)
    p (s_frozen_at s) (s_deletion_at s) (s_appeal s).

(** Keeps the later end of two cooldowns on a scope
    [internal/store/store.go#SetCooldown]. *)
Definition SetCooldown (now : Z) (sid : string) (c : Cooldown) (d : db) : res dberr db :=
  let new := mkCooldownRow (c_until c) (c_reason c) now in
  match cooldowns d !! (sid, c_scope c) with
  | Some r => Ok (if (cd_until r <? c_until c)%Z
                  then with_cooldowns <[(sid, c_scope c) := new]> d else d)
  | None => if has sid (sessions d) then Ok (with_cooldowns <[(sid, c_scope c) := new]> d)
            else Err DbForeignKey
  end.

(** [internal/store/store.go#PurgeCooldowns] *)
Definition PurgeCooldowns (before : Z) (d : db) : nat * db :=
  let P := λ (_ : string * string) r, (cd_until r <? before)%Z in
  (affected P (cooldowns d), with_cooldowns (delete_where P) d).

(** [internal/store/store.go#SetSessionPremium] *)
Definition SetSessionPremium (sid : string) (premium : bool) (d : db) : db :=
  with_sessions (alter (s_set_premium (Some premium)) sid) d.

(** [internal/store/store.go#SetSessionFrozen] *)
Definition SetSessionFrozen (now : Z) (sid : string) (frozen : bool) (d : db) : db :=
  with_sessions (alter (λ s,
    if frozen then s_set_freeze (Some (default now (s_frozen_at s))) (s_deletion_at s) (s_appeal s) s
    else s_set_freeze None None None s) sid) d.

(** A zero deletion time is not stored [internal/store/store.go#SetSessionFreeze]. *)
Definition SetSessionFreeze (sid : string) (since deletion : Z) (appeal : string) (d : db) : db :=
  with_sessions (alter (s_set_freeze (Some since)
    (if (deletion =? zero_time)%Z then None else Some deletion) (nullStr appeal)) sid) d.

(** [internal/store/store.go#DeleteCooldown] *)
Definition DeleteCooldown (sid scope : string) (d : db) : bool * db :=
  (has (sid, scope) (cooldowns d), with_cooldowns (delete (sid, scope)) d).

(** Account state and the cooldowns still running, soonest to end first
    [internal/store/store.go#SessionLimits]. *)
Definition SessionLimits (now : Z) (sid : string) (d : db) : option Limits :=
  match sessions d !! sid with
  | None => None
  | Some s =>
      let cds := order_by c_until
        (map (λ kv : string * string * cooldown_row,
                mkCooldown kv.1.2 (cd_until kv.2) (cd_reason kv.2))
             (select (λ k r, String.eqb k.1 sid && (now <? cd_until r)%Z) (cooldowns d))) in
      Some (mkLimits (s_premium s) (match s_frozen_at s with Some _ => true | None => false end) (s_frozen_at s) (s_deletion_at s)
              (coalesce (s_appeal s))
              (existsb (λ c, String.eqb (c_scope c) SpamLimitScope) cds) cds)
  end.

(** A registry write, its error only logged. *)
Definition apply_write (now : Z) (sid : string) (w : gwrite) (d : db) : db :=
  match w with
  | WCooldown c => match SetCooldown now sid c d with Ok d => d | Err _ => d end
  | WFrozen b => SetSessionFrozen now sid b d
  | WFreeze since del appeal => SetSessionFreeze sid since del appeal d
  | WPremium b => SetSessionPremium sid b d
  end.

(** Lifts a cooldown in the registry and, when this worker holds the session,
    in its guard [internal/session/guard.go#ClearCooldown]. *)
Definition ClearCooldown (sid scope : string) (g : option guard) (d : db)
    : bool * option guard * db :=
  let r := DeleteCooldown sid scope d in
  (r.1, clear scope <$> g, r.2).

(** [internal/session/guard.go#loadGuard]; [None] for a read that failed. *)
Definition loadGuard (now : Z) (sid : string) (up : bool) (d : db) (g : guard) : guard :=
  if negb up then g
  else load (default (mkLimits None false None None "" false []) (SessionLimits now sid d)) g.

(** ** Pace: lemmas and theorems *)

(** A run of reservations: the starts of the writes let through, in order, each
    with its wait. *)
Fixpoint reservations (nows : list Z) (g : guard) : list (Z * Z) :=
  match nows with
  | [] => []
  | now :: nows =>
      let r := reserve now g in
      if r.2.2 then ((now + r.2.1)%Z, r.2.1) :: reservations nows r.1 else reservations nows r.1
  end.

Lemma reserve_spec now g :
  let r := reserve now g in
  (r.2.2 = true ∧ 0 <= r.2.1 <= maxPaceWait ∧ g_next g <= now + r.2.1 ∧
   g_next r.1 = now + r.2.1 + paceInterval)%Z ∨
  (r.2.2 = false ∧ r.1 = g ∧ maxPaceWait < r.2.1 ∧ r.2.1 = time_sub (g_next g) now)%Z.
Proof.
  unfold reserve, time_sub, maxPaceWait, paceInterval, second.
  destruct g as [cool next p f i]. simpl.
  destruct (Z.ltb_spec next now); simpl;
    match goal with |- context [(?a <? ?b)%Z] => destruct (Z.ltb_spec a b) end; simpl;
    [lia|left; lia|right; repeat split; lia|left; lia].
Qed.

Lemma reservations_bound nows g :
  Forall (λ x, g_next g <= x.1 ∧ 0 <= x.2 <= maxPaceWait)%Z (reservations nows g).
Proof.
  revert g. induction nows as [|now nows IH]; intros g; simpl; [constructor|].
  pose proof (reserve_spec now g) as Hr. simpl in Hr.
  destruct Hr as [(Hok&Hw&Hn&Hnext)|(Hok&Hg&_)]; rewrite Hok.
  - constructor; [simpl; lia|]. eapply Forall_impl; [apply IH|].
    intros x [Hx1 Hx2]. split; [|done]. unfold paceInterval, second in *. lia.
  - rewrite Hg. apply IH.
Qed.

(** C19: Writes are paced. However the calls arrive, even on a clock that steps
    back, the writes let through start at least a second apart and in order,
    and none of them waits longer than ten seconds. *)
Theorem writes_are_paced nows g :
  StronglySorted (λ x y, x.1 + paceInterval <= y.1)%Z (reservations nows g) ∧
  Forall (λ x, 0 <= x.2 <= maxPaceWait)%Z (reservations nows g).
Proof.
  split.
  - revert g. induction nows as [|now nows IH]; intros g; simpl; [constructor|].
    pose proof (reserve_spec now g) as Hr. simpl in Hr.
    destruct Hr as [(Hok&Hw&Hn&Hnext)|(Hok&Hg&_)]; rewrite Hok; [|apply IH].
    constructor; [apply IH|]. eapply Forall_impl; [apply reservations_bound|].
    intros x [Hx _]. simpl in *. lia.
  - eapply Forall_impl; [apply reservations_bound|]. by intros x [_ ?].
Qed.

(** A refusal for pace books nothing and tells the truth: the guard is as
    it was, and from the moment named in the refusal on, the same write is let
    through (if no other write has been let through meanwhile). *)
Theorem pace_refusal_honest now g wait g' :
  (g_next g - now < 2 ^ 63)%Z →
  reserve now g = (g', (wait, false)) →
  g' = g ∧ (now < now + (wait - maxPaceWait))%Z ∧
  ∀ later, (now + (wait - maxPaceWait) <= later)%Z → (reserve later g').2.2 = true.
Proof.
  intros Hsmall Hr. pose proof (reserve_spec now g) as H. simpl in H. rewrite Hr in H. simpl in H.
  destruct H as [(?&_)|(_&->&Hw&Hwait)]; [done|]. simpl in *.
  split; [done|]. split; [lia|]. intros later Hl.
  pose proof (reserve_spec later g) as [(?&_)|(_&_&Hw2&Hwait2)]; [done|].
  rewrite Hwait2 in Hw2. rewrite Hwait in Hl, Hw.
  unfold time_sub, maxPaceWait, second in *. lia.
Qed.

Lemma pace_refusal_honest_witness :
  let g := mkGuard ∅ (20 * second)%Z None false 0 in
  g = g ∧ (second < second + (19 * second - maxPaceWait))%Z ∧
  ∀ later, (second + (19 * second - maxPaceWait) <= later)%Z → (reserve later g).2.2 = true.
Proof.
  apply (pace_refusal_honest second (mkGuard ∅ (20 * second)%Z None false 0) (19 * second)%Z).
  - by vm_compute.
  - by vm_compute.
Defined.

(** ** Cooldowns: lemmas *)

Lemma set_lookup c g scope :
  g_cool (set c g).1 !! scope =
  if (set c g).2 then (if decide (c_scope c = scope) then Some c else g_cool g !! scope)
  else g_cool g !! scope.
Proof.
  unfold set. repeat split_match; simpl; try done;
    destruct (decide (c_scope c = scope)) as [<-|];
    by rewrite ?lookup_insert_eq, ?lookup_insert_ne.
Qed.

(** The end of a scope's cooldown only moves forward. *)
Definition until_of (g : guard) (scope : string) : option Z := c_until <$> g_cool g !! scope.

Definition later (o1 o2 : option Z) : Prop :=
  match o1, o2 with
  | Some a, Some b => (a <= b)%Z
  | Some _, None => False
  | None, _ => True
  end.

#[export] Instance later_preorder : PreOrder later.
Proof.
  split; [intros [x|]; simpl; [lia|done]|].
  intros [x|] [y|] [z|]; simpl; try lia; done.
Qed.

Lemma set_later c g scope : later (until_of g scope) (until_of (set c g).1 scope).
Proof.
  unfold until_of. rewrite set_lookup. unfold set.
  destruct (g_cool g !! c_scope c) as [cur|] eqn:E; simpl.
  - destruct (Z.leb_spec (c_until c) (c_until cur)); simpl; [done|].
    destruct (decide (c_scope c = scope)) as [<-|]; [|done]. rewrite E. simpl. lia.
  - destruct (decide (c_scope c = scope)) as [<-|]; [|done]. by rewrite E.
Qed.

Lemma set_reached c g : later (Some (c_until c)) (until_of (set c g).1 (c_scope c)).
Proof.
  unfold until_of. rewrite set_lookup, decide_True by done. unfold set.
  destruct (g_cool g !! c_scope c) as [cur|] eqn:E; simpl; [|lia].
  destruct (Z.leb_spec (c_until c) (c_until cur)); simpl; lia.
Qed.

Lemma coolDowns_snoc cds c g :
  coolDowns (cds ++ [c]) g =
  let r := coolDowns cds g in let r' := coolDown c r.1 in (r'.1, r.2 ++ r'.2).
Proof. unfold coolDowns. by rewrite foldl_snoc. Qed.

Lemma coolDowns_later cds g scope : later (until_of g scope) (until_of (coolDowns cds g).1 scope).
Proof.
  induction cds as [|c cds IH] using rev_ind; [reflexivity|].
  rewrite coolDowns_snoc. simpl. etrans; [apply IH|]. apply set_later.
Qed.

Lemma coolDowns_reached cds g c :
  c ∈ cds → later (Some (c_until c)) (until_of (coolDowns cds g).1 (c_scope c)).
Proof.
  induction cds as [|c' cds IH] using rev_ind; [by intros ?%not_elem_of_nil|].
  rewrite coolDowns_snoc. cbv zeta. cbn [fst].
  intros [Hin| ->%list_elem_of_singleton]%elem_of_app.
  - etrans; [by apply IH|]. apply set_later.
  - apply set_reached.
Qed.

Lemma observe_until kind scope err now g s :
  until_of (observe kind scope err now g).1 s =
  if negb (String.eqb kind "user") then until_of g s
  else until_of (coolDowns (signals scope err now).1 g).1 s.
Proof. unfold observe. destruct (negb _); [done|]. by destruct (signals scope err now).2. Qed.

Lemma observe_later kind scope err now g s :
  later (until_of g s) (until_of (observe kind scope err now g).1 s).
Proof.
  rewrite observe_until. destruct (negb _); [reflexivity|]. apply coolDowns_later.
Qed.

Lemma active_until g scope now :
  active g scope now ≠ None ↔ ∃ u, until_of g scope = Some u ∧ (now < u)%Z.
Proof.
  unfold active, until_of. destruct (g_cool g !! scope) as [c|]; simpl; [|naive_solver].
  destruct (Z.ltb_spec now (c_until c)); naive_solver lia.
Qed.

(** A run of answers, each with its scope and time. *)
Definition observes (kind : string) (l : list (string * option gerr * Z)) (g : guard) : guard :=
  foldl (λ g x, (observe kind x.1.1 x.1.2 x.2 g).1) g l.

Lemma observes_later kind l g s : later (until_of g s) (until_of (observes kind l g) s).
Proof.
  unfold observes. revert g. induction l as [|x l IH]; intros g; simpl; [reflexivity|].
  etrans; [apply observe_later|apply IH].
Qed.

(** C18: A flood wait is respected. Once Telegram has answered a user account's
    call with a wait, every call of that scope is refused until the wait is
    over, whatever further answers come in meanwhile, in any number and order.
    (The wait's seconds fit a Duration; longer ones wrap, see below.) *)
Theorem flood_wait_respected scope e te secs now g l t :
  as_td e = Some te → RetryAfter te = Some secs → (secs * second < 2 ^ 63)%Z →
  (t < now + secs * second)%Z →
  ∃ r, checkCooldown (observes "user" l (observe "user" scope (Some e) now g).1) scope t = Some r ∧
       r_reason r = "cooldown" ∧ r_scope r = scope ∧ (now + secs * second <= r_until r)%Z.
Proof.
  intros He Hs Hsmall Ht. pose proof (RetryAfter_range te secs Hs) as Hpos.
  set (g1 := (observe "user" scope (Some e) now g).1).
  assert (H1 : later (Some (now + secs * second)%Z) (until_of g1 scope)).
  { set (c := mkCooldown scope (flood_until now secs) (te_message te)).
    assert (Hin : c ∈ (signals scope (Some e) now).1).
    { unfold signals. rewrite He, Hs. apply list_elem_of_here. }
    pose proof (coolDowns_reached _ g c Hin) as Hr. unfold c in Hr.
    cbn [c_until c_scope] in Hr. unfold flood_until in Hr.
    rewrite wrap64_id in Hr by (unfold second in *; lia).
    unfold g1. by rewrite observe_until. }
  assert (H2 : later (Some (now + secs * second)%Z) (until_of (observes "user" l g1) scope))
    by (etrans; [exact H1|apply observes_later]).
  unfold until_of in H2. unfold checkCooldown, active.
  destruct (g_cool _ !! scope) as [c|]; simpl in H2; [|done].
  destruct (Z.ltb_spec t (c_until c)); [|lia].
  exists (mkRefused "cooldown" scope (c_until c) (c_reason c) None).
  repeat split; [done..|]. simpl. lia.
Qed.

Lemma flood_wait_respected_witness :
  ∃ r, checkCooldown
         (observes "user" [("@send", None, 5%Z)] 
           (observe "user" "@send" (Some (ETd (mkTdError 429 "Too Many Requests: retry after 30"))) 0
              new_guard).1) "@send" second = Some r ∧
       r_reason r = "cooldown" ∧ r_scope r = "@send" ∧ (0 + 30 * second <= r_until r)%Z.
Proof.
  apply (flood_wait_respected "@send" (ETd (mkTdError 429 "Too Many Requests: retry after 30"))
           (mkTdError 429 "Too Many Requests: retry after 30") 30 0); by vm_compute.
Defined.

(** A wait of 9223372037 seconds or more overflows the Duration: the cooldown
    it starts is already over. *)
Example flood_wait_wraps :
  flood_until 0 9223372037 = (-9223372036709551616)%Z.
Proof. by vm_compute. Qed.

(** ** The registry's copy *)

Definition plain (r : cooldown_row) : Z * string := (cd_until r, cd_reason r).
Definition plain_c (c : Cooldown) : Z * string := (c_until c, c_reason c).

(** The registry holds exactly the guard's cooldowns. *)
Definition agree (g : guard) (sid : string) (d : db) : Prop :=
  (∀ scope c, g_cool g !! scope = Some c → c_scope c = scope) ∧
  ∀ scope, plain <$> cooldowns d !! (sid, scope) = plain_c <$> g_cool g !! scope.

(** The cooldowns a list of writes carries for one scope, behind an initial one. *)
Definition on_scope (scope : string) (w : gwrite) : list Cooldown :=
  match w with
  | WCooldown c => if decide (c_scope c = scope) then [c] else []
  | _ => []
  end.

Definition cands (scope : string) (init : option (Z * string)) (ws : list gwrite)
    : list (Z * string) :=
  option_list init ++ map plain_c (ws ≫= on_scope scope).

Lemma cands_snoc scope init ws w :
  cands scope init (ws ++ [w]) = cands scope init ws ++ map plain_c (on_scope scope w).
Proof.
  unfold cands. rewrite bind_app, map_app, app_assoc. simpl. by rewrite app_nil_r.
Qed.

Lemma cands_perm scope init ws ws' :
  ws ≡ₚ ws' → cands scope init ws ≡ₚ cands scope init ws'.
Proof. intros Hp. unfold cands. by rewrite Hp. Qed.

Definition until_lt : relation (Z * string) := λ x y, (x.1 < y.1)%Z.

Lemma last_snoc' {A} (l : list A) x : last (l ++ [x]) = Some x.
Proof. apply last_snoc. Qed.

(** The guard's side: accepted cooldowns end later and later, and the guard
    holds the last. *)
Lemma coolDowns_cands cds g scope :
  (∀ s c, g_cool g !! s = Some c → c_scope c = s) →
  let r := coolDowns cds g in
  (∀ s c, g_cool r.1 !! s = Some c → c_scope c = s) ∧
  StronglySorted until_lt (cands scope (plain_c <$> g_cool g !! scope) r.2) ∧
  last (cands scope (plain_c <$> g_cool g !! scope) r.2) = plain_c <$> g_cool r.1 !! scope.
Proof.
  intros Hkeys. induction cds as [|c cds IH] using rev_ind.
  { simpl. unfold cands. simpl. rewrite app_nil_r. split; [done|].
    destruct (g_cool g !! scope); simpl; (split; [repeat constructor|done]). }
  rewrite coolDowns_snoc. cbv zeta in IH. destruct IH as (Hk&Hs&Hl).
  set (r := coolDowns cds g) in *. unfold coolDown. simpl.
  split.
  { intros s c'. rewrite set_lookup. destruct (set c r.1).2; [|apply Hk].
    destruct (decide (c_scope c = s)); [by intros [= <-]|apply Hk]. }
  rewrite set_lookup. destruct (set c r.1).2 eqn:Eset; [|by rewrite app_nil_r].
  rewrite cands_snoc. simpl.
  destruct (decide (c_scope c = scope)) as [<-|]; [|by rewrite app_nil_r].
  simpl. split; [|by rewrite last_snoc'].
  set (l := cands (c_scope c) (plain_c <$> g_cool g !! c_scope c) r.2) in *.
  assert (Hlast : ∀ x, last l = Some x → (x.1 < c_until c)%Z).
  { intros x Hx. rewrite Hl in Hx. unfold set in Eset.
    destruct (g_cool r.1 !! c_scope c) as [cur|]; [|done]. injection Hx as <-.
    destruct (Z.leb_spec (c_until c) (c_until cur)); done. }
  clear -Hs Hlast. induction l as [|x l IH]; simpl; [repeat constructor|].
  apply StronglySorted_inv in Hs as [Hs Hx]. constructor.
  - apply IH; [done|]. intros y Hy. apply Hlast. destruct l; [done|]. exact Hy.
  - apply Forall_app. split; [done|]. constructor; [|constructor]. unfold until_lt. simpl.
    destruct l as [|y l]; [by apply Hlast|].
    destruct (last (y :: l)) as [z|] eqn:E; [|by apply last_None in E].
    rewrite Forall_forall in Hx. assert (Hz : until_lt x z) by (by apply Hx, last_Some_elem_of).
    specialize (Hlast z E). unfold until_lt in Hz. lia.
Qed.

(** The registry's side: after the writes in any order it holds one that ends
    last. *)
Lemma apply_writes_cands sid scope ws d :
  has sid (sessions d) = true →
  let d' := foldl (λ d (x : Z * gwrite), apply_write x.1 sid x.2 d) d ws in
  let l := cands scope (plain <$> cooldowns d !! (sid, scope)) ws.*2 in
  has sid (sessions d') = true ∧
  match plain <$> cooldowns d' !! (sid, scope) with
  | Some x => x ∈ l ∧ ∀ y, y ∈ l → (y.1 <= x.1)%Z
  | None => l = []
  end.
Proof.
  intros Hsid. induction ws as [|[now w] ws IH] using rev_ind; simpl.
  { split; [done|]. unfold cands. simpl. rewrite app_nil_r.
    destruct (cooldowns d !! (sid, scope)); simpl; [|done].
    split; [by left|]. intros y ->%list_elem_of_singleton. done. }
  rewrite foldl_snoc, fmap_app. simpl. rewrite cands_snoc. destruct IH as [Hs IH].
  set (d1 := foldl _ _ _) in *. set (l := cands _ _ _) in *. clearbody d1 l.
  assert (Halter : ∀ f, has sid (alter f sid (sessions d1)) = true).
  { intros f. apply has_spec, is_Some_alter. by apply has_spec. }
  destruct w as [c| | |]; simpl; [|rewrite app_nil_r; by split; [apply Halter|]..].
  unfold SetCooldown. rewrite Hs.
  destruct (decide (c_scope c = scope)) as [<-|Hne]; simpl.
  - destruct (cooldowns d1 !! (sid, c_scope c)) as [r|] eqn:E; simpl in *.
    + destruct IH as [Hin Hmax]. destruct (Z.ltb_spec (cd_until r) (c_until c)); simpl.
      * split; [done|]. rewrite lookup_insert_eq. simpl. split; [set_solver|].
        intros y [Hy| ->%list_elem_of_singleton]%elem_of_app; [|done].
        apply Hmax in Hy. simpl in *. lia.
      * split; [done|]. rewrite E. simpl. split; [set_solver|].
        intros y [Hy| ->%list_elem_of_singleton]%elem_of_app; [by apply Hmax|done].
    + split; [done|]. rewrite lookup_insert_eq, IH. simpl. split; [by left|].
      intros y ->%list_elem_of_singleton. done.
  - rewrite app_nil_r.
    assert (Hd : ∀ d2, d2 = d1 ∨ d2 = with_cooldowns <[(sid, c_scope c) :=
        mkCooldownRow (c_until c) (c_reason c) now]> d1 →
      has sid (sessions d2) = true ∧ cooldowns d2 !! (sid, scope) = cooldowns d1 !! (sid, scope)).
    { intros d2 [->| ->]; [done|]. simpl. rewrite lookup_insert_ne by congruence. done. }
    destruct (cooldowns d1 !! (sid, c_scope c)) as [r|];
      [destruct (cd_until r <? c_until c)%Z|];
      first [destruct (Hd _ (or_intror eq_refl)) as [-> ->]; done|by split].
Qed.

Lemma sorted_last_max (l : list (Z * string)) x y :
  StronglySorted until_lt l → last l = Some x → y ∈ l → (∀ z, z ∈ l → (z.1 <= y.1)%Z) → y = x.
Proof.
  intros Hs Hlast Hy Hmax. induction Hs as [|z l Hs IH Hz]; [done|].
  destruct l as [|z' l].
  - injection Hlast as ->. by apply list_elem_of_singleton in Hy.
  - apply elem_of_cons in Hy as [->|Hy].
    + rewrite Forall_forall in Hz. assert (until_lt z z') by (apply Hz; by left).
      specialize (Hmax z'). unfold until_lt in *.
      assert ((z'.1 <= z.1)%Z) by (apply Hmax; right; by left). lia.
    + apply IH; [done|done|]. intros w Hw. apply Hmax. by right.
Qed.

(** The registry's copy of the cooldowns is the guard's, however the writes
    that carry it are reordered on the way: from agreement, any run of
    cooldowns followed by its writes applied in any order, at any times, ends in
    agreement (the same end and reason on every scope). *)
Theorem cooldowns_reach_registry sid g d cds (ws : list (Z * gwrite)) :
  has sid (sessions d) = true → agree g sid d → ws.*2 ≡ₚ (coolDowns cds g).2 →
  agree (coolDowns cds g).1 sid (foldl (λ d (x : Z * gwrite), apply_write x.1 sid x.2 d) d ws).
Proof.
  intros Hsid [Hkeys Hag] Hperm. split.
  { apply (coolDowns_cands cds g "" Hkeys). }
  intros scope. destruct (coolDowns_cands cds g scope Hkeys) as (_&Hs&Hl).
  destruct (apply_writes_cands sid scope ws d Hsid) as [_ Hr]. cbv zeta in *.
  rewrite Hag in Hr.
  pose proof (cands_perm scope (plain_c <$> g_cool g !! scope) _ _ Hperm) as Hp.
  rewrite <- Hl. destruct (plain <$> _) as [x|] eqn:E.
  - destruct Hr as [Hin Hmax]. destruct (last _) as [y|] eqn:Ey.
    + f_equal. apply (sorted_last_max _ y x Hs Ey); [by rewrite <- Hp|].
      intros z Hz. apply Hmax. by rewrite Hp.
    + apply last_None in Ey. rewrite Hp, Ey in Hin. by apply not_elem_of_nil in Hin.
  - rewrite Hr in Hp. apply Permutation_nil in Hp. by rewrite Hp.
Qed.

Definition ex_user : session_row :=
  mkSession "user" "app" None None None None "authorized" None None None 0 0 None None None None.
Definition ex_user_db : db := with_sessions (λ _, {["s" := ex_user]}) empty_db.

Lemma cooldowns_reach_registry_witness :
  let c1 := mkCooldown "@send" 10 "a" in let c2 := mkCooldown "@send" 20 "b" in
  agree (coolDowns [c1; c2] new_guard).1 "s"
    (foldl (λ d (x : Z * gwrite), apply_write x.1 "s" x.2 d) ex_user_db
       [(1%Z, WCooldown c2); (2%Z, WCooldown c1)]).
Proof.
  apply (cooldowns_reach_registry "s" new_guard ex_user_db).
  - done.
  - by split.
  - change (coolDowns [mkCooldown "@send" 10 "a"; mkCooldown "@send" 20 "b"] new_guard).2
      with [WCooldown (mkCooldown "@send" 10 "a"); WCooldown (mkCooldown "@send" 20 "b")].
    apply Permutation_swap.
Defined.

(** ** Restoring a guard from the registry *)

Lemma load_cool_lookup (l : list Cooldown) (scope : string) (c : Cooldown) :
  NoDup (c_scope <$> l) →
  foldl (λ m c, <[c_scope c := c]> m) (∅ : gmap string Cooldown) l !! scope = Some c ↔
  c ∈ l ∧ c_scope c = scope.
Proof.
  induction l as [|c' l IH] using rev_ind.
  { simpl. rewrite lookup_empty. intros _. split; [done|by intros [?%not_elem_of_nil _]]. }
  rewrite fmap_app, foldl_snoc. intros (Hnd&Hd&_)%NoDup_app.
  rewrite elem_of_app, list_elem_of_singleton.
  destruct (decide (c_scope c' = scope)) as [<-|Hne].
  - rewrite lookup_insert_eq. split.
    + intros [= <-]. split; [by right|done].
    + intros [[Hin| ->] Hs]; [|done]. exfalso.
      apply (Hd (c_scope c)); [by apply list_elem_of_fmap_2|].
      rewrite Hs. apply list_elem_of_singleton. done.
  - rewrite lookup_insert_ne by done. rewrite IH by done. split.
    + intros [? ?]. tauto.
    + intros [[?| ->] ?]; [done|congruence].
Qed.

Definition to_cooldown (kv : string * string * cooldown_row) : Cooldown :=
  mkCooldown kv.1.2 (cd_until kv.2) (cd_reason kv.2).

Lemma restored_scopes (sid : string) (l : list (string * string * cooldown_row)) :
  NoDup l.*1 → Forall (λ kv, kv.1.1 = sid) l → NoDup (c_scope <$> map to_cooldown l).
Proof.
  induction l as [|[[s sc] r] l IH]; intros Hnd Hall; [constructor|].
  apply NoDup_cons in Hnd as [Hk Hnd]. apply Forall_cons in Hall as [Hs Hall].
  simpl in Hs. constructor; [|by apply IH].
  intros (c&Hc&Hin)%list_elem_of_fmap. simpl in Hc.
  apply list_elem_of_In, in_map_iff in Hin as ([[s' sc'] r']&<-&Hin%list_elem_of_In).
  simpl in Hc. subst. apply Hk. apply list_elem_of_fmap. exists (sid, sc', r').
  rewrite Forall_forall in Hall. specialize (Hall _ Hin). simpl in Hall. by subst.
Qed.

Lemma agree_row g sid d scope :
  agree g sid d →
  match cooldowns d !! (sid, scope), g_cool g !! scope with
  | Some r, Some c => c = mkCooldown scope (cd_until r) (cd_reason r)
  | None, None => True
  | _, _ => False
  end.
Proof.
  intros [Hk Ha]. specialize (Ha scope). specialize (Hk scope).
  destruct (cooldowns d !! (sid, scope)) as [r|], (g_cool g !! scope) as [c|]; try done.
  simpl in Ha. injection Ha as Hu Hr. specialize (Hk c eq_refl).
  destruct c as [s u rs]. simpl in *. by subst.
Qed.

(** What a restored guard holds: the registry's cooldowns that still run. *)
Lemma restored_cool sid now d g0 scope :
  has sid (sessions d) = true →
  g_cool (loadGuard now sid true d g0) !! scope =
  match cooldowns d !! (sid, scope) with
  | Some r => if (now <? cd_until r)%Z then Some (mkCooldown scope (cd_until r) (cd_reason r)) else None
  | None => None
  end.
Proof.
  intros [s Hs]%has_spec. unfold loadGuard, SessionLimits. rewrite Hs. cbn [negb default].
  unfold load. cbn [g_cool ls_cooldowns]. set (sel := select _ _). set (cds := order_by _ _).
  assert (Hsel : ∀ k r, (k, r) ∈ sel ↔ cooldowns d !! k = Some r ∧ k.1 = sid ∧ (now < cd_until r)%Z).
  { intros k r. unfold sel. rewrite elem_of_select. bool_props. done. }
  assert (Hnd : NoDup (c_scope <$> cds)).
  { unfold cds. rewrite order_by_perm. apply (restored_scopes sid); [apply NoDup_select|].
    apply Forall_forall. by intros [k r] (_&?&_)%Hsel. }
  apply option_eq. intros c. rewrite (load_cool_lookup cds) by done. unfold cds.
  rewrite elem_of_order_by, list_elem_of_In, in_map_iff. split.
  - intros (([[s' sc] r]&<-&(Hr&Hsid&Hu)%list_elem_of_In%Hsel)&Hsc). simpl in *. subst.
    by rewrite Hr, (proj2 (Z.ltb_lt _ _) Hu).
  - destruct (cooldowns d !! (sid, scope)) as [r|] eqn:Er; [|done].
    destruct (Z.ltb_spec now (cd_until r)) as [Hu|]; [|done]. intros [= <-]. split; [|done].
    exists (sid, scope, r). split; [done|]. by apply list_elem_of_In, Hsel.
Qed.

(** Cooldowns survive a session's move or a restart. A guard restored from
    a registry that agrees with the old guard refuses and lets through exactly
    what the old one does, on every scope, from then on. *)
Theorem cooldowns_survive_restore sid g g0 d now t scope :
  has sid (sessions d) = true → agree g sid d → (now <= t)%Z →
  active (loadGuard now sid true d g0) scope t = active g scope t.
Proof.
  intros Hsid Hag Ht. pose proof (agree_row g sid d scope Hag) as Hrow.
  unfold active. rewrite restored_cool by done.
  destruct (cooldowns d !! (sid, scope)) as [r|], (g_cool g !! scope) as [c|]; try done.
  subst c. cbn [c_until]. destruct (Z.ltb_spec now (cd_until r)); [done|].
  destruct (Z.ltb_spec t (cd_until r)); [lia|done].
Qed.

Lemma cooldowns_survive_restore_witness :
  let g := (set (mkCooldown "@send" 20 "b") new_guard).1 in
  active (loadGuard 5 "s" true
    (apply_write 1 "s" (WCooldown (mkCooldown "@send" 20 "b")) ex_user_db) new_guard) "@send" 10
  = active g "@send" 10.
Proof.
  apply (cooldowns_survive_restore "s" (set (mkCooldown "@send" 20 "b") new_guard).1).
  - by vm_compute.
  - split.
    + intros scope c. rewrite set_lookup. simpl. destruct (decide ("@send" = scope)) as [<-|].
      * by intros [= <-].
      * by rewrite lookup_empty.
    + intros scope. rewrite set_lookup.
      change (cooldowns _) with
        (<[("s", "@send") := mkCooldownRow 20 "b" 1]> (∅ : gmap (string * string) cooldown_row)).
      change (set _ _).2 with true. simpl.
      destruct (decide ("@send" = scope)) as [<-|]; [done|].
      rewrite lookup_insert_ne by congruence. by rewrite !lookup_empty.
  - done.
Defined.
