(* ===== verification/Admit.v ===== *)
(** Admission of a call (internal/session/limits.go, guard.go): what the
    account, the operator's rules and the pace say before it goes out, and what
    is learnt from its answer. Code runs in a state and error monad over the
    worker's world. What it does not decide is asked of three oracles, indexed
    by the number of questions so far: the clock, whether the store answers,
    and whether the caller has gone away. *)

From S2P Require Import Prelude GoStr Json Types Tdjson Quota Db Counters Chats Guard.


(** ** The world of one session's call *)

(** [w_log] is a ghost record of the requests sent to TDLib, latest first;
    [w_writes] the registry writes sent off, latest first. *)
Record world (T : Type) := mkW {
  w_tick : nat;
  w_td : T;
  w_log : list rawRequest;
  w_guard : guard;
  w_writes : list gwrite;
  w_db : db;
  w_rules : list Limit;
  w_rules_at : Z;
  w_pending : gmap Z (list string);
}.
Arguments mkW {T}.
Arguments w_tick {T}. Arguments w_td {T}. Arguments w_log {T}. Arguments w_guard {T}.
Arguments w_writes {T}. Arguments w_db {T}. Arguments w_rules {T}. Arguments w_rules_at {T}.
Arguments w_pending {T}.

Definition M (T A : Type) : Type := world T → res gerr A * world T.

Definition ret {T A} (a : A) : M T A := λ w, (Ok a, w).
Definition fail {T A} (e : gerr) : M T A := λ w, (Err e, w).
Definition bind {T A B} (c : M T A) (f : A → M T B) : M T B := λ w,
  match c w with
  | (Ok a, w) => f a w
  | (Err e, w) => (Err e, w)
  end.
Notation "'let*' x := c1 'in' c2" := (bind c1 (λ x, c2))
  (at level 10, x pattern, c1 at level 100, c2 at level 200) : tg_scope.

(** [res, err := c]: the error as a value. *)
Definition try {T A} (c : M T A) : M T (res gerr A) := λ w, let r := c w in (Ok r.1, r.2).
Definition lift {T A} (r : res gerr A) : M T A := λ w, (r, w).
Definition get {T} : M T (world T) := λ w, (Ok w, w).

Definition w_set_tick {T} n (w : world T) := mkW n (w_td w) (w_log w) (w_guard w) (w_writes w)
  (w_db w) (w_rules w) (w_rules_at w) (w_pending w).
Definition w_set_guard {T} g ws (w : world T) := mkW (w_tick w) (w_td w) (w_log w) g
  (ws ++ w_writes w) (w_db w) (w_rules w) (w_rules_at w) (w_pending w).
Definition w_set_db {T} d (w : world T) := mkW (w_tick w) (w_td w) (w_log w) (w_guard w) (w_writes w)
  d (w_rules w) (w_rules_at w) (w_pending w).
Definition w_set_rules {T} l at_ (w : world T) := mkW (w_tick w) (w_td w) (w_log w) (w_guard w)
  (w_writes w) (w_db w) l at_ (w_pending w).
Definition w_set_td {T} (t : T) r (w : world T) : world T := mkW (w_tick w) t (r ++ w_log w) (w_guard w)
  (w_writes w) (w_db w) (w_rules w) (w_rules_at w) (w_pending w).
Definition w_set_pending {T} p (w : world T) := mkW (w_tick w) (w_td w) (w_log w) (w_guard w)
  (w_writes w) (w_db w) (w_rules w) (w_rules_at w) p.

Definition upd {T} (f : world T → world T) : M T () := λ w, (Ok (), f w).

(** [internal/session/limits.go#ruleRefresh] *)
Definition ruleRefresh : Z := 2 * second.

Section admission.
Context {T : Type}.
(** TDLib, and the three oracles. *)
Context (td_send : T → rawRequest → T * td_reply).
Context (clock : nat → Z) (up : nat → bool) (gone : nat → bool).
(** The session and the caller ([""] for the master token). *)
Context (sid kind tok : string).

Definition ask {A} (oracle : nat → A) : M T A := λ w,
  (Ok (oracle (w_tick w)), w_set_tick (S (w_tick w)) w).

(** [tdjson.Call], with its ghost record. *)
Definition call_td (method : string) (params : raw) : M T json := λ w,
  let r := td_call td_send (w_td w) method params in
  (r.2, w_set_td r.1 (match request_params params with
                      | Some ps => [mkReq method ps]
                      | None => []
                      end) w).

(** ** Operator limits *)

(** The cached rules, read again once stale
    [internal/session/limits.go#limitRules]. *)
Definition limitRules : M T (list Limit) :=
  let* t := ask clock in
  let* w := get in
  if (time_sub t (w_rules_at w) <? ruleRefresh)%Z then ret (w_rules w)
  else
    let* ok := ask up in
    if negb ok then ret (w_rules w)
    else
      let all := ListLimits (w_db w) in
      let* t := ask clock in
      let* _ := upd (w_set_rules all t) in
      ret all.

(** The uses of a call, each with its rule: what the loop of [takeQuota]
    collects [internal/session/limits.go:70-88#takeQuota]. *)
Definition quota_uses (rules : list Limit) (method : string) (params : raw) (now : Z)
    : list (CounterUse * Limit) :=
  omap (λ a,
    if negb (String.eqb (ap_replaced a) "") then None
    else
      let n := Count (ap_limit a) method params in
      if Nat.eqb n 0 then None
      else Some (mkUse (mkCounterKey (l_id (ap_limit a)) sid (Window (l_per (ap_limit a)) now).1)
                       (Z.of_nat n) (l_max (ap_limit a)), ap_limit a))
    (Applicable rules sid kind tok).

(** Counts a call, returning the uses its release gives back
    [internal/session/limits.go#takeQuota]. *)
Definition takeQuota (method : string) (params : raw) : M T (list CounterUse) :=
  let* rules := limitRules in
  if bool_decide (rules = []) then ret []
  else
    let* now := ask clock in
    let hits := quota_uses rules method params now in
    let uses := map fst hits in
    if bool_decide (uses = []) then ret []
    else
      let* ok := ask up in
      let* w := get in
      match (if ok then TakeCounters uses (w_db w) else Err DbDown) with
      | Err _ => ret []
      | Ok (i, d) =>
          if (0 <=? i)%Z then
            match hits !! Z.to_nat i with
            | Some (_, l) =>
                fail (ERefused (mkRefused "limit" "" (Window (l_per l) now).2 "" (Some l)))
            | None => fail (EMsg "index out of range")
            end
          else
            let* _ := upd (w_set_db d) in
            ret uses
      end.

(** [release()]. *)
Definition release (uses : list CounterUse) : M T () :=
  if bool_decide (uses = []) then ret ()
  else
    let* ok := ask up in
    if ok then upd (λ w, w_set_db (GiveBackCounters uses (w_db w)) w) else ret ().

(** ** Account restriction *)

Definition set_mutual (k : string) : dec bool := λ o v,
  if names k "is_mutual_contact" then dec_bool o v else (o, true).

(** [internal/session/guard.go#spamBlocked] *)
Definition spamBlocked (scope : string) (params : raw) : M T bool :=
  if existsb (String.eqb scope) ["@invite"; "@contacts"] then ret true
  else if negb (String.eqb scope "@send") then ret false
  else match numericChatID params with
  | None => ret false
  | Some id =>
      if (id <=? 0)%Z then ret false
      else
        let* w := get in
        if (id =? g_myID (w_guard w))%Z then ret false
        else
          let* r := try (call_td "getUser" (Some (marshal_map {["user_id" := JNum id]}))) in
          match r with
          | Err _ => ret true
          | Ok v => match unmarshal_ok (dec_struct set_mutual) false (Some v) with
                    | Some mutual => ret (negb mutual)
                    | None => ret true
                    end
          end
  end.

(** ** Admission *)

Definition ctx_err : gerr := EMsg "context canceled".

(** The part of [admit] before the quota. *)
Definition admit_spam (scope : string) (params : raw) : M T () :=
  if negb (String.eqb kind "user") then ret ()
  else
    let* now := ask clock in
    let* w := get in
    match active (w_guard w) SpamLimitScope now with
    | None => ret ()
    | Some c =>
        let* blocked := spamBlocked scope params in
        if blocked
        then fail (ERefused (mkRefused "cooldown" SpamLimitScope (c_until c) (c_reason c) None))
        else ret ()
    end.

(** The part of [admit] after the quota. *)
Definition admit_pace (scope : string) (uses : list CounterUse) : M T () :=
  if negb (String.eqb kind "user") || negb (pacedGroups scope) then ret ()
  else
    let* now := ask clock in
    let* w := get in
    let '(g, (wait, ok)) := reserve now (w_guard w) in
    let* _ := upd (w_set_guard g []) in
    if negb ok then
      let* _ := release uses in
      fail (ERefused (mkRefused "pace" scope (now + (wait - maxPaceWait))%Z "" None))
    else if (wait =? 0)%Z then ret ()
    else
      let* left_ := ask gone in
      if negb left_ then ret ()
      else
        let* _ := release uses in
        fail ctx_err.

(** The account restriction, the operator's limits and the write pace, for a
    call about to go out [internal/session/guard.go#admit]. *)
Definition admit_call (method scope : string) (params : raw) : M T () :=
  let* _ := admit_spam scope params in
  let* uses := takeQuota method params in
  admit_pace scope uses.

(** [checkCooldown(ls, scope)]. *)
Definition check_cooldown (scope : string) : M T () :=
  let* now := ask clock in
  let* w := get in
  match checkCooldown (w_guard w) scope now with
  | None => ret ()
  | Some r => fail (ERefused r)
  end.

(** [m.observe(ls, scope, err)]. *)
Definition observe_answer {A} (scope : string) (r : res gerr A) : M T () :=
  let* now := ask clock in
  upd (λ w, let g := observe kind scope (match r with Ok _ => None | Err e => Some e end) now
                       (w_guard w) in w_set_guard g.1 (rev g.2) w).

(** ** Lemmas *)

Lemma bind_ok {A B} (c : M T A) (f : A → M T B) w b w' :
  bind c f w = (Ok b, w') ↔ ∃ a w1, c w = (Ok a, w1) ∧ f a w1 = (Ok b, w').
Proof.
  unfold bind. destruct (c w) as [[a|e] w1]; split; intros H; try naive_solver.
Qed.

Lemma bind_err {A B} (c : M T A) (f : A → M T B) w e w' :
  bind c f w = (Err e, w') ↔
  c w = (Err e, w') ∨ ∃ a w1, c w = (Ok a, w1) ∧ f a w1 = (Err e, w').
Proof.
  unfold bind. destruct (c w) as [[a|e'] w1]; split; intros H; try naive_solver.
Qed.

Lemma limitRules_frame w :
  w_db (limitRules w).2 = w_db w ∧ w_log (limitRules w).2 = w_log w ∧
  ∃ l, (limitRules w).1 = Ok l.
Proof.
  unfold limitRules, bind, ask, get, ret, upd. simpl. repeat split_match; simpl; eauto.
Qed.

Lemma quota_uses_pos rules method params now :
  Forall pos_use (map fst (quota_uses rules method params now)).
Proof.
  unfold quota_uses. induction (Applicable rules sid kind tok) as [|a l IH]; simpl; [constructor|].
  destruct (negb (String.eqb (ap_replaced a) "")); simpl; [done|].
  destruct (Nat.eqb_spec (Count (ap_limit a) method params) 0); simpl; [done|].
  constructor; [|done]. unfold pos_use. simpl. lia.
Qed.

(** What [takeQuota] does to the counters. *)
Lemma takeQuota_counts method params w r w' :
  takeQuota method params w = (r, w') →
  w_log w' = w_log w ∧
  match r with
  | Ok uses => Forall pos_use uses ∧
      ∀ k, count (counters (w_db w')) k = (count (counters (w_db w)) k + added uses k)%Z
  | Err _ => w_db w' = w_db w
  end.
Proof.
  unfold takeQuota. destruct (limitRules_frame w) as (Hdb&Hlog&rules&Hr).
  unfold bind at 1. destruct (limitRules w) as [r1 w1]. simpl in Hdb, Hlog, Hr. subst r1.
  assert (Hnone : ∀ w2, w_db w2 = w_db w1 → w_log w2 = w_log w1 → (Ok [], w2) = (r, w') →
    w_log w' = w_log w ∧ match r with
    | Ok uses => Forall pos_use uses ∧
        ∀ k, count (counters (w_db w')) k = (count (counters (w_db w)) k + added uses k)%Z
    | Err _ => w_db w' = w_db w
    end).
  { intros w2 H1 H2 [= <- <-]. rewrite H1, H2, Hdb, Hlog. split; [done|].
    split; [constructor|]. intros k. simpl. lia. }
  destruct (bool_decide (rules = [])); [by apply Hnone|].
  unfold ask at 1. unfold bind at 1. cbv iota beta zeta.
  set (hits := quota_uses _ _ _ _). destruct (bool_decide (map fst hits = [])); [by apply Hnone|].
  unfold ask, bind, get. cbv iota beta. cbn [w_tick w_set_tick w_db].
  destruct (up (S (w_tick w1))); [|by apply Hnone].
  pose proof (quota_uses_pos rules method params (clock (w_tick w1))) as Hpos. fold hits in Hpos.
  unfold TakeCounters. destruct (take_loop _ _ _ _) as [[i|m]|] eqn:E; simpl; [| |by apply Hnone].
  - destruct (Z.leb_spec 0 (Z.of_nat i)); [|lia].
    destruct (hits !! Z.to_nat (Z.of_nat i)) as [[u l]|]; intros [= <- <-]; simpl;
      by rewrite Hdb, Hlog.
  - intros [= <- <-]. simpl. split; [done|]. split; [done|].
    apply take_loop_spec in E. by rewrite <- Hdb.
Qed.

Lemma spamBlocked_frame scope params w :
  w_db (spamBlocked scope params w).2 = w_db w ∧
  ∃ b, (spamBlocked scope params w).1 = Ok b.
Proof.
  unfold spamBlocked. repeat split_match; try (split; [done|by eexists]).
  unfold bind, get, ret, try, call_td. simpl. repeat split_match; simpl; eauto.
Qed.

Lemma admit_spam_frame scope params w :
  w_db (admit_spam scope params w).2 = w_db w.
Proof.
  unfold admit_spam. destruct (negb _); [done|]. unfold bind, ask, get. cbv iota beta.
  destruct (active _ _ _); [|done].
  destruct (spamBlocked_frame scope params (w_set_tick (S (w_tick w)) w)) as [Hd [b Hb]].
  destruct (spamBlocked _ _ _) as [r w1]. simpl in *. subst r. by destruct b.
Qed.

Lemma release_db uses w :
  (∀ n, up n = true) →
  (release uses w).1 = Ok () ∧
  w_db (release uses w).2 = GiveBackCounters uses (w_db w).
Proof.
  intros Hup. unfold release. destruct (bool_decide_reflect (uses = [])) as [->|].
  - simpl. split; [done|]. unfold GiveBackCounters, with_counters. simpl. by destruct (w_db w).
  - unfold bind, ask, upd. by rewrite Hup.
Qed.

Lemma admit_pace_db scope uses w r w' :
  (∀ n, up n = true) → admit_pace scope uses w = (r, w') →
  match r with
  | Ok _ => w_db w' = w_db w
  | Err _ => w_db w' = GiveBackCounters uses (w_db w)
  end.
Proof.
  intros Hup. unfold admit_pace. destruct (negb _ || negb _); [by intros [= <- <-]|].
  unfold bind at 1, ask at 1. unfold bind at 1, get. cbv iota beta.
  destruct (reserve _ _) as [g [wait ok]]. unfold bind at 1, upd at 1. cbv iota beta.
  set (w1 := w_set_guard g [] _).
  assert (H1 : w_db w1 = w_db w) by done.
  destruct ok; cbn [negb].
  - destruct (wait =? 0)%Z; [by intros [= <- <-]|].
    unfold bind at 1, ask at 1. cbv iota beta. destruct (gone (w_tick w1)); cbn [negb];
      [|by intros [= <- <-]].
    set (w2 := w_set_tick _ _). destruct (release_db uses w2 Hup) as [Hr Hd].
    unfold bind. destruct (release uses w2) as [rr w3]. simpl in *. subst rr.
    intros [= <- <-]. done.
  - destruct (release_db uses w1 Hup) as [Hr Hd]. unfold bind.
    destruct (release uses w1) as [rr w3]. simpl in *. subst rr. intros [= <- <-]. done.
Qed.

(** C16: A call the guard refuses spends no quota. Whatever stops it - the
    account's restriction, a full rule, the pace queue or the caller going away
    while it waits - every counter is afterwards what it was before (the store
    answering; counters are never negative). *)
Theorem refused_call_spends_nothing method scope params w e w' :
  (∀ n, up n = true) → (∀ k, 0 <= count (counters (w_db w)) k)%Z →
  admit_call method scope params w = (Err e, w') →
  ∀ k, count (counters (w_db w')) k = count (counters (w_db w)) k.
Proof.
  intros Hup Hnn Ha k. unfold admit_call in Ha.
  pose proof (admit_spam_frame scope params w) as Hs.
  apply bind_err in Ha as [Ha|([]&w1&H1&Ha)]; [rewrite Ha in Hs; simpl in Hs; by rewrite Hs|].
  rewrite H1 in Hs. simpl in Hs.
  apply bind_err in Ha as [Ha|(uses&w2&H2&Ha)].
  { apply takeQuota_counts in Ha as [_ Ha]. by rewrite Ha, Hs. }
  apply takeQuota_counts in H2 as (_&Hpos&Hc).
  apply (admit_pace_db _ _ _ _ _ Hup) in Ha. rewrite Ha. simpl.
  rewrite give_back_count; [rewrite Hc, Hs; lia|done|].
  intros k'. rewrite Hc, Hs. specialize (Hnn k'). lia.
Qed.

Lemma map_fst_split {A B} (l : list (A * B)) pre u post :
  map fst l = pre ++ u :: post →
  ∃ lpre b lpost, l = lpre ++ (u, b) :: lpost ∧ map fst lpre = pre.
Proof.
  revert l. induction pre as [|x pre IH]; intros [|[a b] l]; simpl; try done.
  - intros [= -> _]. by exists [], b, l.
  - intros [= -> H]. destruct (IH _ H) as (lpre&b'&lpost&->&<-). by exists ((x, b) :: lpre), b', lpost.
Qed.

(** The uses a call is counted by under a list of rules, each with its rule:
    there is one for every rule that is enabled, bears on the session and the
    caller, is not replaced by a rule of the same calls at a higher level, and
    counts the call; and for no other. A use is in the rule's window that holds
    [now], in the session's own bucket, by the call's weight, up to the rule's
    maximum. *)
Definition charged (rules : list Limit) (method : string) (params : raw) (now : Z)
    (hits : list (CounterUse * Limit)) : Prop :=
  hits.*2 `sublist_of` rules ∧
  (∀ l, l ∈ hits.*2 ↔ l ∈ rules ∧ l_enabled l = true ∧
     (∃ n, rank sid kind tok l = Some n ∧ ¬ outranked rules sid kind tok l n) ∧
     (0 < Count l method params)%nat) ∧
  (∀ u l, (u, l) ∈ hits →
     ck_limit (cu_key u) = l_id l ∧ ck_bucket (cu_key u) = sid ∧
     (∃ e, Window (l_per l) now = (ck_start (cu_key u), e) ∧ ck_start (cu_key u) <= now < e)%Z ∧
     cu_n u = Z.of_nat (Count l method params) ∧ cu_max u = l_max l).

Lemma omap_bind {A B C} (f : B → option C) (g : A → list B) l :
  omap f (l ≫= g) = l ≫= (λ x, omap f (g x)).
Proof. induction l as [|x l IH]; [done|]. csimpl. by rewrite omap_app, IH. Qed.

Lemma quota_uses_charged rules method params now :
  Forall (λ l, l_id l ≠ "") rules →
  charged rules method params now (quota_uses rules method params now).
Proof.
  intros Hids. split; [|split].
  - unfold quota_uses, Applicable. set (m := index_rules _ _ _). clearbody m.
    induction rules as [|l rules IH]; [done|]. apply Forall_cons in Hids as [_ Hids].
    specialize (IH Hids). rewrite omap_bind in *. csimpl. rewrite fmap_app.
    change (l :: rules) with ([l] ++ rules). apply sublist_app; [|done].
    unfold apply_rule. repeat split_match; simpl; repeat split_match; simpl;
      try apply sublist_nil_l; done.
  - intros l. rewrite list_elem_of_fmap. unfold quota_uses. setoid_rewrite list_elem_of_omap.
    pose proof (Applicable_enforced rules sid kind tok l Hids) as Hen. split.
    + intros ([u l']&->&[x i]&Hin&Hx). simpl in Hx |- *.
      destruct (String.eqb_spec i ""); simpl in Hx; [subst i|done].
      destruct (Nat.eqb_spec (Count x method params) 0); simplify_eq.
      apply Hen in Hin as (?&?&?). repeat split; [done..|lia].
    + intros (Hl&He&Hr&Hc). eexists (_, l). split; [done|]. exists (mkApplied l "").
      split; [by apply Hen|]. simpl. destruct (Nat.eqb_spec (Count l method params) 0); [lia|done].
  - intros u l. unfold quota_uses. rewrite list_elem_of_omap. intros ([x i]&_&Hx).
    simpl in Hx. destruct (String.eqb i ""); [|done]. simpl in Hx.
    destruct (Nat.eqb _ _); simplify_eq. simpl. repeat split.
    destruct (Window_tiles (l_per l) now now) as [Hw _].
    destruct (Window (l_per l) now) as [s e]. by exists e.
Qed.

(** What [limitRules] reads when the store answers: the cached rules while
    they are fresh, the registry's after that. *)
Lemma limitRules_read w :
  (∀ n, up n = true) →
  ∃ w', limitRules w =
    (Ok (if (time_sub (clock (w_tick w)) (w_rules_at w) <? ruleRefresh)%Z
         then w_rules w else ListLimits (w_db w)), w') ∧
    (w_tick w < w_tick w' <= w_tick w + 3)%nat ∧ w_db w' = w_db w.
Proof.
  intros Hup. unfold limitRules, bind, ask, get, ret, upd. simpl.
  destruct (_ <? ruleRefresh)%Z; simpl; rewrite ?Hup; simpl;
    eexists; (split; [done|]); simpl; split; (done || lia).
Qed.

(** C17: What the operator's rules decide. Against the rules as last read, or
    read anew from the registry when those are two seconds old, a call is
    charged once under every rule that is enabled, bears on its session and
    caller, is not replaced by a higher rule of the same calls, and counts the
    call, and under no other: by the call's weight, in the session's bucket, in
    the rule's window of that moment. It then either is counted, when every one
    of these rules has room for it; or is refused, with nothing counted, in the
    name of one of them that has no room, until that rule's window ends; or goes
    through uncounted because a counter cannot be written (its rule is gone
    from the registry, or a number is out of its column's range). The store
    answers; rule ids are not empty and counters not negative. *)
Theorem takeQuota_decides method params w :
  (∀ n, up n = true) → (∀ k, 0 <= count (counters (w_db w)) k)%Z →
  let rules := if (time_sub (clock (w_tick w)) (w_rules_at w) <? ruleRefresh)%Z
               then w_rules w else ListLimits (w_db w) in
  Forall (λ l, l_id l ≠ "") rules →
  ∃ n hits, let now := clock n in
  (w_tick w < n <= w_tick w + 3)%nat ∧ charged rules method params now hits ∧
  let m := counters (w_db w) in
  match takeQuota method params w with
  | (Ok uses, w') =>
      (uses = hits.*1 ∧
       (∀ k, count (counters (w_db w')) k = count m k + added hits.*1 k) ∧
       ∀ pre u post, hits.*1 = pre ++ u :: post → room m pre u)%Z ∨
      (uses = [] ∧ w_db w' = w_db w ∧
       ∃ pre u post, hits.*1 = pre ++ u :: post ∧ unwritable (limits (w_db w)) m pre u)
  | (Err e, w') =>
      w_db w' = w_db w ∧
      ∃ pre u l post, hits = pre ++ (u, l) :: post ∧ ¬ room m pre.*1 u ∧
        e = ERefused (mkRefused "limit" "" (Window (l_per l) now).2 "" (Some l))
  end.
Proof.
  intros Hup Hnn rules Hids. destruct (limitRules_read w Hup) as (w1&E1&Ht&Hdb). fold rules in E1.
  exists (w_tick w1), (quota_uses rules method params (clock (w_tick w1))). cbv zeta.
  split; [lia|]. split; [by apply quota_uses_charged|].
  unfold takeQuota, bind at 1. rewrite E1.
  assert (Hnone : ∀ w' : world T, w_db w' = w_db w →
    (∀ k, count (counters (w_db w')) k = count (counters (w_db w)) k + added [] k)%Z).
  { intros w' -> k. simpl. lia. }
  destruct (bool_decide_reflect (rules = [])) as [->|].
  { left. repeat split; [by apply Hnone|]. intros [|] ? ? [=]. }
  unfold ask at 1. unfold bind at 1. cbv iota beta zeta.
  set (hits := quota_uses _ _ _ _). destruct (bool_decide_reflect (map fst hits = [])) as [Hn|].
  { left. change hits.*1 with (map fst hits). rewrite Hn.
    repeat split; [by apply Hnone|]. intros [|] ? ? [=]. }
  unfold ask, bind, get. cbv iota beta. cbn [w_tick w_set_tick w_db]. rewrite Hup, Hdb.
  pose proof (quota_uses_pos rules method params (clock (w_tick w1))) as Hpos. fold hits in Hpos.
  pose proof (take_loop_room (limits (w_db w)) (map fst hits) 0 (counters (w_db w))
    (Forall_impl _ _ _ Hpos (λ _, Z.lt_le_incl _ _)) Hnn) as Hroom.
  unfold TakeCounters. destruct (take_loop _ _ (map fst hits) _) as [[i|m]|] eqn:E; simpl.
  - destruct (Z.leb_spec 0 (Z.of_nat i)); [|lia]. rewrite Nat2Z.id.
    destruct Hroom as (pre&u&post&Hsplit&->&Hr).
    apply map_fst_split in Hsplit as (lpre&l&lpost&->&<-).
    rewrite length_map, Nat.add_0_l, lookup_app_r, Nat.sub_diag by done. simpl. split; [done|].
    by exists lpre, u, l, lpost.
  - left. apply take_loop_spec in E. done.
  - right. split; [done|]. done.
Qed.
End admission.

(** A client that answers every request with an empty object. *)
Definition ex_td : () → rawRequest → () * td_reply := λ t _, (t, TdResult (JObj [])).

Definition ex_world : world () :=
  mkW 0 () [] new_guard []
    (with_counters (λ _, {[mkCounterKey "l" "s" 0 := 3%Z]})
      (with_limits (λ _, {["l" := mkLimit "l" "session" (Some "user") None None ["@send"] 3 "day" None true 0]})
        empty_db)) [] zero_time ∅.

Definition ex_clock : nat → Z := λ n, (75600 * second + Z.of_nat n)%Z.

Lemma ex_counters_nonneg k : (0 <= count (counters (w_db ex_world)) k)%Z.
Proof.
  unfold count. change (counters _) with ({[mkCounterKey "l" "s" 0 := 3%Z]} : gmap CounterKey Z).
  destruct (decide (mkCounterKey "l" "s" 0 = k)) as [<-|];
    [by rewrite lookup_singleton_eq|by rewrite lookup_singleton_ne].
Defined.

Lemma refused_call_spends_nothing_witness :
  count (counters (w_db
         (admit_call ex_td (λ _, 0%Z) (λ _, true) (λ _, true) "s" "user" "" "importContacts" "@contacts" None
           (w_set_guard (set (mkCooldown SpamLimitScope 10 "PEER_FLOOD") new_guard).1 [] ex_world)).2)) (mkCounterKey "l" "s" 0) =
       count (counters (w_db ex_world)) (mkCounterKey "l" "s" 0).
Proof.
  apply (refused_call_spends_nothing ex_td (λ _, 0%Z) (λ _, true) (λ _, true) "s" "user" ""
           "importContacts" "@contacts" None
           (w_set_guard (set (mkCooldown SpamLimitScope 10 "PEER_FLOOD") new_guard).1 [] ex_world)
           (ERefused (mkRefused "cooldown" SpamLimitScope 10 "PEER_FLOOD" None))).
  - done.
  - exact ex_counters_nonneg.
  - by vm_compute.
Defined.

Lemma takeQuota_decides_witness :
  ∃ n hits, let now := ex_clock n in
  (0 < n <= 3)%nat ∧
  charged "s" "user" "" (ListLimits (w_db ex_world)) "sendMessage" None now hits ∧
  let m := counters (w_db ex_world) in
  match takeQuota ex_clock (λ _, true) "s" "user" "" "sendMessage" None ex_world with
  | (Ok uses, w') =>
      (uses = hits.*1 ∧
       (∀ k, count (counters (w_db w')) k = count m k + added hits.*1 k) ∧
       ∀ pre u post, hits.*1 = pre ++ u :: post → room m pre u)%Z ∨
      (uses = [] ∧ w_db w' = w_db ex_world ∧
       ∃ pre u post, hits.*1 = pre ++ u :: post ∧ unwritable (limits (w_db ex_world)) m pre u)
  | (Err e, w') =>
      w_db w' = w_db ex_world ∧
      ∃ pre u l post, hits = pre ++ (u, l) :: post ∧ ¬ room m pre.*1 u ∧
        e = ERefused (mkRefused "limit" "" (Window (l_per l) now).2 "" (Some l))
  end.
Proof.
  apply (takeQuota_decides ex_clock (λ _, true) "s" "user" "" "sendMessage" None ex_world).
  - done.
  - exact ex_counters_nonneg.
  - by repeat constructor.
Defined.

(** The rule of the example world leaves room for a send the first three times
    and refuses the fourth; a call of another method is not counted. *)
Definition ex_takes (n : nat) (method : string) : res gerr (list CounterUse) :=
  let w := Nat.iter n (λ w, (takeQuota ex_clock (λ _, true) "s" "user" "" "sendMessage" None w).2)
             ex_world in
  (takeQuota ex_clock (λ _, true) "s" "user" "" method None w).1.

Example fourth_refused :
  match ex_takes 2 "sendMessage", ex_takes 3 "sendMessage", ex_takes 3 "getMe" with
  | Ok [u], Err (ERefused r), Ok [] => (cu_n u, r_reason r) = (1%Z, "limit")
  | _, _, _ => False
  end.
Proof. vm_compute. reflexivity. Qed.

