(* ===== verification/Paths.v ===== *)
(** Lemmas on the path functions of GoStr: cleaning is idempotent, joining a
    plain name appends it, and a cleaned path lies under another exactly when
    its components extend the other's. *)

From S2P Require Import Prelude GoStr.


(** A name that stands for itself as a path component. *)
Definition plain_comp (w : string) : Prop :=
  w ≠ "" ∧ w ≠ "." ∧ no_char "/" w.
Definition plain_name (w : string) : Prop := plain_comp w ∧ w ≠ "..".

Lemma ssplit_app_sep (sep : ascii) (a b : string) :
  ssplit sep (a +:+ String sep b) = ssplit sep a ++ ssplit sep b.
Proof.
  induction a as [|c a IH].
  - simpl. destruct (Ascii.eqb_spec sep sep); [done|congruence].
  - simpl. rewrite IH. destruct (Ascii.eqb c sep); [done|].
    pose proof (ssplit_nonempty sep a). by destruct (ssplit sep a).
Qed.

(** The components held back while cleaning, latest first. *)
Fixpoint acc_ok (rooted : bool) (acc : list string) : Prop :=
  match acc with
  | [] => True
  | x :: acc => plain_comp x ∧ (x = ".." → rooted = false ∧ Forall (eq "..") acc) ∧ acc_ok rooted acc
  end.

Lemma comps_step_ok rooted acc w :
  no_char "/" w → acc_ok rooted acc → acc_ok rooted (comps_step rooted acc w).
Proof.
  intros Hw Hacc. unfold comps_step.
  destruct (String.eqb_spec w ""); simpl; [done|].
  destruct (String.eqb_spec w "."); simpl; [done|].
  destruct (String.eqb_spec w "..") as [->|Hd].
  - destruct acc as [|x acc]; [destruct rooted; by repeat split|].
    destruct (String.eqb_spec x "..") as [->|]; [|by destruct Hacc as (_&_&?)].
    destruct Hacc as (Hp&Hx&Hacc). destruct (Hx eq_refl) as [Hr Hall].
    repeat split; try done. by constructor.
  - by repeat split.
Qed.

Lemma foldl_comps_ok rooted ws acc :
  Forall (no_char "/") ws → acc_ok rooted acc → acc_ok rooted (foldl (comps_step rooted) acc ws).
Proof.
  intros Hws. revert acc. induction Hws as [|w ws Hw _ IH]; intros acc Hacc; simpl; [done|].
  by apply IH, comps_step_ok.
Qed.

Lemma comps_step_push rooted acc x : acc_ok rooted (x :: acc) → comps_step rooted acc x = x :: acc.
Proof.
  intros ((Hne&Hnd&_)&Hx&Hacc). unfold comps_step.
  rewrite (proj2 (String.eqb_neq _ _) Hne), (proj2 (String.eqb_neq _ _) Hnd). simpl.
  destruct (String.eqb_spec x "..") as [->|]; [|done].
  destruct (Hx eq_refl) as [-> Hall]. destruct Hall as [|y acc <- Hall]; done.
Qed.

Lemma foldl_rev_acc rooted acc : acc_ok rooted acc → foldl (comps_step rooted) [] (rev acc) = acc.
Proof.
  induction acc as [|x acc IH]; intros Hacc; [done|]. simpl rev. rewrite foldl_app. simpl.
  rewrite IH by (by destruct Hacc as (_&_&?)). by apply comps_step_push.
Qed.

Definition rooted (p : string) : bool := has_prefix p "/".

Lemma clean_acc_ok p : acc_ok (rooted p) (rev (clean_comps p)).
Proof.
  unfold clean_comps. rewrite rev_involutive. apply foldl_comps_ok; [apply ssplit_no_char|done].
Qed.

Lemma acc_ok_plain r acc : acc_ok r acc → Forall plain_comp acc.
Proof. induction acc; [constructor|]. intros (?&_&?). constructor; auto. Qed.

Lemma clean_comps_plain p : Forall plain_comp (clean_comps p).
Proof. rewrite <- (rev_involutive (clean_comps p)). apply Forall_rev, (acc_ok_plain (rooted p)), clean_acc_ok. Qed.

Lemma rooted_char c s : rooted (String c s) = Ascii.eqb c "/".
Proof.
  unfold rooted. destruct (Ascii.eqb_spec c "/") as [->|Hne].
  - apply has_prefix_spec. by exists s.
  - destruct (has_prefix (String c s) "/") eqn:E; [|done].
    apply has_prefix_spec in E as [t [= -> _]]. done.
Qed.

Lemma rooted_cons s : rooted (String "/" s) = true.
Proof. by rewrite rooted_char. Qed.

Lemma sjoin_plain_rooted cs : Forall plain_comp cs → cs ≠ [] → rooted (sjoin "/" cs) = false.
Proof.
  intros Hp Hn. destruct Hp as [|w ws (Hw&_&Hs) _]; [done|]. destruct w as [|c w]; [done|].
  apply no_char_cons in Hs as [Hc _].
  assert (∃ t, sjoin "/" (String c w :: ws) = String c t) as [t ->].
  { destruct ws; by eexists. }
  rewrite rooted_char. apply Ascii.eqb_neq. congruence.
Qed.

(** The components and rootedness of a path given by its components. *)
Definition of_comps (r : bool) (cs : list string) : string :=
  if r then "/" +:+ sjoin "/" cs else match cs with [] => "." | _ => sjoin "/" cs end.

Lemma path_clean_of_comps p : path_clean p = of_comps (rooted p) (clean_comps p).
Proof. done. Qed.

Lemma of_comps_inv r cs :
  acc_ok r (rev cs) → rooted (of_comps r cs) = r ∧ clean_comps (of_comps r cs) = cs.
Proof.
  intros Hok. assert (Hp : Forall plain_comp cs).
  { rewrite <- (rev_involutive cs). by apply Forall_rev, (acc_ok_plain r). }
  assert (Hs : cs ≠ [] → ssplit "/" (sjoin "/" cs) = cs).
  { intros Hn. apply ssplit_sjoin; [done|]. eapply Forall_impl; [exact Hp|]. by intros w (_&_&?). }
  unfold of_comps. destruct r.
  - split; [apply rooted_cons|]. unfold clean_comps. change (has_prefix ("/" +:+ _) "/") with (rooted (String "/" (sjoin "/" cs))).
    rewrite rooted_cons. change (ssplit "/" ("/" +:+ sjoin "/" cs)) with ("" :: ssplit "/" (sjoin "/" cs)).
    cbn [foldl]. change (comps_step true [] "") with (@nil string).
    destruct (decide (cs = [])) as [->|Hn]; [done|]. rewrite Hs by done.
    rewrite <- (rev_involutive cs) at 1. rewrite foldl_rev_acc by done. by rewrite rev_involutive.
  - destruct (decide (cs = [])) as [->|Hn]; [done|].
    assert (E : match cs with [] => "." | _ => sjoin "/" cs end = sjoin "/" cs) by (by destruct cs).
    rewrite E. pose proof (sjoin_plain_rooted cs Hp Hn) as Hr. split; [done|].
    unfold clean_comps. unfold rooted in Hr. rewrite Hr, Hs by done.
    rewrite <- (rev_involutive cs) at 1. rewrite foldl_rev_acc by done. by rewrite rev_involutive.
Qed.

Lemma clean_rooted p : rooted (path_clean p) = rooted p.
Proof. rewrite path_clean_of_comps. apply of_comps_inv, clean_acc_ok. Qed.

Lemma clean_comps_clean p : clean_comps (path_clean p) = clean_comps p.
Proof. rewrite path_clean_of_comps. apply of_comps_inv, clean_acc_ok. Qed.

(** Cleaning is idempotent. *)
Lemma path_clean_idem p : path_clean (path_clean p) = path_clean p.
Proof. by rewrite (path_clean_of_comps (path_clean p)), clean_rooted, clean_comps_clean. Qed.

Lemma rooted_app a b : a ≠ "" → rooted (a +:+ b) = rooted a.
Proof. destruct a as [|c a]; [done|]. intros _. simpl. by rewrite !rooted_char. Qed.

Lemma ssplit_plain w : no_char "/" w → ssplit "/" w = [w].
Proof. apply ssplit_single. Qed.

(** A plain name after a slash becomes the last component. *)
Lemma clean_comps_snoc a w :
  a ≠ "" → plain_name w →
  clean_comps (a +:+ "/" +:+ w) = clean_comps a ++ [w] ∧ rooted (a +:+ "/" +:+ w) = rooted a.
Proof.
  intros Ha ((Hne&Hnd&Hs)&Hdd). split; [|by apply rooted_app].
  unfold clean_comps. change (has_prefix ?x "/") with (rooted x).
  rewrite rooted_app by done. change ("/" +:+ w) with (String "/" w).
  rewrite ssplit_app_sep, (ssplit_plain w), foldl_app by done. simpl.
  unfold comps_step at 1. rewrite (proj2 (String.eqb_neq _ _) Hne), (proj2 (String.eqb_neq _ _) Hnd),
    (proj2 (String.eqb_neq _ _) Hdd). done.
Qed.

Lemma path_clean_nonempty p : path_clean p ≠ "".
Proof.
  rewrite path_clean_of_comps. unfold of_comps. destruct (rooted p); [done|].
  pose proof (clean_comps_plain p) as Hp. destruct Hp as [|w ws (Hw&_) _]; [done|].
  destruct w; [done|]. by destruct ws.
Qed.

Lemma join_comps a w :
  a ≠ "" → plain_name w →
  clean_comps (path_join a w) = clean_comps a ++ [w] ∧ rooted (path_join a w) = rooted a.
Proof.
  intros Ha Hw. destruct Hw as ((Hne&Hrest)&Hdd).
  assert (path_join a w = path_clean (a +:+ "/" +:+ w)) as -> by (by destruct a, w).
  rewrite clean_comps_clean, clean_rooted. by apply clean_comps_snoc.
Qed.

Lemma path_join_clean a w : a ≠ "" → path_clean (path_join a w) = path_join a w.
Proof.
  unfold path_join. destruct a, w; try done; intros _; apply path_clean_idem.
Qed.

Lemma sjoin_app sep l1 l2 :
  l1 ≠ [] → l2 ≠ [] → sjoin sep (l1 ++ l2) = sjoin sep l1 +:+ sep +:+ sjoin sep l2.
Proof.
  intros H1 H2.
  assert (E : ∀ x l, l ≠ [] → sjoin sep (x :: l) = x +:+ sep +:+ sjoin sep l) by (by intros x [|]).
  induction l1 as [|w l1 IH]; [done|]. destruct (decide (l1 = [])) as [->|Hn]; [by apply E|].
  rewrite <- app_comm_cons, !E, IH by (done || by destruct l1). by rewrite !app_assoc_s.
Qed.

Lemma of_comps_nonempty r cs : cs ≠ [] → of_comps r cs = (if r then "/" else "") +:+ sjoin "/" cs.
Proof. destruct r, cs; done. Qed.

(** [rp + "/"] is a prefix of a cleaned path iff its components extend [rp]'s. *)
Lemma clean_prefix p root :
  has_prefix (path_clean p) (path_clean root +:+ "/") = true ↔
  clean_comps root ≠ [] ∧ rooted p = rooted root ∧
  ∃ rest, rest ≠ [] ∧ clean_comps p = clean_comps root ++ rest.
Proof.
  pose proof (clean_comps_plain p) as Hpp. pose proof (clean_comps_plain root) as Hpr.
  assert (Hsj : ∀ cs, Forall plain_comp cs → cs ≠ [] → ssplit "/" (sjoin "/" cs) = cs).
  { intros cs Hc Hn. apply ssplit_sjoin; [done|]. eapply Forall_impl; [exact Hc|]. by intros w (_&_&?). }
  rewrite has_prefix_spec, !path_clean_of_comps. split.
  - intros [t Ht]. rewrite app_assoc_s in Ht.
    assert (Hr : rooted p = rooted root).
    { rewrite <- (clean_rooted p), path_clean_of_comps, Ht, rooted_app.
      - rewrite <- path_clean_of_comps. apply clean_rooted.
      - rewrite <- path_clean_of_comps. apply path_clean_nonempty. }
    rewrite Hr in Ht.
    destruct (decide (clean_comps p = [])) as [Hcp|Hcp].
    { rewrite Hcp in Ht. exfalso. unfold of_comps in Ht.
      destruct (rooted root), (clean_comps root) as [|w ws]; simpl in Ht; try done.
      - injection Ht as Ht. by destruct (match ws with [] => w | _ :: _ => _ end).
      - apply Forall_cons in Hpr as [(Hw&Hw2&_) _]. destruct w as [|c w]; [done|].
        destruct ws; simpl in Ht; injection Ht as Hc Ht; by destruct w. }
    destruct (decide (clean_comps root = [])) as [Hcr|Hcr].
    { rewrite Hcr in Ht. exfalso. rewrite of_comps_nonempty in Ht by done.
      assert (Hsp : ∀ x y, sjoin "/" (clean_comps p) = x +:+ String "/" y → x ≠ "" ∧ x ≠ ".").
      { intros x y Hx. pose proof (Hsj _ Hpp Hcp) as Hs. rewrite Hx, ssplit_app_sep in Hs.
        split; intros ->; rewrite <- Hs in Hpp; simpl in Hpp;
          apply Forall_cons in Hpp as [(?&?&_) _]; done. }
      destruct (rooted root); simpl in Ht.
      - injection Ht as Ht. by destruct (Hsp "" _ Ht).
      - by destruct (Hsp "." _ Ht). }
    split; [done|]. split; [done|]. rewrite !of_comps_nonempty in Ht by done.
    assert (Ht' : sjoin "/" (clean_comps p) = sjoin "/" (clean_comps root) +:+ String "/" t).
    { destruct (rooted root); simpl in Ht; [by injection Ht|done]. }
    exists (ssplit "/" t). split; [apply ssplit_nonempty|].
    by rewrite <- (Hsj _ Hpp Hcp), Ht', ssplit_app_sep, (Hsj _ Hpr Hcr).
  - intros (Hcr&Hr&rest&Hrest&Hcs). exists (sjoin "/" rest).
    rewrite Hcs, Hr, !of_comps_nonempty, sjoin_app by (done || by destruct (clean_comps root)).
    by rewrite !app_assoc_s.
Qed.

(** ** The directory of a path *)

Lemma rev_app_spec s t : String.rev_app s t = String.rev s +:+ t.
Proof.
  unfold String.rev. assert (∀ s t u, String.rev_app s (t +:+ u) = String.rev_app s t +:+ u) as H.
  { clear. intros s. induction s as [|c s IH]; intros t u; simpl; [done|]. exact (IH (String c t) u). }
  by rewrite <- (H s "" t).
Qed.

Lemma rev_cons c s : String.rev (String c s) = String.rev s +:+ String c "".
Proof. unfold String.rev at 1. simpl. apply rev_app_spec. Qed.

Lemma rev_append s t : String.rev (s +:+ t) = String.rev t +:+ String.rev s.
Proof.
  induction s as [|c s IH]; simpl; [by rewrite app_nil_r_s|]. by rewrite !rev_cons, IH, app_assoc_s.
Qed.

Lemma rev_rev s : String.rev (String.rev s) = s.
Proof. induction s as [|c s IH]; [done|]. by rewrite rev_cons, rev_append, IH. Qed.

Lemma no_char_rev c s : no_char c s → no_char c (String.rev s).
Proof.
  induction s as [|d s IH]; [done|]. intros [? ?]%no_char_cons. rewrite rev_cons.
  apply no_char_app. split; [by apply IH|]. by apply no_char_cons.
Qed.

Lemma drop_while_all c s t :
  no_char c s → drop_while (λ d, negb (Ascii.eqb d c)) (s +:+ String c t) = String c t.
Proof.
  induction s as [|d s IH]; simpl.
  - by rewrite Ascii.eqb_refl.
  - intros [Hne Hs]%no_char_cons. destruct (Ascii.eqb_spec d c); [congruence|]. by apply IH.
Qed.

Lemma up_to_slash_app a w : no_char "/" w → up_to_slash (a +:+ "/" +:+ w) = a +:+ "/".
Proof.
  intros Hw. unfold up_to_slash. rewrite !rev_append, app_assoc_s.
  change (String.rev "/" +:+ String.rev a) with (String "/" (String.rev a)).
  unfold is_slash. rewrite drop_while_all by (by apply no_char_rev).
  by rewrite rev_cons, rev_rev.
Qed.

Lemma clean_trailing a : a ≠ "" → path_clean (a +:+ "/") = path_clean a.
Proof.
  intros Ha. rewrite !path_clean_of_comps, rooted_app by done. f_equal.
  unfold clean_comps. change (has_prefix ?x "/") with (rooted x). rewrite rooted_app by done.
  rewrite ssplit_app_sep, foldl_app. done.
Qed.

(** The directory of a file under a cleaned directory is that directory. *)
Lemma path_dir_join a w :
  plain_name w → clean_comps a ≠ [] → path_clean a = a → path_dir (path_join a w) = a.
Proof.
  intros Hw Hc Ha. assert (Hne : a ≠ "") by (rewrite <- Ha; apply path_clean_nonempty).
  assert (path_join a w = a +:+ "/" +:+ w) as ->.
  { destruct (join_comps a w Hne Hw) as [H1 H2].
    rewrite <- (path_join_clean a w Hne), path_clean_of_comps, H1, H2.
    rewrite of_comps_nonempty by (by destruct (clean_comps a)).
    rewrite sjoin_app by done. rewrite <- Ha at 3. rewrite (path_clean_of_comps a), of_comps_nonempty by done.
    by rewrite !app_assoc_s. }
  destruct Hw as ((_&_&Hs)&_). unfold path_dir. rewrite up_to_slash_app by done.
  by rewrite clean_trailing.
Qed.
