(* ===== verification/Utf8.v ===== *)
(** UTF-8 as Go's [unicode/utf8] decodes it, and the two repairs of invalid
    text the program relies on: [encoding/json] replaces every invalid byte of a
    string it encodes, [strings.ToValidUTF8] every run of them. *)

From S2P Require Import Prelude GoStr.


Definition byte_at (s : string) (i : nat) : Z :=
  match String.get i s with Some c => Z.of_nat (Ascii.nat_of_ascii c) | None => -1 end.

Definition in_range (lo hi b : Z) : bool := ((lo <=? b) && (b <=? hi))%Z.

(** The length of the valid encoding a string starts with, [None] when it
    starts with an invalid byte. *)
Definition rune_len (s : string) : option nat :=
  let b0 := byte_at s 0 in let b1 := byte_at s 1 in
  let b2 := byte_at s 2 in let b3 := byte_at s 3 in
  let cont := in_range 128 191 in
  if in_range 0 127 b0 then Some 1%nat
  else if in_range 194 223 b0 then if cont b1 then Some 2%nat else None
  else if (b0 =? 224)%Z then if in_range 160 191 b1 && cont b2 then Some 3%nat else None
  else if (b0 =? 237)%Z then if in_range 128 159 b1 && cont b2 then Some 3%nat else None
  else if in_range 225 239 b0 then if cont b1 && cont b2 then Some 3%nat else None
  else if (b0 =? 240)%Z then if in_range 144 191 b1 && cont b2 && cont b3 then Some 4%nat else None
  else if in_range 241 243 b0 then if cont b1 && cont b2 && cont b3 then Some 4%nat else None
  else if (b0 =? 244)%Z then if in_range 128 143 b1 && cont b2 && cont b3 then Some 4%nat else None
  else None.

(** The encoding of U+FFFD. *)
Definition replacement : string := bytes [239; 191; 189]%nat.

(** Decodes rune by rune; [bad prev] is what stands for an invalid byte, given
    whether the byte before it was invalid too. *)
Fixpoint repair_go (bad : bool → string) (fuel : nat) (prev : bool) (s : string) : string :=
  match fuel, s with
  | S fuel, String _ _ =>
      match rune_len s with
      | Some n => stake n s +:+ repair_go bad fuel false (sdrop n s)
      | None => bad prev +:+ repair_go bad fuel true (sdrop 1 s)
      end
  | _, _ => ""
  end.

(** What a string decodes to after being encoded as JSON. *)
Definition json_coerce (s : string) : string :=
  repair_go (λ _, replacement) (String.length s) false s.

(** [strings.ToValidUTF8(s, repl)]. *)
Definition ToValidUTF8 (s repl : string) : string :=
  repair_go (λ prev, if prev then "" else repl) (String.length s) false s.

(** A string of valid encodings. *)
Fixpoint valid_go (fuel : nat) (s : string) : bool :=
  match fuel, s with
  | _, EmptyString => true
  | S fuel, String _ _ =>
      match rune_len s with Some n => valid_go fuel (sdrop n s) | None => false end
  | O, String _ _ => false
  end.

Definition valid_utf8 (s : string) : bool := valid_go (String.length s) s.

(** ** Lemmas *)

Lemma repair_valid bad fuel prev s : valid_go fuel s = true → repair_go bad fuel prev s = s.
Proof.
  revert prev s. induction fuel as [|fuel IH]; intros prev [|c s]; try done.
  cbn [valid_go repair_go]. destruct (rune_len (String c s)) as [n|]; [|done].
  intros Hv. rewrite IH by done. apply stake_sdrop.
Qed.

Lemma json_coerce_valid s : valid_utf8 s = true → json_coerce s = s.
Proof. apply repair_valid. Qed.

(** A valid encoding is within the string, not empty, and read the same
    whatever follows it. *)
Lemma rune_len_prefix (s t : string) (n : nat) :
  rune_len s = Some n →
  (1 <= n <= String.length s)%nat ∧ rune_len (stake n s +:+ t) = Some n.
Proof.
  destruct s as [|c0 [|c1 [|c2 [|c3 s]]]]; unfold rune_len, byte_at; cbn [String.get]; intros H;
    repeat match type of H with context [in_range ?a ?b (-1)] => change (in_range a b (-1)) with false in H end;
    rewrite ?andb_false_r in H;
    repeat match type of H with context [if ?x then _ else _] => destruct x eqn:? end;
    try discriminate H; injection H as <-;
    cbn [stake String.append String.get String.length];
    repeat match goal with E : _ = true |- _ => rewrite E | E : _ = false |- _ => rewrite E end;
    (split; [lia|done]).
Qed.

Inductive vstr : string → Prop :=
| vstr_nil : vstr ""
| vstr_rune n s : rune_len s = Some n → vstr (sdrop n s) → vstr s.

Lemma length_sdrop (n : nat) (s : string) : String.length (sdrop n s) = (String.length s - n)%nat.
Proof.
  revert s. induction n as [|n IH]; by intros [|c s]; simpl.
Qed.

Lemma vstr_valid s : vstr s → valid_utf8 s = true.
Proof.
  unfold valid_utf8. intros Hv.
  assert (∀ fuel, (String.length s <= fuel)%nat → valid_go fuel s = true) as Hgo; [|by apply Hgo].
  induction Hv as [|n s Hr _ IH]; intros fuel Hf; [by destruct fuel|].
  destruct (rune_len_prefix s "" n Hr) as [Hn _]. destruct s as [|c s]; [simpl in Hn; lia|].
  destruct fuel as [|fuel]; [simpl in Hf; lia|]. cbn [valid_go]. rewrite Hr. apply IH.
  rewrite length_sdrop. lia.
Qed.

Lemma vstr_rune_app n s t : rune_len s = Some n → vstr t → vstr (stake n s +:+ t).
Proof.
  intros Hr Ht. destruct (rune_len_prefix s t n Hr) as [Hn Hr']. eapply vstr_rune; [done|].
  assert (Hl : n = String.length (stake n s)) by (rewrite length_stake; lia).
  rewrite Hl at 1. by rewrite sdrop_app.
Qed.

Lemma any_char_app (P : ascii → bool) (a b : string) : any_char P (a +:+ b) = any_char P a || any_char P b.
Proof. induction a; simpl; [done|]. rewrite IHa. by rewrite orb_assoc. Qed.

(** Dropping invalid bytes leaves valid text, no longer than before and without
    new characters. *)
Lemma drop_invalid fuel prev s :
  let r := repair_go (λ prev : bool, if prev then "" else "") fuel prev s in
  vstr r ∧ (String.length r <= String.length s)%nat ∧ ∀ P, any_char P s = false → any_char P r = false.
Proof.
  revert prev s. induction fuel as [|fuel IH]; intros prev [|c s]; cbn [repair_go]; try (split; [constructor|simpl; split; [lia|done]]).
  destruct (rune_len (String c s)) as [n|] eqn:Hr.
  - destruct (IH false (sdrop n (String c s))) as (I1&I2&I3).
    destruct (rune_len_prefix _ "" n Hr) as [Hn _]. split; [by apply vstr_rune_app|].
    rewrite length_app_s, length_stake, length_sdrop in *. split; [lia|].
    intros P HP. rewrite <- (stake_sdrop n (String c s)), any_char_app, orb_false_iff in HP.
    rewrite any_char_app. destruct HP as [-> HP]. by rewrite I3.
  - destruct (IH true (sdrop 1 (String c s))) as (I1&I2&I3).
    destruct prev; rewrite (left_id_L "" String.append) || cbn [String.append];
      (split; [done|]); (split; [rewrite length_sdrop in I2; lia|]);
      intros P HP; apply I3; simpl in *; by apply orb_false_iff in HP as [_ ?].
Qed.

Lemma ToValidUTF8_drop s :
  valid_utf8 (ToValidUTF8 s "") = true ∧ (String.length (ToValidUTF8 s "") <= String.length s)%nat ∧
  ∀ P, any_char P s = false → any_char P (ToValidUTF8 s "") = false.
Proof.
  unfold ToValidUTF8. destruct (drop_invalid (String.length s) false s) as (H1&H2&H3).
  split; [by apply vstr_valid|]. by split.
Qed.
