(* ===== verification/UploadStore.v ===== *)
(** Uploads on the shared volume (internal/upload/store.go): single-shot and
    resumable uploads, each in a directory of its own named by a generated id,
    with the HTTP handlers that front them (internal/router/files.go). The
    volume holds directories by name; a directory holds files by name. Errors
    of the disk itself are not modelled. *)

From S2P Require Import Prelude GoStr Paths Utf8.


(** ** The volume *)

(** The metadata of a resumable upload [internal/upload/store.go#meta]. *)
Record meta := mkMeta { m_name : string; m_length : Z }.

Inductive file :=
| FData (content : string)
| FMeta (m : meta).

Record updir := mkDir { ud_mtime : Z; ud_files : gmap string file }.

Abbreviation volume := (gmap string updir).

(** The store's settings [internal/upload/store.go#Store]. *)
Record Store := mkStore { st_dir : string; maxSingle : Z; maxChunk : Z; maxTotal : Z }.

(** The package's errors, and a body past its cap
    [internal/upload/store.go:43-50#ErrBadName]. *)
Inductive uerr :=
| ErrBadName | ErrBadID | ErrNotFound | ErrBadOffset | ErrTooLarge | ErrIncomplete
| ErrMaxBytes
| ErrExist.

(** [internal/upload/store.go#maxNameBytes] *)
Definition maxNameBytes : nat := 255.
(** [internal/upload/store.go#metaName] *)
Definition metaName : string := ".upload.json".

(** The expression ^[a-f0-9]{32}$ [internal/upload/store.go:40-40#idRe]. *)
Definition idRe (id : string) : bool :=
  Nat.eqb (String.length id) 32 &&
  negb (any_char (λ c, let n := Ascii.nat_of_ascii c in
          negb (((97 <=? n) && (n <=? 102)) || ((48 <=? n) && (n <=? 57))))%nat id).

(** A bare basename, not the reserved one, within the component limit
    [internal/upload/store.go#ValidateName]. *)
Definition ValidateName (name : string) : option uerr :=
  if existsb (String.eqb name) [""; "."; ".."; metaName] then Some ErrBadName
  else if any_char (λ c, existsb (Ascii.eqb c) ["/"%char; "\"%char; Ascii.ascii_of_nat 0]) name ||
          negb (String.eqb (path_base name) name) then Some ErrBadName
  else if (maxNameBytes <? String.length name)%nat then Some ErrBadName
  else None.

Definition size (f : file) : Z :=
  match f with FData c => Z.of_nat (String.length c) | FMeta _ => 0 end.

(** A body read through [http.MaxBytesReader]. *)
Definition read_body (cap : Z) (body : string) : res uerr string :=
  if (cap <? Z.of_nat (String.length body))%Z then Err ErrMaxBytes else Ok body.

(** [os.MkdirAll]: an existing directory is kept. *)
Definition mkdir (now : Z) (id : string) (v : volume) : volume :=
  match v !! id with Some _ => v | None => <[id := mkDir now ∅]> v end.

(** [os.OpenFile] with O_CREATE and O_EXCL, then the content. *)
Definition create_file (now : Z) (id name : string) (f : file) (v : volume) : option volume :=
  match v !! id with
  | Some d => match ud_files d !! name with
              | Some _ => None
              | None => Some (<[id := mkDir now (<[name := f]> (ud_files d))]> v)
              end
  | None => None
  end.

(** ** Operations *)

(** Streams a body into a fresh directory; [id] is the generated id
    [internal/upload/store.go#SingleShot]. *)
Definition SingleShot (s : Store) (now : Z) (id name : string) (body : res uerr string) (v : volume)
    : res uerr (string * Z) * volume :=
  match ValidateName name with
  | Some e => (Err e, v)
  | None =>
      let v := mkdir now id v in
      match create_file now id name (FData "") v with
      | None => (Err ErrExist, delete id v)
      | Some v =>
          match body with
          | Err e => (Err e, delete id v)
          | Ok content =>
              (Ok (path_join (path_join (st_dir s) id) name, Z.of_nat (String.length content)),
               alter (λ d, mkDir (ud_mtime d) (<[name := FData content]> (ud_files d))) id v)
          end
      end
  end.

(** Begins a resumable upload of a declared length. The name goes into the
    metadata as JSON [internal/upload/store.go#Create]. *)
Definition Create (s : Store) (now : Z) (id name : string) (length : Z) (v : volume)
    : res uerr string * volume :=
  match ValidateName name with
  | Some e => (Err e, v)
  | None =>
      if ((length <=? 0) || (maxTotal s <? length))%Z then (Err ErrTooLarge, v)
      else
        let v := mkdir now id v in
        let v := alter (λ d, mkDir now (<[metaName := FMeta (mkMeta (json_coerce name) length)]>
                                          (ud_files d))) id v in
        match create_file now id name (FData "") v with
        | None => (Err ErrExist, delete id v)
        | Some v => (Ok id, v)
        end
  end.

(** [internal/upload/store.go#readMeta] *)
Definition readMeta (id : string) (v : volume) : res uerr meta :=
  if negb (idRe id) then Err ErrBadID
  else match v !! id with
       | Some d => match ud_files d !! metaName with
                   | Some (FMeta m) => Ok m
                   | _ => Err ErrNotFound
                   end
       | None => Err ErrNotFound
       end.

Definition data_file (id name : string) (v : volume) : option file :=
  match v !! id with Some d => ud_files d !! name | None => None end.

Definition content (f : file) : string := match f with FData c => c | FMeta _ => "" end.

(** Writes a chunk at the current length
    [internal/upload/store.go#Append]. *)
Definition Append (now : Z) (id : string) (offset : Z) (body : res uerr string) (v : volume)
    : res uerr Z * volume :=
  match readMeta id v with
  | Err e => (Err e, v)
  | Ok m =>
      match data_file id (m_name m) v with
      | None => (Err ErrNotFound, v)
      | Some f =>
          if negb (offset =? size f)%Z then (Err ErrBadOffset, v)
          else match body with
          | Err e => (Err e, v)
          | Ok chunk =>
              let n := Z.of_nat (String.length chunk) in
              if (m_length m <? offset + n)%Z then (Err ErrTooLarge, v)
              else
                (Ok (offset + n)%Z,
                 alter (λ d, mkDir now (<[m_name m := FData (content f +:+ chunk)]> (ud_files d))) id v)
          end
      end
  end.

(** Bytes received and declared [internal/upload/store.go#Status]. *)
Definition Status (id : string) (v : volume) : res uerr (Z * Z) :=
  let! m := readMeta id v in
  match data_file id (m_name m) v with
  | None => Err ErrNotFound
  | Some f => Ok (size f, m_length m)
  end.

(** [internal/upload/store.go#Complete] *)
Definition Complete (s : Store) (id : string) (v : volume) : res uerr (string * Z) :=
  let! m := readMeta id v in
  match data_file id (m_name m) v with
  | None => Err ErrNotFound
  | Some f => if negb (size f =? m_length m)%Z then Err ErrIncomplete
              else Ok (path_join (path_join (st_dir s) id) (m_name m), size f)
  end.

(** [internal/upload/store.go#Abort] *)
Definition Abort (id : string) (v : volume) : option uerr * volume :=
  if negb (idRe id) then (Some ErrBadID, v) else (None, delete id v).

(** Whether a path resolves inside a root [internal/upload/store.go#Within]. *)
Definition Within (p root : string) : bool :=
  let rp := path_clean root in
  let cp := path_clean p in
  if String.eqb cp rp then false else has_prefix cp (rp +:+ "/").

(** Removes upload directories not modified since the cutoff
    [internal/upload/store.go#Sweep]. *)
Definition Sweep (cutoff : Z) (v : volume) : nat * volume :=
  let stale := λ kv : string * updir, (idRe kv.1 && (ud_mtime kv.2 <? cutoff)%Z) = true in
  (length (filter stale (map_to_list v)), filter (λ kv, ¬ stale kv) v).

(** ** Handlers *)

(** The status of an upload error [internal/router/files.go#writeUploadErr]. *)
Definition upload_status (e : uerr) : Z :=
  match e with
  | ErrBadName | ErrBadID => 400
  | ErrNotFound => 404
  | ErrBadOffset | ErrIncomplete => 409
  | ErrTooLarge | ErrMaxBytes => 413
  | ErrExist => 500
  end.

Inductive file_reply :=
| FUploadId (id : string) (chunk : Z)
| FPath (path : string) (size : Z)
| FOffset (offset : Z)
| FStatus (offset length : Z)
| FDeleted
| FErr (status : Z).

(** An Upload-Length header starts a resumable upload; without one the body is
    the file [internal/router/files.go#createOrUpload]. *)
Definition createOrUpload (s : Store) (now : Z) (id name : string) (uploadLength : string)
    (body : string) (v : volume) : file_reply * volume :=
  match ValidateName name with
  | Some _ => (FErr 400, v)
  | None =>
      if negb (String.eqb uploadLength "") then
        match atoi uploadLength with
        | None => (FErr 400, v)
        | Some length =>
            match Create s now id name length v with
            | (Ok id, v) => (FUploadId id (maxChunk s), v)
            | (Err e, v) => (FErr (upload_status e), v)
            end
        end
      else
        match SingleShot s now id name (read_body (maxSingle s) body) v with
        | (Ok (p, n), v) => (FPath p n, v)
        | (Err e, v) => (FErr (upload_status e), v)
        end
  end.

(** [internal/router/files.go#appendChunk] *)
Definition appendChunk (s : Store) (now : Z) (id uploadOffset body : string) (v : volume)
    : file_reply * volume :=
  match atoi uploadOffset with
  | None => (FErr 400, v)
  | Some offset =>
      if (offset <? 0)%Z then (FErr 400, v)
      else match Append now id offset (read_body (maxChunk s) body) v with
      | (Ok o, v) => (FOffset o, v)
      | (Err e, v) => (FErr (upload_status e), v)
      end
  end.

(** [internal/router/files.go#fileStatus] *)
Definition fileStatus (id : string) (v : volume) : file_reply :=
  match Status id v with
  | Ok (o, l) => FStatus o l
  | Err e => FErr (upload_status e)
  end.

(** [internal/router/files.go#completeUpload] *)
Definition completeUpload (s : Store) (id : string) (v : volume) : file_reply :=
  match Complete s id v with
  | Ok (p, n) => FPath p n
  | Err e => FErr (upload_status e)
  end.

(** [internal/router/files.go#abortUpload] *)
Definition abortUpload (id : string) (v : volume) : file_reply * volume :=
  match Abort id v with
  | (None, v) => (FDeleted, v)
  | (Some e, v) => (FErr (upload_status e), v)
  end.

(** ** Lemmas *)

Lemma ValidateName_plain name : ValidateName name = None → plain_name name ∧ name ≠ metaName.
Proof.
  unfold ValidateName. destruct (existsb _ _) eqn:E1; [done|].
  destruct (any_char _ name || _) eqn:E2; [done|]. intros _.
  apply orb_false_iff in E2 as [Hc _]. simpl in E1.
  rewrite !orb_false_iff, !String.eqb_neq in E1. destruct E1 as (?&?&?&?&_).
  repeat split; try done. unfold no_char. clear -Hc.
  induction name as [|c name IH]; [done|]. cbn [any_char] in *.
  apply orb_false_iff in Hc as [Hc Hn]. apply orb_false_iff. split; [|by apply IH].
  cbn [existsb] in Hc. apply orb_false_iff in Hc as [Hc _].
  apply Ascii.eqb_neq in Hc. apply Ascii.eqb_neq. congruence.
Qed.

Lemma idRe_plain id : idRe id = true → plain_name id.
Proof.
  unfold idRe. intros [Hl%Nat.eqb_eq Hc%negb_true_iff]%andb_true_iff.
  assert (Hlen : ∀ w, String.length w ≠ 32%nat → id ≠ w) by (intros w Hw ->; done).
  repeat split; [by apply Hlen..| |by apply Hlen].
  unfold no_char. clear -Hc. induction id as [|c id IH]; [done|].
  cbn [any_char] in *. apply orb_false_iff in Hc as [Hc Hn].
  apply orb_false_iff. split; [|by apply IH]. apply Ascii.eqb_neq. intros <-. by vm_compute in Hc.
Qed.

Lemma readMeta_ok id v m :
  readMeta id v = Ok m ↔
  idRe id = true ∧ ∃ d, v !! id = Some d ∧ ud_files d !! metaName = Some (FMeta m).
Proof.
  unfold readMeta. destruct (idRe id); simpl; [|naive_solver].
  destruct (v !! id) as [d|]; [|naive_solver].
  destruct (ud_files d !! metaName) as [[c|m']|] eqn:E; naive_solver.
Qed.

Lemma size_content f c : f = FData c → size f = Z.of_nat (String.length c).
Proof. by intros ->. Qed.

(** What a successful append did. *)
Lemma Append_ok now id offset body v o v' :
  Append now id offset body v = (Ok o, v') →
  ∃ m d f chunk, readMeta id v = Ok m ∧ v !! id = Some d ∧ ud_files d !! m_name m = Some f ∧
    body = Ok chunk ∧ offset = size f ∧ o = (offset + Z.of_nat (String.length chunk))%Z ∧
    (o <= m_length m)%Z ∧
    v' = <[id := mkDir now (<[m_name m := FData (content f +:+ chunk)]> (ud_files d))]> v.
Proof.
  unfold Append. destruct (readMeta id v) as [m|] eqn:Em; [|done].
  apply readMeta_ok in Em as Hm. destruct Hm as (_&d&Hd&_).
  unfold data_file. rewrite Hd. destruct (ud_files d !! m_name m) as [f|] eqn:Ef; [|done].
  destruct (Z.eqb_spec offset (size f)) as [->|]; [|done]. simpl.
  destruct body as [chunk|]; [|done].
  destruct (Z.ltb_spec (m_length m) (size f + Z.of_nat (String.length chunk))); [done|].
  intros [= <- <-]. exists m, d, f, chunk. repeat split; try done.
  apply map_eq. intros k. destruct (decide (id = k)) as [<-|].
  - by rewrite lookup_alter_eq, Hd, lookup_insert_eq.
  - by rewrite lookup_alter_ne, lookup_insert_ne.
Qed.

(** A chunk is all or nothing. A refused chunk (bad id, unknown upload, an
    offset that is not the current length, too much data, a body past its cap)
    leaves the volume as it was; an accepted one was sent for exactly the
    current length and extends the received bytes by the chunk, within the
    declared length, which is what the status then reports. *)
Theorem Append_all_or_nothing now id offset body v :
  match Append now id offset body v with
  | (Err _, v') => v' = v
  | (Ok o, v') => ∃ m f chunk, readMeta id v = Ok m ∧
      (m_name m ≠ metaName → readMeta id v' = Ok m) ∧
      data_file id (m_name m) v = Some f ∧ offset = size f ∧ body = Ok chunk ∧
      (o = offset + Z.of_nat (String.length chunk))%Z ∧ (o <= m_length m)%Z ∧
      data_file id (m_name m) v' = Some (FData (content f +:+ chunk)) ∧
      ∀ id', id' ≠ id → v' !! id' = v !! id'
  end.
Proof.
  destruct (Append now id offset body v) as [[o|e] v'] eqn:E.
  - apply Append_ok in E as (m&d&f&chunk&Hm&Hd&Hf&->&->&->&Hle&->).
    exists m, f, chunk. unfold data_file. rewrite Hd, lookup_insert_eq. simpl.
    rewrite lookup_insert_eq. repeat split; try done.
    + intros Hne. apply readMeta_ok. apply readMeta_ok in Hm as [Hid (d'&Hd'&Hmeta)].
      split; [done|]. eexists. rewrite lookup_insert_eq. split; [done|]. simpl.
      rewrite lookup_insert_ne by done. congruence.
    + intros id' Hne. by rewrite lookup_insert_ne.
  - unfold Append in E. repeat (split_match_in E; simplify_eq/=); done.
Qed.

(** ** Resumable uploads *)

(** An upload in progress: its metadata and what has been received. *)
Definition receiving (id name : string) (length : Z) (got : string) (v : volume) : Prop :=
  ∃ d, v !! id = Some d ∧ ud_files d !! metaName = Some (FMeta (mkMeta name length)) ∧
       ud_files d !! name = Some (FData got).

Lemma Create_receiving s now id name length v :
  ValidateName name = None → valid_utf8 name = true → (0 < length <= maxTotal s)%Z → v !! id = None →
  (Create s now id name length v).1 = Ok id ∧
  receiving id name length "" (Create s now id name length v).2.
Proof.
  intros Hn Hu Hl Hv. destruct (ValidateName_plain name Hn) as [_ Hmeta].
  unfold Create. rewrite Hn.
  destruct (Z.leb_spec length 0); [lia|]. destruct (Z.ltb_spec (maxTotal s) length); [lia|]. simpl.
  unfold mkdir. rewrite Hv. unfold create_file. rewrite lookup_alter_eq, lookup_insert_eq. simpl.
  rewrite lookup_insert_ne, lookup_empty by done. simpl. split; [done|].
  eexists. rewrite lookup_insert_eq. split; [done|]. simpl.
  rewrite lookup_insert_ne, !lookup_insert_eq, json_coerce_valid by done. done.
Qed.

Lemma Append_receiving now id name length got chunk v :
  idRe id = true → name ≠ metaName → receiving id name length got v →
  let o := Z.of_nat (String.length got) in
  let o' := (o + Z.of_nat (String.length chunk))%Z in
  (o' <= length)%Z →
  (Append now id o (Ok chunk) v).1 = Ok o' ∧
  receiving id name length (got +:+ chunk) (Append now id o (Ok chunk) v).2.
Proof.
  intros Hid Hne (d&Hd&Hm&Hf) o o' Hle.
  assert (Hmeta : readMeta id v = Ok (mkMeta name length)) by (apply readMeta_ok; eauto).
  unfold Append. rewrite Hmeta. unfold data_file. rewrite Hd. cbn [m_name m_length]. rewrite Hf.
  cbn [size]. fold o. fold o'. rewrite Z.eqb_refl. cbn [negb].
  destruct (Z.ltb_spec length o'); [lia|]. simpl. split; [done|].
  eexists. rewrite lookup_alter_eq, Hd. split; [done|]. simpl.
  by rewrite lookup_insert_ne, lookup_insert_eq by done.
Qed.

(** Sends chunks one after the other, each at the offset the last one returned. *)
Fixpoint send_chunks (id : string) (offset : Z) (chunks : list (Z * string)) (v : volume)
    : res uerr Z * volume :=
  match chunks with
  | [] => (Ok offset, v)
  | (now, chunk) :: chunks =>
      match Append now id offset (Ok chunk) v with
      | (Ok o, v) => send_chunks id o chunks v
      | (Err e, v) => (Err e, v)
      end
  end.

Definition total (chunks : list (Z * string)) : string := foldr (λ c acc, c.2 +:+ acc) "" chunks.

Lemma send_chunks_receiving id name length got chunks v :
  idRe id = true → name ≠ metaName → receiving id name length got v →
  (Z.of_nat (String.length (got +:+ total chunks)) <= length)%Z →
  let r := send_chunks id (Z.of_nat (String.length got)) chunks v in
  r.1 = Ok (Z.of_nat (String.length (got +:+ total chunks))) ∧
  receiving id name length (got +:+ total chunks) r.2.
Proof.
  intros Hid Hne. revert got v. induction chunks as [|[now chunk] chunks IH]; intros got v Hr Hle.
  { simpl. by rewrite app_nil_r_s. }
  cbn [send_chunks]. simpl total in *. rewrite <- app_assoc_s in *.
  destruct (Append_receiving now id name length got chunk v Hid Hne Hr) as [H1 H2].
  { rewrite !length_app_s in Hle. lia. }
  destruct (Append now id _ _ v) as [r v']. simpl in H1, H2. subst r.
  rewrite <- Nat2Z.inj_add, <- length_app_s. by apply IH.
Qed.

(** C31: A resumable upload round-trips. However a file's bytes are cut into
    chunks (empty ones too), creating the upload, sending the chunks in order,
    each at the offset the previous one returned, and completing yields the
    declared size and a file that holds exactly those bytes; and at every
    moment before, completing is refused as incomplete. *)
Theorem upload_roundtrip s now id name chunks v :
  ValidateName name = None → valid_utf8 name = true → idRe id = true → v !! id = None →
  let body := total chunks in let n := Z.of_nat (String.length body) in
  (0 < n <= maxTotal s)%Z →
  let v1 := (Create s now id name n v).2 in
  (∀ pre post, chunks = pre ++ post → (Z.of_nat (String.length (total pre)) < n)%Z →
     Complete s id (send_chunks id 0 pre v1).2 = Err ErrIncomplete) ∧
  let r := send_chunks id 0 chunks v1 in
  r.1 = Ok n ∧
  Complete s id r.2 = Ok (path_join (path_join (st_dir s) id) name, n) ∧
  data_file id name r.2 = Some (FData body).
Proof.
  intros Hn Hu Hid Hv body n Hlen v1.
  destruct (ValidateName_plain name Hn) as [_ Hmeta].
  destruct (Create_receiving s now id name n v Hn Hu Hlen Hv) as [_ Hr]. fold v1 in Hr.
  assert (Hcomplete : ∀ got w, receiving id name n got w → Complete s id w =
    if (Z.of_nat (String.length got) =? n)%Z
    then Ok (path_join (path_join (st_dir s) id) name, Z.of_nat (String.length got))
    else Err ErrIncomplete).
  { intros got w (d&Hd&Hm&Hf). unfold Complete.
    assert (readMeta id w = Ok (mkMeta name n)) as -> by (apply readMeta_ok; eauto). simpl.
    unfold data_file. rewrite Hd, Hf. simpl. by destruct (Z.of_nat (String.length got) =? n)%Z. }
  split.
  - intros pre post Hsplit Hlt.
    destruct (send_chunks_receiving id name n "" pre v1 Hid Hmeta Hr) as [_ Hrec]; [simpl; lia|].
    change (Z.of_nat (String.length "")) with 0%Z in Hrec. simpl in Hrec.
    rewrite (Hcomplete _ _ Hrec). by destruct (Z.eqb_spec (Z.of_nat (String.length (total pre))) n); [lia|].
  - destruct (send_chunks_receiving id name n "" chunks v1 Hid Hmeta Hr) as [H1 Hrec];
      [simpl; subst n body; lia|].
    change (Z.of_nat (String.length "")) with 0%Z in H1, Hrec. simpl in H1, Hrec.
    split; [done|]. split.
    + by rewrite (Hcomplete _ _ Hrec), Z.eqb_refl.
    + destruct Hrec as (d&Hd&_&Hf). unfold data_file. by rewrite Hd.
Qed.

Definition ex_store : Store := mkStore "/uploads" 100 10 1000.
Definition ex_id : string := "0123456789abcdef0123456789abcdef".

Lemma upload_roundtrip_witness :
  let v1 := (Create ex_store 1 ex_id "a.txt" 5 ∅).2 in
  let r := send_chunks ex_id 0 [(2%Z, "he"); (3%Z, ""); (4%Z, "llo")] v1 in
  r.1 = Ok 5%Z ∧ Complete ex_store ex_id r.2 = Ok ("/uploads/" +:+ ex_id +:+ "/a.txt", 5%Z) ∧
  data_file ex_id "a.txt" r.2 = Some (FData "hello").
Proof.
  refine (proj2 (upload_roundtrip ex_store 1 ex_id "a.txt" [(2%Z, "he"); (3%Z, ""); (4%Z, "llo")] ∅
            eq_refl eq_refl eq_refl eq_refl _)).
  by vm_compute.
Defined.

(** A name that is not valid UTF-8 is accepted, but its metadata names another
    file: the upload can never receive a byte. *)
Example invalid_utf8_name_stuck :
  let name := bytes [255]%nat in
  let r := Create ex_store 1 ex_id name 5 ∅ in
  (r.1, (Append 2 ex_id 0 (Ok "he") r.2).1, Status ex_id r.2) =
  (Ok ex_id, Err ErrNotFound, Err ErrNotFound).
Proof. by vm_compute. Qed.

(** ** Requests over time *)

(** The requests the gateway serves, and the periodic sweep. A generated id is
    128 random bits: it names no directory that exists. *)
Inductive upload_ev :=
| UCreate (now : Z) (id name uploadLength body : string)
| UAppend (now : Z) (id uploadOffset body : string)
| UAbort (id : string)
| USweep (cutoff : Z).

Definition upload_step (s : Store) (v : volume) (ev : upload_ev) : volume :=
  match ev with
  | UCreate now id name ul body =>
      match v !! id with
      | Some _ => v
      | None => (createOrUpload s now id name ul body v).2
      end
  | UAppend now id off body => (appendChunk s now id off body v).2
  | UAbort id => (abortUpload id v).2
  | USweep cutoff => (Sweep cutoff v).2
  end.

Definition dir_ok (s : Store) (d : updir) : Prop :=
  ∀ m, ud_files d !! metaName = Some (FMeta m) →
    (0 < m_length m <= maxTotal s)%Z ∧
    ∀ f, ud_files d !! m_name m = Some f → (0 <= size f <= m_length m)%Z.

Definition volume_ok (s : Store) (v : volume) : Prop := map_Forall (λ _ d, dir_ok s d) v.

Lemma size_nonneg f : (0 <= size f)%Z.
Proof. destruct f; simpl; lia. Qed.

Lemma Create_ok s now id name length v :
  v !! id = None → volume_ok s v → volume_ok s (Create s now id name length v).2.
Proof.
  intros Hid Hv. unfold Create. destruct (ValidateName name) eqn:Hn; [done|].
  destruct (ValidateName_plain name Hn) as [_ Hmeta].
  destruct (Z.leb_spec length 0); [done|]. destruct (Z.ltb_spec (maxTotal s) length); [done|]. simpl.
  unfold mkdir. rewrite Hid. unfold create_file. rewrite lookup_alter_eq, lookup_insert_eq. simpl.
  rewrite lookup_insert_ne, lookup_empty by done. simpl.
  rewrite alter_insert_eq, insert_insert_eq. apply map_Forall_insert_2; [|done].
  intros m Hm. simpl in Hm |- *. rewrite lookup_insert_ne, lookup_insert_eq in Hm by done.
  injection Hm as <-. simpl. split; [lia|]. intros f Hf.
  destruct (decide (name = json_coerce name)) as [He|He].
  - rewrite <- He, lookup_insert_eq in Hf. injection Hf as <-. simpl. lia.
  - rewrite lookup_insert_ne in Hf by done. apply lookup_insert_Some in Hf as [[_ <-]|[_ Hf]].
    + simpl. lia.
    + by rewrite lookup_empty in Hf.
Qed.

Lemma SingleShot_ok s now id name body v :
  v !! id = None → volume_ok s v → volume_ok s (SingleShot s now id name body v).2.
Proof.
  intros Hid Hv. unfold SingleShot. destruct (ValidateName name) eqn:Hn; [done|].
  destruct (ValidateName_plain name Hn) as [_ Hmeta].
  unfold mkdir. rewrite Hid. unfold create_file. rewrite lookup_insert_eq. simpl.
  rewrite lookup_empty. destruct body as [c|e]; simpl.
  - rewrite alter_insert_eq, !insert_insert_eq. apply map_Forall_insert_2; [|done].
    intros m Hm. simpl in Hm. rewrite insert_insert_eq, lookup_insert_ne, lookup_empty in Hm by done. done.
  - apply map_Forall_delete. rewrite insert_insert_eq. apply map_Forall_insert_2; [|done].
    intros m Hm. simpl in Hm. rewrite lookup_insert_ne, lookup_empty in Hm by done. done.
Qed.

Lemma upload_step_ok s v ev : volume_ok s v → volume_ok s (upload_step s v ev).
Proof.
  intros Hv. destruct ev as [now id name ul body|now id off body|id|cutoff]; simpl.
  - destruct (v !! id) eqn:Hid; [done|]. unfold createOrUpload.
    destruct (ValidateName name); [done|]. destruct (negb _).
    + destruct (atoi ul) as [l|]; [|done]. pose proof (Create_ok s now id name l v Hid Hv) as H.
      by destruct (Create s now id name l v) as [[]].
    + pose proof (SingleShot_ok s now id name (read_body (maxSingle s) body) v Hid Hv) as H.
      by destruct (SingleShot _ _ _ _ _ _) as [[[]|]].
  - unfold appendChunk. destruct (atoi off) as [o|]; [|done]. destruct (o <? 0)%Z; [done|].
    destruct (Append _ _ _ _ _) as [[o'|e] v'] eqn:E; simpl.
    + apply Append_ok in E as (m&d&f&chunk&Hm&Hd&Hf&_&->&->&Hle&->).
      apply readMeta_ok in Hm as (_&d'&Hd'&Hm). rewrite Hd in Hd'. injection Hd' as <-.
      apply map_Forall_insert_2; [|done]. destruct (map_Forall_lookup_1 _ _ _ _ Hv Hd m Hm) as [Hlen Hsz].
      intros m' Hm'. simpl in Hm' |- *. apply lookup_insert_Some in Hm' as [[_ [=]]|[Hne Hm']].
      rewrite Hm in Hm'. injection Hm' as <-. split; [done|]. intros f' Hf'.
      rewrite lookup_insert_eq in Hf'. injection Hf' as <-. simpl. rewrite length_app_s.
      pose proof (size_nonneg f). destruct f as [c|m']; simpl in *; lia.
    + unfold Append in E. repeat (split_match_in E; simplify_eq/=); done.
  - unfold abortUpload, Abort. destruct (negb (idRe id)); simpl; [done|]. by apply map_Forall_delete.
  - intros id d [Hd _]%map_lookup_filter_Some. by eapply Hv.
Qed.

(** Bounds of an upload. Whatever requests are served, with whatever
    offsets, bodies and lengths, and whenever the sweep runs: the received
    length reported for an upload is never past its declared length, nor that
    past the total cap. *)
Theorem upload_bounded s evs id :
  match fileStatus id (foldl (upload_step s) ∅ evs) with
  | FStatus o l => (0 <= o <= l ∧ l <= maxTotal s)%Z
  | _ => True
  end.
Proof.
  assert (Hok : volume_ok s (foldl (upload_step s) ∅ evs)).
  { apply foldl_inv; [intros v ev _; apply upload_step_ok|apply map_Forall_empty]. }
  unfold fileStatus, Status. destruct (readMeta id _) as [m|e] eqn:Em; simpl; [|done].
  apply readMeta_ok in Em as (_&d&Hd&Hm). unfold data_file. rewrite Hd.
  destruct (ud_files d !! m_name m) as [f|] eqn:Hf; [|done].
  destruct (map_Forall_lookup_1 _ _ _ _ Hok Hd m Hm) as [Hlen Hsz]. specialize (Hsz f Hf). lia.
Qed.

(** What the sweep removes. An upload directory goes exactly when its last
    activity is before the cutoff; one that received a chunk since then stays,
    with its status, and directories that are not uploads are never touched. *)
Theorem sweep_spares_active s now id off body cutoff v :
  let r := appendChunk s now id off body v in
  (∀ id' d, (Sweep cutoff r.2).2 !! id' = Some d ↔
     r.2 !! id' = Some d ∧ ¬ (idRe id' = true ∧ (ud_mtime d < cutoff)%Z)) ∧
  match r.1 with
  | FOffset o => (cutoff <= now)%Z → fileStatus id (Sweep cutoff r.2).2 = fileStatus id r.2
  | _ => True
  end.
Proof.
  intros r. assert (Hsweep : ∀ v id' d, (Sweep cutoff v).2 !! id' = Some d ↔
     v !! id' = Some d ∧ ¬ (idRe id' = true ∧ (ud_mtime d < cutoff)%Z)).
  { intros w id' d. unfold Sweep. simpl. rewrite map_lookup_filter_Some. simpl.
    by rewrite andb_true_iff, Z.ltb_lt. }
  split; [intros; apply Hsweep|]. subst r. unfold appendChunk.
  destruct (atoi off) as [o|]; [|done]. destruct (o <? 0)%Z; [done|].
  destruct (Append _ _ _ _ _) as [[o'|e] v'] eqn:E; cbn [fst snd]; [|done].
  apply Append_ok in E as (m&d&f&chunk&_&_&_&_&_&_&_&->). intros Hc.
  set (v' := <[id := _]> v).
  assert (H : (Sweep cutoff v').2 !! id = v' !! id).
  { unfold v' at 2. rewrite lookup_insert_eq. apply Hsweep. unfold v'. rewrite lookup_insert_eq.
    split; [done|]. simpl. lia. }
  unfold fileStatus, Status, readMeta, data_file. by rewrite H.
Qed.

(** ** Paths handed out *)

(** What [Within] says. *)
Lemma Within_spec p root :
  Within p root = true ↔
  clean_comps root ≠ [] ∧ rooted p = rooted root ∧
  ∃ rest, rest ≠ [] ∧ clean_comps p = clean_comps root ++ rest.
Proof.
  rewrite <- clean_prefix. unfold Within.
  destruct (String.eqb_spec (path_clean p) (path_clean root)) as [He|]; [|done].
  split; [done|]. intros H. exfalso. apply clean_prefix in H as (_&_&rest&Hr&Hc).
  rewrite <- (clean_comps_clean p), He, clean_comps_clean in Hc.
  destruct rest; [done|]. apply (f_equal length) in Hc. rewrite length_app in Hc. simpl in Hc. lia.
Qed.

(** The paths the gateway hands out are ones the workers accept. For a
    valid name and id, the path of the stored file lies within the uploads
    volume, and its directory is the upload's own: the guard of a later call
    lets the file through, and cleaning up after it removes that upload only. *)
Theorem stored_path_accepted dir id name :
  clean_comps dir ≠ [] → idRe id = true → ValidateName name = None →
  let p := path_join (path_join dir id) name in
  Within p dir = true ∧ path_dir p = path_join dir id ∧ Within (path_join dir id) dir = true.
Proof.
  intros Hd Hid%idRe_plain [Hn _]%ValidateName_plain p.
  assert (Hne : dir ≠ "") by (by intros ->).
  destruct (join_comps dir id Hne Hid) as [Hc1 Hr1].
  assert (Hne1 : path_join dir id ≠ "").
  { rewrite <- path_join_clean by done. apply path_clean_nonempty. }
  destruct (join_comps (path_join dir id) name Hne1 Hn) as [Hc2 Hr2].
  split; [|split].
  - apply Within_spec. split; [done|]. split; [by rewrite <- Hr1|].
    exists [id; name]. split; [done|]. subst p. by rewrite Hc2, Hc1, <- app_assoc.
  - apply path_dir_join; [done| |by apply path_join_clean]. rewrite Hc1. by destruct (clean_comps dir).
  - apply Within_spec. split; [done|]. split; [done|]. by exists [id].
Qed.

Lemma stored_path_accepted_witness :
  let p := path_join (path_join "/uploads" ex_id) "a.txt" in
  Within p "/uploads" = true ∧ path_dir p = path_join "/uploads" ex_id ∧
  Within (path_join "/uploads" ex_id) "/uploads" = true.
Proof. by apply (stored_path_accepted "/uploads" ex_id "a.txt"). Defined.
