(* ===== verification/Sends.v ===== *)
(** The send registry (internal/session/sends.go, uploads.go, store.go): reading
    the messages a send's answer names, recording them as pending, and
    recording what became of them when TDLib says so. *)

From S2P Require Import Prelude GoStr Json Types Db.


(** ** Messages of an answer *)

(** The part of a message an answer exposes
    [internal/session/uploads.go#sendResultMessage]. *)
Inductive sendResultMessage := mkSRM
  (srm_type : string) (srm_id srm_chat : Z) (srm_sending srm_scheduling : option string)
  (srm_messages : list sendResultMessage).

Definition srm_type m := let 'mkSRM t _ _ _ _ _ := m in t.
Definition srm_id m := let 'mkSRM _ i _ _ _ _ := m in i.
Definition srm_chat m := let 'mkSRM _ _ c _ _ _ := m in c.
Definition srm_sending m := let 'mkSRM _ _ _ s _ _ := m in s.
Definition srm_scheduling m := let 'mkSRM _ _ _ _ s _ := m in s.
Definition srm_messages m := let 'mkSRM _ _ _ _ _ ms := m in ms.

Definition srm_zero : sendResultMessage := mkSRM "" 0 0 None None [].

Definition set_type_only (k : string) : dec string := λ o v,
  if names k "@type" then dec_string o v else (o, true).

(** One entry of the message object; [rec] decodes nested messages. *)
Definition set_srm (rec : dec sendResultMessage) (k : string) : dec sendResultMessage := λ m v,
  let 'mkSRM t i c s sc ms := m in
  if names k "@type" then let r := dec_string t v in (mkSRM r.1 i c s sc ms, r.2)
  else if names k "id" then let r := dec_int64 i v in (mkSRM t r.1 c s sc ms, r.2)
  else if names k "chat_id" then let r := dec_int64 c v in (mkSRM t i r.1 s sc ms, r.2)
  else if names k "sending_state" then
    let r := dec_ptr "" (dec_struct set_type_only) s v in (mkSRM t i c r.1 sc ms, r.2)
  else if names k "scheduling_state" then
    let r := dec_ptr "" (dec_struct set_type_only) sc v in (mkSRM t i c s r.1 ms, r.2)
  else if names k "messages" then
    let r := dec_list srm_zero rec ms v in (mkSRM t i c s sc r.1, r.2)
  else (m, true).

(** Nesting of a value, at least 1. *)
Fixpoint depth (v : json) : nat :=
  match v with
  | JArr l => S (foldr (λ x n, Nat.max (depth x) n) 0%nat l)
  | JObj kvs => S (foldr (λ kv n, Nat.max (depth kv.2) n) 0%nat kvs)
  | _ => 1%nat
  end.

(** Decoding with fuel for the nesting of messages. *)
Fixpoint dec_srm (fuel : nat) : dec sendResultMessage := λ m v,
  match fuel with
  | O => (m, true)
  | S fuel => dec_struct (set_srm (dec_srm fuel)) m v
  end.

(** [json.Unmarshal(res, &obj)] without error; the fuel is the value's depth. *)
Definition decode_srm (res : raw) : option sendResultMessage :=
  match res with
  | None => None
  | Some v => unmarshal_ok (dec_srm (depth v)) srm_zero (Some v)
  end.

(** One message named by an answer [internal/session/uploads.go#sentRef]. *)
Record sentRef := mkRef { sr_chat : Z; sr_id : Z; sr_pending : bool }.

(** Still sending, and not scheduled
    [internal/session/uploads.go#sendResultMessage.ref]. *)
Definition ref (m : sendResultMessage) : sentRef :=
  mkRef (srm_chat m) (srm_id m)
    (match srm_sending m with
     | Some t => String.eqb t "messageSendingStatePending"
     | None => false
     end && match srm_scheduling m with Some _ => false | None => true end).

(** [internal/session/uploads.go#extractSentRefs] *)
Definition extractSentRefs (res : raw) : list sentRef :=
  match decode_srm res with
  | None => []
  | Some obj =>
      if String.eqb (srm_type obj) "message" && negb (srm_id obj =? 0)%Z then [ref obj]
      else map ref (filter (λ mm, srm_id mm ≠ 0%Z) (srm_messages obj))
  end.

(** ** The registry's rows *)

(** An existing row wins [internal/store/store.go#RegisterSend]. *)
Definition RegisterSend (now : Z) (sid : string) (chat temp : Z) (d : db) : res dberr db :=
  if has (sid, chat, temp) (sends d) then Ok d
  else if has sid (sessions d)
  then Ok (with_sends <[(sid, chat, temp) := mkSent "pending" None None now now]> d)
  else Err DbForeignKey.

(** The status, final id and error an outcome is stored as. *)
Definition outcome_row (final : Z) (tdErr : raw) : string * option Z * raw :=
  match tdErr with
  | Some e => ("failed", None, Some e)
  | None => ("sent", if (final =? 0)%Z then None else Some final, None)
  end.

(** Upserts a send's terminal state [internal/store/store.go#RecordSendOutcome]. *)
Definition RecordSendOutcome (now : Z) (sid : string) (chat temp final : Z) (tdErr : raw) (d : db)
    : res dberr db :=
  let '(status, fin, e) := outcome_row final tdErr in
  match sends d !! (sid, chat, temp) with
  | Some r => Ok (with_sends <[(sid, chat, temp) := mkSent status fin e (sm_created r) now]> d)
  | None =>
      if has sid (sessions d)
      then Ok (with_sends <[(sid, chat, temp) := mkSent status fin e now now]> d)
      else Err DbForeignKey
  end.

(** [internal/store/store.go#SentMessage] *)
Record SentMessage := mkSentMessage { se_status : string; se_final : Z; se_error : raw }.

(** [None]: never registered, or past retention
    [internal/store/store.go#GetSend]. *)
Definition GetSend (sid : string) (chat temp : Z) (d : db) : option SentMessage :=
  match sends d !! (sid, chat, temp) with
  | None => None
  | Some r => Some (mkSentMessage (sm_status r) (default 0%Z (sm_final r)) (sm_error r))
  end.

(** [internal/store/store.go#PurgeSends] *)
Definition PurgeSends (before : Z) (d : db) : nat * db :=
  let P := λ (_ : string * Z * Z) r, (sm_created r <? before)%Z in
  (affected P (sends d), with_sends (delete_where P) d).

(** ** The manager's side *)

(** A resolved send on its way to the registry
    [internal/session/sends.go#sendOutcome]. *)
Record sendOutcome := mkOutcome {
  so_session : string; so_chat : Z; so_temp : Z; so_final : Z; so_err : raw;
}.

(** [internal/session/sends.go#sendQueue] *)
Definition sendQueue : nat := 256.

(** Every still-sending message of an answer is recorded; a registry error is
    only logged [internal/session/sends.go#registerSends]. *)
Definition registerSends (now : Z) (sid : string) (res : raw) (d : db) : db :=
  foldl (λ d r,
    if negb (sr_pending r) then d
    else match RegisterSend now sid (sr_chat r) (sr_id r) d with Ok d => d | Err _ => d end)
    d (extractSentRefs res).

(** What [noteSendOutcome] reads of an update. *)
Record outcomeUpdate := mkOU {
  ou_old : Z; ou_id : Z; ou_chat : Z; ou_error : option (Z * string);
}.

Definition set_ou_message (k : string) : dec (Z * Z) := λ m v,
  if names k "id" then let r := dec_int64 m.1 v in ((r.1, m.2), r.2)
  else if names k "chat_id" then let r := dec_int64 m.2 v in ((m.1, r.1), r.2)
  else (m, true).

Definition set_ou_error (k : string) : dec (Z * string) := λ e v,
  if names k "code" then let r := dec_int64 e.1 v in ((r.1, e.2), r.2)
  else if names k "message" then let r := dec_string e.2 v in ((e.1, r.1), r.2)
  else (e, true).

Definition set_ou (k : string) : dec outcomeUpdate := λ u v,
  if names k "old_message_id" then
    let r := dec_int64 (ou_old u) v in (mkOU r.1 (ou_id u) (ou_chat u) (ou_error u), r.2)
  else if names k "message" then
    let r := dec_struct set_ou_message (ou_id u, ou_chat u) v in
    (mkOU (ou_old u) r.1.1 r.1.2 (ou_error u), r.2)
  else if names k "error" then
    let r := dec_ptr (0%Z, "") (dec_struct set_ou_error) (ou_error u) v in
    (mkOU (ou_old u) (ou_id u) (ou_chat u) r.1, r.2)
  else (u, true).

(** The outcome an update carries, if any. *)
Definition parse_outcome (sid : string) (update : json) : option sendOutcome :=
  match unmarshal_ok (dec_struct set_ou) (mkOU 0 0 0 None) (Some update) with
  | None => None
  | Some u =>
      if (ou_old u =? 0)%Z || (ou_chat u =? 0)%Z then None
      else Some (mkOutcome sid (ou_chat u) (ou_old u) (ou_id u)
        (match ou_error u with
         | Some (code, msg) => Some (marshal_map
             {["code" := JNum code; "message" := JStr msg; "source" := JStr "tdlib"]})
         | None => None
         end))
  end.

(** Queues a completed send, dropping it when the queue is full
    [internal/session/sends.go#noteSendOutcome]. *)
Definition noteSendOutcome (sid : string) (update : json) (queue : list sendOutcome)
    : list sendOutcome :=
  match parse_outcome sid update with
  | None => queue
  | Some o => if (length queue <? sendQueue)%nat then queue ++ [o] else queue
  end.

(** One round of the writer: the oldest outcome goes to the registry
    [internal/session/sends.go#runSendWriter]. *)
Definition runSendWriter (now : Z) (queue : list sendOutcome) (d : db) : list sendOutcome * db :=
  match queue with
  | [] => ([], d)
  | o :: queue =>
      (queue, match RecordSendOutcome now (so_session o) (so_chat o) (so_temp o) (so_final o) (so_err o) d
              with Ok d => d | Err _ => d end)
  end.

(** ** Lemmas *)

(** The fuel of [dec_srm] is enough: more changes nothing. *)
Lemma dec_elems_ext {A} (zero : A) (f g : dec A) l :
  Forall (λ v, ∀ o, f o v = g o v) l → ∀ olds, dec_elems zero f olds l = dec_elems zero g olds l.
Proof.
  induction 1 as [|v l Hv _ IH]; intros olds; simpl; [done|]. by rewrite Hv, IH.
Qed.

Lemma foldl_ext_in {A B} (f g : A → B → A) (l : list B) :
  Forall (λ b, ∀ a, f a b = g a b) l → ∀ a, foldl f a l = foldl g a l.
Proof. induction 1 as [|b l Hb _ IH]; intros a; simpl; [done|]. by rewrite Hb, IH. Qed.

Lemma depth_elem (l : list json) v : v ∈ l → (depth v < depth (JArr l))%nat.
Proof. induction l as [|x l IH]; [by intros ?%not_elem_of_nil|]. intros [->|H%IH]%elem_of_cons; simpl in *; lia. Qed.

Lemma depth_entry kvs (kv : string * json) : kv ∈ kvs → (depth kv.2 < depth (JObj kvs))%nat.
Proof. induction kvs as [|x l IH]; [by intros ?%not_elem_of_nil|]. intros [->|H%IH]%elem_of_cons; simpl in *; lia. Qed.

Lemma dec_srm_enough n m v old :
  (depth v <= n)%nat → (depth v <= m)%nat → dec_srm n old v = dec_srm m old v.
Proof.
  revert m v old. induction n as [|n IH]; intros [|m] v old Hn Hm;
    [done|destruct v; simpl in *; lia|destruct v; simpl in *; lia|].
  simpl. unfold dec_struct. destruct v as [| | | | |l|kvs]; try done.
  apply foldl_ext_in. apply Forall_forall. intros kv Hkv [[t i c s sc ms] e].
  apply depth_entry in Hkv. unfold set_srm. cbn [fst snd].
  assert (dec_list srm_zero (dec_srm n) ms kv.2 = dec_list srm_zero (dec_srm m) ms kv.2) as ->; [|done].
  unfold dec_list. destruct kv.2 as [| | | | |l|]; try done.
  apply dec_elems_ext. apply Forall_forall. intros v Hv o. apply depth_elem in Hv.
  simpl in Hn, Hm. apply IH; simpl in *; lia.
Qed.

Lemma RegisterSend_get now sid chat temp d chat' temp' :
  has sid (sessions d) = true →
  ∃ d', RegisterSend now sid chat temp d = Ok d' ∧ has sid (sessions d') = true ∧
    GetSend sid chat' temp' d' =
    match GetSend sid chat' temp' d with
    | Some x => Some x
    | None => if decide ((chat, temp) = (chat', temp')) then Some (mkSentMessage "pending" 0 None)
              else None
    end.
Proof.
  intros Hs. unfold RegisterSend, GetSend, has at 1.
  destruct (bool_decide_reflect (is_Some (sends d !! (sid, chat, temp)))) as [[r Hr]|Hn].
  - exists d. split; [done|]. split; [done|]. destruct (sends d !! (sid, chat', temp')) eqn:E; [done|].
    destruct (decide _) as [[= -> ->]|]; [congruence|done].
  - rewrite Hs. eexists. split; [done|]. split; [done|]. simpl.
    destruct (decide ((chat, temp) = (chat', temp'))) as [[= <- <-]|Hne].
    + rewrite lookup_insert_eq. simpl. apply eq_None_not_Some in Hn. by rewrite Hn.
    + rewrite lookup_insert_ne by congruence. by destruct (sends d !! (sid, chat', temp')).
Qed.

Definition outcome_message (final : Z) (tdErr : raw) : SentMessage :=
  let '(status, fin, e) := outcome_row final tdErr in mkSentMessage status (default 0%Z fin) e.

Lemma RecordSendOutcome_get now sid chat temp final e d chat' temp' :
  has sid (sessions d) = true →
  ∃ d', RecordSendOutcome now sid chat temp final e d = Ok d' ∧ has sid (sessions d') = true ∧
    GetSend sid chat' temp' d' =
    if decide ((chat, temp) = (chat', temp')) then Some (outcome_message final e)
    else GetSend sid chat' temp' d.
Proof.
  intros Hs. unfold RecordSendOutcome, GetSend, outcome_message.
  destruct (outcome_row final e) as [[status fin] er].
  destruct (sends d !! (sid, chat, temp)) as [r|] eqn:Er; [|rewrite Hs];
    (eexists; split; [done|]; split; [done|]); simpl;
    (destruct (decide ((chat, temp) = (chat', temp'))) as [[= <- <-]|Hne];
     [by rewrite lookup_insert_eq|by rewrite lookup_insert_ne by congruence]).
Qed.

(** ** The registry over a run of events *)

(** A registration or an outcome of a message of one session. *)
Inductive send_ev :=
| EvReg (chat temp : Z)
| EvOut (chat temp final : Z) (tdErr : raw).

Definition send_step (sid : string) (d : db) (x : Z * send_ev) : db :=
  match x.2 with
  | EvReg chat temp => match RegisterSend x.1 sid chat temp d with Ok d => d | Err _ => d end
  | EvOut chat temp final e =>
      match RecordSendOutcome x.1 sid chat temp final e d with Ok d => d | Err _ => d end
  end.

(** The last outcome for a message, and whether it was registered. *)
Definition last_outcome (chat temp : Z) (evs : list send_ev) : option (Z * raw) :=
  foldl (λ acc ev, match ev with
                   | EvOut c t f e => if decide ((c, t) = (chat, temp)) then Some (f, e) else acc
                   | _ => acc
                   end) None evs.

Definition registered (chat temp : Z) (evs : list send_ev) : bool :=
  existsb (λ ev, match ev with
                 | EvReg c t => bool_decide ((c, t) = (chat, temp))
                 | _ => false
                 end) evs.

Lemma send_run sid chat temp d evs :
  has sid (sessions d) = true →
  let d' := foldl (send_step sid) d evs in
  has sid (sessions d') = true ∧
  GetSend sid chat temp d' =
  match last_outcome chat temp evs.*2 with
  | Some (f, e) => Some (outcome_message f e)
  | None => match GetSend sid chat temp d with
            | Some x => Some x
            | None => if registered chat temp evs.*2 then Some (mkSentMessage "pending" 0 None) else None
            end
  end.
Proof.
  intros Hs. induction evs as [|[now ev] evs IH] using rev_ind.
  { simpl. split; [done|]. by destruct (GetSend sid chat temp d). }
  rewrite foldl_snoc, fmap_app. unfold last_outcome, registered in *.
  simpl. rewrite foldl_snoc, existsb_app. simpl. destruct IH as [Hs' IH].
  set (d1 := foldl _ _ _) in *. clearbody d1. unfold send_step. simpl.
  destruct ev as [c t|c t f e].
  - destruct (RegisterSend_get now sid c t d1 chat temp Hs') as (d2&->&Hs2&->).
    split; [done|]. rewrite IH. destruct (foldl _ _ _) as [[f e]|]; [done|].
    destruct (GetSend sid chat temp d); [done|]. rewrite orb_false_r.
    destruct (existsb _ _); [done|]. simpl.
    destruct (decide _) as [Heq|Hne]; [by rewrite bool_decide_eq_true_2|by rewrite bool_decide_eq_false_2].
  - destruct (RecordSendOutcome_get now sid c t f e d1 chat temp Hs') as (d2&->&Hs2&->).
    split; [done|]. destruct (decide _); [done|]. rewrite IH, orb_false_r. done.
Qed.

(** C33: What a client sees of a send depends only on what happened, not on the
    order in which the registration and the outcome reach the registry: over any
    run of events a message reads as its (last) outcome if there was one, as
    pending if it was only registered, and as unknown if neither happened. *)
Theorem send_order_irrelevant sid chat temp d evs :
  has sid (sessions d) = true → GetSend sid chat temp d = None →
  GetSend sid chat temp (foldl (send_step sid) d evs) =
  match last_outcome chat temp evs.*2 with
  | Some (f, e) => Some (outcome_message f e)
  | None => if registered chat temp evs.*2 then Some (mkSentMessage "pending" 0 None) else None
  end.
Proof.
  intros Hs Hn. destruct (send_run sid chat temp d evs Hs) as [_ ->]. by rewrite Hn.
Qed.

Definition ex_send_db : db :=
  with_sessions (λ _, {["s" := mkSession "user" "app" None None None None "authorized" None None
                                 None 0 0 None None None None]}) empty_db.

Lemma send_order_irrelevant_witness :
  GetSend "s" 7 1 (foldl (send_step "s") ex_send_db [(1%Z, EvOut 7 1 99 None); (2%Z, EvReg 7 1)]) =
  Some (mkSentMessage "sent" 99 None).
Proof.
  exact (send_order_irrelevant "s" 7 1 ex_send_db [(1%Z, EvOut 7 1 99 None); (2%Z, EvReg 7 1)]
           eq_refl eq_refl).
Defined.

(** ** From the answer to the outcome *)

(** A message TDLib is still sending, as it answers a send. *)
Definition sending_message (chat temp : Z) : json :=
  JObj [("@type", JStr "message"); ("id", JNum temp); ("chat_id", JNum chat);
        ("sending_state", JObj [("@type", JStr "messageSendingStatePending")])].

(** The update that says it was sent. *)
Definition sent_update (chat temp final : Z) : json :=
  JObj [("@type", JStr "updateMessageSendSucceeded");
        ("message", JObj [("@type", JStr "message"); ("id", JNum final); ("chat_id", JNum chat)]);
        ("old_message_id", JNum temp)].

Lemma extract_sending chat temp :
  in_int64 chat = true → in_int64 temp = true → temp ≠ 0%Z →
  extractSentRefs (Some (sending_message chat temp)) = [mkRef chat temp true].
Proof.
  intros Hc Ht Hz. unfold extractSentRefs, decode_srm, sending_message, unmarshal_ok. simpl.
  unfold dec_int64. rewrite Ht, Hc. simpl. by rewrite (proj2 (Z.eqb_neq _ _) Hz).
Qed.

Lemma parse_sent sid chat temp final :
  in_int64 chat = true → in_int64 temp = true → in_int64 final = true →
  chat ≠ 0%Z → temp ≠ 0%Z →
  parse_outcome sid (sent_update chat temp final) = Some (mkOutcome sid chat temp final None).
Proof.
  intros Hc Ht Hf Hc0 Ht0. unfold parse_outcome, sent_update, unmarshal_ok. simpl.
  unfold dec_int64. rewrite Hf, Hc. simpl. rewrite Ht. simpl.
  by rewrite (proj2 (Z.eqb_neq _ _) Ht0), (proj2 (Z.eqb_neq _ _) Hc0).
Qed.

(** A temporary id resolves into the final one whichever half arrives
    first. Between the answer to a send and the update that completes it, the
    registry ends up with the message sent under its final id both when the
    answer is registered before the update is written and when it is after; and
    in between it reads as pending once registered. *)
Theorem send_resolves now sid chat temp final d :
  has sid (sessions d) = true → GetSend sid chat temp d = None →
  in_int64 chat = true → in_int64 temp = true → in_int64 final = true →
  chat ≠ 0%Z → temp ≠ 0%Z → final ≠ 0%Z →
  let answer := Some (sending_message chat temp) in
  let queue := noteSendOutcome sid (sent_update chat temp final) [] in
  let reg := registerSends now sid answer in
  let write d := (runSendWriter now queue d).2 in
  GetSend sid chat temp (reg d) = Some (mkSentMessage "pending" 0 None) ∧
  GetSend sid chat temp (write (reg d)) = Some (mkSentMessage "sent" final None) ∧
  GetSend sid chat temp (reg (write d)) = Some (mkSentMessage "sent" final None).
Proof.
  intros Hs Hn Hc Ht Hf Hc0 Ht0 Hf0 answer queue reg write.
  assert (Hreg : ∀ d, reg d = send_step sid d (now, EvReg chat temp)).
  { intros d'. unfold reg, registerSends, answer. by rewrite extract_sending. }
  assert (Hq : queue = [mkOutcome sid chat temp final None]).
  { unfold queue, noteSendOutcome. by rewrite parse_sent. }
  assert (Hw : ∀ d, write d = send_step sid d (now, EvOut chat temp final None)).
  { intros d'. unfold write. by rewrite Hq. }
  rewrite !Hreg, !Hw, ?Hreg.
  assert (Hout : outcome_message final None = mkSentMessage "sent" final None).
  { unfold outcome_message, outcome_row. by rewrite (proj2 (Z.eqb_neq _ _) Hf0). }
  pose proof (λ evs, proj2 (send_run sid chat temp d evs Hs)) as Hrun. rewrite Hn in Hrun.
  split; [|split].
  - etrans; [exact (Hrun [(now, EvReg chat temp)])|]. simpl. by rewrite bool_decide_eq_true_2.
  - etrans; [exact (Hrun [(now, EvReg chat temp); (now, EvOut chat temp final None)])|].
    unfold last_outcome. simpl. by rewrite decide_True, Hout.
  - etrans; [exact (Hrun [(now, EvOut chat temp final None); (now, EvReg chat temp)])|].
    unfold last_outcome. simpl. by rewrite decide_True, Hout.
Qed.

Lemma send_resolves_witness :
  let reg := registerSends 5 "s" (Some (sending_message (-100) 3)) in
  let write d := (runSendWriter 5 (noteSendOutcome "s" (sent_update (-100) 3 4096) []) d).2 in
  GetSend "s" (-100) 3 (reg ex_send_db) = Some (mkSentMessage "pending" 0 None) ∧
  GetSend "s" (-100) 3 (write (reg ex_send_db)) = Some (mkSentMessage "sent" 4096 None) ∧
  GetSend "s" (-100) 3 (reg (write ex_send_db)) = Some (mkSentMessage "sent" 4096 None).
Proof. apply (send_resolves 5 "s" (-100) 3 4096 ex_send_db); done. Defined.
