(* ===== verification/LocalFiles.v ===== *)
(** Local files named by calls (internal/session/uploads.go): confining them to
    the uploads volume, and removing an upload once the send that used it is
    over. *)

From S2P Require Import Prelude GoStr Json Types Paths UploadStore Db Sends.


(** ** Decoding into [any]

    A number becomes a float64, and one past its range is a decoding error. *)

(** The least magnitude that rounds past the largest float64. *)
Definition float_limit : Z := 2 ^ 1024 - 2 ^ 970.

Definition split_at (c : ascii) (s : string) : string * option string :=
  match sindex s (String c "") with
  | Some i => (stake i s, Some (sdrop (S i) s))
  | None => (s, None)
  end.

(** The exponent part of a literal. *)
Definition split_exp (s : string) : string * string :=
  match split_at "e" s with
  | (m, Some e) => (m, e)
  | _ => match split_at "E" s with
         | (m, Some e) => (m, e)
         | (m, None) => (m, "0")
         end
  end.

(** Digits and decimal exponent of an unsigned literal. *)
Definition literal (s : string) : option (Z * Z) :=
  let '(m, e) := split_exp s in
  let '(ip, fp) := split_at "." m in
  let fp := default "" fp in
  let '(sign, e) := match cut_prefix e "-", cut_prefix e "+" with
                    | Some e, _ => ((-1)%Z, e)
                    | None, Some e => (1%Z, e)
                    | None, None => (1%Z, e)
                    end in
  d ← digits_val 0 (ip +:+ fp);
  e ← digits_val 0 e;
  Some (d, sign * e - Z.of_nat (String.length fp))%Z.

(** Does a number with a fraction or exponent fit a float64? *)
Definition lit_fits (s : string) : bool :=
  match literal (trim_prefix s "-") with
  | Some (d, e) =>
      if (d =? 0)%Z then true
      else if (0 <=? e)%Z then (d * 10 ^ e <? float_limit)%Z
      else (d <? float_limit * 10 ^ (- e))%Z
  | None => true
  end.

(** No decoding error anywhere in a value. *)
Fixpoint any_ok (v : json) : bool :=
  match v with
  | JNum z => (Z.abs z <? float_limit)%Z
  | JLit s => lit_fits s
  | JArr l => forallb any_ok l
  | JObj kvs => forallb (λ kv, any_ok kv.2) kvs
  | _ => true
  end.

(** ** Paths in params *)

(** The walk over a decoded value; of equal keys the last one counts, and the
    entries of an object come in no particular order. *)
Fixpoint walk (v : json) : list string :=
  match v with
  | JObj kvs =>
      (match obj_map kvs !! "@type", obj_map kvs !! "path" with
       | Some (JStr t), Some (JStr p) => if String.eqb t "inputFileLocal" then [p] else []
       | _, _ => []
       end) ++
      (fix go (l : list (string * json)) : list string :=
         match l with
         | [] => []
         | kv :: l => (if existsb (λ kv', String.eqb kv'.1 kv.1) l then [] else walk kv.2) ++ go l
         end) kvs
  | JArr l => flat_map walk l
  | _ => []
  end.

(** [internal/session/uploads.go#collectLocalFilePaths] *)
Definition collectLocalFilePaths (params : raw) : list string :=
  match params with
  | Some v => if any_ok v then walk v else []
  | None => []
  end.

(** [internal/session/uploads.go#ErrLocalPathDenied] *)
Definition ErrLocalPathDenied : gerr :=
  EMsg "inputFileLocal path must be within the uploads volume".

(** The loop: a path outside ends it; directories are kept once each. *)
Fixpoint guard_loop (root : string) (paths dirs : list string) : res gerr (list string) :=
  match paths with
  | [] => Ok dirs
  | p :: paths =>
      if negb (Within p root) then Err ErrLocalPathDenied
      else let d := path_dir p in
           guard_loop root paths (if existsb (String.eqb d) dirs then dirs else dirs ++ [d])
  end.

(** [internal/session/uploads.go#guardLocalPaths] *)
Definition guardLocalPaths (root : string) (params : raw) : res gerr (list string) :=
  guard_loop root (collectLocalFilePaths params) [].

(** ** Cleaning up after a send *)

(** Remembers the directories of a send under the temporary ids of its answer;
    the map is the manager's, shared by all its sessions
    [internal/session/uploads.go#trackUpload]. *)
Definition trackUpload (res : raw) (dirs : list string) (pending : gmap Z (list string))
    : gmap Z (list string) :=
  foldl (λ m r, <[sr_id r := dirs]> m) pending (extractSentRefs res).

Definition set_old_id (k : string) : dec Z := λ o v,
  if names k "old_message_id" then dec_int64 o v else (o, true).

(** [os.RemoveAll] on the volume mounted at [root]: every upload directory at
    or below [d] goes. *)
Definition remove_all (root d : string) (v : volume) : volume :=
  filter (λ kv, (String.eqb (path_clean (path_join root kv.1)) (path_clean d) ||
                 Within (path_join root kv.1) d) = false) v.

(** Removes the directories of a completed send
    [internal/session/uploads.go#finishUpload]. *)
Definition finishUpload (root : string) (update : json) (pending : gmap Z (list string)) (v : volume)
    : gmap Z (list string) * volume :=
  match unmarshal_ok (dec_struct set_old_id) 0%Z (Some update) with
  | None => (pending, v)
  | Some old =>
      if (old =? 0)%Z then (pending, v)
      else (delete old pending, foldl (λ v d, remove_all root d v) v (default [] (pending !! old)))
  end.

(** [internal/session/uploads.go#sweepUploads] *)
Definition sweepUploads (root : string) (now ttl : Z) (v : volume) : volume :=
  if String.eqb root "" then v else (Sweep (now - ttl)%Z v).2.

(** ** Lemmas *)

(** A file a value names: some object in it, at any depth. *)
Inductive local_file : json → string → Prop :=
| lf_here kvs p :
    obj_map kvs !! "@type" = Some (JStr "inputFileLocal") →
    obj_map kvs !! "path" = Some (JStr p) → local_file (JObj kvs) p
| lf_entry kvs k v p : obj_map kvs !! k = Some v → local_file v p → local_file (JObj kvs) p
| lf_elem l v p : v ∈ l → local_file v p → local_file (JArr l) p.

Definition walk_entries (l : list (string * json)) : list string :=
  (fix go l := match l with
   | [] => []
   | kv :: l => (if existsb (λ kv', String.eqb kv'.1 kv.1) l then [] else walk kv.2) ++ go l
   end) l.

Lemma existsb_key (l : list (string * json)) k :
  existsb (λ kv', String.eqb kv'.1 k) l = false → k ∉ l.*1.
Proof.
  intros H (kv&->&Hin)%list_elem_of_fmap. apply not_true_iff_false in H. apply H.
  apply existsb_exists. exists kv. rewrite String.eqb_refl. by rewrite <- list_elem_of_In.
Qed.

Lemma obj_map_last kvs k v :
  obj_map kvs !! k = Some v ↔ ∃ l1 l2, kvs = l1 ++ (k, v) :: l2 ∧ k ∉ l2.*1.
Proof.
  split.
  - induction kvs as [|[k' v'] kvs IH] using rev_ind; [done|].
    unfold obj_map. rewrite foldl_snoc. simpl. intros [[<- <-]|[Hne H]]%lookup_insert_Some.
    + exists kvs, []. split; [done|]. by intros ?%not_elem_of_nil.
    + destruct (IH H) as (l1&l2&->&Hk). exists l1, (l2 ++ [(k', v')]).
      rewrite <- app_assoc. split; [done|]. rewrite fmap_app. simpl.
      rewrite not_elem_of_app, not_elem_of_cons. repeat split; [done|by apply not_eq_sym|apply not_elem_of_nil].
  - intros (l1&l2&->&Hk). by apply obj_map_app.
Qed.

Lemma walk_entries_spec l p :
  p ∈ walk_entries l ↔ ∃ l1 k v l2, l = l1 ++ (k, v) :: l2 ∧ k ∉ l2.*1 ∧ p ∈ walk v.
Proof.
  induction l as [|[k v] l IH].
  { split; [by intros ?%not_elem_of_nil|]. by intros ([]&?&?&?&?&_). }
  simpl. rewrite elem_of_app. fold (walk_entries l). rewrite IH. split.
  - intros [Hp|(l1&k'&v'&l2&->&Hk&Hp)].
    + destruct (existsb _ l) eqn:E; [by apply not_elem_of_nil in Hp|].
      exists [], k, v, l. split; [done|]. split; [by apply existsb_key|done].
    + exists ((k, v) :: l1), k', v', l2. done.
  - intros ([|x l1]&k'&v'&l2&Hl&Hk&Hp); simplify_list_eq.
    + left. destruct (existsb _ l2) eqn:E; [|done]. exfalso. apply Hk.
      apply existsb_exists in E as (kv&Hin&Heq%String.eqb_eq). subst k'.
      apply list_elem_of_fmap_2, list_elem_of_In. done.
    + right. eauto 10.
Qed.

(** The walk finds exactly the files a value names. *)
Lemma walk_spec v p : p ∈ walk v ↔ local_file v p.
Proof.
  revert p. induction v as [| | | | |l IH|kvs IH] using json_ind'; intros p;
    try (split; [by intros ?%not_elem_of_nil|by inversion 1]).
  - rewrite Forall_forall in IH. simpl. rewrite list_elem_of_In, in_flat_map. split.
    + intros (v&Hv%list_elem_of_In&Hp%list_elem_of_In). apply lf_elem with v; [done|]. by apply IH.
    + inversion 1 as [| |? v ? Hv Hp]; subst. exists v. rewrite <- !list_elem_of_In.
      split; [done|]. by apply IH.
  - rewrite Forall_forall in IH. cbn [walk]. fold (walk_entries kvs). rewrite elem_of_app, walk_entries_spec.
    split.
    + intros [Hp|(l1&k&v&l2&Hl&Hk&Hp)].
      * destruct (obj_map kvs !! "@type") as [[| | | |t| |]|] eqn:Et; try by apply not_elem_of_nil in Hp.
        destruct (obj_map kvs !! "path") as [[| | | |q| |]|] eqn:Ep; try by apply not_elem_of_nil in Hp.
        destruct (String.eqb_spec t "inputFileLocal") as [->|]; [|by apply not_elem_of_nil in Hp].
        apply list_elem_of_singleton in Hp as ->. by apply lf_here.
      * apply lf_entry with k v; [apply obj_map_last; eauto|].
        apply (IH (k, v)); [subst; rewrite elem_of_app; right; by left|done].
    + inversion 1 as [? ? Ht Hp|? k v ? Hv Hp|]; subst.
      * left. rewrite Ht, Hp. by left.
      * right. apply obj_map_last in Hv as (l1&l2&->&Hk). exists l1, k, v, l2.
        split; [done|]. split; [done|]. apply (IH (k, v)); [rewrite elem_of_app; right; by left|done].
Qed.

Lemma guard_loop_ok root paths dirs dirs' :
  guard_loop root paths dirs = Ok dirs' ↔
  (∀ p, p ∈ paths → Within p root = true) ∧
  dirs' = foldl (λ ds p, if existsb (String.eqb (path_dir p)) ds then ds else ds ++ [path_dir p]) dirs paths.
Proof.
  revert dirs. induction paths as [|p paths IH]; intros dirs; simpl.
  { split; [intros [= ->]; split; [by intros ? ?%not_elem_of_nil|done]|by intros [_ ->]]. }
  destruct (Within p root) eqn:E; simpl.
  - rewrite IH. split; intros [H ->]; (split; [|done]).
    + intros q [->|Hq]%elem_of_cons; [done|by apply H].
    + intros q Hq. apply H. by right.
  - split; [done|]. intros [H _]. rewrite H in E; [done|by left].
Qed.

Lemma guard_dirs paths dirs x :
  x ∈ foldl (λ ds p, if existsb (String.eqb (path_dir p)) ds then ds else ds ++ [path_dir p]) dirs paths ↔
  x ∈ dirs ∨ ∃ p, p ∈ paths ∧ x = path_dir p.
Proof.
  revert dirs. induction paths as [|p paths IH]; intros dirs; simpl.
  { split; [by left|]. intros [?|(p&?%not_elem_of_nil&_)]; done. }
  rewrite IH. destruct (existsb _ dirs) eqn:E.
  - apply existsb_exists in E as (d&Hd%list_elem_of_In&<-%String.eqb_eq). set_solver.
  - rewrite elem_of_app, list_elem_of_singleton. set_solver.
Qed.

(** C30: The guard confines a call to the uploads volume. When it lets params
    through (all their numbers within float64), every local file they name, in
    any object at any depth, resolves below the volume's root, and the
    directories noted for cleaning up are exactly those files' directories;
    when it refuses, some named file really is outside. Of an object with a key
    twice the params are read the way encoding/json reads them, the last one
    counting; which of the two TDLib takes from the same text is TDLib's. *)
Theorem guard_confines root v :
  any_ok v = true →
  match guardLocalPaths root (Some v) with
  | Ok dirs => (∀ p, local_file v p → Within p root = true) ∧
               ∀ d, d ∈ dirs ↔ ∃ p, local_file v p ∧ d = path_dir p
  | Err e => e = ErrLocalPathDenied ∧ ∃ p, local_file v p ∧ Within p root = false
  end.
Proof.
  intros Hok. unfold guardLocalPaths, collectLocalFilePaths. rewrite Hok.
  destruct (guard_loop root (walk v) []) as [dirs|e] eqn:E.
  - apply guard_loop_ok in E as [Hw ->]. split.
    + intros p Hp%walk_spec. by apply Hw.
    + intros d. rewrite guard_dirs. split.
      * intros [?%not_elem_of_nil|(p&Hp%walk_spec&->)]; [done|eauto].
      * intros (p&Hp%walk_spec&->). eauto.
  - assert (Hsome : ∀ paths dirs, guard_loop root paths dirs = Err e →
      e = ErrLocalPathDenied ∧ ∃ p, p ∈ paths ∧ Within p root = false).
    { clear. induction paths as [|p paths IH]; intros dirs; simpl; [done|].
      destruct (Within p root) eqn:Ew; simpl; [|intros [= <-]; split; [done|]; exists p; split; [by left|done]].
      intros H. destruct (IH _ H) as (->&q&?&?). split; [done|]. exists q. split; [by right|done]. }
    destruct (Hsome _ _ E) as (->&p&Hp%walk_spec&?). eauto.
Qed.

Definition ex_document (path : string) : json :=
  JObj [("chat_id", JNum 1);
        ("input_message_content", JObj [("@type", JStr "inputMessageDocument");
           ("document", JObj [("@type", JStr "inputFileLocal"); ("path", JStr path)])])].

Lemma guard_confines_witness :
  match guardLocalPaths "/uploads" (Some (ex_document "/uploads/../etc/passwd")) with
  | Ok dirs => (∀ p, local_file (ex_document "/uploads/../etc/passwd") p → Within p "/uploads" = true) ∧
               ∀ d, d ∈ dirs ↔ ∃ p, local_file (ex_document "/uploads/../etc/passwd") p ∧ d = path_dir p
  | Err e => e = ErrLocalPathDenied ∧
             ∃ p, local_file (ex_document "/uploads/../etc/passwd") p ∧ Within p "/uploads" = false
  end.
Proof. apply (guard_confines "/uploads"). by vm_compute. Defined.

(** ** What the guard and the cleaning miss *)

(** A number past float64 makes the decoding fail, and the guard then sees no
    path at all: the file below is outside the volume and the call goes on. *)
Lemma guard_bypassed_by_large_number :
  let v := JObj [("x", JLit "1e999");
                 ("document", JObj [("@type", JStr "inputFileLocal"); ("path", JStr "/etc/passwd")])] in
  local_file v "/etc/passwd" ∧ Within "/etc/passwd" "/uploads" = false ∧
  guardLocalPaths "/uploads" (Some v) = Ok [].
Proof.
  split; [|by vm_compute]. apply walk_spec. change (walk _) with ["/etc/passwd"]. by left.
Qed.

Definition ex_volume : volume :=
  {[ex_id := mkDir 0 ∅; "fedcba9876543210fedcba9876543210" := mkDir 0 ∅]}.

(** A path directly below the root passes the guard, and its directory is the
    root: once the send is over, every upload is removed. *)
Lemma root_file_removes_all_uploads :
  let p := ex_document "/uploads/x" in
  guardLocalPaths "/uploads" (Some p) = Ok ["/uploads"] ∧
  (finishUpload "/uploads" (sent_update 7 3 99)
     (trackUpload (Some (sending_message 7 3)) ["/uploads"] ∅) ex_volume).2 = ∅.
Proof. by vm_compute. Qed.

(** Temporary ids are unique within a chat only. Two sends in two chats with the
    same id share one entry: the first to complete removes the other's upload,
    whose send is still going on. *)
Lemma finished_send_removes_other_upload :
  let dir1 := path_join "/uploads" ex_id in
  let dir2 := path_join "/uploads" "fedcba9876543210fedcba9876543210" in
  let pending := trackUpload (Some (sending_message 8 3)) [dir2]
                   (trackUpload (Some (sending_message 7 3)) [dir1] ∅) in
  (finishUpload "/uploads" (sent_update 7 3 99) pending ex_volume).2 = {[ex_id := mkDir 0 ∅]}.
Proof. vm_compute. reflexivity. Qed.
