(* ===== verification/Call.v ===== *)
(** A call on a session (internal/session/manager.go): resolving a username,
    admission, the dispatch with its one retry for a chat TDLib has not loaded,
    and what is recorded of the answer. The monad and its world are Admit's. *)

From S2P Require Import Prelude GoStr Json Types Tdjson Quota Db Counters Chats Guard Admit Sends UploadStore LocalFiles.


(** Methods reserved to the gateway
    [internal/session/manager.go#blockedMethods]. *)
Definition blockedMethods : list string :=
  ["close"; "destroy"; "logOut"; "setTdlibParameters"; "setDatabaseEncryptionKey";
   "setAuthenticationPhoneNumber"; "checkAuthenticationCode"; "checkAuthenticationPassword";
   "checkAuthenticationBotToken"; "checkAuthenticationEmailCode"; "resendAuthenticationCode";
   "registerUser"; "requestQrCodeAuthentication"; "addProxy"; "editProxy"; "removeProxy";
   "enableProxy"; "disableProxy"; "setLogStream"; "setLogVerbosityLevel"; "setLogTagVerbosityLevel"].

(** [internal/session/manager.go#IsBlockedMethod] *)
Definition IsBlockedMethod (method : string) : bool := existsb (String.eqb method) blockedMethods.

(** What this worker holds of a session: nothing, an account not usable yet (or
    any more), or an authorized one. *)
Inductive hold := HNone | HBusy (status : string) | HReady.

Section calling.
Context {T : Type} (td_send : T → rawRequest → T * td_reply).
Context (clock : nat → Z) (up : nat → bool) (gone : nat → bool).
(** The [%q] verb, and the uploads volume. *)
Context (quote : string → string) (root : string).
Context (sid kind tok : string).

Definition set_id (k : string) : dec Z := λ o v, if names k "id" then dec_int64 o v else (o, true).

(** Rewrites a username in chat_id to the chat's numeric id
    [internal/session/manager.go#resolveChatUsername]. *)
Definition resolveChatUsername (params : raw) : M T raw :=
  match stringChatID params with
  | None => ret params
  | Some s =>
      let uname := trim_prefix (trim_space s) "@" in
      if String.eqb uname "" then ret params
      else
        let* _ := check_cooldown clock "@resolve" in
        let q := Some (marshal_map {["username" := JStr uname]}) in
        let* _ := admit_call td_send clock up gone sid kind tok "searchPublicChat" "@resolve" q in
        let* r := try (call_td td_send "searchPublicChat" q) in
        let* _ := observe_answer clock kind "@resolve" r in
        match r with
        | Err e => fail (EWrap ("resolve @" +:+ uname +:+ ": ") e)
        | Ok v =>
            match unmarshal_ok (dec_struct set_id) 0%Z (Some v) with
            | None => fail (EMsg ("resolve @" +:+ uname +:+ ": no chat id"))
            | Some id =>
                if (id =? 0)%Z then fail (EMsg ("resolve @" +:+ uname +:+ ": no chat id"))
                else match unmarshal_map params with
                | None => fail (EMsg "json: cannot unmarshal")
                | Some obj => ret (Some (marshal_map (<["chat_id" := JNum id]> obj)))
                end
            end
        end
  end.

(** The dispatch: a chat TDLib has not loaded is loaded and the call made once
    more [internal/session/manager.go:1073-1081#Call]. *)
Definition dispatch (method : string) (params : raw) : M T (res gerr json) :=
  let* r := try (call_td td_send method params) in
  match r with
  | Ok _ => ret r
  | Err e =>
      if isChatUnresolved (error_text quote e) then
        match forceLoadChat params with
        | None => ret r
        | Some (loadMethod, loadParams) =>
            let* l := try (call_td td_send loadMethod loadParams) in
            match l with
            | Err _ => ret r
            | Ok _ => try (call_td td_send method params)
            end
        end
      else ret r
  end.

(** Records the still-sending messages of an answer, as the store allows. *)
Fixpoint register_refs (refs : list sentRef) : M T () :=
  match refs with
  | [] => ret ()
  | r :: refs =>
      let* _ := (if negb (sr_pending r) then ret ()
                 else
                   let* ok := ask up in
                   let* now := ask clock in
                   if negb ok then ret ()
                   else upd (λ w, match RegisterSend now sid (sr_chat r) (sr_id r) (w_db w) with
                                  | Ok d => w_set_db d w
                                  | Err _ => w
                                  end)) in
      register_refs refs
  end.

(** A call of a td_api method [internal/session/manager.go#Call]. *)
Definition Call (h : hold) (method : string) (params : raw) : M T json :=
  match h with
  | HNone => fail (EMsg "session not found")
  | HBusy st => fail (EMsg ("session is " +:+ st +:+ ", not authorized"))
  | HReady =>
      let* dirs := lift (guardLocalPaths root params) in
      let scope := Scope method in
      let* _ := check_cooldown clock scope in
      let* params := resolveChatUsername params in
      let* _ := admit_call td_send clock up gone sid kind tok method scope params in
      let* r := dispatch method params in
      let* _ := observe_answer clock kind scope r in
      match r with
      | Err e => fail e
      | Ok v =>
          let* _ := (if bool_decide (dirs = []) then ret ()
                     else upd (λ w, w_set_pending (trackUpload (Some v) dirs (w_pending w)) w)) in
          let* _ := register_refs (extractSentRefs (Some v)) in
          ret v
      end
  end.

(** ** Which requests reach TDLib *)

(** The log grows by a list of requests satisfying a property of the list. *)
Definition sends_only {A} (P : list rawRequest → Prop) (c : M T A) : Prop :=
  ∀ w, ∃ l, w_log (c w).2 = l ++ w_log w ∧ P l.

Definition quiet (l : list rawRequest) : Prop := l = [].

Lemma sends_quiet {A} (c : M T A) : (∀ w, w_log (c w).2 = w_log w) → sends_only quiet c.
Proof. intros H w. exists []. by rewrite H. Qed.

Lemma sends_mono {A} (P Q : list rawRequest → Prop) (c : M T A) :
  (∀ l, P l → Q l) → sends_only P c → sends_only Q c.
Proof. intros HPQ H w. destruct (H w) as (l&?&?). eauto. Qed.

Lemma sends_bind {A B} (P Q R : list rawRequest → Prop) (c : M T A) (f : A → M T B) :
  sends_only P c → (∀ a, sends_only Q (f a)) →
  (∀ l1 l2, P l1 → Q l2 → R (l2 ++ l1)) → (∀ l, P l → R l) → sends_only R (bind c f).
Proof.
  intros Hc Hf HR HR0 w. destruct (Hc w) as (l1&E1&H1). unfold bind.
  destruct (c w) as [[a|e] w1]; simpl in *.
  - destruct (Hf a w1) as (l2&E2&H2). exists (l2 ++ l1). rewrite E2, E1, app_assoc. eauto.
  - eauto.
Qed.

(** The usual composition: each request satisfies a predicate. *)
Definition all_req (P : rawRequest → Prop) (l : list rawRequest) : Prop := Forall P l.

Lemma sends_bind_all {A B} (P : rawRequest → Prop) (c : M T A) (f : A → M T B) :
  sends_only (all_req P) c → (∀ a, sends_only (all_req P) (f a)) →
  sends_only (all_req P) (bind c f).
Proof. intros Hc Hf. eapply sends_bind; [exact Hc|exact Hf| |done]. intros. by apply Forall_app. Qed.

Lemma sends_none {A} P (c : M T A) : (∀ w, w_log (c w).2 = w_log w) → sends_only (all_req P) c.
Proof. intros H. eapply sends_mono; [|by apply sends_quiet]. intros l ->. constructor. Qed.

Lemma sends_call (P : rawRequest → Prop) method params :
  (∀ ps, P (mkReq method ps)) → sends_only (all_req P) (call_td td_send method params).
Proof.
  intros HP w. unfold call_td. simpl. destruct (request_params params) as [ps|].
  - exists [mkReq method ps]. split; [done|]. by repeat constructor.
  - exists []. split; [done|constructor].
Qed.

Lemma sends_try {A} P (c : M T A) : sends_only P c → sends_only P (try c).
Proof. intros H w. unfold try. simpl. apply H. Qed.

Lemma check_cooldown_log scope (w : world T) : w_log (check_cooldown clock scope w).2 = w_log w.
Proof. unfold check_cooldown, bind, ask, get. by destruct (checkCooldown _ _ _). Qed.

Lemma observe_log {A} scope (r : res gerr A) (w : world T) : w_log (observe_answer clock kind scope r w).2 = w_log w.
Proof. done. Qed.

Lemma release_log uses (w : world T) : w_log (release up uses w).2 = w_log w.
Proof. unfold release. destruct (bool_decide _); [done|]. unfold bind, ask. by destruct (up (w_tick w)). Qed.

Lemma admit_pace_log scope uses (w : world T) : w_log (admit_pace clock up gone kind scope uses w).2 = w_log w.
Proof.
  unfold admit_pace. destruct (negb _ || negb _); [done|].
  unfold bind at 1, ask at 1. unfold bind at 1, get. cbv iota beta.
  destruct (reserve _ _) as [g [wait ok]]. unfold bind at 1, upd at 1. cbv iota beta.
  set (w1 := w_set_guard g [] _).
  assert (Hrel : ∀ w2 (e : gerr), w_log w2 = w_log w →
    w_log (bind (release up uses) (λ _, @fail T () e) w2).2 = w_log w).
  { intros w2 e Hw. pose proof (release_log uses w2) as Hl. unfold bind.
    destruct (release up uses w2) as [[|] w3]; simpl in *; congruence. }
  destruct ok; cbn [negb]; [|by apply Hrel].
  destruct (wait =? 0)%Z; [done|]. unfold bind at 1, ask at 1. cbv iota beta.
  destruct (gone (w_tick w1)); cbn [negb]; [by apply Hrel|done].
Qed.

Lemma sends_spam P scope params :
  (∀ ps, P (mkReq "getUser" ps)) → sends_only (all_req P) (spamBlocked td_send scope params).
Proof.
  intros HP. unfold spamBlocked.
  destruct (existsb _ _); [by apply sends_none|]. destruct (negb _); [by apply sends_none|].
  destruct (numericChatID params) as [id|]; [|by apply sends_none].
  destruct (id <=? 0)%Z; [by apply sends_none|].
  apply sends_bind_all; [by apply sends_none|]. intros w.
  destruct (id =? _)%Z; [by apply sends_none|].
  apply sends_bind_all; [by apply sends_try, sends_call|]. intros r.
  destruct r as [v|]; [destruct (unmarshal_ok _ _ _)|]; by apply sends_none.
Qed.

Lemma sends_admit P method scope params :
  (∀ ps, P (mkReq "getUser" ps)) →
  sends_only (all_req P) (admit_call td_send clock up gone sid kind tok method scope params).
Proof.
  intros HP. unfold admit_call. apply sends_bind_all; [|intros _; apply sends_bind_all].
  - unfold admit_spam. destruct (negb _); [by apply sends_none|].
    apply sends_bind_all; [by apply sends_none|]. intros now.
    apply sends_bind_all; [by apply sends_none|]. intros w.
    destruct (active _ _ _); [|by apply sends_none].
    apply sends_bind_all; [by apply sends_spam|]. intros []; by apply sends_none.
  - apply sends_none. intros w.
    destruct (takeQuota clock up sid kind tok method params w) as [r w'] eqn:E.
    by apply takeQuota_counts in E as [? _].
  - intros uses. apply sends_none, admit_pace_log.
Qed.

Lemma sends_resolve P params :
  (∀ ps, P (mkReq "getUser" ps)) → (∀ ps, P (mkReq "searchPublicChat" ps)) →
  sends_only (all_req P) (resolveChatUsername params).
Proof.
  intros H1 H2. unfold resolveChatUsername. destruct (stringChatID params) as [s|]; [|by apply sends_none].
  destruct (String.eqb _ ""); [by apply sends_none|].
  apply sends_bind_all; [apply sends_none, check_cooldown_log|]. intros _.
  apply sends_bind_all; [by apply sends_admit|]. intros _.
  apply sends_bind_all; [by apply sends_try, sends_call|]. intros r.
  apply sends_bind_all; [by apply sends_none|]. intros _.
  destruct r as [v|]; [|by apply sends_none].
  destruct (unmarshal_ok _ _ _) as [id|]; [|by apply sends_none].
  destruct (id =? 0)%Z; [by apply sends_none|].
  destruct (unmarshal_map params); by apply sends_none.
Qed.

Lemma sends_log {A} (P : list rawRequest → Prop) (c : M T A) w r w' :
  sends_only P c → c w = (r, w') → ∃ l, w_log w' = l ++ w_log w ∧ P l.
Proof. intros H E. specialize (H w). by rewrite E in H. Qed.

(** The gateway's own lookups on behalf of a call. *)
Definition is_lookup (r : rawRequest) : Prop :=
  rq_method r = "getUser" ∨ rq_method r = "searchPublicChat".

Lemma dispatch_not_refused method params w r w' e :
  dispatch method params w = (Ok (Err e), w') → r = e → as_refused r = None.
Proof.
  intros H ->. revert H.
  assert (Hcall : ∀ (w : world T) m p e, (call_td td_send m p w).1 = Err e → as_refused e = None).
  { intros w0 m p e0. unfold call_td, td_call. simpl. destruct (request_params p); simpl;
      [|by intros [= <-]]. by destruct (td_send _ _).2; simpl; intros [= <-]. }
  unfold dispatch, bind at 1, try at 1. cbv zeta iota beta.
  destruct (call_td td_send method params w) as [[v|e1] w1] eqn:E1; simpl; [by intros [=]|].
  pose proof (Hcall w method params e1) as H1. rewrite E1 in H1. specialize (H1 eq_refl).
  destruct (isChatUnresolved _); [|by intros [= <- _]].
  destruct (forceLoadChat params) as [[lm lp]|]; [|by intros [= <- _]].
  unfold bind, try. destruct (call_td td_send lm lp w1) as [[v|e2] w2]; simpl.
  - intros [= H2 _]. by apply (Hcall w2 method params).
  - by intros [= <- _].
Qed.

(** C15: A refused call never reaches Telegram. When the guard refuses a call -
    for a cooldown, the account's restriction, an operator's limit or the pace -
    all TDLib was asked on its behalf are the gateway's own lookups (resolving
    the username, telling whether the addressee is a mutual contact). *)
Theorem refused_never_dispatched h method params w e w' :
  Call h method params w = (Err e, w') → as_refused e ≠ None →
  ∃ l, w_log w' = l ++ w_log w ∧ Forall is_lookup l.
Proof.
  intros Hc Hr. destruct h as [|st|]; [by injection Hc as <- _|by injection Hc as <- _|].
  unfold Call in Hc. apply bind_err in Hc as [Hc|(dirs&w1&H1&Hc)].
  { unfold lift in Hc. injection Hc as _ ->. by exists []. }
  unfold lift in H1. injection H1 as _ <-.
  apply bind_err in Hc as [Hc|([]&w2&H2&Hc)].
  { exists []. split; [|constructor]. pose proof (check_cooldown_log (Scope method) w) as Hl.
    by rewrite Hc in Hl. }
  assert (Hl2 : w_log w2 = w_log w).
  { pose proof (check_cooldown_log (Scope method) w) as Hl. by rewrite H2 in Hl. }
  assert (Hres : sends_only (all_req is_lookup) (resolveChatUsername params))
    by (apply sends_resolve; intros; [by left|by right]).
  apply bind_err in Hc as [Hc|(params'&w3&H3&Hc)].
  { destruct (sends_log _ _ _ _ _ Hres Hc) as (l&?&?). exists l. by rewrite <- Hl2. }
  destruct (sends_log _ _ _ _ _ Hres H3) as (l3&Hl3&Hp3).
  assert (Hadm : sends_only (all_req is_lookup)
    (admit_call td_send clock up gone sid kind tok method (Scope method) params'))
    by (apply sends_admit; intros; by left).
  apply bind_err in Hc as [Hc|([]&w4&H4&Hc)].
  { destruct (sends_log _ _ _ _ _ Hadm Hc) as (l4&Hl4&Hp4). exists (l4 ++ l3).
    rewrite Hl4, Hl3, Hl2, app_assoc. split; [done|]. by apply Forall_app. }
  exfalso. apply Hr.
  apply bind_err in Hc as [Hc|(r&w5&H5&Hc)].
  { unfold dispatch, bind, try, ret in Hc. repeat (split_match_in Hc; simplify_eq/=). }
  apply bind_err in Hc as [Hc|([]&w6&H6&Hc)]; [by unfold observe_answer, bind, ask, upd in Hc|].
  destruct r as [v|e'].
  - exfalso. apply bind_err in Hc as [Hc|([]&w7&H7&Hc)].
    + destruct (bool_decide (dirs = [])); by injection Hc.
    + apply bind_err in Hc as [Hc|([]&w8&H8&Hc)]; [|by injection Hc].
      revert w7 Hc H7. assert (Hreg : ∀ refs (w : world T), ∃ w1, register_refs refs w = (Ok (), w1)).
      { induction refs as [|x refs IH]; intros w0; [by eexists|]. cbn [register_refs].
        unfold bind at 1. destruct (negb (sr_pending x)); [apply IH|].
        unfold bind, ask. cbv iota beta. destruct (negb _); apply IH. }
      intros w7 Hc _. destruct (Hreg (extractSentRefs (Some v)) w7) as [w9 E]. congruence.
  - injection Hc as -> _. by eapply dispatch_not_refused.
Qed.

(** What a username comes to: the id that TDLib answered, in the course of this
    run, for exactly this name takes its place, and nothing else changes. *)
Definition resolved (params params' : raw) (w w' : world T) : Prop :=
  match stringChatID params with
  | None => params' = params
  | Some s =>
      let uname := trim_prefix (trim_space s) "@" in
      if String.eqb uname "" then params' = params
      else ∃ w0 v id obj,
        let r := call_td td_send "searchPublicChat" (Some (marshal_map {["username" := JStr uname]})) w0 in
        w_log w `suffix_of` w_log w0 ∧ w_log r.2 `suffix_of` w_log w' ∧ r.1 = Ok v ∧
        unmarshal_ok (dec_struct set_id) 0%Z (Some v) = Some id ∧ id ≠ 0%Z ∧
        unmarshal_map params = Some obj ∧ params' = Some (marshal_map (<["chat_id" := JNum id]> obj))
  end.

Lemma sends_suffix {A} P (c : M T A) w r w' : sends_only P c → c w = (r, w') → w_log w `suffix_of` w_log w'.
Proof. intros H E. destruct (sends_log _ _ _ _ _ H E) as (l&?&_). by exists l. Qed.

Lemma resolve_resolved params w params' w' :
  resolveChatUsername params w = (Ok params', w') →
  resolved params params' w w' ∧ (request_params params ≠ None → request_params params' ≠ None).
Proof.
  unfold resolveChatUsername, resolved. destruct (stringChatID params) as [s|]; [|by intros [= <- _]].
  set (uname := trim_prefix (trim_space s) "@"). destruct (String.eqb uname ""); [by intros [= <- _]|].
  set (q := Some (marshal_map _)). intros H.
  apply bind_ok in H as ([]&w1&H1&H). apply bind_ok in H as ([]&w2&H2&H). apply bind_ok in H as (r&w3&H3&H).
  apply bind_ok in H as ([]&w4&H4&H).
  assert (Er : (call_td td_send "searchPublicChat" q w2).1 = r) by (by injection H3).
  assert (Ew3 : (call_td td_send "searchPublicChat" q w2).2 = w3) by (by injection H3). clear H3.
  destruct r as [v|]; [|done]. destruct (unmarshal_ok _ _ _) as [id|] eqn:Eid; [|done].
  destruct (Z.eqb_spec id 0) as [|Hid]; [done|]. destruct (unmarshal_map params) as [obj|] eqn:Eo; [|done].
  injection H as <- <-. split; [|done]. exists w2, v, id, obj. cbv zeta. repeat split; try done.
  - etrans; [exact (sends_suffix _ _ _ _ _ (sends_none (λ _, True) _ (check_cooldown_log "@resolve")) H1)|].
    by eapply sends_suffix; [apply (sends_admit (λ _, True))|].
  - rewrite Ew3. pose proof (observe_log "@resolve" (Ok v) w3) as Hl. rewrite H4 in Hl. cbn in Hl. by rewrite Hl.
Qed.

(** One dispatch: the answer it comes to, the requests it makes (latest first),
    and the world after it. A second attempt is made only when the first fails
    because TDLib does not know the chat, the id names one that can be loaded,
    and loading it succeeds; it sends the same request. *)
Inductive attempts (method : string) (params : raw) (w : world T) : res gerr json → list rawRequest → world T → Prop :=
| at_once ps r w1 :
    request_params params = Some ps → call_td td_send method params w = (r, w1) →
    (∀ e, r = Err e → isChatUnresolved (error_text quote e) = false ∨ forceLoadChat params = None) →
    attempts method params w r [mkReq method ps] w1
| at_unloaded ps e w1 lm lp lps e2 w2 :
    request_params params = Some ps → call_td td_send method params w = (Err e, w1) →
    isChatUnresolved (error_text quote e) = true → forceLoadChat params = Some (lm, lp) →
    request_params lp = Some lps → call_td td_send lm lp w1 = (Err e2, w2) →
    attempts method params w (Err e) [mkReq lm lps; mkReq method ps] w2
| at_again ps e w1 lm lp lps v w2 r w3 :
    request_params params = Some ps → call_td td_send method params w = (Err e, w1) →
    isChatUnresolved (error_text quote e) = true → forceLoadChat params = Some (lm, lp) →
    request_params lp = Some lps → call_td td_send lm lp w1 = (Ok v, w2) →
    call_td td_send method params w2 = (r, w3) →
    attempts method params w r [mkReq method ps; mkReq lm lps; mkReq method ps] w3.

Lemma call_td_log m p q (w : world T) :
  request_params p = Some q → w_log (call_td td_send m p w).2 = mkReq m q :: w_log w.
Proof. intros Hq. unfold call_td. simpl. by rewrite Hq. Qed.

Lemma attempts_log method params w r l w' : attempts method params w r l w' → w_log w' = l ++ w_log w.
Proof.
  intros [ps r1 w1 Hp H _|ps e w1 lm lp lps e2 w2 Hp H _ _ Hl H2|ps e w1 lm lp lps v w2 r1 w3 Hp H _ _ Hl H2 H3];
    pose proof (call_td_log method params ps w Hp) as E1; rewrite H in E1; cbn in E1; [exact E1|..];
    pose proof (call_td_log lm lp lps w1 Hl) as E2; rewrite H2 in E2; cbn in E2; [by rewrite E2, E1|].
  pose proof (call_td_log method params ps w2 Hp) as E3. rewrite H3 in E3. cbn in E3. by rewrite E3, E2, E1.
Qed.

Lemma dispatch_attempts method params w : request_params params ≠ None →
  ∃ r l w', dispatch method params w = (Ok r, w') ∧ attempts method params w r l w'.
Proof.
  destruct (request_params params) as [ps|] eqn:Eps; [intros _|done].
  unfold dispatch, bind at 1, try at 1. cbv zeta iota beta.
  destruct (call_td td_send method params w) as [[v|e] w1] eqn:E1; cbn [fst snd].
  { do 3 eexists. split; [done|]. by eapply at_once. }
  destruct (isChatUnresolved (error_text quote e)) eqn:Eu.
  2: { do 3 eexists. split; [done|]. eapply at_once; [done..|]. intros ? [= <-]. by left. }
  destruct (forceLoadChat params) as [[lm lp]|] eqn:Ef.
  2: { do 3 eexists. split; [done|]. eapply at_once; [done..|]. by right. }
  assert (∃ lps, request_params lp = Some lps) as [lps Elps].
  { revert Ef. unfold forceLoadChat. repeat split_match; intros [= _ <-]; by eexists. }
  unfold bind, try. cbv zeta. destruct (call_td td_send lm lp w1) as [[v|e2] w2] eqn:E2; cbn [fst snd].
  - destruct (call_td td_send method params w2) as [r w3] eqn:E3. exists r. do 2 eexists. split; [done|]. by eapply at_again.
  - do 3 eexists. split; [done|]. by eapply at_unloaded.
Qed.

Lemma register_refs_log refs (w : world T) : w_log (register_refs refs w).2 = w_log w.
Proof.
  revert w. induction refs as [|x refs IH]; intros w; [done|]. cbn [register_refs].
  unfold bind at 1. destruct (negb (sr_pending x)); [apply IH|].
  unfold bind, ask. cbv iota beta. destruct (negb _); [etrans; [apply IH|done]|]. unfold upd. rewrite IH.
  by destruct (RegisterSend _ _ _ _ _).
Qed.

Lemma register_refs_ok refs (w : world T) : ∃ w1, register_refs refs w = (Ok (), w1).
Proof.
  revert w. induction refs as [|x refs IH]; intros w0; [by eexists|]. cbn [register_refs].
  unfold bind at 1. destruct (negb (sr_pending x)); [apply IH|].
  unfold bind, ask. cbv iota beta. destruct (negb _); apply IH.
Qed.

(** What happens after the dispatch neither asks TDLib nor changes the answer. *)
Lemma call_rest dirs scope r (w : world T) :
  let c := (let* _ := observe_answer clock kind scope r in
            match r with
            | Err e => fail e
            | Ok v =>
                let* _ := (if bool_decide (dirs = []) then ret ()
                           else upd (λ w, w_set_pending (trackUpload (Some v) dirs (w_pending w)) w)) in
                let* _ := register_refs (extractSentRefs (Some v)) in
                ret v
            end) in
  (c w).1 = r ∧ w_log (c w).2 = w_log w.
Proof.
  intros c. assert (H : ∃ w8, c w = (r, w8) ∧ w_log w8 = w_log w); [|by destruct H as (w8&->&?)]. unfold c, bind at 1.
  assert (Ho : ∃ w6, observe_answer clock kind scope r w = (Ok (), w6) ∧ w_log w6 = w_log w) by (by eexists).
  destruct Ho as (w6&->&Hl6). destruct r as [v|e]; [|by eexists]. unfold bind at 1.
  assert (H7 : ∃ w7, (if bool_decide (dirs = []) then ret ()
      else upd (λ w, w_set_pending (trackUpload (Some v) dirs (w_pending w)) w)) w6 = (Ok (), w7) ∧ w_log w7 = w_log w).
  { destruct (bool_decide (dirs = [])); by eexists. }
  destruct H7 as (w7&->&Hl7). unfold bind. destruct (register_refs_ok (extractSentRefs (Some v)) w7) as [w8 E8].
  pose proof (register_refs_log (extractSentRefs (Some v)) w7) as Hl8. rewrite E8 in Hl8 |- *. cbn in Hl8.
  exists w8. split; [done|]. by rewrite Hl8.
Qed.

(** A call after the checks that ask nobody. *)
Definition call_tail (method : string) (params : raw) (dirs : list string) : M T json :=
  let* params := resolveChatUsername params in
  let* _ := admit_call td_send clock up gone sid kind tok method (Scope method) params in
  let* r := dispatch method params in
  let* _ := observe_answer clock kind (Scope method) r in
  match r with
  | Err e => fail e
  | Ok v =>
      let* _ := (if bool_decide (dirs = []) then ret ()
                 else upd (λ w, w_set_pending (trackUpload (Some v) dirs (w_pending w)) w)) in
      let* _ := register_refs (extractSentRefs (Some v)) in
      ret v
  end.

Lemma call_begins h method params w res w' : Call h method params w = (res, w') →
  (w_log w' = w_log w ∧ ∃ e, res = Err e) ∨
  ∃ dirs w1, w_log w1 = w_log w ∧ call_tail method params dirs w1 = (res, w').
Proof.
  intros Hc. destruct h as [|st|]; [left; injection Hc as <- <-; eauto..|]. unfold Call, bind at 1, lift in Hc.
  destruct (guardLocalPaths root params) as [dirs|e]; [|left; injection Hc as <- <-; eauto].
  unfold bind at 1 in Hc. pose proof (check_cooldown_log (Scope method) w) as Hl1.
  destruct (check_cooldown clock (Scope method) w) as [[[]|e] w1]; [|left; injection Hc as <- <-; eauto].
  right. exists dirs, w1. by split.
Qed.

(** C14: What reaches Telegram for a call. Besides the gateway's own lookups
    first, nothing, when the call fails before; or else the method itself, with
    the caller's params but for a username, whose place the id takes that TDLib
    answered for it. It is sent once; or, if TDLib's answer says it does not know
    the chat and the chat its id names could then be loaded by one request, once
    more with the same params. It is never repeated for any other reason, and
    the call's answer is TDLib's answer to the last attempt (the first one's when
    loading fails). *)
Theorem call_dispatched_at_most_twice h method params w res w' :
  Call h method params w = (res, w') → request_params params ≠ None →
  ∃ l1, Forall is_lookup l1 ∧
    ((w_log w' = l1 ++ w_log w ∧ ∃ e, res = Err e) ∨
     ∃ params' w1 w2 w3 l2, w_log w1 = w_log w ∧ resolved params params' w1 w2 ∧
       w_log w2 `suffix_of` w_log w3 ∧ w_log w3 = l1 ++ w_log w ∧
       (∃ w4, attempts method params' w3 res l2 w4) ∧ w_log w' = l2 ++ l1 ++ w_log w).
Proof.
  intros Hc Hps.
  destruct (call_begins _ _ _ _ _ _ Hc) as [[Hl He]|(dirs&w1&Hl1&Hc')]; [exists []; split; [apply Forall_nil_2|by left]|].
  clear Hc. rename Hc' into Hc. unfold call_tail in Hc.
  assert (Hres : sends_only (all_req is_lookup) (resolveChatUsername params))
    by (apply sends_resolve; intros; [by left|by right]).
  unfold bind at 1 in Hc. destruct (resolveChatUsername params w1) as [r2 w2] eqn:H2.
  destruct (sends_log _ _ _ _ _ Hres H2) as (l2&Hl2&Hp2).
  destruct r2 as [params'|e]; [|injection Hc as <- <-; exists l2; split; [done|left; rewrite Hl2, Hl1; eauto]].
  destruct (resolve_resolved _ _ _ _ H2) as [Hr Hps'].
  assert (Hadm : sends_only (all_req is_lookup)
    (admit_call td_send clock up gone sid kind tok method (Scope method) params'))
    by (apply sends_admit; intros; by left).
  unfold bind at 1 in Hc. destruct (admit_call td_send clock up gone sid kind tok method (Scope method) params' w2) as [r3 w3] eqn:H3.
  destruct (sends_log _ _ _ _ _ Hadm H3) as (l3&Hl3&Hp3). exists (l3 ++ l2).
  split; [by apply Forall_app|]. rewrite <- app_assoc.
  destruct r3 as [[]|e]; [right|injection Hc as <- <-; left; rewrite Hl3, Hl2, Hl1; eauto].
  destruct (dispatch_attempts method params' w3 (Hps' Hps)) as (r&l&w4&H4&Ha).
  unfold bind at 1 in Hc. rewrite H4 in Hc. destruct (call_rest dirs (Scope method) r w4) as [R1 R2].
  cbv zeta in R1, R2. rewrite Hc in R1, R2. cbn in R1, R2. subst r.
  exists params', w1, w2, w3, l. split; [done|]. split; [done|]. split; [by exists l3|].
  split; [by rewrite Hl3, Hl2, Hl1|]. split; [by exists w4|]. by rewrite R2, (attempts_log _ _ _ _ _ _ Ha), Hl3, Hl2, Hl1.
Qed.
End calling.

(** ** The worker's handlers *)

(** What an endpoint answers: a result, or a status with a message. *)
Inductive answer :=
| AResult (v : json)
| AGateway (status : Z) (msg : string)
| AFailed (e : gerr).

Section handlers.
Context {T : Type} (td_send : T → rawRequest → T * td_reply).
Context (clock : nat → Z) (up : nat → bool) (gone : nat → bool).
Context (quote : string → string) (root sid kind : string).

(** [tok] is the token header the gateway sets
    [internal/api/server.go#handleCall]. *)
Definition handleCall (h : hold) (tok method : string) (params : raw) (w : world T)
    : answer * world T :=
  if String.eqb method "" then (AGateway 400 "method is required", w)
  else if IsBlockedMethod method then (AGateway 403 "method reserved by the gateway", w)
  else match Call td_send clock up gone quote root sid kind tok h method params w with
  | (Ok v, w) => (AResult v, w)
  | (Err e, w) =>
      if match e with EMsg m => String.eqb m (error_text quote ErrLocalPathDenied) | _ => false end
      then (AGateway 403 (error_text quote e), w) else (AFailed e, w)
  end.

(** [internal/api/server.go#handleExecute] *)
Definition handleExecute (execute : rawRequest → td_reply) (method : string) (params : raw) : answer :=
  if String.eqb method "" then AGateway 400 "method is required"
  else if IsBlockedMethod method then AGateway 403 "method reserved by the gateway"
  else match ExecuteSync execute method params with
       | Ok v => AResult v
       | Err e => AFailed e
       end.
End handlers.

(** ** Examples *)

Definition ex_ok_td : () → rawRequest → () * td_reply := λ t _, (t, TdResult (JObj [("@type", JStr "ok")])).

Lemma refused_never_dispatched_witness :
  ∃ l, w_log (Call ex_ok_td (λ _, 0%Z) (λ _, true) (λ _, false) (λ s, s) "/uploads" "s" "user" ""
                HReady "sendMessage" None
                (w_set_guard (set (mkCooldown "@send" 10 "FLOOD") new_guard).1 [] ex_world)).2
       = l ++ w_log ex_world ∧ Forall is_lookup l.
Proof.
  apply (refused_never_dispatched ex_ok_td (λ _, 0%Z) (λ _, true) (λ _, false) (λ s, s) "/uploads"
    "s" "user" "" HReady "sendMessage" None
    (w_set_guard (set (mkCooldown "@send" 10 "FLOOD") new_guard).1 [] ex_world)
    (ERefused (mkRefused "cooldown" "@send" 10 "FLOOD" None))).
  - by vm_compute.
  - done.
Defined.

Lemma call_dispatched_at_most_twice_witness :
  let c := Call ex_ok_td (λ _, 0%Z) (λ _, true) (λ _, false) (λ s, s) "/uploads" "s" "user" "" HReady "getMe" None ex_world in
  ∃ l1, Forall is_lookup l1 ∧
    ((w_log c.2 = l1 ++ w_log ex_world ∧ ∃ e, c.1 = Err e) ∨
     ∃ params' w1 w2 w3 l2, w_log w1 = w_log ex_world ∧ resolved ex_ok_td None params' w1 w2 ∧
       w_log w2 `suffix_of` w_log w3 ∧ w_log w3 = l1 ++ w_log ex_world ∧
       (∃ w4, attempts ex_ok_td (λ s, s) "getMe" params' w3 c.1 l2 w4) ∧ w_log c.2 = l2 ++ l1 ++ w_log ex_world).
Proof.
  intros c. apply (call_dispatched_at_most_twice ex_ok_td (λ _, 0%Z) (λ _, true) (λ _, false) (λ s, s) "/uploads"
    "s" "user" "" HReady "getMe" None ex_world c.1 c.2).
  - by destruct c eqn:E.
  - done.
Defined.

(** A second spelling of chat_id makes the numeric id unreadable: the restriction
    of a spam-limited account is not applied, while TDLib reads the exact one. *)
Example spam_check_evaded :
  let p := Some (JObj [("chat_id", JNum 123); ("Chat_id", JLit "1.5")]) in
  (numericChatID p, stringChatID p,
   (spamBlocked ex_ok_td "@send" p ex_world).1) = (None, None, Ok false).
Proof. by vm_compute. Qed.
