(* ===== verification/Subs.v ===== *)
(** Update subscriptions (internal/session/subs.go, store.go): the snapshot a
    worker keeps of a session's subscriptions, routing an update to those that
    accept it, and accounting for updates lost before they are queued. *)

From S2P Require Import Prelude GoStr Json Types Db.


(** ** Subscriptions in the registry *)

(** [internal/store/store.go#Subscription] *)
Record Subscription := mkSubscription {
  su_id : string; su_session : string; su_token : option string; su_url : string; su_filters : raw;
  su_created : Z; su_last_delivered : option Z; su_last_error : option string;
  su_last_error_at : option Z; su_pending : nat; su_failed : nat; su_dropped : Z;
}.

(** An empty token id is the master token's
    [internal/store/store.go#CreateSubscription]. *)
Definition CreateSubscription (id : string) (now : Z) (sid tok url : string)
    (secretEnc : option string) (filters : raw) (d : db) : res dberr (string * db) :=
  if has id (subs d) then Err DbUnique
  else if negb (has sid (sessions d) && has_opt (nullStr tok) (tokens d)) then Err DbForeignKey
  else Ok (id, with_subs <[id := mkSub sid (nullStr tok) url secretEnc filters now 0 None None None]> d).

(** The master token ([""]) sees every subscription, a token its own. *)
Definition visible (tok : string) (s : sub_row) : bool :=
  String.eqb tok "" || opt_eqb (sb_token s) tok.

(** [internal/store/store.go#ListSubscriptions] *)
Definition ListSubscriptions (sid tok subID : string) (d : db) : list Subscription :=
  order_by su_created
    (map (λ kv : string * sub_row,
        let s := kv.2 in
        let n st := affected (λ _ r, String.eqb (d_sub r) kv.1 && String.eqb (d_status r) st) (deliveries d) in
        mkSubscription kv.1 (sb_session s) (sb_token s) (sb_url s) (sb_filters s) (sb_created s)
          (sb_last_delivered s) (sb_last_error s) (sb_last_error_at s)
          (n "pending") (n "failed") (sb_dropped s))
      (select (λ k s, String.eqb (sb_session s) sid && visible tok s &&
                      (String.eqb subID "" || String.eqb k subID)) (subs d))).

(** [internal/store/store.go#DeleteSubscription] *)
Definition DeleteSubscription (sid tok subID : string) (d : db) : bool * db :=
  let P := λ k s, String.eqb (sb_session s) sid && String.eqb k subID && visible tok s in
  (negb (Nat.eqb (affected P (subs d)) 0), delete_subs P d).

(** [internal/store/store.go#SubscriptionFilter] *)
Record SubscriptionFilter := mkSubFilter { sf_id : string; sf_session : string; sf_filters : raw }.

(** [internal/store/store.go#SubscriptionFilters] *)
Definition SubscriptionFilters (sids : list string) (d : db) : list SubscriptionFilter :=
  if bool_decide (sids = []) then []
  else map (λ kv : string * sub_row, mkSubFilter kv.1 (sb_session kv.2) (sb_filters kv.2))
         (order_by (λ kv, sb_created kv.2)
            (select (λ _ s, bool_decide (sb_session s ∈ sids)) (subs d))).

Definition add_dropped (n : Z) (s : sub_row) : sub_row :=
  mkSub (sb_session s) (sb_token s) (sb_url s) (sb_secret_enc s) (sb_filters s) (sb_created s)
    (sb_dropped s + n) (sb_last_delivered s) (sb_last_error s) (sb_last_error_at s).

(** [internal/store/store.go#AddDropped] *)
Definition AddDropped (sid : string) (n : Z) (d : db) : db :=
  with_subs (update_where (λ _ s, String.eqb (sb_session s) sid) (add_dropped n)) d.

(** ** Snapshots *)

(** [internal/session/subs.go#FilterSpec] *)
Record FilterSpec := mkFilter { fs_types : list string; fs_chats : list Z }.

Definition set_filter (k : string) : dec FilterSpec := λ f v,
  if names k "types" then
    let r := dec_list "" dec_string (fs_types f) v in (mkFilter r.1 (fs_chats f), r.2)
  else if names k "chats" then
    let r := dec_list 0%Z dec_int64 (fs_chats f) v in (mkFilter (fs_types f) r.1, r.2)
  else (f, true).

(** A stored filter: no filter accepts everything, one that cannot be read is an
    error. *)
Definition read_filter (r : raw) : option FilterSpec :=
  match r with
  | None => Some (mkFilter [] [])
  | Some v => unmarshal_ok (dec_struct set_filter) (mkFilter [] []) (Some v)
  end.

(** Routing rule of one subscription; [None] for no restriction
    [internal/session/subs.go#subscription]. *)
Record subscription := mkRule {
  rl_id : string;
  rl_types : option (gset string);
  rl_chats : option (gset Z);
}.

(** A session's subscriptions as last loaded
    [internal/session/subs.go#subSnapshot]. *)
Record subSnapshot := mkSnap {
  sn_subs : list subscription;
  sn_any : bool;
  sn_types : gset string;
}.

(** One round of the loop over the filters. *)
Definition snap_step (snap : subSnapshot) (f : SubscriptionFilter) : subSnapshot :=
  match read_filter (sf_filters f) with
  | None => snap
  | Some spec =>
      let types := list_to_set (C := gset string) (fs_types spec) in
      let no_types := bool_decide (fs_types spec = []) in
      let no_chats := bool_decide (fs_chats spec = []) in
      mkSnap (sn_subs snap ++ [mkRule (sf_id f)
                (if no_types then None else Some types)
                (if no_chats then None else Some (list_to_set (C := gset Z) (fs_chats spec)))])
             (sn_any snap || no_types)
             (if no_types then sn_types snap else sn_types snap ∪ types)
  end.

(** [internal/session/subs.go#newSnapshot] *)
Definition newSnapshot (fs : list SubscriptionFilter) : option subSnapshot :=
  if bool_decide (fs = []) then None
  else
    let snap := foldl snap_step (mkSnap [] false ∅) fs in
    if bool_decide (sn_subs snap = []) then None else Some snap.

(** The receiver's pre-check [internal/session/subs.go#wants]. *)
Definition wants (s : option subSnapshot) (ctor : string) : bool :=
  match s with
  | None => false
  | Some s => sn_any s || bool_decide (ctor ∈ sn_types s)
  end.

(** What [updateChat] reads. *)
Record chatUpdate := mkCU { cu_chat : option Z; cu_message : option Z }.

Definition set_msg_chat (k : string) : dec Z := λ o v,
  if names k "chat_id" then dec_int64 o v else (o, true).

Definition set_cu (k : string) : dec chatUpdate := λ u v,
  if names k "chat_id" then
    let r := dec_ptr 0%Z dec_int64 (cu_chat u) v in (mkCU r.1 (cu_message u), r.2)
  else if names k "message" then
    let r := dec_ptr 0%Z (dec_struct set_msg_chat) (cu_message u) v in (mkCU (cu_chat u) r.1, r.2)
  else (u, true).

(** The chat an update concerns [internal/session/subs.go#updateChat]. *)
Definition updateChat (payload : json) : option Z :=
  match unmarshal_ok (dec_struct set_cu) (mkCU None None) (Some payload) with
  | None => None
  | Some u => match cu_chat u with
              | Some c => Some c
              | None => cu_message u
              end
  end.

(** Does a rule take an update? *)
Definition takes (ctor : string) (payload : json) (r : subscription) : bool :=
  match rl_types r with Some ts => bool_decide (ctor ∈ ts) | None => true end &&
  match rl_chats r with
  | Some cs => match updateChat payload with Some c => bool_decide (c ∈ cs) | None => false end
  | None => true
  end.

(** The subscriptions an update goes to [internal/session/subs.go#route]. *)
Definition route (s : subSnapshot) (ctor : string) (payload : json) : list string :=
  map rl_id (filter (λ r, takes ctor payload r = true) (sn_subs s)).

(** What the receiver queues and the writer then routes: nothing when no
    subscription wants the type. *)
Definition routed (fs : list SubscriptionFilter) (ctor : string) (payload : json) : list string :=
  match newSnapshot fs with
  | Some s => if wants (Some s) ctor then route s ctor payload else []
  | None => []
  end.

(** ** Theorems *)

(** What a stored filter means: both lists are allowlists, an empty one no
    restriction; a chat list takes only updates about one of its chats; an
    unreadable filter takes nothing. *)
Definition accepts (ctor : string) (payload : json) (f : SubscriptionFilter) : bool :=
  match read_filter (sf_filters f) with
  | None => false
  | Some spec =>
      (bool_decide (fs_types spec = []) || bool_decide (ctor ∈ fs_types spec)) &&
      (bool_decide (fs_chats spec = []) ||
       match updateChat payload with Some c => bool_decide (c ∈ fs_chats spec) | None => false end)
  end.

Lemma bool_decide_list_to_set {A} `{Countable A} (x : A) (l : list A) :
  bool_decide (x ∈ list_to_set (C := gset A) l) = bool_decide (x ∈ l).
Proof. apply bool_decide_ext. apply elem_of_list_to_set. Qed.

Lemma snap_fold fs ctor payload :
  let s := foldl snap_step (mkSnap [] false ∅) fs in
  route s ctor payload = map sf_id (filter (λ f, accepts ctor payload f = true) fs) ∧
  ((∃ f, f ∈ fs ∧ accepts ctor payload f = true) → wants (Some s) ctor = true).
Proof.
  induction fs as [|f fs IH] using rev_ind; simpl.
  { split; [done|]. intros (f&?%not_elem_of_nil&_). done. }
  rewrite foldl_snoc. destruct IH as [IH1 IH2]. set (s := foldl _ _ _) in *. clearbody s.
  rewrite filter_app, map_app, <- IH1. unfold snap_step.
  destruct (read_filter (sf_filters f)) as [spec|] eqn:Er; simpl.
  2:{ rewrite filter_cons_False, filter_nil, app_nil_r by (unfold accepts; by rewrite Er).
      split; [done|]. intros (g&[?| ->%list_elem_of_singleton]%elem_of_app&Ha); [by eauto|].
      unfold accepts in Ha. by rewrite Er in Ha. }
  assert (Htk : takes ctor payload (mkRule (sf_id f)
      (if bool_decide (fs_types spec = []) then None else Some (list_to_set (fs_types spec)))
      (if bool_decide (fs_chats spec = []) then None else Some (list_to_set (fs_chats spec)))) =
    accepts ctor payload f).
  { unfold takes, accepts. rewrite Er. simpl.
    destruct (bool_decide (fs_types spec = [])), (bool_decide (fs_chats spec = [])); simpl;
      rewrite ?bool_decide_list_to_set; try done;
      destruct (updateChat payload); by rewrite ?bool_decide_list_to_set. }
  split.
  - unfold route. simpl. rewrite filter_app, map_app. f_equal.
    destruct (accepts ctor payload f) eqn:Ea.
    + rewrite filter_cons_True by (by rewrite Htk). by rewrite filter_cons_True.
    + rewrite filter_cons_False by (by rewrite Htk). by rewrite filter_cons_False by (by rewrite Ea).
  - intros (g&[Hg| ->%list_elem_of_singleton]%elem_of_app&Ha).
    + assert (Hw : wants (Some s) ctor = true) by eauto. simpl in Hw.
      apply orb_true_iff in Hw as [->|Hw]; [done|].
      apply orb_true_iff. right. apply bool_decide_eq_true in Hw. apply bool_decide_eq_true.
      destruct (bool_decide (fs_types spec = [])); set_solver.
    + unfold accepts in Ha. rewrite Er in Ha. apply andb_true_iff in Ha as [Ha _].
      destruct (bool_decide (fs_types spec = [])); [by rewrite orb_true_r|].
      simpl in Ha. apply bool_decide_eq_true in Ha. apply orb_true_iff. right.
      apply bool_decide_eq_true. apply elem_of_union_r. by apply elem_of_list_to_set.
Qed.

(** Routing is the filters' meaning. The receiver's pre-check on the union
    of types, the snapshot's sets and the lazy chat lookup together hand an
    update to exactly the subscriptions whose stored filter accepts it, in the
    order they were made; an unreadable filter never widens into everything. *)
Theorem routed_accepts fs ctor payload :
  routed fs ctor payload = map sf_id (filter (λ f, accepts ctor payload f = true) fs).
Proof.
  destruct (snap_fold fs ctor payload) as [H1 H2]. unfold routed, newSnapshot.
  destruct (bool_decide_reflect (fs = [])) as [->|Hne]; [done|].
  set (s := foldl _ _ _) in *.
  destruct (bool_decide_reflect (sn_subs s = [])) as [He|]; [rewrite <- H1; unfold route; by rewrite He|].
  destruct (wants (Some s) ctor) eqn:Ew; [done|].
  destruct (filter _ fs) as [|f l] eqn:Ef; [done|].
  exfalso. assert (Hin : f ∈ filter (λ f, accepts ctor payload f = true) fs) by (rewrite Ef; by left).
  apply list_elem_of_filter in Hin as [? ?]. discriminate H2. eauto.
Qed.

(** A token manages only its own subscriptions. Whatever id it names, a
    scoped token's listing and removal act on subscriptions it owns on that
    session, and on nothing else: a removal by another token's id changes
    nothing and reads as not found. *)
Theorem subscriptions_isolated sid tok subID d k s :
  tok ≠ "" → subs d !! k = Some s →
  (∀ x, x ∈ ListSubscriptions sid tok subID d → su_token x = Some tok ∧ su_session x = sid) ∧
  (subs (DeleteSubscription sid tok subID d).2 !! k ≠ Some s →
     k = subID ∧ sb_session s = sid ∧ sb_token s = Some tok) ∧
  ((DeleteSubscription sid tok subID d).1 = true ↔
     ∃ s', subs d !! subID = Some s' ∧ sb_session s' = sid ∧ sb_token s' = Some tok).
Proof.
  intros Htok Hk. assert (Hvis : ∀ r, visible tok r = true ↔ sb_token r = Some tok).
  { intros r. unfold visible. rewrite (proj2 (String.eqb_neq _ _) Htok). simpl. apply opt_eqb_spec. }
  split; [|split].
  - intros x. unfold ListSubscriptions. rewrite elem_of_order_by, list_elem_of_In, in_map_iff.
    intros ([k' r]&<-&Hin%list_elem_of_In). apply elem_of_select in Hin as [_ Hp].
    apply andb_true_iff in Hp as [[Hs%String.eqb_eq Hv%Hvis]%andb_true_iff _]. done.
  - intros Hgone. unfold DeleteSubscription, delete_subs in Hgone. simpl in Hgone.
    destruct (String.eqb (sb_session s) sid && String.eqb k subID && visible tok s) eqn:E.
    + apply andb_true_iff in E as [[?%String.eqb_eq ?%String.eqb_eq]%andb_true_iff ?%Hvis]. done.
    + exfalso. apply Hgone. by apply lookup_delete_where.
  - unfold DeleteSubscription. simpl. rewrite negb_true_iff, Nat.eqb_neq. unfold affected. split.
    + intros Hn. destruct (select _ (subs d)) as [|[k' r] l] eqn:E; [done|].
      assert (Hin : (k', r) ∈ select (λ k s, String.eqb (sb_session s) sid && String.eqb k subID && visible tok s) (subs d))
        by (rewrite E; by left).
      apply elem_of_select in Hin as [Hr Hp].
      apply andb_true_iff in Hp as [[?%String.eqb_eq ->%String.eqb_eq]%andb_true_iff ?%Hvis]. eauto.
    + intros (s'&Hs'&He&Ht) Hz. apply length_zero_iff_nil in Hz.
      assert (Hin : (subID, s') ∈ select (λ k s, String.eqb (sb_session s) sid && String.eqb k subID && visible tok s) (subs d)).
      { apply elem_of_select. split; [done|]. rewrite He, !String.eqb_refl. simpl. by apply Hvis. }
      rewrite Hz in Hin. by apply not_elem_of_nil in Hin.
Qed.

Definition ex_subs_db : db :=
  with_subs (λ _, {["a" := mkSub "s" (Some "t1") "http://a" None None 0 0 None None None;
                    "b" := mkSub "s" (Some "t2") "http://b" None None 1 0 None None None]}) empty_db.

Lemma subscriptions_isolated_witness :
  let s := mkSub "s" (Some "t2") "http://b" None None 1 0 None None None in
  (∀ x, x ∈ ListSubscriptions "s" "t1" "b" ex_subs_db → su_token x = Some "t1" ∧ su_session x = "s") ∧
  (subs (DeleteSubscription "s" "t1" "b" ex_subs_db).2 !! "b" ≠ Some s →
     "b" = "b" ∧ sb_session s = "s" ∧ sb_token s = Some "t1") ∧
  ((DeleteSubscription "s" "t1" "b" ex_subs_db).1 = true ↔
     ∃ s', subs ex_subs_db !! "b" = Some s' ∧ sb_session s' = "s" ∧ sb_token s' = Some "t1").
Proof. by apply (subscriptions_isolated "s" "t1" "b" ex_subs_db "b"). Defined.

(** ** Losing updates *)

(** The queue between the receiver and the writer holds 1024 updates. *)
Definition outbox_cap : nat := 1024.

(** An update on its way to the queue [internal/session/deliver.go#outItem]. *)
Record outItem := mkItem { oi_session : string; oi_ctor : string; oi_payload : json; oi_subs : option subSnapshot }.

(** A worker's receiver side: the queue, and per held session its snapshot and
    the count of updates lost and not yet recorded. *)
Record receiver := mkReceiver {
  rc_outbox : list outItem;
  rc_snaps : gmap string (option subSnapshot);
  rc_dropped : gmap string Z;
}.

Definition bump (n : Z) (sid : string) (m : gmap string Z) : gmap string Z :=
  <[sid := (default 0 (m !! sid) + n)%Z]> m.

(** The end of the update handler: an update some subscription may want is
    queued, or counted as lost when the queue is full
    [internal/session/manager.go:123-141#updateHandler]. *)
Definition receive (sid ctor : string) (payload : json) (r : receiver) : receiver :=
  let snap := default None (rc_snaps r !! sid) in
  if negb (wants snap ctor) then r
  else if (length (rc_outbox r) <? outbox_cap)%nat
  then mkReceiver (rc_outbox r ++ [mkItem sid ctor payload snap]) (rc_snaps r) (rc_dropped r)
  else mkReceiver (rc_outbox r) (rc_snaps r) (bump 1 sid (rc_dropped r)).

(** Reloading the snapshots of some sessions; on a failed read ([None]) the last
    good ones are kept [internal/session/subs.go#syncSubscriptions]. *)
Definition syncSubscriptions (sids : list string) (fs : option (list SubscriptionFilter)) (r : receiver)
    : receiver :=
  match fs with
  | None => r
  | Some fs =>
      mkReceiver (rc_outbox r)
        (foldl (λ m sid, <[sid := newSnapshot (filter (λ f, sf_session f = sid) fs)]> m) (rc_snaps r) sids)
        (rc_dropped r)
  end.

(** Moving one session's count of lost updates into the registry; a failed
    write keeps it [internal/session/subs.go#flushDropped]. *)
Definition flush_one (up : bool) (sid : string) (r : receiver) (d : db) : receiver * db :=
  let n := default 0%Z (rc_dropped r !! sid) in
  if (n =? 0)%Z then (r, d)
  else if up then (mkReceiver (rc_outbox r) (rc_snaps r) (<[sid := 0%Z]> (rc_dropped r)), AddDropped sid n d)
  else (r, d).
