(* ===== verification/Sha256.v ===== *)
(** The standard library's digests the program uses: [crypto/sha256] (FIPS
    180-4) on byte strings, [crypto/hmac] (FIPS 198-1) over it, and
    [encoding/hex]. Executable, so that a signed delivery and a token's stored
    hash are the bytes the program computes. *)

From S2P Require Import Prelude GoStr.


Definition word (z : Z) : Z := Z.land z (2 ^ 32 - 1).
Definition rotr (n x : Z) : Z := Z.lor (Z.shiftr x n) (word (Z.shiftl x (32 - n))).

Definition byte_vals (s : string) : list Z :=
  map (λ c, Z.of_nat (Ascii.nat_of_ascii c)) (String.list_ascii_of_string s).
Definition of_byte_vals (l : list Z) : string :=
  String.string_of_list_ascii (map (λ z, Ascii.ascii_of_nat (Z.to_nat z)) l).

Definition is_prime (n : nat) : bool :=
  (1 <? n)%nat && forallb (λ d, negb (Nat.eqb (n mod d) 0)) (seq 2 (Nat.sqrt n - 1)).

Definition primes : list Z := Eval vm_compute in map Z.of_nat (filter is_prime (seq 2 310)).

(** The integer [k]th root of a number below 2 ^ (40 k), bit by bit. *)
Definition root (k n : Z) : Z :=
  foldr (λ i r, if (Z.pow (r + 2 ^ Z.of_nat i) k <=? n)%Z then (r + 2 ^ Z.of_nat i)%Z else r) 0%Z (seq 0 40).

(** The first 32 bits of the fractional part of a prime's [k]th root. *)
Definition root_frac (k p : Z) : Z := word (root k (p * 2 ^ (32 * k))).

(** Of the cube roots of the first 64 primes, and of the square roots of the
    first eight. *)
Definition round_consts : list Z := Eval vm_compute in map (root_frac 3) primes.

Definition initial_hash : list Z := Eval vm_compute in map (root_frac 2) (take 8 primes).

(** Big-endian bytes of a number. *)
Fixpoint be_bytes (n : nat) (z : Z) : list Z :=
  match n with
  | O => []
  | S n => be_bytes n (Z.shiftr z 8) ++ [Z.land z 255]
  end.

Definition be_word (l : list Z) : Z := foldl (λ acc b, Z.lor (Z.shiftl acc 8) b) 0%Z l.

Fixpoint chunks {A} (fuel n : nat) (l : list A) : list (list A) :=
  match fuel, l with
  | S fuel, _ :: _ => take n l :: chunks fuel n (drop n l)
  | _, _ => []
  end.

(** The message schedule, newest word first. *)
Fixpoint schedule (n : nat) (w : list Z) : list Z :=
  match n with
  | O => w
  | S n =>
      let at_ i := nth i w 0%Z in
      let s0 := Z.lxor (Z.lxor (rotr 7 (at_ 14%nat)) (rotr 18 (at_ 14%nat))) (Z.shiftr (at_ 14%nat) 3) in
      let s1 := Z.lxor (Z.lxor (rotr 17 (at_ 1%nat)) (rotr 19 (at_ 1%nat))) (Z.shiftr (at_ 1%nat) 10) in
      schedule n (word (at_ 15%nat + s0 + at_ 6%nat + s1) :: w)
  end.

Definition compress_round (st : list Z) (kw : Z * Z) : list Z :=
  match st with
  | [a; b; c; d; e; f; g; h] =>
      let s1 := Z.lxor (Z.lxor (rotr 6 e) (rotr 11 e)) (rotr 25 e) in
      let ch := Z.lxor (Z.land e f) (Z.land (Z.lxor e (2 ^ 32 - 1)) g) in
      let t1 := (h + s1 + ch + kw.1 + kw.2)%Z in
      let s0 := Z.lxor (Z.lxor (rotr 2 a) (rotr 13 a)) (rotr 22 a) in
      let maj := Z.lxor (Z.lxor (Z.land a b) (Z.land a c)) (Z.land b c) in
      [word (t1 + s0 + maj); a; b; c; word (d + t1); e; f; g]
  | _ => st
  end.

Definition compress (st : list Z) (block : list Z) : list Z :=
  let w := rev (schedule 48 (rev (map be_word (chunks 16 4 block)))) in
  zip_with (λ x y, word (x + y)) st (foldl compress_round st (zip round_consts w)).

(** Padding: a 1 bit, zeros, and the message length in bits. *)
Definition pad (l : list Z) : list Z :=
  let n := length l in
  l ++ [128%Z] ++ repeat 0%Z ((119 - n mod 64) mod 64) ++ be_bytes 8 (8 * Z.of_nat n).

(** [sha256.Sum256]. *)
Definition sha256 (s : string) : string :=
  let m := pad (byte_vals s) in
  of_byte_vals (mjoin (map (be_bytes 4) (foldl compress initial_hash (chunks (length m) 64 m)))).

(** [hmac.New(sha256.New, key)] over one message. *)
Definition hmac_sha256 (key msg : string) : string :=
  let k := byte_vals (if (String.length key <=? 64)%nat then key else sha256 key) in
  let k := k ++ repeat 0%Z (64 - length k) in
  sha256 (of_byte_vals (map (Z.lxor 92) k) +:+
          sha256 (of_byte_vals (map (Z.lxor 54) k) +:+ msg)).

Definition hex_digit (z : Z) : ascii :=
  Ascii.ascii_of_nat (Z.to_nat (if (z <? 10)%Z then 48 + z else 87 + z)).

(** [hex.EncodeToString]. *)
Definition hex_encode (s : string) : string :=
  String.string_of_list_ascii
    (mjoin (map (λ b, [hex_digit (Z.shiftr b 4); hex_digit (Z.land b 15)]) (byte_vals s))).

(** The published test vectors. *)
Example sha256_abc :
  hex_encode (sha256 "abc") = "ba7816bf8f01cfea414140de5dae2223b00361a396177a9cb410ff61f20015ad".
Proof. vm_compute. reflexivity. Qed.

Example sha256_two_blocks :
  hex_encode (sha256 "abcdbcdecdefdefgefghfghighijhijkijkljklmklmnlmnomnopnopq") =
  "248d6a61d20638b8e5c026930c3e6039a33ce45964ff2167f6ecedd419db06c1".
Proof. vm_compute. reflexivity. Qed.

Example hmac_rfc4231_2 :
  hex_encode (hmac_sha256 "Jefe" "what do ya want for nothing?") =
  "5bdcc146bf60754e6a042426089575c75a003f089d2739839dec58b964ec3843".
Proof. vm_compute. reflexivity. Qed.
