(* ===== verification/Gcm.v ===== *)
(** The standard library's AES-256-GCM ([crypto/aes], [crypto/cipher], FIPS 197
    and SP 800-38D) with its 12-byte nonce and 16-byte tag, executable on byte
    strings. Only that opening undoes sealing is proved of it; its secrecy is
    not a theorem of this development. *)

From S2P Require Import Prelude GoStr Sha256.


(** ** AES-256 *)

(** Multiplication by x in GF(2^8). *)
Definition xtime (b : Z) : Z :=
  Z.land (if Z.testbit b 7 then Z.lxor (Z.shiftl b 1) 27 else Z.shiftl b 1) 255.

Fixpoint gmul_go (n : nat) (a b acc : Z) : Z :=
  match n with
  | O => acc
  | S n => gmul_go n (xtime a) (Z.shiftr b 1) (if Z.testbit b 0 then Z.lxor acc a else acc)
  end.
Definition gmul (a b : Z) : Z := gmul_go 8 a b 0.

(** The inverse in GF(2^8), 0 for 0: the 254th power. *)
Definition ginv (a : Z) : Z := Nat.iter 254 (gmul a) 1%Z.

Definition rotl8 (n b : Z) : Z := Z.land (Z.lor (Z.shiftl b n) (Z.shiftr b (8 - n))) 255.

Definition sbox_value (a : Z) : Z :=
  let b := if (a =? 0)%Z then 0%Z else ginv a in
  Z.lxor (Z.lxor (Z.lxor (Z.lxor (Z.lxor b (rotl8 1 b)) (rotl8 2 b)) (rotl8 3 b)) (rotl8 4 b)) 99.

Definition sbox_table : list Z := Eval vm_compute in map (λ n, sbox_value (Z.of_nat n)) (seq 0 256).
Definition sbox (b : Z) : Z := nth (Z.to_nat b) sbox_table 0%Z.

Definition add_key (st k : list Z) : list Z :=
  map (λ i, Z.lxor (nth i st 0%Z) (nth i k 0%Z)) (seq 0 16).

(** States are column-major: byte [r + 4 c] is row [r] of column [c]. *)
Definition shift_rows (st : list Z) : list Z :=
  map (λ i, nth (i mod 4 + 4 * ((i / 4 + i mod 4) mod 4)) st 0%Z) (seq 0 16).

Definition mix_columns (st : list Z) : list Z :=
  map (λ i, let b j := nth (i / 4 * 4 + (i + j) mod 4) st 0%Z in
            Z.lxor (Z.lxor (gmul (b 0%nat) 2) (gmul (b 1%nat) 3)) (Z.lxor (b 2%nat) (b 3%nat)))
      (seq 0 16).

(** The key schedule's words, newest first; [i] is the next word's index. *)
Fixpoint expand (n : nat) (i : nat) (rcon : Z) (w : list (list Z)) : list (list Z) :=
  match n with
  | O => w
  | S n =>
      let t := nth 0 w [] in
      let t' := if (i mod 8 =? 0)%nat then
                  match map sbox t with [a; b; c; d] => [Z.lxor b rcon; c; d; a] | l => l end
                else if (i mod 8 =? 4)%nat then map sbox t else t in
      expand n (S i) (if (i mod 8 =? 0)%nat then xtime rcon else rcon)
        (zip_with Z.lxor (nth 7 w []) t' :: w)
  end.

Definition round_keys (key : string) : list (list Z) :=
  chunks 15 16 (mjoin (rev (expand 52 8 1 (rev (chunks 8 4 (byte_vals key)))))).

Definition aes256 (key : string) (block : list Z) : list Z :=
  let rk := round_keys key in
  let st := foldl (λ st k, add_key (mix_columns (shift_rows (map sbox st))) k)
                  (add_key block (nth 0 rk [])) (take 13 (drop 1 rk)) in
  add_key (shift_rows (map sbox st)) (nth 14 rk []).

(** ** GCM *)

(** Multiplication in GF(2^128) on big-endian 128-bit numbers. *)
Fixpoint gf_go (n : nat) (x v acc : Z) : Z :=
  match n with
  | O => acc
  | S n' => gf_go n' x (if Z.testbit v 0 then Z.lxor (Z.shiftr v 1) (Z.shiftl 225 120) else Z.shiftr v 1)
              (if Z.testbit x (Z.of_nat n') then Z.lxor acc v else acc)
  end.
Definition gf_mul (x y : Z) : Z := gf_go 128 x y 0.

(** A block of at most 16 bytes, zero-padded, as a number. *)
Definition block_num (l : list Z) : Z := be_word (l ++ repeat 0%Z (16 - length l)).

(** GHASH of a ciphertext, without additional data. *)
Definition ghash (h : Z) (c : list Z) : Z :=
  let blocks := map block_num (chunks (length c) 16 c) ++ [(8 * Z.of_nat (length c))%Z] in
  foldl (λ y b, gf_mul (Z.lxor y b) h) 0%Z blocks.

Definition NonceSize : nat := 12.
Definition Overhead : nat := 16.

(** The [n]th counter block of a nonce. *)
Definition counter_block (nonce : string) (n : Z) : list Z := byte_vals nonce ++ be_bytes 4 (word n).

Fixpoint keystream (key nonce : string) (blocks : nat) (n : Z) : string :=
  match blocks with
  | O => ""
  | S blocks => of_byte_vals (aes256 key (counter_block nonce n)) +:+ keystream key nonce blocks (n + 1)
  end.

Definition xor_str (a b : string) : string :=
  of_byte_vals (zip_with Z.lxor (byte_vals a) (byte_vals b)).

Definition ctr (key nonce s : string) : string :=
  xor_str s (keystream key nonce (S (String.length s / 16)) 2).

Definition tag (key nonce c : string) : string :=
  let h := be_word (aes256 key (repeat 0%Z 16)) in
  of_byte_vals (add_key (be_bytes 16 (ghash h (byte_vals c))) (aes256 key (counter_block nonce 1))).

(** [gcm.Seal(nil, nonce, plain, nil)]. *)
Definition Seal (key nonce plain : string) : string :=
  let c := ctr key nonce plain in c +:+ tag key nonce c.

(** [gcm.Open(nil, nonce, sealed, nil)]; [None] when authentication fails. *)
Definition Open (key nonce sealed : string) : option string :=
  let n := (String.length sealed - Overhead)%nat in
  if (String.length sealed <? Overhead)%nat then None
  else
    let c := stake n sealed in
    if String.eqb (tag key nonce c) (sdrop n sealed) then Some (ctr key nonce c) else None.

(** ** Published test vectors *)

Definition zeros (n : nat) : string := of_byte_vals (repeat 0%Z n).

Example gcm_test_13 :
  hex_encode (Seal (zeros 32) (zeros 12) "") = "530f8afbc74536b9a963b4f1c4cb738b".
Proof. vm_compute. reflexivity. Qed.

Example gcm_test_14 :
  hex_encode (Seal (zeros 32) (zeros 12) (zeros 16)) =
  "cea7403d4d606b6e074ec5d3baf39d18d0d1c8a799996bf0265b98b5d48ab919".
Proof. vm_compute. reflexivity. Qed.

(** ** Opening undoes sealing *)

Lemma byte_vals_of (s : string) : of_byte_vals (byte_vals s) = s.
Proof.
  unfold of_byte_vals, byte_vals. rewrite map_map.
  rewrite (map_ext _ id), map_id by (intros c; by rewrite Nat2Z.id, Ascii.ascii_nat_embedding).
  apply String.string_of_list_ascii_of_string.
Qed.

Definition is_byte (z : Z) : Prop := (0 <= z < 256)%Z.

Lemma of_byte_vals_inv (l : list Z) : Forall is_byte l → byte_vals (of_byte_vals l) = l.
Proof.
  unfold of_byte_vals, byte_vals. rewrite String.list_ascii_of_string_of_list_ascii, map_map.
  induction 1 as [|z l Hz _ IH]; [done|]. simpl. f_equal; [|done].
  rewrite Ascii.nat_ascii_embedding by (unfold is_byte in Hz; lia). unfold is_byte in Hz. lia.
Qed.

Lemma byte_vals_range (s : string) : Forall is_byte (byte_vals s).
Proof.
  unfold byte_vals. induction (String.list_ascii_of_string s) as [|c l IH]; simpl; constructor; [|done].
  pose proof (Ascii.nat_ascii_bounded c). unfold is_byte. lia.
Qed.

Lemma length_byte_vals (s : string) : length (byte_vals s) = String.length s.
Proof. unfold byte_vals. rewrite length_map. induction s; simpl; congruence. Qed.

Lemma length_of_byte_vals (l : list Z) : String.length (of_byte_vals l) = length l.
Proof. unfold of_byte_vals. induction l; simpl; congruence. Qed.

Lemma lxor_byte (a b : Z) : is_byte a → is_byte b → is_byte (Z.lxor a b).
Proof.
  unfold is_byte. intros Ha Hb. split; [apply Z.lxor_nonneg; lia|].
  destruct (Z.eq_dec (Z.lxor a b) 0%Z) as [->|Hn]; [lia|].
  assert (0 <= Z.lxor a b)%Z by (apply Z.lxor_nonneg; lia).
  change 256%Z with (2 ^ 8)%Z. apply Z.log2_lt_pow2; [lia|].
  pose proof (Z.log2_lxor a b ltac:(lia) ltac:(lia)).
  assert (∀ x, (0 <= x < 256)%Z → (Z.log2 x <= 7)%Z) as Hl.
  { intros x Hx. destruct (Z.eq_dec x 0%Z) as [->|]; [done|].
    assert (Z.log2 x < 8)%Z; [|lia]. apply Z.log2_lt_pow2; [lia|]. change (2 ^ 8)%Z with 256%Z. lia. }
  pose proof (Hl a Ha). pose proof (Hl b Hb). lia.
Qed.

Lemma xor_str_involutive (a k : string) :
  (String.length a <= String.length k)%nat → xor_str (xor_str a k) k = a.
Proof.
  rewrite <- !length_byte_vals. intros Hl. unfold xor_str.
  pose proof (byte_vals_range a) as Ha. pose proof (byte_vals_range k) as Hk.
  rewrite of_byte_vals_inv.
  - rewrite <- (byte_vals_of a) at 2. f_equal. revert Hl. generalize (byte_vals k) (byte_vals a).
    intros k' a'. revert k'. induction a' as [|x a' IH]; intros [|y k'] Hl; simpl in *; try done; [lia|].
    rewrite Z.lxor_assoc, Z.lxor_nilpotent, Z.lxor_0_r. f_equal. apply IH. lia.
  - revert Ha Hk. generalize (byte_vals k) (byte_vals a). intros k' a' Ha. revert k'.
    induction Ha; intros k' Hk; [constructor|]. destruct Hk; simpl; constructor; [by apply lxor_byte|auto].
Qed.

Lemma length_add_key st k : length (add_key st k) = 16%nat.
Proof. done. Qed.

Lemma length_keystream key nonce n i : String.length (keystream key nonce n i) = (16 * n)%nat.
Proof.
  revert i. induction n as [|n IH]; intros i; [done|]. cbn [keystream].
  rewrite length_app_s, length_of_byte_vals, IH. unfold aes256. rewrite length_add_key. lia.
Qed.

Lemma length_ctr key nonce s : String.length (ctr key nonce s) = String.length s.
Proof.
  unfold ctr, xor_str. rewrite length_of_byte_vals, length_zip_with, !length_byte_vals, length_keystream.
  pose proof (Nat.div_mod (String.length s) 16). pose proof (Nat.mod_upper_bound (String.length s) 16). lia.
Qed.

Lemma ctr_involutive key nonce s : ctr key nonce (ctr key nonce s) = s.
Proof.
  unfold ctr at 1. rewrite length_ctr. unfold ctr. apply xor_str_involutive. rewrite length_keystream.
  pose proof (Nat.div_mod (String.length s) 16). pose proof (Nat.mod_upper_bound (String.length s) 16). lia.
Qed.

Lemma length_tag key nonce c : String.length (tag key nonce c) = Overhead.
Proof. unfold tag. by rewrite length_of_byte_vals, length_add_key. Qed.

Lemma sdrop_app_eq (n : nat) (p s : string) : n = String.length p → sdrop n (p +:+ s) = s.
Proof. intros ->. apply sdrop_app. Qed.
Lemma stake_app_eq (n : nat) (p s : string) : n = String.length p → stake n (p +:+ s) = p.
Proof. intros ->. apply stake_app. Qed.

Lemma Open_Seal key nonce plain : Open key nonce (Seal key nonce plain) = Some plain.
Proof.
  unfold Seal, Open. set (c := ctr key nonce plain).
  assert (Hl : (String.length (c +:+ tag key nonce c) - Overhead)%nat = String.length c)
    by (rewrite length_app_s, length_tag; lia).
  rewrite Hl, stake_app_eq, sdrop_app_eq, String.eqb_refl by done.
  destruct (Nat.ltb_spec (String.length (c +:+ tag key nonce c)) Overhead) as [Hlt|_].
  - rewrite length_app_s, length_tag in Hlt. lia.
  - f_equal. apply ctr_involutive.
Qed.
