(* ===== verification/Secret.v ===== *)
(** Encrypting the registry's secrets (internal/secret/secret.go): the master
    key's base64 form, and sealing with a nonce in front. *)

From S2P Require Import Prelude GoStr Sha256 Gcm.


(** ** Base64 *)

Definition std_alphabet : string := "ABCDEFGHIJKLMNOPQRSTUVWXYZabcdefghijklmnopqrstuvwxyz0123456789+/".
Definition url_alphabet : string := "ABCDEFGHIJKLMNOPQRSTUVWXYZabcdefghijklmnopqrstuvwxyz0123456789-_".

Definition digit64 (alphabet : string) (v : Z) : ascii :=
  default "="%char (String.get (Z.to_nat v) alphabet).

Fixpoint index_char (c : ascii) (s : string) : option nat :=
  match s with
  | EmptyString => None
  | String d s => if Ascii.eqb c d then Some O else S <$> index_char c s
  end.

Definition value64 (alphabet : string) (c : ascii) : option Z := Z.of_nat <$> index_char c alphabet.

(** Encoding; [pad] is what completes the last group of four. *)
Fixpoint encode64 (alphabet : string) (pad : bool) (l : list Z) : list ascii :=
  let d := digit64 alphabet in
  match l with
  | a :: b :: c :: l =>
      [d (a / 4); d (a mod 4 * 16 + b / 16); d (b mod 16 * 4 + c / 64); d (c mod 64)]%Z
        ++ encode64 alphabet pad l
  | [a; b] => [d (a / 4); d (a mod 4 * 16 + b / 16); d (b mod 16 * 4)]%Z
                ++ (if pad then ["="%char] else [])
  | [a] => [d (a / 4); d (a mod 4 * 16)]%Z ++ (if pad then ["="; "="]%char else [])
  | [] => []
  end.

(** Groups of four; padding ends the input, and stray low bits are ignored. *)
Fixpoint decode64 (alphabet : string) (l : list ascii) : option (list Z) :=
  match l with
  | [] => Some []
  | c1 :: c2 :: c3 :: c4 :: l =>
      match value64 alphabet c1, value64 alphabet c2 with
      | Some a, Some b =>
          let b1 := (a * 4 + b / 16)%Z in
          if Ascii.eqb c3 "=" then
            if Ascii.eqb c4 "=" && bool_decide (l = []) then Some [b1] else None
          else match value64 alphabet c3 with
               | None => None
               | Some c =>
                   let b2 := (b mod 16 * 16 + c / 4)%Z in
                   if Ascii.eqb c4 "=" then if bool_decide (l = []) then Some [b1; b2] else None
                   else match value64 alphabet c4, decode64 alphabet l with
                        | Some d, Some out => Some ([b1; b2; (c mod 4 * 64 + d)%Z] ++ out)
                        | _, _ => None
                        end
               end
      | _, _ => None
      end
  | _ => None
  end.

Definition is_newline (c : ascii) : bool := Ascii.eqb c "010" || Ascii.eqb c "013".

(** [base64.StdEncoding.DecodeString], which skips line breaks. *)
Definition StdDecode (s : string) : option string :=
  of_byte_vals <$> decode64 std_alphabet
    (filter (λ c, is_newline c = false) (String.list_ascii_of_string s)).

(** [base64.StdEncoding.EncodeToString]. *)
Definition StdEncode (s : string) : string :=
  String.string_of_list_ascii (encode64 std_alphabet true (byte_vals s)).

(** [base64.RawURLEncoding.EncodeToString]. *)
Definition RawURLEncode (s : string) : string :=
  String.string_of_list_ascii (encode64 url_alphabet false (byte_vals s)).

(** ** The box *)

(** [internal/secret/secret.go#Box] *)
Record Box := mkBox { bx_key : string }.

(** Builds a box from a base64-encoded 32-byte key
    [internal/secret/secret.go#New]. *)
Definition New (masterKeyB64 : string) : res string Box :=
  match StdDecode masterKeyB64 with
  | None => Err "MASTER_KEY must be base64"
  | Some key =>
      if Nat.eqb (String.length key) 32 then Ok (mkBox key)
      else Err "MASTER_KEY must decode to 32 bytes"
  end.

(** Returns nonce||ciphertext; [nonce] is what the random reader gives, [None]
    when it fails [internal/secret/secret.go#Box.Encrypt]. *)
Definition Encrypt (b : Box) (nonce : option string) (plain : string) : res string string :=
  match nonce with
  | None => Err "random source"
  | Some n => Ok (n +:+ Seal (bx_key b) n plain)
  end.

(** [internal/secret/secret.go#Box.Decrypt] *)
Definition Decrypt (b : Box) (ct : string) : res string string :=
  if (String.length ct <? NonceSize)%nat then Err "ciphertext too short"
  else match Open (bx_key b) (stake NonceSize ct) (sdrop NonceSize ct) with
       | Some p => Ok p
       | None => Err "cipher: message authentication failed"
       end.

(** ** Theorems *)

#[local] Ltac Zify.zify_post_hook ::= Z.div_mod_to_equations.

Lemma value_digit (alphabet : string) (v : Z) :
  alphabet = std_alphabet → (0 <= v < 64)%Z →
  value64 alphabet (digit64 alphabet v) = Some v ∧
  Ascii.eqb (digit64 alphabet v) "=" = false ∧ is_newline (digit64 alphabet v) = false.
Proof.
  intros -> Hv.
  assert (Hall : forallb (λ n, bool_decide (value64 std_alphabet (digit64 std_alphabet (Z.of_nat n)) = Some (Z.of_nat n)) &&
    negb (Ascii.eqb (digit64 std_alphabet (Z.of_nat n)) "=") && negb (is_newline (digit64 std_alphabet (Z.of_nat n))))
    (seq 0 64) = true) by (vm_compute; reflexivity).
  rewrite forallb_forall in Hall. specialize (Hall (Z.to_nat v)).
  rewrite Z2Nat.id in Hall by lia. assert (Hin : In (Z.to_nat v) (seq 0 64)) by (apply in_seq; lia).
  specialize (Hall Hin). rewrite !andb_true_iff, !negb_true_iff, bool_decide_eq_true in Hall. tauto.
Qed.

(** The decoder reads what the encoder writes, and the encoder writes no line
    break. *)
Lemma decode_encode (l : list Z) :
  Forall is_byte l →
  Forall (λ c, is_newline c = false) (encode64 std_alphabet true l) ∧
  decode64 std_alphabet (encode64 std_alphabet true l) = Some l.
Proof.
  induction l as [l IH] using (induction_ltof1 _ (@length Z)). unfold ltof in IH.
  intros Hl. destruct l as [|a [|b [|c l]]]; [split; [constructor|done]|..];
    repeat match goal with H : Forall _ (_ :: _) |- _ => apply Forall_cons in H as [? ?] end;
    unfold is_byte in *; cbn [encode64 app].
  - destruct (value_digit std_alphabet (a / 4)%Z) as (V1&E1&N1); [done|lia|].
    destruct (value_digit std_alphabet (a mod 4 * 16)%Z) as (V2&E2&N2); [done|lia|].
    split; [by repeat constructor|]. cbn [decode64]. rewrite V1, V2. simpl. do 2 f_equal. lia.
  - destruct (value_digit std_alphabet (a / 4)%Z) as (V1&E1&N1); [done|lia|].
    destruct (value_digit std_alphabet (a mod 4 * 16 + b / 16)%Z) as (V2&E2&N2); [done|lia|].
    destruct (value_digit std_alphabet (b mod 16 * 4)%Z) as (V3&E3&N3); [done|lia|].
    split; [by repeat constructor|]. cbn [decode64]. rewrite V1, V2, E3, V3. simpl.
    f_equal. f_equal; [lia|f_equal; lia].
  - destruct (value_digit std_alphabet (a / 4)%Z) as (V1&E1&N1); [done|lia|].
    destruct (value_digit std_alphabet (a mod 4 * 16 + b / 16)%Z) as (V2&E2&N2); [done|lia|].
    destruct (value_digit std_alphabet (b mod 16 * 4 + c / 64)%Z) as (V3&E3&N3); [done|lia|].
    destruct (value_digit std_alphabet (c mod 64)%Z) as (V4&E4&N4); [done|lia|].
    destruct (IH l) as [IH1 IH2]; [simpl; lia|done|].
    split; [by repeat constructor|]. cbn [decode64]. rewrite V1, V2, E3, V3, E4, V4, IH2. simpl.
    f_equal. f_equal; [lia|]. f_equal; [lia|]. f_equal; lia.
Qed.

Lemma StdDecode_encode (s : string) : StdDecode (StdEncode s) = Some s.
Proof.
  unfold StdDecode, StdEncode. rewrite String.list_ascii_of_string_of_list_ascii.
  destruct (decode_encode (byte_vals s) (byte_vals_range s)) as [Hn Hd].
  rewrite filter_all by done. rewrite Hd. simpl. by rewrite byte_vals_of.
Qed.

(** C32: What is stored can be read back. A 32-byte master key given in base64
    makes a box; whatever 12 bytes the random reader supplies, encrypting
    succeeds and decrypting the stored value under a box made from the same key
    returns the plaintext; a stored value is 28 bytes longer than its plaintext,
    and a value shorter than a nonce is refused rather than sliced. *)
Theorem secrets_roundtrip key nonce plain :
  String.length key = 32%nat → String.length nonce = NonceSize →
  ∃ b ct, New (StdEncode key) = Ok b ∧ Encrypt b (Some nonce) plain = Ok ct ∧
    Decrypt b ct = Ok plain ∧ String.length ct = (String.length plain + 28)%nat ∧
    ∀ s, (String.length s < NonceSize)%nat → Decrypt b s = Err "ciphertext too short".
Proof.
  intros Hk Hn. exists (mkBox key), (nonce +:+ Seal key nonce plain).
  assert (Hl : String.length (nonce +:+ Seal key nonce plain) = (String.length plain + 28)%nat).
  { unfold Seal. rewrite !length_app_s, length_tag, length_ctr, Hn. unfold NonceSize, Overhead. lia. }
  split; [|split; [|split; [|split]]].
  - unfold New. by rewrite StdDecode_encode, Hk.
  - done.
  - unfold Decrypt. cbn [bx_key]. rewrite stake_app_eq, sdrop_app_eq, Open_Seal by done.
    destruct (Nat.ltb_spec (String.length (nonce +:+ Seal key nonce plain)) NonceSize) as [H|_]; [|done].
    rewrite Hl in H. unfold NonceSize in H. lia.
  - done.
  - intros s Hs. unfold Decrypt. by rewrite (proj2 (Nat.ltb_lt _ _) Hs).
Qed.

Lemma secrets_roundtrip_witness :
  String.length (zeros 32) = 32%nat ∧
  ∃ b ct, New (StdEncode (zeros 32)) = Ok b ∧ Encrypt b (Some (zeros 12)) "hash" = Ok ct ∧
    Decrypt b ct = Ok "hash" ∧ String.length ct = (String.length "hash" + 28)%nat ∧
    ∀ s, (String.length s < NonceSize)%nat → Decrypt b s = Err "ciphertext too short".
Proof. split; [reflexivity|]. by apply (secrets_roundtrip (zeros 32) (zeros 12) "hash"). Defined.
