(* ===== verification/Tokens.v ===== *)
(** Scoped API tokens (internal/store/store.go): their grants, what a partial
    update changes, and which sessions a token covers. *)

From S2P Require Import Prelude GoStr Json Types Db Registry.


(** ** Grants *)

(** One row of a token's application grants, kept when already there. *)
Definition grant_app (tid a : string) (d : db) : res dberr db :=
  if has tid (tokens d) && has a (apps d)
  then Ok (with_token_apps (λ g, {[(tid, a)]} ∪ g) d) else Err DbForeignKey.

(** One row of a token's session grants, kept when already there. *)
Definition grant_session (tid s : string) (d : db) : res dberr db :=
  if has tid (tokens d) && has s (sessions d)
  then Ok (with_token_sessions (λ g, {[(tid, s)]} ∪ g) d) else Err DbForeignKey.

(** A statement per element, stopping at the first error. *)
Fixpoint each {A} (f : A → db → res dberr db) (l : list A) (d : db) : res dberr db :=
  match l with
  | [] => Ok d
  | x :: l => let! d := f x d in each f l d
  end.

(** Clears a token's rows of a grant table. *)
Definition revoke (tid : string) (g : gset (string * string)) : gset (string * string) :=
  filter (λ x, x.1 ≠ tid) g.

(** [internal/store/store.go#replaceTokenGrants] *)
Definition replaceTokenGrants (tid : string) (appIDs sessionIDs : list string) (d : db) : res dberr db :=
  let d := with_token_apps (revoke tid) d in
  let d := with_token_sessions (revoke tid) d in
  let! d := each (grant_app tid) appIDs d in
  each (grant_session tid) sessionIDs d.

(** Replaces only the lists that were given
    [internal/store/store.go#patchTokenGrants]. *)
Definition patchTokenGrants (tid : string) (appIDs sessionIDs : list string) (setApps setSessions : bool)
    (d : db) : res dberr db :=
  let! d := if setApps then each (grant_app tid) appIDs (with_token_apps (revoke tid) d) else Ok d in
  if setSessions then each (grant_session tid) sessionIDs (with_token_sessions (revoke tid) d) else Ok d.

(** ** Tokens *)

(** Does some token have this secret hash? *)
Definition hash_taken (hash : string) (d : db) : bool :=
  negb (Nat.eqb (affected (λ _ t, String.eqb (t_hash t) hash) (tokens d)) 0).

(** A failed grant rolls the token back too
    [internal/store/store.go#CreateToken]. *)
Definition CreateToken (id : string) (now : Z) (name hash : string) (enabled all : bool)
    (appIDs sessionIDs : list string) (d : db) : res dberr (string * db) :=
  if has id (tokens d) || hash_taken hash d then Err DbUnique
  else
    let! d := replaceTokenGrants id appIDs sessionIDs
                (with_tokens <[id := mkToken (nullStr name) hash enabled all now]> d) in
    Ok (id, d).

(** [internal/store/store.go#TokenInfo] *)
Record TokenInfo := mkTokenInfo {
  ti_id : string; ti_name : string; ti_enabled : bool; ti_all : bool;
  ti_apps : list string; ti_sessions : list string; ti_created : Z;
}.

Definition granted_to (tid : string) (g : gset (string * string)) : list string :=
  map snd (filter (λ x, x.1 = tid) (elements g)).

(** [internal/store/store.go#ListTokens] *)
Definition ListTokens (d : db) : list TokenInfo :=
  order_by ti_created
    (map (λ kv : string * token_row,
        mkTokenInfo kv.1 (coalesce (t_name kv.2)) (t_enabled kv.2) (t_all kv.2)
          (granted_to kv.1 (token_apps d)) (granted_to kv.1 (token_sessions d)) (t_created kv.2))
      (map_to_list (tokens d))).

(** [internal/store/store.go#TokenPatch] *)
Record TokenPatch := mkTokenPatch {
  tp_name : option string; tp_enabled : option bool; tp_all : option bool;
  tp_apps : option (list string); tp_sessions : option (list string);
}.

Definition patch_row (p : TokenPatch) (t : token_row) : token_row :=
  mkToken (match tp_name p with Some n => nullStr n | None => t_name t end) (t_hash t)
    (default (t_enabled t) (tp_enabled p)) (default (t_all t) (tp_all p)) (t_created t).

(** One transaction: [Ok (false, _)] and an error leave the registry as it was
    [internal/store/store.go#UpdateToken]. *)
Definition UpdateToken (id : string) (p : TokenPatch) (d : db) : res dberr (bool * db) :=
  if negb (has id (tokens d)) then Ok (false, d)
  else
    let d' := with_tokens (alter (patch_row p) id) d in
    match tp_apps p, tp_sessions p with
    | None, None => Ok (true, d')
    | a, s =>
        let! d' := patchTokenGrants id (default [] a) (default [] s) (is_set a) (is_set s) d' in
        Ok (true, d')
    end.

(** [internal/store/store.go#DeleteToken] *)
Definition DeleteToken (id : string) (d : db) : bool * db :=
  (has id (tokens d), if has id (tokens d) then cascade_token id d else d).

(** Secret hashes are unique, so at most one row matches
    [internal/store/store.go#ResolveToken]. *)
Definition ResolveToken (hash : string) (d : db) : option (string * bool) :=
  match select (λ _ t, String.eqb (t_hash t) hash) (tokens d) with
  | (id, t) :: _ => Some (id, t_enabled t)
  | [] => None
  end.

(** [internal/store/store.go#TokenGrantsSession] *)
Definition TokenGrantsSession (tid sid : string) (d : db) : bool :=
  match tokens d !! tid with
  | Some t =>
      t_enabled t &&
      (t_all t || bool_decide ((tid, sid) ∈ token_sessions d) ||
       match sessions d !! sid with
       | Some s => bool_decide ((tid, s_app s) ∈ token_apps d)
       | None => false
       end)
  | None => false
  end.

(** [internal/store/store.go#ListSessionsForToken] *)
Definition ListSessionsForToken (now : Z) (tid : string) (d : db) : list SessionInfo :=
  querySessions now (λ sid s,
    match tokens d !! tid with
    | Some t => t_enabled t && (t_all t || bool_decide ((tid, sid) ∈ token_sessions d)
                                || bool_decide ((tid, s_app s) ∈ token_apps d))
    | None => false
    end) d.

(** ** Lemmas *)

Lemma each_grant_app tid l d d' :
  each (grant_app tid) l d = Ok d' →
  tokens d' = tokens d ∧ sessions d' = sessions d ∧ apps d' = apps d ∧
  token_sessions d' = token_sessions d ∧
  ∀ x, x ∈ token_apps d' ↔ x ∈ token_apps d ∨ (x.1 = tid ∧ x.2 ∈ l).
Proof.
  revert d. induction l as [|a l IH]; intros d; simpl.
  { intros [= ->]. repeat split; try done; [by left|]. intros [?|[_ ?%not_elem_of_nil]]; done. }
  intros (d1&H1&H2)%res_bind_ok. unfold grant_app in H1.
  destruct (has tid (tokens d) && has a (apps d)); [injection H1 as <-|done].
  destruct (IH _ H2) as (?&?&?&?&Hg). simpl in *. repeat split; try done.
  - intros [[->%elem_of_singleton|?]%elem_of_union|[? ?]]%Hg; [right; split; [done|by left]|by left|].
    right. split; [done|by right].
  - intros Hx. apply Hg. rewrite elem_of_union, elem_of_singleton.
    destruct x as [t s]; simpl in *.
    destruct Hx as [?|[-> [->|?]%elem_of_cons]]; [by left; right|by left; left|by right].
Qed.

Lemma each_grant_session tid l d d' :
  each (grant_session tid) l d = Ok d' →
  tokens d' = tokens d ∧ sessions d' = sessions d ∧ apps d' = apps d ∧
  token_apps d' = token_apps d ∧
  ∀ x, x ∈ token_sessions d' ↔ x ∈ token_sessions d ∨ (x.1 = tid ∧ x.2 ∈ l).
Proof.
  revert d. induction l as [|a l IH]; intros d; simpl.
  { intros [= ->]. repeat split; try done; [by left|]. intros [?|[_ ?%not_elem_of_nil]]; done. }
  intros (d1&H1&H2)%res_bind_ok. unfold grant_session in H1.
  destruct (has tid (tokens d) && has a (sessions d)); [injection H1 as <-|done].
  destruct (IH _ H2) as (?&?&?&?&Hg). simpl in *. repeat split; try done.
  - intros [[->%elem_of_singleton|?]%elem_of_union|[? ?]]%Hg; [right; split; [done|by left]|by left|].
    right. split; [done|by right].
  - intros Hx. apply Hg. rewrite elem_of_union, elem_of_singleton.
    destruct x as [t s]; simpl in *.
    destruct Hx as [?|[-> [->|?]%elem_of_cons]]; [by left; right|by left; left|by right].
Qed.

Lemma patchTokenGrants_spec tid la ls sa ss d d' :
  patchTokenGrants tid la ls sa ss d = Ok d' →
  tokens d' = tokens d ∧ sessions d' = sessions d ∧ apps d' = apps d ∧
  (∀ x, x ∈ token_apps d' ↔
     if sa && String.eqb x.1 tid then x.2 ∈ la else x ∈ token_apps d) ∧
  (∀ x, x ∈ token_sessions d' ↔
     if ss && String.eqb x.1 tid then x.2 ∈ ls else x ∈ token_sessions d).
Proof.
  unfold patchTokenGrants. intros (d1&H1&H2)%res_bind_ok.
  assert (A : tokens d1 = tokens d ∧ sessions d1 = sessions d ∧ apps d1 = apps d ∧
    token_sessions d1 = token_sessions d ∧
    ∀ x, x ∈ token_apps d1 ↔ if sa && String.eqb x.1 tid then x.2 ∈ la else x ∈ token_apps d).
  { destruct sa; [|injection H1 as <-; naive_solver].
    apply each_grant_app in H1 as (?&?&?&?&Hg). simpl in *. repeat split; try done;
      rewrite Hg; unfold revoke; rewrite elem_of_filter;
      destruct (String.eqb_spec x.1 tid); naive_solver. }
  destruct A as (A1&A2&A3&A4&A5).
  destruct ss; [|injection H2 as <-; rewrite A4; naive_solver].
  apply each_grant_session in H2 as (B1&B2&B3&B4&Hg). simpl in *.
  rewrite B1, B2, B3, B4. repeat split; try done; try apply A5.
  all: rewrite Hg; unfold revoke; rewrite elem_of_filter, A4;
    destruct (String.eqb_spec x.1 tid); naive_solver.
Qed.

Lemma replaceTokenGrants_patch tid la ls d d' :
  replaceTokenGrants tid la ls d = Ok d' →
  tokens d' = tokens d ∧ sessions d' = sessions d ∧ apps d' = apps d ∧
  (∀ x, x ∈ token_apps d' ↔ if String.eqb x.1 tid then x.2 ∈ la else x ∈ token_apps d) ∧
  (∀ x, x ∈ token_sessions d' ↔ if String.eqb x.1 tid then x.2 ∈ ls else x ∈ token_sessions d).
Proof.
  unfold replaceTokenGrants. intros (d1&H1&H2)%res_bind_ok.
  apply each_grant_app in H1 as (A1&A2&A3&A4&A5). apply each_grant_session in H2 as (B1&B2&B3&B4&B5).
  simpl in *. rewrite B1, B2, B3, B4, A1, A2, A3. repeat split; try done.
  1,2: rewrite A5; unfold revoke; rewrite elem_of_filter; destruct (String.eqb_spec x.1 tid); naive_solver.
  all: rewrite B5, A4; unfold revoke; rewrite elem_of_filter; destruct (String.eqb_spec x.1 tid); naive_solver.
Qed.

(** A hash no token had resolves to the one token made with it. *)
Lemma ResolveToken_new hash id row d d' :
  hash_taken hash d = false → tokens d' = <[id := row]> (tokens d) → t_hash row = hash →
  ResolveToken hash d' = Some (id, t_enabled row).
Proof.
  intros Hh Ht Hr. unfold ResolveToken. rewrite Ht.
  destruct (select _ _) as [|[k t] l] eqn:E.
  - assert (Hin : (id, row) ∈ select (λ _ t, String.eqb (t_hash t) hash) (<[id := row]> (tokens d))).
    { apply elem_of_select. rewrite lookup_insert_eq, Hr. by rewrite String.eqb_refl. }
    rewrite E in Hin. by apply not_elem_of_nil in Hin.
  - assert (Hin : (k, t) ∈ select (λ _ t, String.eqb (t_hash t) hash) (<[id := row]> (tokens d)))
      by (rewrite E; by left).
    apply elem_of_select in Hin as [Hk Ht'].
    destruct (decide (k = id)) as [->|Hne]; [rewrite lookup_insert_eq in Hk; by injection Hk as <-|].
    rewrite lookup_insert_ne in Hk by done. exfalso.
    unfold hash_taken, affected in Hh. apply negb_false_iff, Nat.eqb_eq, length_zero_iff_nil in Hh.
    assert (Hin : (k, t) ∈ select (λ _ t, String.eqb (t_hash t) hash) (tokens d)) by (by apply elem_of_select).
    rewrite Hh in Hin. by apply not_elem_of_nil in Hin.
Qed.

(** ** Theorems *)

(** A new token covers exactly what it was given. When creating a token
    succeeds, its secret's hash resolves to it and to whether it is enabled,
    and it covers a session exactly when it is enabled and was given every
    session, that session, or that session's application; every other token
    covers what it did. *)
Theorem created_token_scope id now name hash enabled all appIDs sessionIDs d id' d' :
  CreateToken id now name hash enabled all appIDs sessionIDs d = Ok (id', d') →
  id' = id ∧ ResolveToken hash d' = Some (id, enabled) ∧
  (∀ sid, TokenGrantsSession id sid d' =
     enabled && (all || bool_decide (sid ∈ sessionIDs) ||
       match sessions d !! sid with Some s => bool_decide (s_app s ∈ appIDs) | None => false end)) ∧
  (∀ tid sid, tid ≠ id → TokenGrantsSession tid sid d' = TokenGrantsSession tid sid d).
Proof.
  unfold CreateToken. destruct (has id (tokens d) || hash_taken hash d) eqn:Eh; [done|].
  apply orb_false_iff in Eh as [Hid Hh]. intros (d1&H1&[= <- <-])%res_bind_ok.
  apply replaceTokenGrants_patch in H1 as (A1&A2&_&A4&A5). simpl in *. split; [done|].
  split; [|split].
  - exact (ResolveToken_new hash id _ d _ Hh A1 eq_refl).
  - intros sid. unfold TokenGrantsSession. rewrite A1, lookup_insert_eq, A2. cbn [t_enabled t_all].
    do 2 f_equal; [f_equal|].
    + apply bool_decide_ext. rewrite A5. cbn [fst snd]. by rewrite String.eqb_refl.
    + destruct (sessions d !! sid); [|done]. apply bool_decide_ext. rewrite A4. cbn [fst snd].
      by rewrite String.eqb_refl.
  - intros tid sid Hne. unfold TokenGrantsSession. rewrite A1, lookup_insert_ne, A2 by done.
    assert (Hf : String.eqb tid id = false) by (by apply String.eqb_neq).
    destruct (tokens d !! tid); [|done]. do 2 f_equal; [f_equal|].
    + apply bool_decide_ext. rewrite A5. cbn [fst snd]. by rewrite Hf.
    + destruct (sessions d !! sid); [|done]. apply bool_decide_ext. rewrite A4. cbn [fst snd]. by rewrite Hf.
Qed.

Definition ex_token_db : db :=
  with_apps (λ _, {["app" := mkApp 1 "" None 0]}) (with_sessions (λ _, {["s1" := ex_session]}) empty_db).

Definition unwrap_db {A} (r : res dberr (A * db)) : db :=
  match r with Ok x => x.2 | Err _ => empty_db end.

Lemma created_token_scope_witness :
  let d' := unwrap_db (CreateToken "t" 7 "bot" "h" true false ["app"] ["s1"] ex_token_db) in
  "t" = "t" ∧ ResolveToken "h" d' = Some ("t", true) ∧
  (∀ sid, TokenGrantsSession "t" sid d' =
     true && (false || bool_decide (sid ∈ ["s1"]) ||
       match sessions ex_token_db !! sid with Some s => bool_decide (s_app s ∈ ["app"]) | None => false end)) ∧
  (∀ tid sid, tid ≠ "t" → TokenGrantsSession tid sid d' = TokenGrantsSession tid sid ex_token_db).
Proof. apply (created_token_scope "t" 7 "bot" "h" true false ["app"] ["s1"] ex_token_db "t"). vm_compute. reflexivity. Defined.

(** A token update changes what it names and nothing else. A field left out
    keeps its value; a grant list that is given (an empty one included) replaces
    the token's, one left out keeps it; other tokens and the secret never
    change; an unknown token changes nothing and reads as not found. *)
Theorem token_update_partial id p d found d' :
  UpdateToken id p d = Ok (found, d') →
  found = has id (tokens d) ∧
  tokens d' = alter (patch_row p) id (tokens d) ∧ sessions d' = sessions d ∧
  (∀ x, x ∈ token_apps d' ↔
     match tp_apps p with
     | Some l => if found && String.eqb x.1 id then x.2 ∈ l else x ∈ token_apps d
     | None => x ∈ token_apps d
     end) ∧
  (∀ x, x ∈ token_sessions d' ↔
     match tp_sessions p with
     | Some l => if found && String.eqb x.1 id then x.2 ∈ l else x ∈ token_sessions d
     | None => x ∈ token_sessions d
     end).
Proof.
  unfold UpdateToken. destruct (has id (tokens d)) eqn:Eh; simpl.
  - destruct (tp_apps p) as [la|] eqn:Ea, (tp_sessions p) as [ls|] eqn:Es;
      try (intros (d1&H1&[= <- <-])%res_bind_ok; apply patchTokenGrants_spec in H1 as (->&->&_&A4&A5);
           repeat split; try done; try apply A4; apply A5).
    intros [= <- <-]. naive_solver.
  - intros [= <- <-]. split; [done|]. split.
    + symmetry. apply map_eq. intros k. destruct (decide (k = id)) as [->|Hne].
      * rewrite lookup_alter_eq. destruct (tokens d !! id) eqn:E; [|done].
        exfalso. rewrite (proj2 (has_spec id (tokens d))) in Eh; [done|by rewrite E].
      * by rewrite lookup_alter_ne.
    + split; [done|]. split; intros x; [by destruct (tp_apps p)|by destruct (tp_sessions p)].
Qed.

Lemma token_update_partial_witness :
  let d := unwrap_db (CreateToken "t" 7 "bot" "h" true false ["app"] ["s1"] ex_token_db) in
  let p := mkTokenPatch None (Some false) None None (Some []) in
  let d' := unwrap_db (UpdateToken "t" p d) in
  true = has "t" (tokens d) ∧
  tokens d' = alter (patch_row p) "t" (tokens d) ∧ sessions d' = sessions d ∧
  (∀ x, x ∈ token_apps d' ↔ x ∈ token_apps d) ∧
  (∀ x, x ∈ token_sessions d' ↔ if true && String.eqb x.1 "t" then x.2 ∈ [] else x ∈ token_sessions d).
Proof.
  apply (token_update_partial "t" (mkTokenPatch None (Some false) None None (Some []))
           (unwrap_db (CreateToken "t" 7 "bot" "h" true false ["app"] ["s1"] ex_token_db)) true).
  vm_compute. reflexivity.
Defined.

(** The listing a scoped token sees and the access check are in step. A
    session is listed for a token exactly when it exists and the token covers
    it, and each row tells its true kind; so a token never learns of a session
    it may not address, and can discover every one it may. *)
Theorem listing_matches_access now tid d sid :
  sid ∈ map si_id (ListSessionsForToken now tid d) ↔
  is_Some (sessions d !! sid) ∧ TokenGrantsSession tid sid d = true.
Proof.
  unfold ListSessionsForToken, querySessions, TokenGrantsSession.
  rewrite list_elem_of_fmap. split.
  - intros (x&->&Hx). rewrite elem_of_order_by, list_elem_of_fmap in Hx. destruct Hx as ([k s]&->&Hk).
    apply elem_of_select in Hk as [Hk Hp]. simpl in *. rewrite Hk. split; [done|].
    by destruct (tokens d !! tid).
  - intros [[s Hs] Hg]. rewrite Hs in Hg. exists (session_info now d (sid, s)). split; [done|].
    rewrite elem_of_order_by, list_elem_of_fmap. exists (sid, s). split; [done|].
    apply elem_of_select. split; [done|]. simpl. by destruct (tokens d !! tid).
Qed.
