(* ===== verification/Delivery.v ===== *)
(** Durable delivery (internal/session/deliver.go, store.go): queueing an update
    for the subscriptions it matches, claiming due rows, the dispatcher's round,
    one POST with its headers and signature, and retries with backoff. *)

From S2P Require Import Prelude GoStr Json Types Db Utf8 Sha256 Secret Registry Tokens Subs.


(** ** The queue in the registry *)

(** [internal/store/store.go#Delivery] *)
Record Delivery := mkDeliv {
  dl_id : string; dl_session : string; dl_kind : string; dl_sub : string; dl_payload : string;
  dl_attempts : Z; dl_url : string; dl_secret : option string;
}.

(** One pending row per named subscription the session still has. [fresh] gives
    the new rows' ids, [text] is the payload as jsonb stores it, [None] when
    PostgreSQL refuses it as jsonb
    [internal/store/store.go#EnqueueDeliveries]. *)
Definition EnqueueDeliveries (fresh : string → string) (text : option string) (now : Z)
    (sid : string) (subIDs : list string) (d : db) : res dberr db :=
  match text with
  | None => Err DbCheck
  | Some payload =>
      let hit := select (λ k s, bool_decide (k ∈ subIDs) && String.eqb (sb_session s) sid) (subs d) in
      let ids := map (λ kv, fresh kv.1) hit in
      if bool_decide (NoDup ids) && forallb (λ i, negb (has i (deliveries d))) ids
      then Ok (with_deliveries (λ m, foldl (λ m kv, <[fresh kv.1 :=
                 mkDelivery sid kv.1 payload "pending" 0 now now]> m) m hit) d)
      else Err DbUnique
  end.

(** May this subscription be served now: it is the master token's, or its
    token's scope covers the session. *)
Definition served (d : db) (sid : string) (s : sub_row) : bool :=
  match sb_token s with
  | None => true
  | Some tid =>
      match tokens d !! tid, sessions d !! sid with
      | Some t, Some ss =>
          t_enabled t && (t_all t || bool_decide ((tid, sid) ∈ token_sessions d)
                          || bool_decide ((tid, s_app ss) ∈ token_apps d))
      | _, _ => false
      end
  end.

(** The rows the inner query selects. *)
Definition due (now : Z) (wid : string) (busy : list string) (d : db) (r : delivery_row) : bool :=
  match subs d !! d_sub r, sessions d !! d_session r with
  | Some sb, Some ss =>
      String.eqb (d_status r) "pending" && (d_next r <=? now)%Z && opt_eqb (s_worker ss) wid &&
      negb (bool_decide (d_sub r ∈ busy)) && served d (d_session r) sb
  | _, _ => false
  end.

(** [ORDER BY next_try_at, created_at]. *)
Definition le_due : relation (string * delivery_row) := λ x y,
  (d_next x.2 < d_next y.2)%Z ∨ (d_next x.2 = d_next y.2 ∧ d_created x.2 <= d_created y.2)%Z.

#[export] Instance le_due_dec : RelDecision le_due.
Proof. intros x y. unfold le_due. apply _. Defined.
#[export] Instance le_due_trans : Transitive le_due.
Proof. intros x y z. unfold le_due. lia. Qed.
#[export] Instance le_due_total : Total le_due.
Proof. intros x y. unfold le_due. lia. Qed.

(** Rows whose [row_number()] within their subscription is at most [perSub];
    [seen] counts the rows already passed. *)
Fixpoint cap_per_sub (perSub : nat) (seen : string → nat) (l : list (string * delivery_row))
    : list (string * delivery_row) :=
  match l with
  | [] => []
  | x :: l =>
      let s := d_sub x.2 in
      let rest := cap_per_sub perSub (λ k, if String.eqb k s then S (seen s) else seen k) l in
      if (S (seen s) <=? perSub)%nat then x :: rest else rest
  end.

Definition due_rows (now : Z) (wid : string) (busy : list string) (d : db) : list (string * delivery_row) :=
  select (λ _ r, due now wid busy d r) (deliveries d).

Definition claimed (now : Z) (wid : string) (busy : list string) (perSub limit : nat) (d : db)
    : list (string * delivery_row) :=
  take limit (order_by (λ x, d_next x.2)
    (cap_per_sub perSub (λ _, O) (merge_sort le_due (due_rows now wid busy d)))).

Definition to_delivery (d : db) (x : string * delivery_row) : Delivery :=
  let r := x.2 in
  let sb := subs d !! d_sub r in
  mkDeliv x.1 (d_session r) (match sessions d !! d_session r with Some s => s_kind s | None => "" end)
    (d_sub r) (d_payload r) (d_attempts r)
    (match sb with Some s => sb_url s | None => "" end)
    (match sb with Some s => sb_secret_enc s | None => None end).

(** [internal/store/store.go#ClaimDeliveries] *)
Definition ClaimDeliveries (now : Z) (wid : string) (busy : list string) (perSub limit : nat) (d : db)
    : list Delivery :=
  map (to_delivery d) (claimed now wid busy perSub limit d).

Definition sub_delivered (now : Z) (s : sub_row) : sub_row :=
  mkSub (sb_session s) (sb_token s) (sb_url s) (sb_secret_enc s) (sb_filters s) (sb_created s)
    (sb_dropped s) (Some now) (sb_last_error s) (sb_last_error_at s).

Definition sub_failed (now : Z) (reason : string) (s : sub_row) : sub_row :=
  mkSub (sb_session s) (sb_token s) (sb_url s) (sb_secret_enc s) (sb_filters s) (sb_created s)
    (sb_dropped s) (sb_last_delivered s) (Some reason) (Some now).

Definition d_delivered (r : delivery_row) : delivery_row :=
  mkDelivery (d_session r) (d_sub r) (d_payload r) "delivered" (d_attempts r + 1) (d_next r) (d_created r).

Definition d_failed (next : Z) (giveUp : bool) (r : delivery_row) : delivery_row :=
  mkDelivery (d_session r) (d_sub r) (d_payload r) (if giveUp then "failed" else d_status r)
    (d_attempts r + 1) (if giveUp then d_next r else next) (d_created r).

(** [internal/store/store.go#MarkDelivered] *)
Definition MarkDelivered (now : Z) (id : string) (d : db) : db :=
  match deliveries d !! id with
  | None => d
  | Some r => with_subs (alter (sub_delivered now) (d_sub r)) (with_deliveries (alter d_delivered id) d)
  end.

(** A reason that is not text for PostgreSQL fails the whole statement
    [internal/store/store.go#FailDelivery]. *)
Definition FailDelivery (now : Z) (id : string) (next : Z) (giveUp : bool) (reason : string) (d : db)
    : res dberr db :=
  if negb (valid_utf8 reason && negb (any_char (Ascii.eqb "000") reason)) then Err DbCheck
  else match deliveries d !! id with
       | None => Ok d
       | Some r => Ok (with_subs (alter (sub_failed now reason) (d_sub r))
                         (with_deliveries (alter (d_failed next giveUp) id) d))
       end.

(** [internal/store/store.go#PurgeDeliveries] *)
Definition PurgeDeliveries (before : Z) (d : db) : nat * db :=
  let P := λ (_ : string) r, (d_created r <? before)%Z in
  (affected P (deliveries d), with_deliveries (delete_where P) d).

(** ** The writer *)

(** Drains one item of the queue: routed, and stored for each match; a failed
    write counts as one lost update of a session still held
    [internal/session/deliver.go#runOutboxWriter]. *)
Definition outbox_write (up : bool) (fresh : string → string) (text : json → option string)
    (held : string → bool) (now : Z) (it : outItem) (r : receiver) (d : db) : receiver * db :=
  match oi_subs it with
  | None => (r, d)
  | Some snap =>
      let ids := route snap (oi_ctor it) (oi_payload it) in
      if bool_decide (ids = []) then (r, d)
      else match (if up then EnqueueDeliveries fresh (text (oi_payload it)) now (oi_session it) ids d
                  else Err DbDown) with
           | Ok d => (r, d)
           | Err _ =>
               (if held (oi_session it)
                then mkReceiver (rc_outbox r) (rc_snaps r) (bump 1 (oi_session it) (rc_dropped r))
                else r, d)
           end
  end.

(** ** The dispatcher *)

(** [internal/session/deliver.go:38-38#maxDeliveryAttempts] *)
Definition maxDeliveryAttempts : Z := 10.
(** [internal/session/deliver.go:39-39#backoffBase] *)
Definition backoffBase : Z := 5 * second.
(** [internal/session/deliver.go:40-40#backoffCap] *)
Definition backoffCap : Z := 5 * minute.
(** [internal/session/deliver.go:43-46#maxInflightSubs] *)
Definition maxInflightSubs : nat := 16.
(** [internal/session/deliver.go:47-47#perSubBatch] *)
Definition perSubBatch : nat := 100.
(** [internal/session/deliver.go:48-48#maxErrorLen] *)
Definition maxErrorLen : nat := 500.

(** Rows per subscription in claim order, and the subscriptions by their first
    row [internal/session/deliver.go#groupBySubscription]. *)
Definition groupBySubscription (batch : list Delivery) : gmap string (list Delivery) * list string :=
  foldl (λ acc d,
      (<[dl_sub d := default [] (acc.1 !! dl_sub d) ++ [d]]> acc.1,
       match acc.1 !! dl_sub d with Some _ => acc.2 | None => acc.2 ++ [dl_sub d] end))
    (∅, []) batch.

(** One tick: the subscriptions a goroutine is started for and the rows each is
    to post in order, given those in flight
    [internal/session/deliver.go#runOutboxDispatcher]. *)
Definition dispatch_round (now : Z) (wid : string) (inflight : list string) (d : db)
    : list (string * list Delivery) :=
  if (maxInflightSubs <=? length inflight)%nat then []
  else
    let free := (maxInflightSubs - length inflight)%nat in
    let g := groupBySubscription (ClaimDeliveries now wid inflight perSubBatch (free * perSubBatch) d) in
    map (λ s, (s, default [] (g.1 !! s))) (take free g.2).

(** ** One delivery *)

(** The POST a row becomes. *)
Record post_request := mkPost {
  pr_url : string; pr_body : string; pr_headers : list (string * string);
}.

(** [post] up to sending: the request, or the error that stops it. [url_ok] is
    whether the URL parses [internal/session/deliver.go#Manager.post]. *)
Definition post (url_ok : string → bool) (b : Box) (d : Delivery) : res string post_request :=
  if negb (url_ok (dl_url d)) then Err "url"
  else
    let hs := [("Content-Type", "application/json");
               ("X-Tgcontrol-Session", dl_session d); ("X-Tgcontrol-Kind", dl_kind d);
               ("X-Tgcontrol-Subscription", dl_sub d); ("X-Tgcontrol-Delivery", dl_id d);
               ("X-Tgcontrol-Attempt", itoa (dl_attempts d + 1))] in
    let enc := coalesce (dl_secret d) in
    if String.eqb enc "" then Ok (mkPost (dl_url d) (dl_payload d) hs)
    else match Decrypt b enc with
         | Err e => Err e
         | Ok key =>
             Ok (mkPost (dl_url d) (dl_payload d)
                   (hs ++ [("X-Tgcontrol-Signature",
                            "sha256=" +:+ hex_encode (hmac_sha256 key (dl_payload d)))]))
         end.

(** What the receiver did: an HTTP status, or an error from the client. *)
Inductive answer := Status (code : Z) | Broken (err : string).

Definition outcome (a : answer) : option string :=
  match a with
  | Status c => if ((c <? 200) || (300 <=? c))%Z then Some ("status " +:+ itoa c) else None
  | Broken e => Some e
  end.

Definition backoff (attempts : Z) : Z := Z.min backoffCap (backoffBase * 2 ^ attempts).

Definition cut_reason (reason : string) : string :=
  if (maxErrorLen <? String.length reason)%nat then ToValidUTF8 (stake maxErrorLen reason) "" else reason.

(** Posts one row and records the outcome; whether it was accepted, and the
    registry after. A failed write ([up] false, or a statement error) is not
    noticed [internal/session/deliver.go#deliverOne]. *)
Definition deliverOne (url_ok : string → bool) (b : Box) (net : post_request → answer) (now : Z)
    (up : bool) (dl : Delivery) (d : db) : bool * db :=
  let err := match post url_ok b dl with Err e => Some e | Ok rq => outcome (net rq) end in
  match err with
  | None => (true, if up then MarkDelivered now (dl_id dl) d else d)
  | Some reason =>
      let giveUp := (maxDeliveryAttempts <=? dl_attempts dl + 1)%Z in
      (false,
       if up then
         match FailDelivery now (dl_id dl) (now + backoff (dl_attempts dl)) giveUp (cut_reason reason) d with
         | Ok d => d
         | Err _ => d
         end
       else d)
  end.

(** Rows of any status are purged this long after they were queued
    [internal/session/deliver.go:50-50#retentionAge]. *)
Definition retentionAge : Z := 24 * hour.

(** ** Claiming *)

Definition sub_of (x : string * delivery_row) : string := d_sub x.2.

(** Rows of one subscription. *)
Definition of_sub {A} (f : A → string) (s : string) (l : list A) : list A := filter (λ x, f x = s) l.

Lemma cap_sublist perSub seen l : cap_per_sub perSub seen l `sublist_of` l.
Proof.
  revert seen. induction l as [|x l IH]; intros seen; cbn [cap_per_sub]; [constructor|].
  destruct (S (seen (d_sub x.2)) <=? perSub)%nat; [by apply sublist_skip|by apply sublist_cons].
Qed.

Lemma cap_bound perSub seen l s :
  (length (of_sub sub_of s (cap_per_sub perSub seen l)) <= perSub - seen s)%nat.
Proof.
  revert seen. induction l as [|x l IH]; intros seen; [simpl; lia|].
  cbn [cap_per_sub]. set (seen' := λ k, if String.eqb k (d_sub x.2) then S (seen (d_sub x.2)) else seen k).
  specialize (IH seen').
  assert (Hs : seen' s = if String.eqb s (d_sub x.2) then S (seen (d_sub x.2)) else seen s) by done.
  clearbody seen'. rewrite Hs in IH. clear Hs.
  destruct (Nat.leb_spec (S (seen (d_sub x.2))) perSub) as [Hle|Hgt].
  - unfold of_sub in *. rewrite filter_cons. destruct (decide (sub_of x = s)) as [<-|Hne].
    + unfold sub_of in *. rewrite String.eqb_refl in IH. cbn [length]. lia.
    + rewrite (proj2 (String.eqb_neq s (d_sub x.2))) in IH by (intros ->; by apply Hne). lia.
  - destruct (String.eqb_spec s (d_sub x.2)) as [->|]; lia.
Qed.

Lemma cap_keeps perSub seen l x :
  x ∈ l → (seen (sub_of x) < perSub)%nat → ∃ y, y ∈ cap_per_sub perSub seen l ∧ sub_of y = sub_of x.
Proof.
  revert seen. induction l as [|z l IH]; intros seen Hx Hs; [by apply not_elem_of_nil in Hx|].
  cbn [cap_per_sub]. destruct (decide (sub_of z = sub_of x)) as [E|E].
  - exists z. split; [|done]. unfold sub_of in *. rewrite E.
    destruct (Nat.leb_spec (S (seen (d_sub x.2))) perSub); [by left|lia].
  - apply elem_of_cons in Hx as [->|Hx]; [done|].
    edestruct (IH (λ k, if String.eqb k (d_sub z.2) then S (seen (d_sub z.2)) else seen k) Hx) as (y&Hy&Hs').
    { rewrite (proj2 (String.eqb_neq (sub_of x) (d_sub z.2))); [done|]. intros H'. by apply E. }
    exists y. split; [|done]. destruct (S (seen (d_sub z.2)) <=? perSub)%nat; [by right|done].
Qed.

Lemma of_sub_take {A} (f : A → string) s n (l : list A) :
  (length (of_sub f s (take n l)) <= length (of_sub f s l))%nat.
Proof. rewrite <- (take_drop n l) at 2. unfold of_sub. rewrite filter_app, length_app. lia. Qed.

Lemma of_sub_perm {A} (f : A → string) s (l k : list A) :
  l ≡ₚ k → length (of_sub f s l) = length (of_sub f s k).
Proof. intros H. unfold of_sub. by rewrite H. Qed.

(** The distinct subscriptions of some rows. *)
Definition subs_of {A} (f : A → string) (l : list A) : gset string := list_to_set (map f l).

Lemma elem_of_subs_of {A} (f : A → string) (l : list A) s : s ∈ subs_of f l ↔ ∃ x, x ∈ l ∧ f x = s.
Proof. unfold subs_of. rewrite elem_of_list_to_set, list_elem_of_fmap. naive_solver. Qed.

(** Pigeonhole: rows capped per subscription need many subscriptions. *)
Lemma rows_per_sub {A} (f : A → string) (c : nat) (l : list A) :
  (∀ s, (length (of_sub f s l) <= c)%nat) → (length l <= c * size (subs_of f l))%nat.
Proof.
  induction l as [l IH] using (induction_ltof1 _ (@length A)). unfold ltof in IH. intros Hc.
  destruct l as [|x l]; [simpl; lia|]. set (full := x :: l) in *.
  assert (Hsplit : length full = (length (of_sub f (f x) full) + length (filter (λ y, f y ≠ f x) full))%nat).
  { unfold of_sub. clear. induction full as [|y k IH]; [done|].
    rewrite !filter_cons. destruct (decide (f y = f x)), (decide (f y ≠ f x)); try done; simpl; lia. }
  set (rest := filter (λ y, f y ≠ f x) full) in *.
  assert (Hlt : (length rest < length full)%nat).
  { rewrite Hsplit. assert (0 < length (of_sub f (f x) full))%nat; [|lia].
    unfold of_sub, full. rewrite filter_cons_True by done. simpl. lia. }
  assert (Hsize : (S (size (subs_of f rest)) <= size (subs_of f full))%nat).
  { assert (Hd : {[f x]} ## subs_of f rest).
    { intros s ->%elem_of_singleton (y&Hy&He)%elem_of_subs_of.
      by apply list_elem_of_filter in Hy as [? ?]. }
    assert (Hu : size ({[f x]} ∪ subs_of f rest) = S (size (subs_of f rest)))
      by (rewrite size_union by done; by rewrite size_singleton).
    rewrite <- Hu.
    apply subseteq_size. intros s [->%elem_of_singleton|(y&Hy&He)%elem_of_subs_of]%elem_of_union.
    - apply elem_of_subs_of. exists x. split; [by left|done].
    - apply elem_of_subs_of. exists y. split; [by apply list_elem_of_filter in Hy as [_ ?]|done]. }
  specialize (IH rest Hlt). assert (Hrest : (length rest <= c * size (subs_of f rest))%nat).
  { apply IH. intros s. etransitivity; [|apply (Hc s)]. unfold of_sub, rest.
    clear. induction full as [|y k IH]; [done|]. rewrite (filter_cons (λ y, f y ≠ f x)).
    destruct (decide (f y ≠ f x)); rewrite !filter_cons; destruct (decide (f y = s)); simpl; lia. }
  specialize (Hc (f x)). nia.
Qed.

Lemma claimed_elem now wid busy perSub limit d x :
  x ∈ claimed now wid busy perSub limit d → x ∈ due_rows now wid busy d.
Proof.
  unfold claimed. intros Hx%take_subseteq. rewrite elem_of_order_by in Hx.
  eapply sublist_subseteq in Hx; [|apply cap_sublist]. by rewrite merge_sort_Permutation in Hx.
Qed.

Lemma NoDup_sublist {A} (l k : list A) : l `sublist_of` k → NoDup k → NoDup l.
Proof.
  induction 1 as [|x l k Hs IH|x l k Hs IH]; intros Hk; [done|..]; apply NoDup_cons in Hk as [Hx Hk].
  - constructor; [|by apply IH]. intros Hin. apply Hx. by eapply sublist_subseteq.
  - by apply IH.
Qed.

Lemma sublist_map {A B} (f : A → B) (l k : list A) : l `sublist_of` k → f <$> l `sublist_of` f <$> k.
Proof. induction 1; [constructor|by apply sublist_skip|by apply sublist_cons]. Qed.

Lemma claimed_nodup now wid busy perSub limit d : NoDup (claimed now wid busy perSub limit d).*1.
Proof.
  unfold claimed. rewrite fmap_take. apply NoDup_take. unfold order_by.
  rewrite merge_sort_Permutation. eapply NoDup_sublist.
  - apply sublist_map, cap_sublist.
  - rewrite merge_sort_Permutation. apply NoDup_select.
Qed.

Lemma claimed_per_sub now wid busy perSub limit d s :
  (length (of_sub sub_of s (claimed now wid busy perSub limit d)) <= perSub)%nat.
Proof.
  unfold claimed. etransitivity; [apply of_sub_take|].
  rewrite (of_sub_perm _ _ _ _ (order_by_perm _ _)).
  etransitivity; [apply cap_bound|]. cbn beta. lia.
Qed.

(** Subscriptions with something to deliver now. *)
Definition waiting_subs (now : Z) (wid : string) (busy : list string) (d : db) : gset string :=
  subs_of sub_of (due_rows now wid busy d).

Lemma claimed_serves now wid busy perSub free d :
  (0 < perSub)%nat →
  let served := subs_of sub_of (claimed now wid busy perSub (free * perSub) d) in
  served ⊆ waiting_subs now wid busy d ∧
  (free <= size served \/ served = waiting_subs now wid busy d)%nat.
Proof.
  intros Hp served.
  assert (Hsub : served ⊆ waiting_subs now wid busy d).
  { intros s (x&Hx&<-)%elem_of_subs_of. apply elem_of_subs_of. exists x.
    split; [by eapply claimed_elem|done]. }
  split; [done|]. unfold claimed in served.
  set (c := order_by _ _) in served.
  destruct (Nat.le_gt_cases (length c) (free * perSub)) as [Hle|Hgt].
  - right. unfold served. rewrite take_ge by done. apply set_eq. intros s. split.
    + intros Hs. apply Hsub. unfold served. by rewrite take_ge.
    + intros (x&Hx&<-)%elem_of_subs_of.
      destruct (cap_keeps perSub (λ _, O) (merge_sort le_due (due_rows now wid busy d)) x) as (y&Hy&<-).
      { by rewrite merge_sort_Permutation. } { done. }
      apply elem_of_subs_of. exists y. split; [|done]. unfold c. by rewrite elem_of_order_by.
  - left. pose proof (rows_per_sub sub_of perSub (take (free * perSub) c)) as Hr.
    rewrite length_take, Nat.min_l in Hr by lia.
    assert (free * perSub <= perSub * size served)%nat; [|nia]. apply Hr. intros s.
    etransitivity; [apply of_sub_take|]. unfold c. rewrite (of_sub_perm _ _ _ _ (order_by_perm _ _)).
    etransitivity; [apply cap_bound|]. cbn beta. lia.
Qed.
