(* ===== verification/Dispatch.v ===== *)
(** The dispatcher (internal/session/deliver.go): what a claim may return, how
    many receivers a round serves, the running dispatcher as a step relation,
    and what a receiver can verify about one POST. *)

From S2P Require Import Prelude GoStr Json Types Db Utf8 Sha256 Gcm Secret Registry Tokens Subs Delivery.


(** ** Claims *)

Lemma batch_nodup now wid busy perSub limit d :
  NoDup (map dl_id (ClaimDeliveries now wid busy perSub limit d)).
Proof. unfold ClaimDeliveries. rewrite map_map. apply (claimed_nodup now wid busy perSub limit d). Qed.

Lemma of_sub_claimed d s l : length (of_sub dl_sub s (map (to_delivery d) l)) = length (of_sub sub_of s l).
Proof.
  unfold of_sub. induction l as [|y l IH]; [done|]. cbn [map]. rewrite !filter_cons.
  change (dl_sub (to_delivery d y)) with (sub_of y). destruct (decide (sub_of y = s)); cbn [length]; congruence.
Qed.

(** A claim hands out only what may be delivered now. Every row returned is
    pending and due, of a session this worker owns, of a subscription not busy
    and, when a token owns it, of a token that covers the session at this
    moment; its kind, URL, secret and attempt count are the registry's. No row
    comes twice, no subscription contributes more than its cap, and the batch
    stays within its limit. *)
Theorem claims_only_deliverable now wid busy perSub limit d :
  let batch := ClaimDeliveries now wid busy perSub limit d in
  (length batch <= limit)%nat ∧ NoDup (map dl_id batch) ∧
  (∀ s, (length (of_sub dl_sub s batch) <= perSub)%nat) ∧
  (∀ x, x ∈ batch → ∃ r sb ss,
     deliveries d !! dl_id x = Some r ∧ subs d !! d_sub r = Some sb ∧ sessions d !! d_session r = Some ss ∧
     d_status r = "pending" ∧ (d_next r <= now)%Z ∧ s_worker ss = Some wid ∧ d_sub r ∉ busy ∧
     (∀ t, sb_token sb = Some t → TokenGrantsSession t (d_session r) d = true) ∧
     x = mkDeliv (dl_id x) (d_session r) (s_kind ss) (d_sub r) (d_payload r) (d_attempts r)
           (sb_url sb) (sb_secret_enc sb)).
Proof.
  intros batch. unfold batch, ClaimDeliveries. split; [|split; [|split]].
  - rewrite length_map. unfold claimed. rewrite length_take. lia.
  - apply batch_nodup.
  - intros s. etransitivity; [|apply (claimed_per_sub now wid busy perSub limit d s)].
    by rewrite of_sub_claimed.
  - intros x (y&->&Hy)%list_elem_of_fmap. apply claimed_elem in Hy. destruct y as [k r].
    apply elem_of_select in Hy as [Hk Hd]. unfold due in Hd. simpl in *.
    destruct (subs d !! d_sub r) as [sb|] eqn:Esb; [|done].
    destruct (sessions d !! d_session r) as [ss|] eqn:Ess; [|done].
    rewrite !andb_true_iff, opt_eqb_spec, String.eqb_eq, Z.leb_le, negb_true_iff, bool_decide_eq_false in Hd.
    destruct Hd as ((((H1&H2)&H3)&H4)&H5). exists r, sb, ss. repeat split; try done.
    + intros t Ht. unfold served in H5. rewrite Ht, Ess in H5. unfold TokenGrantsSession. rewrite Ess.
      by destruct (tokens d !! t).
    + unfold to_delivery. simpl. by rewrite Esb, Ess.
Qed.

(** ** Grouping *)

Lemma group_spec batch :
  let g := groupBySubscription batch in
  NoDup g.2 ∧ (∀ s, s ∈ g.2 ↔ s ∈ map dl_sub batch) ∧
  (∀ s, g.1 !! s = if bool_decide (s ∈ map dl_sub batch) then Some (of_sub dl_sub s batch) else None).
Proof.
  induction batch as [|x l IH] using rev_ind; cbn beta zeta.
  { split; [constructor|]. split; [done|]. intros s. case_bool_decide as Hs; [by apply not_elem_of_nil in Hs|apply lookup_empty]. }
  unfold groupBySubscription in *. rewrite foldl_snoc. cbn beta zeta in IH.
  set (g := foldl _ _ _) in *. destruct IH as (Hnd&Hin&Hmap). cbn [fst snd].
  assert (Hold : is_Some (g.1 !! dl_sub x) ↔ dl_sub x ∈ g.2).
  { rewrite Hin, Hmap. case_bool_decide; [|split; [by intros [? ?]|done]]. by split; eauto. }
  assert (Hmem : ∀ s, s ∈ map dl_sub (l ++ [x]) ↔ s ∈ map dl_sub l ∨ s = dl_sub x).
  { intros s. rewrite map_app, elem_of_app. simpl. by rewrite list_elem_of_singleton. }
  split; [|split].
  - destruct (g.1 !! dl_sub x) as [?|] eqn:E; [done|]. apply NoDup_app. split; [done|].
    split; [|apply NoDup_singleton]. intros s Hs ->%list_elem_of_singleton. apply Hold in Hs as [? ?]. congruence.
  - intros s. rewrite Hmem, <- Hin. destruct (g.1 !! dl_sub x) as [?|] eqn:E.
    + split; [by left|]. intros [?| ->]; [done|]. apply Hold. eauto.
    + rewrite elem_of_app, list_elem_of_singleton. done.
  - intros s. rewrite (bool_decide_ext _ _ (Hmem s)). unfold of_sub in *. rewrite filter_app, filter_cons, filter_nil.
    destruct (decide (dl_sub x = s)) as [<-|Hne].
    + rewrite lookup_insert_eq, bool_decide_eq_true_2 by (by right). rewrite Hmap. do 2 f_equal.
      case_bool_decide as Hb; [done|]. simpl. symmetry. apply filter_none. apply Forall_forall.
      intros y Hy He. apply Hb. rewrite <- He. apply list_elem_of_fmap. by exists y.
    + rewrite lookup_insert_ne, Hmap, app_nil_r by done.
      erewrite (bool_decide_ext (s ∈ map dl_sub l ∨ s = dl_sub x) (s ∈ map dl_sub l)); [done|].
      split; [|by left]. intros [?| ->]; done.
Qed.

(** What one round starts. *)
Lemma round_spec now wid inflight d :
  (length inflight < maxInflightSubs)%nat →
  let free := (maxInflightSubs - length inflight)%nat in
  let batch := ClaimDeliveries now wid inflight perSubBatch (free * perSubBatch) d in
  let g := dispatch_round now wid inflight d in
  NoDup (map fst g) ∧ length g = (free `min` size (subs_of dl_sub batch))%nat ∧
  (∀ s rows, (s, rows) ∈ g → s ∈ map dl_sub batch ∧ rows = of_sub dl_sub s batch).
Proof.
  intros Hlt free batch g. unfold g, dispatch_round.
  destruct (Nat.leb_spec maxInflightSubs (length inflight)) as [?|_]; [lia|].
  fold free. fold batch. destruct (group_spec batch) as (Hnd&Hin&Hmap).
  set (gr := groupBySubscription batch) in *.
  split; [|split].
  - rewrite map_map. cbn [fst]. rewrite map_id. by apply NoDup_take.
  - rewrite length_map, length_take. f_equal.
    rewrite <- (size_list_to_set (C := gset string)) by done. unfold subs_of. f_equal.
    apply set_eq. intros s. rewrite !elem_of_list_to_set. apply Hin.
  - intros s rows Hs%list_elem_of_fmap. destruct Hs as (s'&[= -> ->]&Hs'%take_subseteq%Hin).
    split; [done|]. rewrite Hmap. by rewrite bool_decide_eq_true_2.
Qed.

Lemma subs_of_batch now wid busy perSub limit d :
  subs_of dl_sub (ClaimDeliveries now wid busy perSub limit d) =
  subs_of sub_of (claimed now wid busy perSub limit d).
Proof. unfold subs_of, ClaimDeliveries. by rewrite map_map. Qed.

Lemma batch_due now wid busy perSub limit d x :
  x ∈ ClaimDeliveries now wid busy perSub limit d →
  dl_sub x ∉ busy ∧
  ∃ r, deliveries d !! dl_id x = Some r ∧ d_status r = "pending" ∧ d_sub r = dl_sub x ∧
       d_attempts r = dl_attempts x.
Proof.
  intros ([k r]&->&Hy)%list_elem_of_fmap. apply claimed_elem, elem_of_select in Hy as [Hk Hd].
  unfold due in Hd. simpl in *.
  destruct (subs d !! d_sub r), (sessions d !! d_session r); try done.
  rewrite !andb_true_iff, String.eqb_eq, negb_true_iff, bool_decide_eq_false in Hd.
  destruct Hd as ((((H1&_)&_)&H4)&_). split; [done|]. by exists r.
Qed.

(** C35: A slow receiver holds up only itself. Each tick starts a delivery for
    every receiver with something due, up to sixteen at once counting those
    still busy: exactly as many as there are free places or waiting receivers.
    None is busy already, none is started twice, and each gets at least one and
    at most a hundred rows, all its own. *)
Theorem round_serves_waiting now wid inflight d :
  (length inflight <= maxInflightSubs)%nat →
  let g := dispatch_round now wid inflight d in
  length g = ((maxInflightSubs - length inflight) `min` size (waiting_subs now wid inflight d))%nat ∧
  (length inflight + length g <= maxInflightSubs)%nat ∧ NoDup (map fst g) ∧
  (∀ s rows, (s, rows) ∈ g → s ∉ inflight ∧ s ∈ waiting_subs now wid inflight d ∧
     (0 < length rows <= perSubBatch)%nat ∧ Forall (λ x, dl_sub x = s) rows).
Proof.
  intros Hle g. destruct (decide (length inflight = maxInflightSubs)) as [He|Hne].
  { unfold g, dispatch_round. rewrite He, Nat.leb_refl, Nat.sub_diag. repeat split; try done; try constructor.
    all: by intros ?%not_elem_of_nil || by apply not_elem_of_nil in H. }
  destruct (round_spec now wid inflight d) as (Hnd&Hlen&Hin); [lia|]. fold g in Hnd, Hlen, Hin.
  set (free := (maxInflightSubs - length inflight)%nat) in *.
  destruct (claimed_serves now wid inflight perSubBatch free d) as [Hs1 Hs2]; [unfold perSubBatch; lia|].
  rewrite subs_of_batch in Hlen. split; [|split; [|split; [done|]]].
  - rewrite Hlen. destruct Hs2 as [Hs2| ->]; [|done]. apply subseteq_size in Hs1. lia.
  - rewrite Hlen. unfold free. lia.
  - intros s rows Hsr. destruct (Hin s rows Hsr) as [Hs ->].
    apply list_elem_of_fmap in Hs as (x&->&Hx). destruct (batch_due _ _ _ _ _ _ _ Hx) as [Hb _].
    split; [done|]. split; [|split].
    + apply Hs1. rewrite <- subs_of_batch. apply elem_of_subs_of. eauto.
    + split.
      * destruct (of_sub dl_sub (dl_sub x) _) eqn:E; [|simpl; lia]. exfalso.
        apply (not_elem_of_nil x). rewrite <- E. unfold of_sub. by apply list_elem_of_filter.
      * unfold ClaimDeliveries. rewrite of_sub_claimed. apply claimed_per_sub.
    + apply Forall_forall. intros y Hy. unfold of_sub in Hy. by apply list_elem_of_filter in Hy as [? _].
Qed.

(** ** The dispatcher running *)

(** The registry, and the goroutines: a subscription each, with the rows it has
    still to post. *)
Record dispatcher := mkDispatcher {
  dp_db : db;
  dp_work : list (string * list Delivery);
}.

Definition working_ids (w : list (string * list Delivery)) : list string :=
  mjoin (map (λ g, map dl_id g.2) w).

(** What everything but deliveries does to the delivery table meanwhile: rows are
    queued under new ids, as new; rows are purged or go with their subscription. *)
Definition others (w : list (string * list Delivery)) (d d' : db) : Prop :=
  ∀ k r, deliveries d' !! k = Some r →
    deliveries d !! k = Some r ∨
    (k ∉ working_ids w ∧ d_status r = "pending" ∧ d_attempts r = 0%Z).

(** The dispatcher's steps: a tick starts goroutines; a goroutine posts its next
    row and goes on only if it was accepted; a goroutine without rows is done;
    the rest of the system moves on; a peer's dispatcher posts a row it has in
    its hands, [dl] as claimed there, when [may] allows it. *)
Inductive dstep (may : dispatcher → Delivery → Prop) (url_ok : string → bool) (b : Box) (wid : string) : dispatcher → dispatcher → Prop :=
| Tick now s :
    dstep may url_ok b wid s
      (mkDispatcher (dp_db s) (dp_work s ++ dispatch_round now wid (map fst (dp_work s)) (dp_db s)))
| Post now net up sub dl rows w1 w2 s :
    dp_work s = w1 ++ (sub, dl :: rows) :: w2 →
    dstep may url_ok b wid s
      (let r := deliverOne url_ok b net now up dl (dp_db s) in
       mkDispatcher r.2 (w1 ++ (if r.1 then [(sub, rows)] else []) ++ w2))
| Finish sub w1 w2 s :
    dp_work s = w1 ++ (sub, []) :: w2 →
    dstep may url_ok b wid s (mkDispatcher (dp_db s) (w1 ++ w2))
| Others d' s :
    others (dp_work s) (dp_db s) d' → dstep may url_ok b wid s (mkDispatcher d' (dp_work s))
| Peer now net up dl s :
    may s dl → dstep may url_ok b wid s (mkDispatcher (deliverOne url_ok b net now up dl (dp_db s)).2 (dp_work s)).

(** A peer may have claimed anything at any time. *)
Definition any_row (s : dispatcher) (dl : Delivery) : Prop := True.

(** Or only rows this worker has not in its hands, as they are in the registry:
    so it is as long as no session changes hands while one of its deliveries is
    under way. *)
Definition own_row (s : dispatcher) (dl : Delivery) : Prop :=
  dl_id dl ∉ working_ids (dp_work s) ∧
  ∀ r, deliveries (dp_db s) !! dl_id dl = Some r → d_status r = "pending" ∧ d_attempts r = dl_attempts dl.

(** A row's bookkeeping. *)
Definition row_ok (r : delivery_row) : Prop :=
  (0 <= d_attempts r <= maxDeliveryAttempts)%Z ∧
  (d_status r = "pending" → (d_attempts r < maxDeliveryAttempts)%Z) ∧
  (d_status r = "failed" → d_attempts r = maxDeliveryAttempts).

(** Whatever peers do. *)
Record dwork (s : dispatcher) : Prop := mkDwork {
  dw_one : NoDup (map fst (dp_work s));
  dw_few : (length (dp_work s) <= maxInflightSubs)%nat;
  dw_ids : NoDup (working_ids (dp_work s));
  dw_rows : ∀ sub rows dl, (sub, rows) ∈ dp_work s → dl ∈ rows →
    dl_sub dl = sub ∧ ∀ r, deliveries (dp_db s) !! dl_id dl = Some r → d_sub r = sub ∧ (dl_attempts dl <= d_attempts r)%Z;
}.

(** While nobody else has this worker's rows. *)
Record dinv (s : dispatcher) : Prop := mkDinv {
  di_work : dwork s;
  di_rows : ∀ sub rows dl, (sub, rows) ∈ dp_work s → dl ∈ rows →
    ∀ r, deliveries (dp_db s) !! dl_id dl = Some r → d_status r = "pending" ∧ d_attempts r = dl_attempts dl;
  di_table : ∀ k r, deliveries (dp_db s) !! k = Some r → row_ok r;
}.

Lemma deliverOne_row url_ok b net now up dl d k r' :
  deliveries (deliverOne url_ok b net now up dl d).2 !! k = Some r' →
  deliveries d !! k = Some r' ∨
  (k = dl_id dl ∧ ∃ r, deliveries d !! k = Some r ∧
     (r' = d_delivered r ∨
      r' = d_failed (now + backoff (dl_attempts dl)) (maxDeliveryAttempts <=? dl_attempts dl + 1)%Z r)).
Proof.
  unfold deliverOne. destruct (match post url_ok b dl with Ok rq => _ | Err e => _ end) as [reason|]; cbn [snd].
  - destruct up; [|by left]. unfold FailDelivery. destruct (negb _); [by left|].
    destruct (deliveries d !! dl_id dl) as [r|] eqn:E; [|by left]. simpl.
    destruct (decide (k = dl_id dl)) as [->|]; [|rewrite lookup_alter_ne by done; by left].
    rewrite lookup_alter_eq, E. simpl. intros [= <-]. right. eauto.
  - destruct up; [|by left]. unfold MarkDelivered.
    destruct (deliveries d !! dl_id dl) as [r|] eqn:E; [|by left]. simpl.
    destruct (decide (k = dl_id dl)) as [->|]; [|rewrite lookup_alter_ne by done; by left].
    rewrite lookup_alter_eq, E. simpl. intros [= <-]. right. eauto.
Qed.

Lemma row_ok_after r next a :
  row_ok r → d_status r = "pending" → d_attempts r = a →
  row_ok (d_delivered r) ∧ row_ok (d_failed next (maxDeliveryAttempts <=? a + 1)%Z r).
Proof.
  intros ((H0&H1)&H2&H3) Hp <-. specialize (H2 Hp). unfold row_ok. split; simpl.
  - split; [lia|]. by split.
  - destruct (Z.leb_spec maxDeliveryAttempts (d_attempts r + 1)); split; try lia; split; try done; try lia.
    rewrite Hp. done.
Qed.

Lemma working_ids_app w1 w2 : working_ids (w1 ++ w2) = working_ids w1 ++ working_ids w2.
Proof. unfold working_ids. by rewrite map_app, join_app. Qed.

Lemma elem_of_working w k : k ∈ working_ids w ↔ ∃ sub rows dl, (sub, rows) ∈ w ∧ dl ∈ rows ∧ k = dl_id dl.
Proof.
  unfold working_ids. rewrite list_elem_of_join. split.
  - intros (l&Hk&([sub rows]&->&Hw)%list_elem_of_fmap). apply list_elem_of_fmap in Hk as (dl&->&Hdl).
    exists sub, rows, dl. done.
  - intros (sub&rows&dl&Hw&Hdl&->). exists (map dl_id rows). split; apply list_elem_of_fmap; [by exists dl|].
    by exists (sub, rows).
Qed.

Lemma groups_nodup (batch : list Delivery) (g : list (string * list Delivery)) :
  NoDup (map dl_id batch) → NoDup (map fst g) →
  (∀ s rows, (s, rows) ∈ g → rows = of_sub dl_sub s batch) → NoDup (working_ids g).
Proof.
  intros Hb. induction g as [|[s rows] g IH]; intros Hnd Hin; [constructor|].
  apply NoDup_cons in Hnd as [Hs Hnd]. unfold working_ids. simpl. apply NoDup_app.
  assert (Hrows : rows = of_sub dl_sub s batch) by (apply Hin; by left).
  assert (Hid : ∀ x y, x ∈ batch → y ∈ batch → dl_id x = dl_id y → x = y).
  { clear -Hb. intros x y Hx Hy He. induction batch as [|z l IH]; [by apply not_elem_of_nil in Hx|].
    simpl in Hb. apply NoDup_cons in Hb as [Hz Hb].
    apply elem_of_cons in Hx as [->|Hx], Hy as [->|Hy]; [done|..|by apply IH];
      exfalso; apply Hz; apply list_elem_of_fmap; eauto. }
  split; [|split].
  - rewrite Hrows. apply (NoDup_sublist _ (map dl_id batch)); [|done]. apply sublist_map.
    unfold of_sub. clear. induction batch as [|y l IH]; [constructor|]. rewrite filter_cons.
    destruct (decide _); [by apply sublist_skip|by apply sublist_cons].
  - intros k (x&->&Hx)%list_elem_of_fmap (s'&rows'&y&Hg&Hy&He)%elem_of_working. apply Hs.
    assert (Hrows' : rows' = of_sub dl_sub s' batch) by (apply Hin; by right).
    rewrite Hrows in Hx. rewrite Hrows' in Hy. unfold of_sub in *.
    apply list_elem_of_filter in Hx as [<- Hx]. apply list_elem_of_filter in Hy as [<- Hy].
    rewrite (Hid x y) by done. apply list_elem_of_fmap. by exists (dl_sub y, rows').
  - apply IH; [done|]. intros s' rows' H. apply Hin. by right.
Qed.

Lemma round_rows now wid inflight d s rows dl :
  (s, rows) ∈ dispatch_round now wid inflight d → dl ∈ rows →
  dl_sub dl = s ∧ ∃ r, deliveries d !! dl_id dl = Some r ∧ d_status r = "pending" ∧
    d_attempts r = dl_attempts dl ∧ d_sub r = s.
Proof.
  unfold dispatch_round. destruct (maxInflightSubs <=? length inflight)%nat eqn:E.
  { by intros ?%not_elem_of_nil. }
  apply Nat.leb_gt in E. destruct (round_spec now wid inflight d E) as (_&_&Hin).
  unfold dispatch_round in Hin. rewrite (proj2 (Nat.leb_gt _ _) E) in Hin.
  intros Hs Hdl. destruct (Hin s rows Hs) as [_ ->]. unfold of_sub in Hdl.
  apply list_elem_of_filter in Hdl as [<- Hx]. split; [done|].
  apply batch_due in Hx as [_ (r&?&?&?&?)]. by exists r.
Qed.

Lemma round_new now wid inflight d :
  (length inflight <= maxInflightSubs)%nat →
  let g := dispatch_round now wid inflight d in
  NoDup (map fst g) ∧ (length inflight + length g <= maxInflightSubs)%nat ∧ NoDup (working_ids g) ∧
  ∀ s, s ∈ map fst g → s ∉ inflight.
Proof.
  intros Hle g. destruct (decide (length inflight = maxInflightSubs)) as [He|Hne].
  { unfold g, dispatch_round. rewrite He, Nat.leb_refl.
    split; [constructor|]. split; [cbn [length]; lia|]. split; [constructor|].
    by intros s ?%not_elem_of_nil. }
  destruct (round_spec now wid inflight d) as (Hnd&Hlen&Hin); [lia|]. fold g in Hnd, Hlen, Hin.
  split; [done|]. split; [rewrite Hlen; lia|]. split.
  - eapply groups_nodup; [apply batch_nodup|done|]. intros s rows Hs. by destruct (Hin s rows Hs).
  - intros s ([s' rows]&->&Hs)%list_elem_of_fmap. destruct (Hin _ _ Hs) as [Hb _].
    apply list_elem_of_fmap in Hb as (x&E&Hx). simpl in *. rewrite E.
    by apply batch_due in Hx as [? _].
Qed.

Lemma dwork_tick now wid s :
  dwork s → dwork (mkDispatcher (dp_db s) (dp_work s ++ dispatch_round now wid (map fst (dp_work s)) (dp_db s))).
Proof.
  intros [H1 H2 H3 H4]. destruct (round_new now wid (map fst (dp_work s)) (dp_db s)) as (N1&N2&N3&N4).
  { by rewrite length_map. }
  rewrite length_map in N2. pose proof (round_rows now wid (map fst (dp_work s)) (dp_db s)) as Hg. set (g := dispatch_round _ _ _ _) in *.
  constructor; simpl.
  - rewrite map_app. apply NoDup_app. split; [done|]. split; [|done]. intros x Hx Hg'. by apply (N4 x).
  - rewrite length_app. lia.
  - rewrite working_ids_app. apply NoDup_app. split; [done|]. split; [|done].
    intros k (s1&r1&x&Hw&Hx&->)%elem_of_working (s2&r2&y&Hg2&Hy&He)%elem_of_working.
    destruct (Hg s2 r2 y Hg2 Hy) as (_&r&Hr&_&_&Hsub). rewrite <- He in Hr.
    destruct (H4 s1 r1 x Hw Hx) as [_ Hx']. destruct (Hx' r Hr) as [E _].
    apply (N4 s2); [apply list_elem_of_fmap; by exists (s2, r2)|].
    rewrite <- Hsub, E. apply list_elem_of_fmap. by exists (s1, r1).
  - intros sub rows dl [Hw|Hg']%elem_of_app Hdl; [by apply (H4 sub rows dl)|].
    destruct (Hg sub rows dl Hg' Hdl) as (E&r&Hr&_&Ha&Hs). split; [done|]. intros r' Hr'.
    rewrite Hr in Hr'. injection Hr' as <-. split; [done|lia].
Qed.

Lemma dinv_tick now wid s :
  dinv s → dinv (mkDispatcher (dp_db s) (dp_work s ++ dispatch_round now wid (map fst (dp_work s)) (dp_db s))).
Proof.
  intros [H1 H2 H3]. split; [by apply dwork_tick| |done]. simpl.
  intros sub rows dl [Hw|Hg]%elem_of_app Hdl; [by apply (H2 sub rows dl)|].
  destruct (round_rows _ _ _ _ sub rows dl Hg Hdl) as (_&r&Hr&?&?&_). intros r' Hr'. rewrite Hr in Hr'. by injection Hr' as <-.
Qed.

(** The rows left to post after one: no new ones, and not that one again. *)
Lemma post_left (acc : bool) (sub : string) dl rows w1 w2 :
  let w' := w1 ++ (if acc then [(sub, rows)] else []) ++ w2 in
  NoDup (working_ids (w1 ++ (sub, dl :: rows) :: w2)) →
  NoDup (working_ids w') ∧ dl_id dl ∉ working_ids w' ∧
  ∀ g rws x, (g, rws) ∈ w' → x ∈ rws → ∃ rws', (g, rws') ∈ w1 ++ (sub, dl :: rows) :: w2 ∧ x ∈ rws'.
Proof.
  intros w' H3. split; [|split].
  1,2: assert (Hp : working_ids (w1 ++ (sub, dl :: rows) :: w2) ≡ₚ dl_id dl :: working_ids (w1 ++ (sub, rows) :: w2))
    by (rewrite !working_ids_app; unfold working_ids; simpl; symmetry; apply Permutation_middle);
    rewrite Hp in H3; apply NoDup_cons in H3 as [Hn Hd]; subst w'; destruct acc; try done;
    assert (Hs : working_ids (w1 ++ [] ++ w2) `sublist_of` working_ids (w1 ++ (sub, rows) :: w2))
      by (rewrite !working_ids_app; apply sublist_app; [done|]; unfold working_ids; simpl; by apply sublist_inserts_l).
  - by eapply NoDup_sublist.
  - intros Hin. apply Hn. by eapply sublist_subseteq.
  - intros g rws x Hg Hx. subst w'. rewrite !elem_of_app in Hg. destruct Hg as [Hg|[Hg|Hg]].
    + exists rws. split; [|done]. apply elem_of_app. by left.
    + destruct acc; [|by apply not_elem_of_nil in Hg]. apply list_elem_of_singleton in Hg as [= -> ->].
      exists (dl :: rows). split; [|by right]. apply elem_of_app. right. by left.
    + exists rws. split; [|done]. apply elem_of_app. right. by right.
Qed.

(** What a post leaves of a row. *)
Lemma deliverOne_keeps url_ok b net now up dl d k r' :
  deliveries (deliverOne url_ok b net now up dl d).2 !! k = Some r' →
  ∃ r, deliveries d !! k = Some r ∧ d_sub r' = d_sub r ∧ (d_attempts r <= d_attempts r')%Z.
Proof.
  intros [H|(_&r&Hr&[->| ->])]%deliverOne_row; [exists r'|exists r..]; split; try done; cbn; split; try done; lia.
Qed.

(** A change of the table that keeps the rows of this worker's hands. *)
Lemma dwork_table d' s :
  (∀ k r', deliveries d' !! k = Some r' → k ∈ working_ids (dp_work s) →
     ∃ r, deliveries (dp_db s) !! k = Some r ∧ d_sub r' = d_sub r ∧ (d_attempts r <= d_attempts r')%Z) →
  dwork s → dwork (mkDispatcher d' (dp_work s)).
Proof.
  intros Hk [H1 H2 H3 H4]. split; try done. simpl. intros sub rows dl Hw Hdl. destruct (H4 sub rows dl Hw Hdl) as [E Hr].
  split; [done|]. intros r' Hr'. destruct (Hk _ _ Hr') as (r&Hr0&->&Ha); [apply elem_of_working; by exists sub, rows, dl|].
  destruct (Hr r Hr0) as [-> ?]. split; [done|lia].
Qed.

Lemma dwork_post url_ok b now net up sub dl rows w1 w2 s :
  dp_work s = w1 ++ (sub, dl :: rows) :: w2 → dwork s →
  dwork (let r := deliverOne url_ok b net now up dl (dp_db s) in
         mkDispatcher r.2 (w1 ++ (if r.1 then [(sub, rows)] else []) ++ w2)).
Proof.
  intros Hw [H1 H2 H3 H4]. rewrite Hw in *. cbn zeta. set (r := deliverOne _ _ _ _ _ _ _).
  destruct (post_left r.1 sub dl rows w1 w2 H3) as (Hids&_&Hsub). constructor; simpl; [| |exact Hids|].
  - rewrite map_app in *. apply (NoDup_sublist _ (map fst w1 ++ sub :: map fst w2)); [|done].
    apply sublist_app; [done|]. rewrite map_app. destruct r.1; [done|by apply sublist_cons].
  - rewrite length_app in *. rewrite length_app. simpl in H2. destruct r.1; simpl; lia.
  - intros g rws x Hg Hx. destruct (Hsub g rws x Hg Hx) as (rws'&Hg'&Hx').
    destruct (H4 g rws' x Hg' Hx') as [E Hr]. split; [done|]. intros q (q0&Hq0&->&Ha)%deliverOne_keeps.
    destruct (Hr q0 Hq0) as [-> ?]. split; [done|lia].
Qed.

Lemma row_ok_post url_ok b now net up dl d :
  (∀ r, deliveries d !! dl_id dl = Some r → d_status r = "pending" ∧ d_attempts r = dl_attempts dl) →
  (∀ k r, deliveries d !! k = Some r → row_ok r) →
  ∀ k r, deliveries (deliverOne url_ok b net now up dl d).2 !! k = Some r → row_ok r.
Proof.
  intros Hdl H k q Hq. apply deliverOne_row in Hq as [Hq|(->&q0&Hq0&Hd)]; [by eapply H|].
  destruct (Hdl q0 Hq0) as [Hp Ha].
  destruct (row_ok_after q0 (now + backoff (dl_attempts dl)) (dl_attempts dl) (H _ _ Hq0) Hp Ha). by destruct Hd as [->| ->].
Qed.

Lemma dinv_post url_ok b now net up sub dl rows w1 w2 s :
  dp_work s = w1 ++ (sub, dl :: rows) :: w2 → dinv s →
  dinv (let r := deliverOne url_ok b net now up dl (dp_db s) in
        mkDispatcher r.2 (w1 ++ (if r.1 then [(sub, rows)] else []) ++ w2)).
Proof.
  intros Hw [H1 H2 H3]. split; [by apply dwork_post| |].
  - simpl. pose proof (dw_ids s H1) as Hnd. rewrite Hw in *.
    set (r := deliverOne _ _ _ _ _ _ _). destruct (post_left r.1 sub dl rows w1 w2 Hnd) as (_&Hno&Hsub).
    intros g rws x Hg Hx. destruct (Hsub g rws x Hg Hx) as (rws'&Hg'&Hx'). intros q [Hq|[He _]]%deliverOne_row; [by eapply H2|].
    exfalso. apply Hno. rewrite <- He. apply elem_of_working. by exists g, rws, x.
  - simpl. apply row_ok_post; [|done]. apply (H2 sub (dl :: rows)); [rewrite Hw; apply elem_of_app; right; by left|by left].
Qed.

Lemma dwork_finish sub w1 w2 s :
  dp_work s = w1 ++ (sub, []) :: w2 → dwork s → dwork (mkDispatcher (dp_db s) (w1 ++ w2)).
Proof.
  intros Hw [H1 H2 H3 H4]. rewrite Hw in *. constructor; simpl.
  - rewrite map_app in *. eapply NoDup_sublist; [|exact H1]. apply sublist_app; [done|by apply sublist_cons].
  - rewrite length_app in *. simpl in H2. lia.
  - by rewrite working_ids_app in *.
  - intros g rows dl Hg. apply (H4 g). rewrite elem_of_app in *. destruct Hg; [by left|]. right. by right.
Qed.

Lemma dinv_finish sub w1 w2 s :
  dp_work s = w1 ++ (sub, []) :: w2 → dinv s → dinv (mkDispatcher (dp_db s) (w1 ++ w2)).
Proof.
  intros Hw [H1 H2 H3]. split; [by eapply dwork_finish| |done]. rewrite Hw in *. simpl.
  intros g rows dl Hg. apply (H2 g). rewrite elem_of_app in *. destruct Hg; [by left|]. right. by right.
Qed.

Lemma dwork_others d' s : others (dp_work s) (dp_db s) d' → dwork s → dwork (mkDispatcher d' (dp_work s)).
Proof. intros Ho. apply dwork_table. intros k r' Hr' Hin. destruct (Ho k r' Hr') as [?|[? _]]; [by exists r'|done]. Qed.

Lemma dinv_others d' s : others (dp_work s) (dp_db s) d' → dinv s → dinv (mkDispatcher d' (dp_work s)).
Proof.
  intros Ho [H1 H2 H3]. split; [by apply dwork_others|..]; simpl.
  - intros g rows dl Hg Hdl r Hq. destruct (Ho _ _ Hq) as [?|(Hn&_)]; [by eapply H2|].
    exfalso. apply Hn. apply elem_of_working. by exists g, rows, dl.
  - intros k r Hq. destruct (Ho _ _ Hq) as [?|(_&Hp&Ha)]; [by eapply H3|].
    unfold row_ok. rewrite Hp, Ha. unfold maxDeliveryAttempts. split; [lia|]. split; [lia|done].
Qed.

Lemma dwork_peer url_ok b net now up dl s :
  dwork s → dwork (mkDispatcher (deliverOne url_ok b net now up dl (dp_db s)).2 (dp_work s)).
Proof. apply dwork_table. intros k r' Hr' _. by eapply deliverOne_keeps. Qed.

Lemma dinv_peer url_ok b net now up dl s :
  own_row s dl → dinv s → dinv (mkDispatcher (deliverOne url_ok b net now up dl (dp_db s)).2 (dp_work s)).
Proof.
  intros [Hno Hrow] [H1 H2 H3]. split; [by apply dwork_peer|..]; simpl; [|by apply row_ok_post].
  intros g rows x Hg Hx r [Hq|[He _]]%deliverOne_row; [by eapply H2|]. exfalso. apply Hno. rewrite <- He.
  apply elem_of_working. by exists g, rows, x.
Qed.

Lemma dwork_reachable may url_ok b wid s s' : rtc (dstep may url_ok b wid) s s' → dwork s → dwork s'.
Proof.
  induction 1 as [|s1 s2 s3 Hstep _ IH]; [done|]. intros Hi. apply IH. destruct Hstep.
  - by apply dwork_tick.
  - by eapply dwork_post.
  - by eapply dwork_finish.
  - by apply dwork_others.
  - by apply dwork_peer.
Qed.

Lemma dinv_reachable url_ok b wid s s' : rtc (dstep own_row url_ok b wid) s s' → dinv s → dinv s'.
Proof.
  induction 1 as [|s1 s2 s3 Hstep _ IH]; [done|]. intros Hi. apply IH. destruct Hstep.
  - by apply dinv_tick.
  - by eapply dinv_post.
  - by eapply dinv_finish.
  - by apply dinv_others.
  - by apply dinv_peer.
Qed.

Lemma dwork_start d : dwork (mkDispatcher d []).
Proof. constructor; simpl; [constructor|lia|constructor|]. by intros ??? ?%not_elem_of_nil. Qed.

(** What the rest of the system does to the table fits [others]. *)
Lemma select_fold_insert (mk : string → delivery_row) (fresh : string → string)
    (hit : list (string * sub_row)) (m : gmap string delivery_row) k r :
  foldl (λ m kv, <[fresh kv.1 := mk kv.1]> m) m hit !! k = Some r →
  m !! k = Some r ∨ ∃ s, s ∈ hit.*1 ∧ k = fresh s ∧ r = mk s.
Proof.
  revert m. induction hit as [|[s x] hit IH]; intros m; [by left|]. simpl. intros H.
  destruct (IH _ H) as [Hm|(s'&Hs&->&->)]; [|right; exists s'; split; [by right|done]].
  destruct (decide (k = fresh s)) as [->|Hne].
  - rewrite lookup_insert_eq in Hm. injection Hm as <-. right. exists s. split; [by left|done].
  - rewrite lookup_insert_ne in Hm by done. by left.
Qed.

Lemma enqueue_others fresh text now sid ids w d d' :
  EnqueueDeliveries fresh text now sid ids d = Ok d' →
  (∀ s, fresh s ∉ working_ids w) → others w d d'.
Proof.
  unfold EnqueueDeliveries. destruct text as [payload|]; [|done]. destruct (_ && _); [|done].
  intros [= <-] Hf k r Hk. simpl in Hk.
  apply (select_fold_insert (λ s, mkDelivery sid s payload "pending" 0 now now)) in Hk
    as [?|(s&_&->&->)]; [by left|]. right. split; [apply Hf|done].
Qed.

Lemma purge_others before w d : others w d (PurgeDeliveries before d).2.
Proof. intros k r [Hk _]%lookup_delete_where. by left. Qed.

Lemma delete_subs_others P w d : others w d (delete_subs P d).
Proof. intros k r [Hk _]%lookup_delete_where. by left. Qed.

(** C10: However the dispatcher's ticks, its goroutines' posts (accepted, refused
    or unrecorded), its peers' posts and the rest of the system interleave, at
    most sixteen receivers are served at once and never one by two goroutines; a
    row waits in one goroutine only, that of its subscription, with no more
    attempts than the registry has. As long as moreover no peer posts a row that
    this worker has in its hands, and a peer's rows are as it claimed them, which
    is so while no session changes hands with one of its deliveries under way, a
    row waiting is still pending with the attempt count it was claimed with; and
    every row's recorded attempts stay within ten, below ten while pending and
    exactly ten once given up. *)
Theorem dispatcher_invariant url_ok b wid d :
  (∀ k r, deliveries d !! k = Some r → row_ok r) →
  (∀ s, rtc (dstep any_row url_ok b wid) (mkDispatcher d []) s →
     (length (dp_work s) <= maxInflightSubs)%nat ∧ NoDup (map fst (dp_work s)) ∧
     NoDup (working_ids (dp_work s)) ∧
     (∀ sub rows dl r, (sub, rows) ∈ dp_work s → dl ∈ rows → deliveries (dp_db s) !! dl_id dl = Some r →
        dl_sub dl = sub ∧ d_sub r = sub ∧ (dl_attempts dl <= d_attempts r)%Z)) ∧
  (∀ s, rtc (dstep own_row url_ok b wid) (mkDispatcher d []) s →
     (∀ sub rows dl r, (sub, rows) ∈ dp_work s → dl ∈ rows → deliveries (dp_db s) !! dl_id dl = Some r →
        d_status r = "pending" ∧ d_attempts r = dl_attempts dl) ∧
     (∀ k r, deliveries (dp_db s) !! k = Some r →
        (0 <= d_attempts r <= 10)%Z ∧ (d_status r = "pending" → (d_attempts r < 10)%Z) ∧
        (d_status r = "failed" → d_attempts r = 10%Z))).
Proof.
  intros Hd. split; intros s Hr.
  - destruct (dwork_reachable _ _ _ _ _ _ Hr (dwork_start d)) as [H1 H2 H3 H4]. split; [done|]. split; [done|]. split; [done|].
    intros sub rows dl r Hw Hdl Hk. destruct (H4 sub rows dl Hw Hdl) as [E Hx]. by destruct (Hx r Hk).
  - assert (Hi : dinv (mkDispatcher d [])) by (split; [apply dwork_start| |done]; by intros ??? ?%not_elem_of_nil).
    destruct (dinv_reachable _ _ _ _ _ Hr Hi) as [_ H4 H5]. split; [intros; by eapply H4|]. intros k r Hk. apply (H5 k r Hk).
Qed.

Definition ex_deliv_db : db :=
  with_deliveries (λ _, {["r" := mkDelivery "s" "a" "{}" "pending" 9 5 5]})
  (with_subs (λ _, {["a" := mkSub "s" None "http://a" None None 0 0 None None None]})
  (with_sessions (λ _, {["s" := s_set_worker (Some "w") ex_session]}) empty_db)).

Lemma ex_deliv_ok : ∀ k r, deliveries ex_deliv_db !! k = Some r → row_ok r.
Proof.
  intros k r. unfold ex_deliv_db. simpl. rewrite lookup_singleton_Some. intros [_ <-].
  unfold row_ok, maxDeliveryAttempts. simpl. split; [lia|]. split; [lia|done].
Qed.

Definition ex_round : dispatcher := mkDispatcher ex_deliv_db (dispatch_round 7 "w" [] ex_deliv_db).

(** One row is claimed, refused with a 500, and given up: its tenth attempt. *)
Definition ex_after : dispatcher :=
  let dl := mkDeliv "r" "s" (s_kind ex_session) "a" "{}" 9 "http://a" None in
  mkDispatcher (deliverOne (λ _, true) (mkBox "") (λ _, Status 500) 8 true dl ex_deliv_db).2 [].

Lemma ex_after_reached :
  rtc (dstep own_row (λ _, true) (mkBox "") "w") (mkDispatcher ex_deliv_db []) ex_after.
Proof.
  eapply rtc_l; [apply (Tick _ _ _ _ 7)|].
  eapply rtc_l; [|apply rtc_refl].
  apply (Post own_row (λ _, true) (mkBox "") "w" 8 (λ _, Status 500) true "a"
           (mkDeliv "r" "s" (s_kind ex_session) "a" "{}" 9 "http://a" None) [] [] []).
  vm_compute. reflexivity.
Defined.

Lemma dispatcher_invariant_witness :
  deliveries (dp_db ex_after) !! "r" = Some (mkDelivery "s" "a" "{}" "failed" 10 5 5) ∧
  (∀ k r, deliveries (dp_db ex_after) !! k = Some r →
     (0 <= d_attempts r <= 10)%Z ∧ (d_status r = "pending" → (d_attempts r < 10)%Z) ∧
     (d_status r = "failed" → d_attempts r = 10%Z)).
Proof.
  split; [vm_compute; reflexivity|].
  exact (proj2 (proj2 (dispatcher_invariant (λ _, true) (mkBox "") "w" ex_deliv_db ex_deliv_ok) ex_after ex_after_reached)).
Defined.

(** A session that changes hands while a delivery of it is under way: both
    workers post the row, each with the count it claimed (8 here), and neither
    gives up; the row is pending with ten attempts, and posted again. *)
Example moved_row_overcounts :
  let dl := mkDeliv "r" "s" "user" "a" "{}" 8 "http://a" None in
  let d := with_deliveries (λ _, {["r" := mkDelivery "s" "a" "{}" "pending" 8 5 5]}) ex_deliv_db in
  let refused d := (deliverOne (λ _, true) (mkBox "") (λ _, Status 500) 8 true dl d).2 in
  (λ r, (d_status r, d_attempts r)) <$> deliveries (refused (refused d)) !! "r" = Some ("pending", 10%Z).
Proof. vm_compute. reflexivity. Qed.

Lemma round_serves_waiting_witness :
  (length (@nil string) <= maxInflightSubs)%nat ∧
  let g := dispatch_round 7 "w" [] ex_deliv_db in
  length g = ((maxInflightSubs - length (@nil string)) `min` size (waiting_subs 7 "w" [] ex_deliv_db))%nat ∧
  (length (@nil string) + length g <= maxInflightSubs)%nat ∧ NoDup (map fst g) ∧
  (∀ s rows, (s, rows) ∈ g → s ∉ [] ∧ s ∈ waiting_subs 7 "w" [] ex_deliv_db ∧
     (0 < length rows <= perSubBatch)%nat ∧ Forall (λ x, dl_sub x = s) rows).
Proof. split; [vm_compute; lia|]. apply (round_serves_waiting 7 "w" [] ex_deliv_db). vm_compute. lia. Defined.

(** ** One attempt *)

(** PostgreSQL takes it as text. *)
Definition pg_text (s : string) : bool := valid_utf8 s && negb (any_char (Ascii.eqb "000") s).

Lemma cut_reason_spec reason :
  any_char (Ascii.eqb "000") reason = false →
  valid_utf8 reason = true ∨ (maxErrorLen < String.length reason)%nat →
  pg_text (cut_reason reason) = true ∧ (String.length (cut_reason reason) <= maxErrorLen)%nat.
Proof.
  intros Hz Hv. unfold cut_reason, pg_text.
  destruct (Nat.ltb_spec maxErrorLen (String.length reason)) as [Hl|Hl].
  - destruct (ToValidUTF8_drop (stake maxErrorLen reason)) as (H1&H2&H3).
    rewrite H1, H3; [split; [done|]|].
    + rewrite length_stake in H2. lia.
    + rewrite <- (stake_sdrop maxErrorLen reason), any_char_app, orb_false_iff in Hz. tauto.
  - destruct Hv as [->|]; [|lia]. by rewrite Hz.
Qed.

(** The error an attempt ends with, if it was not accepted. *)
Definition attempt_error (url_ok : string → bool) (b : Box) (net : post_request → answer) (dl : Delivery)
    : option string :=
  match post url_ok b dl with Err e => Some e | Ok rq => outcome (net rq) end.

(** Every recorded attempt moves a row on. On an accepted POST the row is
    delivered and its subscription's last success stamped. On a refused one with
    an error PostgreSQL can store (or one long enough to be cut), the attempt is
    counted and the subscription shows the error, at most 500 bytes of valid
    text; the tenth attempt gives the row up, an earlier one reschedules it
    five seconds doubled per attempt from now, five minutes at most, and until
    then no claim returns it. A row delivered or given up is never due again. *)
Theorem attempt_recorded url_ok b net now dl d r sb :
  deliveries d !! dl_id dl = Some r → d_status r = "pending" → d_attempts r = dl_attempts dl →
  subs d !! d_sub r = Some sb → (0 <= dl_attempts dl < maxDeliveryAttempts)%Z →
  let d' := (deliverOne url_ok b net now true dl d).2 in
  match attempt_error url_ok b net dl with
  | None =>
      deliveries d' !! dl_id dl = Some (d_delivered r) ∧
      subs d' !! d_sub r = Some (sub_delivered now sb) ∧
      (∀ t wid busy, due t wid busy d' (d_delivered r) = false)
  | Some reason =>
      any_char (Ascii.eqb "000") reason = false →
      valid_utf8 reason = true ∨ (maxErrorLen < String.length reason)%nat →
      ∃ r' why, deliveries d' !! dl_id dl = Some r' ∧ d_attempts r' = (d_attempts r + 1)%Z ∧
        subs d' !! d_sub r = Some (sub_failed now why sb) ∧ pg_text why = true ∧
        (String.length why <= 500)%nat ∧
        if (d_attempts r + 1 =? 10)%Z
        then d_status r' = "failed" ∧ ∀ t wid busy, due t wid busy d' r' = false
        else d_status r' = "pending" ∧
             d_next r' = (now + Z.min (5 * minute) (5 * second * 2 ^ d_attempts r))%Z ∧
             ∀ t wid busy, (t < d_next r')%Z → due t wid busy d' r' = false
  end.
Proof.
  intros Hr Hp Ha Hsb Hlt d'. unfold d', deliverOne. fold (attempt_error url_ok b net dl).
  assert (Hdue : ∀ t wid busy d0 q, d_status q ≠ "pending" ∨ (t < d_next q)%Z → due t wid busy d0 q = false).
  { intros t wid busy d0 q Hq. unfold due. destruct (subs d0 !! d_sub q), (sessions d0 !! d_session q); try done.
    destruct Hq as [Hq|Hq]; [by rewrite (proj2 (String.eqb_neq _ _) Hq)|].
    rewrite (proj2 (Z.leb_gt _ _) Hq). by rewrite andb_false_r. }
  destruct (attempt_error url_ok b net dl) as [reason|]; cbn [snd].
  - intros Hz Hv. destruct (cut_reason_spec reason Hz Hv) as [Ht Hl].
    unfold FailDelivery. unfold pg_text in Ht. rewrite Ht, Hr. cbn [negb].
    set (why := cut_reason reason) in *.
    exists (d_failed (now + backoff (dl_attempts dl)) (maxDeliveryAttempts <=? dl_attempts dl + 1)%Z r), why.
    cbn [deliveries subs with_subs with_deliveries]. rewrite !lookup_alter_eq, Hr, Hsb. cbn [fmap option_fmap option_map].
    repeat (split; [done|]). rewrite Ha. unfold maxDeliveryAttempts in *. unfold d_failed. cbn [d_status d_next].
    destruct (Z.eqb_spec (dl_attempts dl + 1) 10) as [E|E].
    + rewrite E. cbn. split; [done|]. intros. apply Hdue. by left.
    + rewrite (proj2 (Z.leb_gt _ _)) by lia. split; [done|]. split; [done|]. intros. apply Hdue. by right.
  - unfold MarkDelivered. rewrite Hr. cbn [deliveries subs with_subs with_deliveries].
    rewrite !lookup_alter_eq, Hr, Hsb. split; [done|]. split; [done|]. intros. apply Hdue. by left.
Qed.

Lemma attempt_recorded_witness :
  let dl := mkDeliv "r" "s" (s_kind ex_session) "a" "{}" 9 "http://a" None in
  let r := mkDelivery "s" "a" "{}" "pending" 9 5 5 in
  let d' := (deliverOne (λ _, true) (mkBox "") (λ _, Status 500) 8 true dl ex_deliv_db).2 in
  ∃ r' why, deliveries d' !! dl_id dl = Some r' ∧ d_attempts r' = (d_attempts r + 1)%Z ∧
    subs d' !! d_sub r = Some (sub_failed 8 why (mkSub "s" None "http://a" None None 0 0 None None None)) ∧
    pg_text why = true ∧ (String.length why <= 500)%nat ∧
    if (d_attempts r + 1 =? 10)%Z
    then d_status r' = "failed" ∧ ∀ t wid busy, due t wid busy d' r' = false
    else d_status r' = "pending" ∧
         d_next r' = (8 + Z.min (5 * minute) (5 * second * 2 ^ d_attempts r))%Z ∧
         ∀ t wid busy, (t < d_next r')%Z → due t wid busy d' r' = false.
Proof.
  apply (attempt_recorded (λ _, true) (mkBox "") (λ _, Status 500) 8
           (mkDeliv "r" "s" (s_kind ex_session) "a" "{}" 9 "http://a" None) ex_deliv_db
           (mkDelivery "s" "a" "{}" "pending" 9 5 5) (mkSub "s" None "http://a" None None 0 0 None None None));
    try done; try (vm_compute; split; congruence); try (by left).
Defined.

(** An error under 500 bytes is stored as it is. One that is not valid text (a
    receiver's malformed header line, which the HTTP client quotes raw in its
    error) fails the write: the row keeps its attempts and its due time, and is
    retried every second without end. *)
Lemma short_invalid_error_never_counts url_ok b net now dl d reason :
  attempt_error url_ok b net dl = Some reason → (String.length reason <= maxErrorLen)%nat →
  valid_utf8 reason = false → deliverOne url_ok b net now true dl d = (false, d).
Proof.
  intros He Hl Hv. unfold deliverOne. fold (attempt_error url_ok b net dl). rewrite He.
  unfold FailDelivery, cut_reason. rewrite (proj2 (Nat.ltb_ge _ _) Hl). by rewrite Hv.
Qed.

Example ex_invalid_error :
  deliverOne (λ _, true) (mkBox "") (λ _, Broken (bytes [109; 255]%nat)) 8 true
    (mkDeliv "r" "s" "user" "a" "{}" 9 "http://a" None) ex_deliv_db = (false, ex_deliv_db).
Proof. by apply (short_invalid_error_never_counts _ _ _ _ _ _ (bytes [109; 255]%nat)); [|vm_compute; lia|]. Qed.

(** Can PostgreSQL store what is left of an error after it was cut. *)
Definition storable (reason : string) : Prop :=
  any_char (Ascii.eqb "000") reason = false ∧ (valid_utf8 reason = true ∨ (maxErrorLen < String.length reason)%nat).

(** One attempt as the outside decides it: when the receiver's answer is in, how
    the receiver answers, and whether the registry takes the outcome. *)
Record attempt := mkAttempt { at_now : Z; at_net : post_request → answer; at_recorded : bool }.

(** A round for one row: while it is pending it is claimed and attempted. *)
Definition try_row (url_ok : string → bool) (b : Box) (id : string) (d : db) (x : attempt) : db :=
  match deliveries d !! id with
  | Some r => if String.eqb (d_status r) "pending"
              then (deliverOne url_ok b (at_net x) (at_now x) (at_recorded x) (to_delivery d (id, r)) d).2 else d
  | None => d
  end.

(** How far a row is: attempts left while it is pending. *)
Definition settling (n : nat) (id : string) (d : db) : Prop :=
  ∃ r, deliveries d !! id = Some r ∧
    (d_status r = "pending" ∧ (0 <= d_attempts r)%Z ∧ (d_attempts r + Z.of_nat n = maxDeliveryAttempts)%Z ∧ (0 < n)%nat ∨
     (d_status r = "delivered" ∨ d_status r = "failed") ∧ (d_attempts r <= maxDeliveryAttempts)%Z).

(** The program's own errors can be stored. *)
Lemma attempt_storable url_ok b net dl reason :
  (∀ rq reason, outcome (net rq) = Some reason → storable reason) →
  attempt_error url_ok b net dl = Some reason → storable reason.
Proof.
  intros Hnet. unfold attempt_error, post, Decrypt.
  destruct (negb _); [intros [= <-]; by split; [|left]|]. destruct (String.eqb _ _); [by apply Hnet|].
  destruct (_ <? _)%nat; [intros [= <-]; by split; [|left]|].
  destruct (Open _ _ _); [by apply Hnet|intros [= <-]; by split; [|left]].
Qed.

Lemma try_row_settles url_ok b id d x n :
  at_recorded x = true → (∀ rq reason, outcome (at_net x rq) = Some reason → storable reason) →
  settling n id d → settling (n - 1) id (try_row url_ok b id d x).
Proof.
  intros Hrec Hst (r&Hr&Hcase). unfold try_row. rewrite Hr, Hrec.
  destruct Hcase as [(Hp&H0&Hn&Hpos)|[Hs Hle]].
  2: { exists r. destruct (String.eqb_spec (d_status r) "pending") as [E|]; [by destruct Hs as [Hs|Hs]; rewrite E in Hs|].
       split; [done|]. by right. }
  rewrite Hp, String.eqb_refl. unfold deliverOne. cbn zeta.
  fold (attempt_error url_ok b (at_net x) (to_delivery d (id, r))).
  destruct (attempt_error url_ok b (at_net x) (to_delivery d (id, r))) as [reason|] eqn:E; cbn [fst snd dl_id dl_attempts to_delivery].
  - destruct (attempt_storable _ _ _ _ _ Hst E) as [Hz Hv]. destruct (cut_reason_spec reason Hz Hv) as [Ht _].
    unfold FailDelivery. unfold pg_text in Ht. rewrite Ht, Hr. cbn [negb].
    eexists. cbn [deliveries with_subs with_deliveries]. rewrite lookup_alter_eq, Hr. split; [done|].
    unfold d_failed. cbn [d_status d_attempts]. destruct (Z.leb_spec maxDeliveryAttempts (d_attempts r + 1)).
    + right. split; [by right|lia].
    + left. rewrite Hp. split; [done|]. lia.
  - unfold MarkDelivered. rewrite Hr. eexists. cbn [deliveries with_subs with_deliveries].
    rewrite lookup_alter_eq, Hr. split; [done|]. right. split; [by left|]. unfold d_delivered. cbn [d_attempts]. lia.
Qed.

(** An outcome that is not recorded leaves no trace. *)
Lemma unrecorded url_ok b id d x : at_recorded x = false → try_row url_ok b id d x = d.
Proof.
  intros H. unfold try_row. destruct (deliveries d !! id) as [r|]; [|done]. destruct (String.eqb _ _); [|done].
  rewrite H. unfold deliverOne. by destruct (match post _ _ _ with Ok rq => _ | Err e => _ end).
Qed.

Lemma unrecorded_run url_ok b id d xs :
  Forall (λ x, at_recorded x = false) xs → foldl (try_row url_ok b id) d xs = d.
Proof. induction 1 as [|x xs Hx _ IH]; [done|]. cbn [foldl]. by rewrite unrecorded. Qed.

(** Counts never go down. *)
Lemma try_row_low url_ok b id d x lo :
  (∃ r, deliveries d !! id = Some r ∧ (lo <= d_attempts r)%Z) →
  ∃ r, deliveries (try_row url_ok b id d x) !! id = Some r ∧ (lo <= d_attempts r)%Z.
Proof.
  intros (r&Hr&Hle). unfold try_row. rewrite Hr. destruct (String.eqb _ _); [|by eauto].
  unfold deliverOne. destruct (match post _ _ _ with Ok rq => _ | Err e => _ end) as [reason|]; cbn [snd];
    (destruct (at_recorded x); [|by eauto]).
  - unfold FailDelivery. destruct (negb _); [by eauto|]. cbn [dl_id to_delivery fst]. rewrite Hr. eexists.
    cbn [deliveries with_subs with_deliveries]. rewrite lookup_alter_eq, Hr. split; [done|]. unfold d_failed. cbn [d_attempts]. lia.
  - unfold MarkDelivered. cbn [dl_id to_delivery fst]. rewrite Hr. eexists.
    cbn [deliveries with_subs with_deliveries]. rewrite lookup_alter_eq, Hr. split; [done|]. unfold d_delivered. cbn [d_attempts]. lia.
Qed.

(** C36: A delivery settles. A queued update, attempted again and again while it
    is pending, is delivered or given up after at most ten attempts whose outcome
    the registry records, whatever the receiver answers, and is then never due
    again; its count never passes ten. An attempt whose outcome cannot be written
    changes nothing, so it is not counted and the update stays due. The HTTP
    client's errors are text PostgreSQL can store, and nobody else works on the
    row meanwhile. *)
Theorem delivery_settles url_ok b id d r xs :
  deliveries d !! id = Some r → d_status r = "pending" → (0 <= d_attempts r < maxDeliveryAttempts)%Z →
  Forall (λ x, ∀ rq reason, outcome (at_net x rq) = Some reason → storable reason) xs →
  let after xs := foldl (try_row url_ok b id) d xs in
  (∃ r', deliveries (after xs) !! id = Some r' ∧ (d_attempts r <= d_attempts r' <= 10)%Z ∧
     ((10 - Z.to_nat (d_attempts r) <= length (filter (λ x, at_recorded x = true) xs))%nat →
        (d_status r' = "delivered" ∨ d_status r' = "failed") ∧ ∀ t wid busy d0, due t wid busy d0 r' = false)) ∧
  (Forall (λ x, at_recorded x = false) xs → after xs = d).
Proof.
  intros Hr Hp Ha Hst after. split; [|by apply unrecorded_run].
  assert (H : settling (10 - Z.to_nat (d_attempts r)) id d).
  { exists r. split; [done|]. left. unfold maxDeliveryAttempts in *. repeat split; try done; lia. }
  assert (Hlow : ∃ r0, deliveries d !! id = Some r0 ∧ (d_attempts r <= d_attempts r0)%Z) by (exists r; split; [done|lia]).
  revert H Hlow. generalize (10 - Z.to_nat (d_attempts r))%nat as n. subst after. generalize (d_attempts r) as lo. clear Hr Hp Ha r. revert d.
  induction Hst as [|x xs Hx _ IH]; intros d lo n H Hlow.
  - destruct H as (r'&Hr'&H). destruct Hlow as (r0&Hr0&Hlow). assert (r0 = r') as -> by congruence. exists r'. split; [done|].
    destruct H as [(_&H0&Hn&Hpos)|[Hs Hle]]; unfold maxDeliveryAttempts in *; (split; [lia|]); [simpl; lia|].
    intros _. split; [done|]. intros t wid busy d0. unfold due.
    destruct (subs d0 !! d_sub r'), (sessions d0 !! d_session r'); try done. by destruct Hs as [-> | ->].
  - cbn [foldl]. pose proof (try_row_low url_ok b id d x lo Hlow) as Hlow'. rewrite filter_cons. destruct (decide _) as [Hrec|Hrec].
    + destruct (IH _ lo (n - 1)%nat (try_row_settles _ _ _ _ _ _ Hrec Hx H) Hlow') as (r'&?&?&Hs). exists r'. split; [done|]. split; [done|].
      intros Hlen. apply Hs. simpl in Hlen. lia.
    + apply not_true_is_false in Hrec. apply (IH _ lo n); [by rewrite unrecorded|done].
Qed.

Lemma delivery_settles_witness :
  let xs := replicate 10 (mkAttempt 8 (λ _ : post_request, Status 500) true) in
  ∃ r', deliveries (foldl (try_row (λ _, true) (mkBox "") "r") ex_deliv_db xs) !! "r" = Some r' ∧ (9 <= d_attempts r' <= 10)%Z ∧
    ((10 - Z.to_nat 9 <= length (filter (λ x, at_recorded x = true) xs))%nat →
       (d_status r' = "delivered" ∨ d_status r' = "failed") ∧ ∀ t wid busy d0, due t wid busy d0 r' = false).
Proof.
  intros xs. apply (delivery_settles (λ _, true) (mkBox "") "r" ex_deliv_db (mkDelivery "s" "a" "{}" "pending" 9 5 5));
    [reflexivity|reflexivity|by vm_compute|].
  apply Forall_replicate. intros rq reason [= <-]. split; [reflexivity|by left].
Defined.

(** Retries end long before retention. The delay after each refused attempt
    is between five seconds and five minutes and never shrinks, and the nine
    delays before the tenth attempt add up to 20 minutes 15 seconds, far less
    than the 24 hours after which rows are purged whatever their status. *)
Theorem retry_schedule_bounded :
  (∀ a, (0 <= a)%Z → (5 * second <= backoff a <= 5 * minute)%Z ∧ (backoff a <= backoff (a + 1))%Z) ∧
  foldl Z.add 0%Z (map (λ n, backoff (Z.of_nat n)) (seq 0 (Z.to_nat maxDeliveryAttempts - 1))) =
    (20 * minute + 15 * second)%Z ∧
  (20 * minute + 15 * second + maxDeliveryAttempts * (10 * second) < retentionAge)%Z.
Proof.
  split; [|split; vm_compute; reflexivity].
  intros a Ha. unfold backoff, backoffCap, backoffBase.
  assert (1 <= 2 ^ a)%Z by (pose proof (Z.pow_pos_nonneg 2 a); lia).
  rewrite Z.pow_add_r by lia. change (2 ^ 1)%Z with 2%Z.
  assert (0 < second)%Z by done. unfold minute. nia.
Qed.

(** A receiver can tell who a delivery is for and that it is genuine. A
    subscription made with a secret (stored encrypted) gets every POST signed
    with HMAC-SHA256 of the body under that secret, and one without a secret gets no
    signature header; either way the session, kind, subscription and delivery
    id go along with the attempt's number, so retries of a row carry the same
    id and a number one higher. A stored secret that does not decrypt stops the
    POST. *)
Theorem delivery_signed url_ok key nonce secret dl :
  url_ok (dl_url dl) = true → String.length nonce = NonceSize →
  let b := mkBox key in
  let base := [("Content-Type", "application/json");
               ("X-Tgcontrol-Session", dl_session dl); ("X-Tgcontrol-Kind", dl_kind dl);
               ("X-Tgcontrol-Subscription", dl_sub dl); ("X-Tgcontrol-Delivery", dl_id dl);
               ("X-Tgcontrol-Attempt", itoa (dl_attempts dl + 1))] in
  (∀ enc, Encrypt b (Some nonce) secret = Ok enc → dl_secret dl = Some enc →
     post url_ok b dl = Ok (mkPost (dl_url dl) (dl_payload dl)
       (base ++ [("X-Tgcontrol-Signature", "sha256=" +:+ hex_encode (hmac_sha256 secret (dl_payload dl)))]))) ∧
  (dl_secret dl = None → post url_ok b dl = Ok (mkPost (dl_url dl) (dl_payload dl) base)) ∧
  (∀ enc e, dl_secret dl = Some enc → enc ≠ "" → Decrypt b enc = Err e → post url_ok b dl = Err e).
Proof.
  intros Hu Hn b base. unfold post. rewrite Hu. cbn [negb]. split; [|split].
  - intros enc He Hs. unfold b, Encrypt in *. cbn [bx_key] in He. injection He as <-. rewrite Hs.
    cbn [coalesce default id].
    assert (Hl : (NonceSize <= String.length (nonce +:+ Seal key nonce secret))%nat) by (rewrite length_app_s; lia).
    destruct (String.eqb_spec (nonce +:+ Seal key nonce secret) "") as [E|_].
    { rewrite E in Hl. unfold NonceSize in Hl. simpl in Hl. lia. }
    unfold Decrypt. rewrite (proj2 (Nat.ltb_ge _ _) Hl). cbn [bx_key].
    by rewrite stake_app_eq, sdrop_app_eq, Open_Seal.
  - intros ->. done.
  - intros enc e -> Hne Hd. cbn [coalesce default id]. rewrite (proj2 (String.eqb_neq _ _) Hne). by rewrite Hd.
Qed.

Lemma delivery_signed_witness :
  let dl := mkDeliv "r" "s" "user" "a" "{}" 0 "http://a" (Some (zeros 12 +:+ Seal (zeros 32) (zeros 12) "k")) in
  let b := mkBox (zeros 32) in
  let base := [("Content-Type", "application/json");
               ("X-Tgcontrol-Session", "s"); ("X-Tgcontrol-Kind", "user");
               ("X-Tgcontrol-Subscription", "a"); ("X-Tgcontrol-Delivery", "r");
               ("X-Tgcontrol-Attempt", itoa (0 + 1))] in
  (∀ enc, Encrypt b (Some (zeros 12)) "k" = Ok enc → dl_secret dl = Some enc →
     post (λ _, true) b dl = Ok (mkPost (dl_url dl) (dl_payload dl)
       (base ++ [("X-Tgcontrol-Signature", "sha256=" +:+ hex_encode (hmac_sha256 "k" (dl_payload dl)))]))) ∧
  (dl_secret dl = None → post (λ _, true) b dl = Ok (mkPost (dl_url dl) (dl_payload dl) base)) ∧
  (∀ enc e, dl_secret dl = Some enc → enc ≠ "" → Decrypt b enc = Err e → post (λ _, true) b dl = Err e).
Proof.
  apply (delivery_signed (λ _, true) (zeros 32) (zeros 12) "k"
    (mkDeliv "r" "s" "user" "a" "{}" 0 "http://a" (Some (zeros 12 +:+ Seal (zeros 32) (zeros 12) "k"))));
    vm_compute; reflexivity.
Defined.
