(* ===== verification/Pipeline.v ===== *)
(** From the receiver to the queue (internal/session/manager.go updateHandler,
    deliver.go runOutboxWriter, subs.go flushDropped): an update some
    subscription may want is queued for every match, or counted as lost where
    the subscription's status shows it; what is lost around the moment a session
    is let go is counted by nobody, and accounted for here. *)

From S2P Require Import Prelude GoStr Json Types Db Secret Registry Tokens Subs Delivery.


(** ** Queueing *)

Lemma fold_insert_nodup (mk : string → delivery_row) (fresh : string → string)
    (hit : list (string * sub_row)) (m : gmap string delivery_row) k r :
  NoDup (map (λ kv, fresh kv.1) hit) → (∀ kv, kv ∈ hit → m !! fresh kv.1 = None) →
  foldl (λ m kv, <[fresh kv.1 := mk kv.1]> m) m hit !! k = Some r ↔
  m !! k = Some r ∨ ∃ s, s ∈ hit.*1 ∧ k = fresh s ∧ r = mk s.
Proof.
  revert m. induction hit as [|[s x] hit IH]; intros m Hnd Hfree; simpl.
  { split; [by left|]. intros [?|(s&?%not_elem_of_nil&_)]; done. }
  apply NoDup_cons in Hnd as [Hs Hnd]. rewrite IH; [|done|].
  - destruct (decide (k = fresh s)) as [->|Hne].
    + pose proof (Hfree (s, x) ltac:(by left)) as Hf. simpl in Hf. rewrite lookup_insert_eq, Hf. split.
      * intros [[= <-]|(s'&H1&H2&->)]; right; [exists s; split; [by left|done]|exists s'; split; [by right|done]].
      * intros [?|(s'&[->|Hin]%elem_of_cons&E&->)]; [done|by left|right; by exists s'].
    + rewrite lookup_insert_ne by done. split.
      * intros [?|(s'&H1&H2&->)]; [by left|right; exists s'; split; [by right|done]].
      * intros [?|(s'&[->|Hin]%elem_of_cons&E&->)]; [by left|done|right; by exists s'].
  - intros kv Hkv. rewrite lookup_insert_ne; [apply Hfree; by right|].
    intros E. apply Hs. change (fresh s ∈ map (λ kv : string * sub_row, fresh kv.1) hit). rewrite E. apply list_elem_of_fmap. by exists kv.
Qed.

(** Queueing adds what it names and nothing else. When it succeeds, each
    named subscription the session still has gets one pending row holding the
    update, due at once with no attempt made; subscriptions removed since, or of
    another session, are skipped; every other row and table is as it was. *)
Theorem enqueue_exact fresh text now sid ids d d' :
  EnqueueDeliveries fresh text now sid ids d = Ok d' →
  (∃ payload, text = Some payload ∧
   ∀ k r, deliveries d' !! k = Some r ↔
     deliveries d !! k = Some r ∨
     ∃ s sb, s ∈ ids ∧ subs d !! s = Some sb ∧ sb_session sb = sid ∧ k = fresh s ∧
       r = mkDelivery sid s payload "pending" 0 now now) ∧
  (∀ s sb, s ∈ ids → subs d !! s = Some sb → sb_session sb = sid → deliveries d !! fresh s = None) ∧
  d' = with_deliveries (λ _, deliveries d') d.
Proof.
  unfold EnqueueDeliveries. destruct text as [payload|]; [|done].
  set (hit := select _ (subs d)). destruct (_ && _) eqn:Ec; [|done]. intros [= <-].
  apply andb_true_iff in Ec as [Hnd%bool_decide_eq_true Hfree]. rewrite forallb_forall in Hfree.
  assert (Hhit : ∀ s sb, (s, sb) ∈ hit ↔ s ∈ ids ∧ subs d !! s = Some sb ∧ sb_session sb = sid).
  { intros s sb. unfold hit. rewrite elem_of_select, andb_true_iff, bool_decide_eq_true, String.eqb_eq. tauto. }
  assert (Hnone : ∀ kv, kv ∈ hit → deliveries d !! fresh kv.1 = None).
  { intros kv Hkv. specialize (Hfree (fresh kv.1)). rewrite negb_true_iff in Hfree.
    destruct (deliveries d !! fresh kv.1) as [r|] eqn:E; [|done].
    rewrite (proj2 (has_spec (fresh kv.1) (deliveries d))) in Hfree by (rewrite E; eauto).
    discriminate Hfree. apply list_elem_of_In, list_elem_of_fmap. by exists kv. }
  split; [|split; [|done]].
  - exists payload. split; [done|]. intros k r. simpl.
    rewrite (fold_insert_nodup (λ s, mkDelivery sid s payload "pending" 0 now now)) by done.
    apply or_iff_compat_l. split.
    + intros (s&([s' sb]&->&Hin)%list_elem_of_fmap&->&->). apply Hhit in Hin as (?&?&?). by exists s', sb.
    + intros (s&sb&H1&H2&H3&->&->). exists s. split; [|done].
      apply list_elem_of_fmap. exists (s, sb). split; [done|]. by apply Hhit.
  - intros s sb H1 H2 H3. apply (Hnone (s, sb)). by apply Hhit.
Qed.

Definition ex_pipe_db : db :=
  with_subs (λ _, {["a" := mkSub "s" None "http://a" None None 0 0 None None None]})
  (with_sessions (λ _, {["s" := ex_session]}) empty_db).

Lemma enqueue_exact_witness :
  let fresh := λ s : string, "d-" +:+ s in
  let d' := match EnqueueDeliveries fresh (Some "{}") 3 "s" ["a"; "gone"] ex_pipe_db with
            | Ok d => d | Err _ => empty_db end in
  (∃ payload, Some "{}" = Some payload ∧
   ∀ k r, deliveries d' !! k = Some r ↔
     deliveries ex_pipe_db !! k = Some r ∨
     ∃ s sb, s ∈ ["a"; "gone"] ∧ subs ex_pipe_db !! s = Some sb ∧ sb_session sb = "s" ∧ k = fresh s ∧
       r = mkDelivery "s" s payload "pending" 0 3 3) ∧
  (∀ s sb, s ∈ ["a"; "gone"] → subs ex_pipe_db !! s = Some sb → sb_session sb = "s" →
     deliveries ex_pipe_db !! fresh s = None) ∧
  d' = with_deliveries (λ _, deliveries d') ex_pipe_db.
Proof. apply (enqueue_exact (λ s, "d-" +:+ s) (Some "{}") 3 "s" ["a"; "gone"] ex_pipe_db). vm_compute. reflexivity. Defined.

(** ** No silent loss *)

(** What happens between the receiver and the queue. *)
Inductive pop :=
| PReceive (sid ctor : string) (payload : json)                     (* an update arrives *)
| PStray (sid : string) (snap : option subSnapshot) (ctor : string) (payload : json)
                     (* one arrives from the client of a session that was let go *)
| PWrite (up : bool) (fresh : string → string) (text : json → option string) (held : string → bool) (now : Z)
                                              (* the writer takes one; which sessions are held *)
| PDrop (sid : string)                        (* a session is let go: its live entry is gone *)
| PFlush (up : bool) (sid : string)                                  (* losses are recorded *)
| PSync (sids : list string) (fs : option (list SubscriptionFilter)). (* snapshots reload *)

(** The pipeline, with ghost counts for one session: updates that arrived while
    some subscription might want them, updates the writer dealt with, and losses
    nobody counts. *)
Record pipe := mkPipe { pp_r : receiver; pp_d : db; pp_wanted : Z; pp_handled : Z; pp_untold : Z }.

(** Does the writer deal with an update: no subscription matches, or its rows
    are stored. *)
Definition handles (up : bool) (fresh : string → string) (text : json → option string) (now : Z)
    (it : outItem) (d : db) : bool :=
  match oi_subs it with
  | None => true
  | Some snap =>
      let ids := route snap (oi_ctor it) (oi_payload it) in
      bool_decide (ids = []) ||
      (up && match EnqueueDeliveries fresh (text (oi_payload it)) now (oi_session it) ids d with
             | Ok _ => true | Err _ => false end)
  end.

Definition one (b : bool) : Z := if b then 1%Z else 0%Z.

Definition lost (sid : string) (r : receiver) : Z := default 0%Z (rc_dropped r !! sid).

(** The code's steps. An entry that is let go takes its snapshot and its count
    with it. A client that outlives its entry goes on with the snapshot it had,
    and counts on the entry that is gone. *)
Definition pipe_run (op : pop) (r : receiver) (d : db) : receiver * db :=
  match op with
  | PReceive sid ctor payload => (receive sid ctor payload r, d)
  | PStray sid snap ctor payload =>
      let r' := receive sid ctor payload (mkReceiver (rc_outbox r) {[sid := snap]} ∅) in
      (mkReceiver (rc_outbox r') (rc_snaps r) (rc_dropped r), d)
  | PWrite up fresh text held now =>
      match rc_outbox r with
      | [] => (r, d)
      | it :: rest => outbox_write up fresh text held now it (mkReceiver rest (rc_snaps r) (rc_dropped r)) d
      end
  | PDrop sid => (mkReceiver (rc_outbox r) (delete sid (rc_snaps r)) (delete sid (rc_dropped r)), d)
  | PFlush up sid => flush_one up sid r d
  | PSync sids fs => (syncSubscriptions sids fs r, d)
  end.

(** What a step does to the ghost counts of [sid]: wanted, dealt with, untold. *)
Definition tally (sid : string) (op : pop) (r : receiver) (d : db) : Z * Z * Z :=
  match op with
  | PReceive sid' ctor _ => (one (String.eqb sid' sid && wants (default None (rc_snaps r !! sid')) ctor), 0, 0)%Z
  | PStray sid' snap ctor _ =>
      let w := String.eqb sid' sid && wants snap ctor in
      (one w, 0, one (w && negb (length (rc_outbox r) <? outbox_cap)%nat))%Z
  | PWrite up fresh text held now =>
      match rc_outbox r with
      | [] => (0, 0, 0)%Z
      | it :: _ =>
          let mine := String.eqb (oi_session it) sid in let done := handles up fresh text now it d in
          (0, one (mine && done), one (mine && negb done && negb (held sid)))%Z
      end
  | PDrop sid' => (0, 0, if String.eqb sid' sid then lost sid r else 0)%Z
  | PFlush _ _ | PSync _ _ => (0, 0, 0)%Z
  end.

Definition pipe_step (sid : string) (s : pipe) (op : pop) : pipe :=
  let w := pipe_run op (pp_r s) (pp_d s) in
  let t := tally sid op (pp_r s) (pp_d s) in
  mkPipe w.1 w.2 (pp_wanted s + t.1.1) (pp_handled s + t.1.2) (pp_untold s + t.2).

(** The session is held while this happens. *)
Definition keeps (sid : string) (op : pop) : bool :=
  match op with
  | PStray sid' _ _ _ | PDrop sid' => negb (String.eqb sid' sid)
  | PWrite _ _ _ held _ => held sid
  | _ => true
  end.

Definition queued (sid : string) (r : receiver) : Z :=
  Z.of_nat (length (filter (λ it, oi_session it = sid) (rc_outbox r))).

Definition recorded (k : string) (d : db) : Z :=
  match subs d !! k with Some s => sb_dropped s | None => 0%Z end.

Definition on_session (sid k : string) (d : db) : Prop :=
  ∃ s, subs d !! k = Some s ∧ sb_session s = sid.

(** The account is always balanced. *)
Definition balanced (sid k : string) (base : Z) (s : pipe) : Prop :=
  on_session sid k (pp_d s) ∧
  pp_wanted s = (queued sid (pp_r s) + pp_handled s + lost sid (pp_r s) + pp_untold s + (recorded k (pp_d s) - base))%Z.

Lemma queued_snoc sid o it sn dr :
  queued sid (mkReceiver (o ++ [it]) sn dr) =
  (queued sid (mkReceiver o sn dr) + one (String.eqb (oi_session it) sid))%Z.
Proof.
  unfold queued. simpl. rewrite filter_app, length_app, filter_cons, filter_nil.
  destruct (String.eqb_spec (oi_session it) sid), (decide (oi_session it = sid)); try done; simpl; lia.
Qed.

Lemma queued_cons sid it o sn dr :
  queued sid (mkReceiver (it :: o) sn dr) =
  (one (String.eqb (oi_session it) sid) + queued sid (mkReceiver o sn dr))%Z.
Proof.
  unfold queued. simpl. rewrite filter_cons.
  destruct (String.eqb_spec (oi_session it) sid), (decide (oi_session it = sid)); try done; simpl; lia.
Qed.

Lemma lost_bump sid sid' n o sn dr :
  lost sid (mkReceiver o sn (bump n sid' dr)) =
  (lost sid (mkReceiver o sn dr) + if String.eqb sid' sid then n else 0)%Z.
Proof.
  unfold lost, bump. simpl. destruct (String.eqb_spec sid' sid) as [->|Hne].
  - by rewrite lookup_insert_eq.
  - rewrite lookup_insert_ne by done. lia.
Qed.

Lemma enqueue_subs fresh text now sid ids d d' :
  EnqueueDeliveries fresh text now sid ids d = Ok d' → subs d' = subs d.
Proof. unfold EnqueueDeliveries. destruct text; [|done]. destruct (_ && _); [|done]. by intros [= <-]. Qed.

Lemma balanced_receive sid k base s sid' ctor payload :
  balanced sid k base s → balanced sid k base (pipe_step sid s (PReceive sid' ctor payload)).
Proof.
  intros [Hk Hb]. split; [done|]. destruct s as [[o sn dr] d wd hd un]. simpl in *.
  unfold receive. cbn [rc_snaps rc_outbox rc_dropped].
  destruct (wants (default None (sn !! sid')) ctor) eqn:E; cbn [negb].
  - rewrite andb_true_r. destruct (length o <? outbox_cap)%nat.
    + rewrite queued_snoc. cbn [oi_session]. unfold lost in *. simpl in *. lia.
    + rewrite lost_bump. unfold queued, one in *. simpl in *. destruct (String.eqb sid' sid); lia.
  - rewrite andb_false_r. simpl. lia.
Qed.

Lemma balanced_stray sid k base s sid' snap ctor payload :
  balanced sid k base s → balanced sid k base (pipe_step sid s (PStray sid' snap ctor payload)).
Proof.
  intros [Hk Hb]. split; [done|]. destruct s as [[o sn dr] d wd hd un]. simpl in *.
  unfold receive. cbn [rc_snaps rc_outbox rc_dropped]. rewrite lookup_singleton_eq. cbn [default id].
  destruct (wants snap ctor); cbn [negb].
  - rewrite andb_true_r. destruct (length o <? outbox_cap)%nat; cbn [rc_outbox negb].
    + rewrite queued_snoc, andb_false_r. cbn [oi_session]. unfold lost in *. simpl in *. lia.
    + rewrite andb_true_r. unfold lost in *. simpl in *. lia.
  - rewrite andb_false_r. simpl in *. lia.
Qed.

Lemma balanced_drop sid k base s sid' :
  balanced sid k base s → balanced sid k base (pipe_step sid s (PDrop sid')).
Proof.
  intros [Hk Hb]. split; [done|]. destruct s as [[o sn dr] d wd hd un]. simpl in *. unfold queued, lost in *. simpl in *.
  destruct (String.eqb_spec sid' sid) as [->|Hne]; [rewrite lookup_delete_eq; simpl; lia|].
  rewrite lookup_delete_ne by done. lia.
Qed.

Lemma balanced_write sid k base s up fresh text held now :
  balanced sid k base s → balanced sid k base (pipe_step sid s (PWrite up fresh text held now)).
Proof.
  intros [Hk Hb]. destruct s as [[o sn dr] d wd hd un]. unfold pipe_step, tally, pipe_run. cbn [pp_r pp_d pp_wanted pp_handled pp_untold rc_outbox] in *.
  destruct o as [|it rest].
  { split; [done|]. simpl in *. lia. }
  rewrite queued_cons in Hb. unfold outbox_write, handles. cbn [rc_snaps rc_outbox rc_dropped].
  unfold balanced. cbn [pp_d pp_r pp_wanted pp_handled pp_untold].
  destruct (oi_subs it) as [snap|]; [|simpl; rewrite andb_true_r, andb_false_r; split; [done|unfold lost in *; simpl in *; lia]].
  set (ids := route snap (oi_ctor it) (oi_payload it)).
  destruct (bool_decide (ids = [])); [simpl; rewrite andb_true_r, andb_false_r; split; [done|unfold lost in *; simpl in *; lia]|].
  cbn [orb].
  set (r1 := if held (oi_session it) then mkReceiver rest sn (bump 1 (oi_session it) dr) else mkReceiver rest sn dr).
  assert (Hlost : on_session sid k d ∧ (wd + 0 =
      queued sid r1 + (hd + one (String.eqb (oi_session it) sid && false)) + lost sid r1 +
      (un + one (String.eqb (oi_session it) sid && true && negb (held sid))) + (recorded k d - base))%Z).
  { split; [done|]. unfold r1. destruct (String.eqb_spec (oi_session it) sid) as [->|Hne].
    - destruct (held sid); [rewrite lost_bump, String.eqb_refl|]; unfold queued, lost, one in *; simpl in *; lia.
    - destruct (held (oi_session it)); [rewrite lost_bump, (proj2 (String.eqb_neq _ _) Hne)|];
        unfold queued, lost, one in *; simpl in *; lia. }
  destruct up; cbn [andb].
  - destruct (EnqueueDeliveries _ _ _ _ _ _) as [d'|e] eqn:Ee; cbn [fst snd]; [|exact Hlost].
    apply enqueue_subs in Ee. unfold on_session, recorded. rewrite Ee. rewrite andb_true_r, andb_false_r.
    split; [done|]. unfold lost, recorded in *. simpl in *. lia.
  - exact Hlost.
Qed.

Lemma balanced_flush sid k base s up sid' :
  balanced sid k base s → balanced sid k base (pipe_step sid s (PFlush up sid')).
Proof.
  intros [(sb&Hk&Hs) Hb]. destruct s as [[o sn dr] d wd hd un]. simpl in *. unfold pipe_step. cbn. unfold flush_one.
  cbn [rc_snaps rc_outbox rc_dropped]. set (n := default 0%Z (dr !! sid')).
  rewrite !Z.add_0_r.
  assert (Hsame : balanced sid k base (mkPipe (mkReceiver o sn dr) d wd hd un)) by (split; [by exists sb|done]).
  destruct (n =? 0)%Z; [done|]. destruct up; [|done].
  unfold balanced, on_session, recorded, AddDropped. cbn [fst snd pp_d pp_r pp_wanted pp_handled pp_untold subs with_subs].
  rewrite lookup_update_where, Hk. simpl. rewrite Hs. unfold recorded in Hb. rewrite Hk in Hb.
  unfold queued, lost in *. simpl in *. destruct (String.eqb_spec sid sid') as [<-|Hne].
  - split; [eexists; split; [done|]; by destruct sb|]. rewrite lookup_insert_eq. simpl. fold n in Hb. lia.
  - split; [eauto|]. rewrite lookup_insert_ne by done. lia.
Qed.

Lemma balanced_sync sid k base s sids fs :
  balanced sid k base s → balanced sid k base (pipe_step sid s (PSync sids fs)).
Proof.
  intros [Hk Hb]. split; [done|]. simpl. unfold syncSubscriptions.
  rewrite !Z.add_0_r. destruct fs; [|done]. unfold queued, lost in *. by simpl.
Qed.

Lemma untold_keeps sid s op : keeps sid op = true → pp_untold (pipe_step sid s op) = pp_untold s.
Proof.
  intros Hk. unfold pipe_step. cbn [pp_untold]. cut ((tally sid op (pp_r s) (pp_d s)).2 = 0%Z); [lia|].
  destruct op as [| sid' snap ctor p|up fresh text held now|sid'| |]; cbn in *; try done.
  - by rewrite (negb_true_iff (String.eqb _ _)) in Hk; rewrite Hk.
  - destruct (rc_outbox (pp_r s)); [done|]. cbn. by rewrite Hk, andb_false_r.
  - by rewrite (negb_true_iff (String.eqb _ _)) in Hk; rewrite Hk.
Qed.

(** C6: No update of a session that stays held is lost without a trace. Over any
    run of arrivals, writes (failed ones included), loss reports (failed ones
    included), snapshot reloads and sessions let go, every update that arrived
    while some subscription of the session might want it is exactly one of:
    still in the memory queue, dealt with by the writer, counted as lost and not
    yet reported, charged to each subscription of the session in the registry,
    or lost uncounted. The last happens only around the session being let go: a
    write that fails while it is not held, the unreported count its entry had,
    an update of its old client that finds the queue full. As long as it is held
    there is none, and then, with an empty queue and nothing unreported, a
    subscription's [dropped] has grown by exactly the updates not dealt with. *)
Theorem no_silent_loss sid k ops r d sb :
  subs d !! k = Some sb → sb_session sb = sid → rc_outbox r = [] → rc_dropped r = ∅ →
  let s := foldl (pipe_step sid) (mkPipe r d 0 0 0) ops in
  pp_wanted s = (queued sid (pp_r s) + pp_handled s + lost sid (pp_r s) + pp_untold s +
                 (recorded k (pp_d s) - sb_dropped sb))%Z ∧
  (Forall (λ op, keeps sid op = true) ops →
     pp_untold s = 0%Z ∧
     (rc_outbox (pp_r s) = [] → lost sid (pp_r s) = 0%Z →
        recorded k (pp_d s) = (sb_dropped sb + (pp_wanted s - pp_handled s))%Z)).
Proof.
  intros Hk Hs Ho Hd s. assert (Hb : balanced sid k (sb_dropped sb) s).
  { unfold s. apply (foldl_inv (pipe_step sid) (balanced sid k (sb_dropped sb))).
    - intros s' [] _ Hs'; [by apply balanced_receive|by apply balanced_stray|by apply balanced_write|by apply balanced_drop
                          |by apply balanced_flush|by apply balanced_sync].
    - split; [by exists sb|]. unfold queued, lost, recorded. simpl. rewrite Ho, Hd, Hk, lookup_empty. simpl. lia. }
  destruct Hb as [_ Hb]. split; [done|]. intros Hkeep.
  assert (Hu : pp_untold s = 0%Z).
  { unfold s. apply (foldl_inv (pipe_step sid) (λ s, pp_untold s = 0%Z)); [|done].
    intros s' op Hop Hs'. rewrite Forall_forall in Hkeep. by rewrite untold_keeps by auto. }
  split; [exact Hu|]. intros Hq Hl. unfold queued in Hb. rewrite Hq in Hb. simpl in Hb. lia.
Qed.

Definition ex_pipe_ops : list pop :=
  [PSync ["s"] (Some (SubscriptionFilters ["s"] ex_pipe_db));
   PReceive "s" "updateNewMessage" (JObj []); PReceive "s" "updateUser" (JObj []);
   PWrite true (λ s, "d-" +:+ s) (λ _, Some "{}") (λ _, true) 4;
   PWrite false (λ s, "e-" +:+ s) (λ _, Some "{}") (λ _, true) 5;
   PFlush false "s"; PFlush true "s"].

Lemma no_silent_loss_witness :
  let s := foldl (pipe_step "s") (mkPipe (mkReceiver [] ∅ ∅) ex_pipe_db 0 0 0) ex_pipe_ops in
  (pp_wanted s = 2%Z ∧ pp_handled s = 1%Z ∧ recorded "a" (pp_d s) = 1%Z) ∧
  pp_wanted s = (queued "s" (pp_r s) + pp_handled s + lost "s" (pp_r s) + pp_untold s +
                 (recorded "a" (pp_d s) - 0))%Z ∧
  (Forall (λ op, keeps "s" op = true) ex_pipe_ops →
     pp_untold s = 0%Z ∧
     (rc_outbox (pp_r s) = [] → lost "s" (pp_r s) = 0%Z →
        recorded "a" (pp_d s) = (0 + (pp_wanted s - pp_handled s))%Z)).
Proof.
  split; [vm_compute; done|].
  apply (no_silent_loss "s" "a" ex_pipe_ops (mkReceiver [] ∅ ∅) ex_pipe_db
           (mkSub "s" None "http://a" None None 0 0 None None None)); vm_compute; reflexivity.
Defined.

(** Two losses nobody will ever see: a write that fails after the session was
    let go, and one that was counted on the entry but not reported before. *)
Example untold_losses :
  let s := foldl (pipe_step "s") (mkPipe (mkReceiver [] ∅ ∅) ex_pipe_db 0 0 0)
    [PSync ["s"] (Some (SubscriptionFilters ["s"] ex_pipe_db));
     PReceive "s" "updateNewMessage" (JObj []); PReceive "s" "updateUser" (JObj []);
     PWrite false (λ s, s) (λ _, Some "{}") (λ _, true) 4; PDrop "s";
     PWrite false (λ s, s) (λ _, Some "{}") (λ _, false) 5; PFlush true "s"] in
  (pp_wanted s, pp_handled s, pp_untold s, recorded "a" (pp_d s)) = (2, 0, 2, 0)%Z.
Proof. vm_compute. done. Qed.
