(* ===== verification/Sync.v ===== *)
(** Subscriptions in step with the registry (internal/session/subs.go,
    runSubscriptionSync): once a second a worker reloads the snapshots its
    receivers route by and reports what was lost. With the parts before it in
    Subs, Delivery and Pipeline: from a subscription in the registry to the rows
    queued for it. *)

From S2P Require Import Prelude GoStr Json Types Db Subs Delivery Pipeline.


(** ** Operations *)

(** The sessions held, in the random order of Go's maps [walk]
    [internal/session/subs.go#liveSessions]. *)
Definition liveSessions (walk : list string → list string) (held : gset string) : list string :=
  walk (elements held).

(** [wr] says for which sessions the write gets through
    [internal/session/subs.go#flushDropped]. *)
Definition flushDropped (wr : string → bool) (sids : list string) (s : receiver * db) : receiver * db :=
  foldl (λ s sid, flush_one (wr sid) sid s.1 s.2) s sids.

(** What one tick meets: the sessions held when the snapshots reload and when
    the losses are reported, whether the registry can be read, and written. *)
Record tick := mkTick { tk_held : gset string; tk_flush : gset string; tk_read : bool; tk_write : string → bool }.

(** The body of the loop
    [internal/session/subs.go:142-143#runSubscriptionSync]. *)
Definition sync_round (walk : list string → list string) (t : tick) (s : receiver * db) : receiver * db :=
  let sids := liveSessions walk (tk_held t) in
  let fs := if tk_read t then Some (SubscriptionFilters sids s.2) else None in
  flushDropped (tk_write t) (liveSessions walk (tk_flush t)) (syncSubscriptions sids fs s.1, s.2).

(** The loop over its ticks; [others] is what happens before each one: updates,
    writes and whatever the rest of the fleet does to the registry
    [internal/session/subs.go#runSubscriptionSync]. *)
Definition runSubscriptionSync (walk : list string → list string) (ticks : list ((receiver * db → receiver * db) * tick))
    (s : receiver * db) : receiver * db :=
  foldl (λ s t, sync_round walk t.2 (t.1 s)) s ticks.

(** ** Snapshots *)

Lemma foldl_assign {A} (f : string → A) (l : list string) (m : gmap string A) k :
  foldl (λ m x, <[x := f x]> m) m l !! k = if decide (k ∈ l) then Some (f k) else m !! k.
Proof.
  revert m. induction l as [|x l IH]; intros m; cbn [foldl]; [case_decide; set_solver|].
  rewrite IH. destruct (decide (k = x)) as [->|Hne]; [rewrite lookup_insert_eq|rewrite lookup_insert_ne by done];
    repeat case_decide; set_solver.
Qed.

(** What the registry says of an update: [k] is a subscription of the session
    whose filter accepts it. *)
Definition subscribed (d : db) (sid ctor : string) (payload : json) (k : string) : Prop :=
  ∃ s, subs d !! k = Some s ∧ sb_session s = sid ∧ accepts ctor payload (mkSubFilter k sid (sb_filters s)) = true.

Lemma elem_of_filters sids sid ctor payload d k :
  sid ∈ sids →
  k ∈ map sf_id (filter (λ f, accepts ctor payload f = true) (filter (λ f, sf_session f = sid) (SubscriptionFilters sids d))) ↔
  subscribed d sid ctor payload k.
Proof.
  intros Hsid. unfold SubscriptionFilters. rewrite bool_decide_false by (by intros ->; apply not_elem_of_nil in Hsid).
  change (map ?f ?l) with (f <$> l). rewrite list_elem_of_fmap. unfold subscribed. split.
  - intros (f&->&[Ha [Hs Hin]%list_elem_of_filter]%list_elem_of_filter).
    apply list_elem_of_fmap in Hin as ([k s]&->&Hin%elem_of_order_by%elem_of_select). destruct Hin as [Hk _]. simpl in *.
    exists s. by subst.
  - intros (s&Hk&<-&Ha). exists (mkSubFilter k (sb_session s) (sb_filters s)). split; [done|].
    apply list_elem_of_filter. split; [done|]. apply list_elem_of_filter. split; [done|].
    apply list_elem_of_fmap. exists (k, s). split; [done|]. apply elem_of_order_by, elem_of_select.
    split; [done|]. by apply bool_decide_eq_true.
Qed.

(** What a receiver hands on under a snapshot is what the snapshot was made of. *)
Lemma routed_snapshot fs ctor payload :
  (wants (newSnapshot fs) ctor = false → routed fs ctor payload = []) ∧
  (wants (newSnapshot fs) ctor = true → ∃ s, newSnapshot fs = Some s ∧ routed fs ctor payload = route s ctor payload).
Proof.
  unfold routed. destruct (newSnapshot fs) as [s|]; [|done]. split; intros ->; [done|by eexists].
Qed.

(** An update that arrives under the snapshot of [fs] while the queue has room
    and that [fs] routes to [ids]: it is queued for them, or they are none. *)
Lemma receive_routed fs sid ctor payload r :
  rc_snaps r !! sid = Some (newSnapshot fs) → (length (rc_outbox r) < outbox_cap)%nat →
  (receive sid ctor payload r = r ∧ routed fs ctor payload = []) ∨
  ∃ snap, receive sid ctor payload r =
            mkReceiver (rc_outbox r ++ [mkItem sid ctor payload (Some snap)]) (rc_snaps r) (rc_dropped r) ∧
          route snap ctor payload = routed fs ctor payload.
Proof.
  intros Hs Hroom. unfold receive. rewrite Hs. cbn [default from_option id].
  destruct (routed_snapshot fs ctor payload) as [H0 H1].
  destruct (wants (newSnapshot fs) ctor) eqn:Ew; cbn [negb]; [|left; by rewrite H0].
  right. destruct (H1 eq_refl) as (s&->&Hr). rewrite (proj2 (Nat.ltb_lt _ _) Hroom). by exists s.
Qed.

(** The writer stores an item for the subscriptions it routes to. *)
Lemma write_routed fresh text p now hold sid ctor payload snap rw d :
  text payload = Some p → Inj (=) (=) fresh → (∀ s, deliveries d !! fresh s = None) →
  let w := outbox_write true fresh text hold now (mkItem sid ctor payload (Some snap)) rw d in
  w.1 = rw ∧ ∀ k row, deliveries w.2 !! k = Some row ↔ deliveries d !! k = Some row ∨
    ∃ s sb, s ∈ route snap ctor payload ∧ subs d !! s = Some sb ∧ sb_session sb = sid ∧ k = fresh s ∧
      row = mkDelivery sid s p "pending" 0 now now.
Proof.
  intros Ht Hinj Hfree w. unfold w, outbox_write. cbn [oi_subs oi_ctor oi_payload oi_session].
  destruct (bool_decide_reflect (route snap ctor payload = [])) as [He|Hne].
  { split; [done|]. intros k row. cbn [snd]. split; [by left|]. intros [?|(s&sb&Hin&_)]; [done|].
    rewrite He in Hin. by apply not_elem_of_nil in Hin. }
  destruct (EnqueueDeliveries fresh (text payload) now sid (route snap ctor payload) d) as [d'|e] eqn:E.
  - destruct (enqueue_exact _ _ _ _ _ _ _ E) as ((p'&Hp'&Hrows)&_&_). rewrite Ht in Hp'. injection Hp' as <-. split; [done|exact Hrows].
  - exfalso. unfold EnqueueDeliveries in E. rewrite Ht in E. revert E. set (hit := select _ (subs d)).
    destruct (_ && _) eqn:Ec; [done|]. intros _. apply andb_false_iff in Ec as [Hnd|Hu].
    + apply bool_decide_eq_false in Hnd. apply Hnd. change (NoDup ((λ kv : string * sub_row, fresh kv.1) <$> hit)).
      rewrite (list_fmap_compose fst fresh hit : (λ kv, fresh kv.1) <$> hit = _). apply NoDup_fmap_2; [done|]. apply NoDup_select.
    + apply not_true_iff_false in Hu. apply Hu, forallb_forall. intros i Hi%list_elem_of_In%list_elem_of_fmap.
      destruct Hi as (kv&->&_). apply negb_true_iff, not_true_iff_false. rewrite has_spec, Hfree. by intros [? [=]].
Qed.

(** ** Losses *)

Lemma flush_one_lost up sid sid' r d :
  lost sid' (flush_one up sid r d).1 = (if up && String.eqb sid sid' then 0 else lost sid' r)%Z.
Proof.
  unfold flush_one, lost. destruct (Z.eqb_spec (default 0 (rc_dropped r !! sid))%Z 0) as [Hz|Hn]; cbn [fst].
  - destruct (String.eqb_spec sid sid') as [<-|]; [|by rewrite andb_false_r]. rewrite Hz. by destruct up.
  - destruct up; cbn [andb fst rc_dropped]; [|done]. destruct (String.eqb_spec sid sid') as [<-|Hne]; [by rewrite lookup_insert_eq|].
    by rewrite lookup_insert_ne.
Qed.

(** Nothing but counts moves, and what leaves one shows in the other. *)
Definition carried (r : receiver) (d : db) (s : receiver * db) : Prop :=
  rc_outbox s.1 = rc_outbox r ∧ rc_snaps s.1 = rc_snaps r ∧ s.2 = with_subs (λ _, subs s.2) d ∧
  ∀ k b, subs d !! k = Some b → ∃ n, subs s.2 !! k = Some (add_dropped n b) ∧
    (n + lost (sb_session b) s.1 = lost (sb_session b) r)%Z.

Lemma add_dropped_add m n b : add_dropped m (add_dropped n b) = add_dropped (n + m) b.
Proof. unfold add_dropped. cbn. f_equal. lia. Qed.

Lemma flush_one_carried r d up sid s : carried r d s → carried r d (flush_one up sid s.1 s.2).
Proof.
  intros (Ho&Hs&Hd&Hk). unfold flush_one.
  destruct (Z.eqb_spec (default 0 (rc_dropped s.1 !! sid))%Z 0) as [Hz|Hn]; [done|]. destruct up; [|done]. split; [done|]. split; [done|]. cbn [fst snd]. split; [by rewrite Hd; destruct d|].
  intros k b Hb. destruct (Hk k b Hb) as (n&Hn'&Hsum). unfold AddDropped. cbn [subs with_subs].
  rewrite lookup_update_where, Hn'. cbn [fmap option_fmap option_map sb_session add_dropped].
  unfold lost in *. cbn [rc_dropped]. destruct (String.eqb_spec (sb_session b) sid) as [<-|Hne].
  - eexists. rewrite add_dropped_add, lookup_insert_eq. split; [done|]. cbn. lia.
  - exists n. by rewrite lookup_insert_ne.
Qed.

Lemma flush_carried wr sids r d : carried r d (flushDropped wr sids (r, d)).
Proof.
  unfold flushDropped. apply (foldl_inv _ (carried r d)); [intros s sid _; by apply flush_one_carried|].
  split; [done|]. split; [done|]. split; [by destruct d|]. intros k b Hb. exists 0%Z. split; [|simpl; lia].
  simpl. rewrite Hb. f_equal. destruct b. unfold add_dropped. cbn. f_equal. lia.
Qed.

Lemma flush_reported wr sids s sid : sid ∈ sids → wr sid = true → lost sid (flushDropped wr sids s).1 = 0%Z.
Proof.
  intros Hin Hw. unfold flushDropped.
  assert (Hkeep : ∀ l s', lost sid s'.1 = 0%Z → lost sid (foldl (λ s sid, flush_one (wr sid) sid s.1 s.2) s' l).1 = 0%Z).
  { intros l s' H. apply (foldl_inv _ (λ s, lost sid s.1 = 0%Z)); [|done]. intros s1 x _ H1. rewrite flush_one_lost, H1. by destruct (_ && _). }
  revert s. induction sids as [|x l IH]; intros s; [by apply not_elem_of_nil in Hin|]. cbn [foldl].
  apply elem_of_cons in Hin as [<-|Hin]; [|by apply IH]. apply Hkeep. by rewrite flush_one_lost, Hw, String.eqb_refl.
Qed.

(** ** Theorem *)

(** C34: A round brings a worker in step with the registry. Once it has read the
    subscriptions, an update of a held session that finds room in the queue is
    stored, when the writer comes to it, as one pending delivery for each
    subscription which the registry had then, whose filter accepts the update
    and which is still there, and for no other; it is not queued when there was
    none. A round that cannot read keeps the snapshots it had. Whatever writes
    fail, what a subscription shows as dropped and what is still unreported add
    up as before; a report that went through leaves nothing unreported. *)
Theorem sync_current walk t r d sid ctor payload :
  (∀ l, walk l ≡ₚ l) →
  let s := sync_round walk t (r, d) in
  (tk_read t = true → sid ∈ tk_held t → (length (rc_outbox s.1) < outbox_cap)%nat →
     (receive sid ctor payload s.1 = s.1 ∧ ∀ k, ¬ subscribed d sid ctor payload k) ∨
     ∃ it, receive sid ctor payload s.1 = mkReceiver (rc_outbox s.1 ++ [it]) (rc_snaps s.1) (rc_dropped s.1) ∧
       ∀ fresh text p now hold rw d', text payload = Some p → Inj (=) (=) fresh → (∀ k, deliveries d' !! fresh k = None) →
         let w := outbox_write true fresh text hold now it rw d' in
         w.1 = rw ∧ ∀ i row, deliveries w.2 !! i = Some row ↔ deliveries d' !! i = Some row ∨
           ∃ k b, subscribed d sid ctor payload k ∧ subs d' !! k = Some b ∧ sb_session b = sid ∧ i = fresh k ∧
             row = mkDelivery sid k p "pending" 0 now now) ∧
  (tk_read t = false → rc_snaps s.1 = rc_snaps r) ∧
  rc_outbox s.1 = rc_outbox r ∧ s.2 = with_subs (λ _, subs s.2) d ∧
  (∀ k b, subs d !! k = Some b → ∃ n, subs s.2 !! k = Some (add_dropped n b) ∧
     (n + lost (sb_session b) s.1 = lost (sb_session b) r)%Z) ∧
  (sid ∈ tk_flush t → tk_write t sid = true → lost sid s.1 = 0%Z).
Proof.
  intros Hw s. unfold s, sync_round. clear s. cbn [fst snd].
  assert (Hlive : ∀ held, sid ∈ held → sid ∈ liveSessions walk held).
  { intros held H. unfold liveSessions. rewrite Hw. by apply elem_of_elements. }
  set (fs := SubscriptionFilters (liveSessions walk (tk_held t)) d).
  set (r0 := syncSubscriptions _ _ r). set (s := flushDropped _ _ _).
  destruct (flush_carried (tk_write t) (liveSessions walk (tk_flush t)) r0 d) as (Ho&Hs&Hd&Hk). fold s in Ho, Hs, Hd, Hk.
  assert (Hsame : rc_outbox r0 = rc_outbox r ∧ ∀ x, lost x r0 = lost x r) by (unfold r0; by destruct (tk_read t)).
  destruct Hsame as [Ho' Hl']. split; [|split; [|split; [by rewrite Ho|split; [exact Hd|split]]]].
  - intros Hrd Hin Hroom. set (mine := filter (λ f, sf_session f = sid) fs).
    pose proof (λ k, elem_of_filters _ sid ctor payload d k (Hlive _ Hin)) as Hids. fold fs mine in Hids.
    assert (Hsnap : rc_snaps s.1 !! sid = Some (newSnapshot mine)).
    { rewrite Hs. unfold r0. rewrite Hrd. cbn [syncSubscriptions rc_snaps]. rewrite foldl_assign. by rewrite decide_True by auto. }
    destruct (receive_routed mine sid ctor payload s.1 Hsnap Hroom) as [[-> H0]|(snap&->&Hr)]; rewrite routed_accepts in *.
    + left. split; [done|]. intros k Hsub. apply Hids in Hsub. rewrite H0 in Hsub.
      by apply not_elem_of_nil in Hsub.
    + right. eexists. split; [reflexivity|]. intros fresh text p now hold rw d' Ht Hinj Hfree.
      destruct (write_routed fresh text p now hold sid ctor payload snap rw d' Ht Hinj Hfree) as [Hw1 Hw2].
      split; [exact Hw1|]. intros i row. rewrite Hw2, Hr. apply or_iff_compat_l.
      split; intros (k&b&Hk1&Hk2); exists k, b; (split; [by apply Hids|done]).
  - intros Hrd. rewrite Hs. unfold r0. by rewrite Hrd.
  - intros k b Hb. destruct (Hk k b Hb) as (n&H1&H2). exists n. by rewrite <- Hl'.
  - intros Hin. apply flush_reported. by apply Hlive.
Qed.

(** Two subscriptions, one for messages only, and three losses to report. *)
Definition ex_sync_db : db :=
  with_subs (λ _, {["a" := mkSub "s" None "http://a" None None 0 0 None None None;
                    "b" := mkSub "s" None "http://b" None (Some (JObj [("types", JArr [JStr "updateNewMessage"])])) 1 5 None None None]})
    ex_pipe_db.

Definition ex_tick : tick := mkTick {["s"]} {["s"]} true (λ _, true).

Definition ex_lossy : receiver := mkReceiver [] ∅ {["s" := 3%Z]}.

Lemma sync_current_witness :
  let s := sync_round id ex_tick (ex_lossy, ex_sync_db) in
  let r := receive "s" "updateUser" (JObj []) s.1 in
  (λ it, (oi_ctor it, (λ sn, route sn (oi_ctor it) (oi_payload it)) <$> oi_subs it)) <$> rc_outbox r = [("updateUser", Some ["a"])] ∧
  sb_dropped <$> subs s.2 !! "b" = Some 8%Z ∧
  lost "s" s.1 = 0%Z ∧
  ((r = s.1 ∧ ∀ k, ¬ subscribed ex_sync_db "s" "updateUser" (JObj []) k) ∨
   ∃ it, r = mkReceiver (rc_outbox s.1 ++ [it]) (rc_snaps s.1) (rc_dropped s.1)).
Proof.
  split; [vm_compute; reflexivity|]. split; [vm_compute; reflexivity|].
  destruct (sync_current id ex_tick ex_lossy ex_sync_db "s" "updateUser" (JObj []) (λ l, reflexivity l)) as (H1&_&_&_&_&H2).
  split; [apply H2; [simpl; set_solver|reflexivity]|].
  destruct H1 as [H|(it&H&_)]; [reflexivity|simpl; set_solver|vm_compute; lia|left; exact H|right; exists it; exact H].
Defined.
