(* ===== verification/Auth.v ===== *)
(** The gateway's front (internal/router/router.go): the routes, who may use
    them, and where a request goes. *)

From S2P Require Import Prelude GoStr Json Types Sha256 Db Registry Tokens.


(** ** Requests *)

(** A request as the handlers see it. [hq_segs] is the path's segments after
    the leading slash, each unescaped, which is how [net/http.ServeMux] matches
    them; a segment may hold a slash that was escaped, and a trailing slash is
    an empty last segment. [hq_clean] tells a path the mux serves from one it
    redirects to its clean form. *)
Record request := mkRequest {
  hq_method : string;
  hq_segs : list string;
  hq_clean : bool;
  hq_auth : string;        (* Authorization, "" when absent *)
  hq_token_id : string;    (* X-Tgcontrol-Token-Id as the client sent it *)
  hq_connection : list string;   (* the options of its Connection header, split at commas and trimmed *)
}.

(** [r.URL.Path]. *)
Definition url_path (segs : list string) : string := "/" +:+ sjoin "/" segs.

(** [strings.Split(strings.Trim(path, "/"), "/")]. *)
Definition path_parts (path : string) : list string := ssplit "/" (strim is_slash path).

(** ** Routes *)

(** The handlers of the gateway. *)
Inductive handler :=
| H_healthz | H_listApps | H_listProxies | H_listSessions | H_listWorkers | H_getSend | H_getLimits | H_myLimits
| H_createLimit | H_listLimits | H_getLimit | H_updateLimit | H_deleteLimit
| H_listSubscriptions | H_getSubscription | H_deleteSubscription | H_updateApp | H_updateProxy
| H_createOrUpload | H_appendChunk | H_fileStatus | H_completeUpload | H_abortUpload
| H_listTokens | H_createToken | H_updateToken | H_deleteToken
| H_anyWorker | H_scoped | H_ownerOrAnyWorker.

(** The file routes [internal/router/files.go#registerFileRoutes]. *)
Definition file_routes : list (string * handler) := [
  ("POST /v1/files", H_createOrUpload); ("PATCH /v1/files/{id}", H_appendChunk);
  ("GET /v1/files/{id}", H_fileStatus); ("POST /v1/files/{id}/complete", H_completeUpload);
  ("DELETE /v1/files/{id}", H_abortUpload)].

(** The mux [internal/router/router.go#New]. *)
Definition routes : list (string * handler) := [
  ("GET /healthz", H_healthz);
  ("GET /v1/apps", H_listApps); ("GET /v1/proxies", H_listProxies); ("GET /v1/sessions", H_listSessions);
  ("GET /v1/workers", H_listWorkers);
  ("GET /v1/user/{id}/sends", H_getSend); ("GET /v1/bot/{id}/sends", H_getSend);
  ("GET /v1/user/{id}/limits", H_getLimits); ("GET /v1/bot/{id}/limits", H_getLimits);
  ("GET /v1/me/limits", H_myLimits);
  ("POST /v1/limits", H_createLimit); ("GET /v1/limits", H_listLimits);
  ("GET /v1/limits/{id}", H_getLimit); ("PATCH /v1/limits/{id}", H_updateLimit);
  ("DELETE /v1/limits/{id}", H_deleteLimit);
  ("GET /v1/user/{id}/updates/subscriptions", H_listSubscriptions);
  ("GET /v1/bot/{id}/updates/subscriptions", H_listSubscriptions);
  ("GET /v1/user/{id}/updates/subscriptions/{sub}", H_getSubscription);
  ("GET /v1/bot/{id}/updates/subscriptions/{sub}", H_getSubscription);
  ("DELETE /v1/user/{id}/updates/subscriptions/{sub}", H_deleteSubscription);
  ("DELETE /v1/bot/{id}/updates/subscriptions/{sub}", H_deleteSubscription);
  ("PATCH /v1/apps/{id}", H_updateApp); ("PATCH /v1/proxies/{id}", H_updateProxy)] ++
  file_routes ++ [
  ("GET /v1/tokens", H_listTokens); ("POST /v1/tokens", H_createToken);
  ("PATCH /v1/tokens/{id}", H_updateToken); ("DELETE /v1/tokens/{id}", H_deleteToken);
  ("POST /v1/execute", H_anyWorker); ("POST /v1/apps", H_anyWorker); ("POST /v1/proxies", H_anyWorker);
  ("POST /v1/bot", H_anyWorker); ("POST /v1/user", H_anyWorker);
  ("POST /v1/user/{id}/login/code", H_scoped); ("POST /v1/user/{id}/login/password", H_scoped);
  ("POST /v1/user/{id}/login/resend", H_scoped);
  ("POST /v1/user/{id}/call", H_scoped); ("POST /v1/bot/{id}/call", H_scoped);
  ("GET /v1/user/{id}", H_scoped); ("GET /v1/bot/{id}", H_scoped);
  ("GET /v1/user/{id}/files/{file_id}", H_scoped); ("GET /v1/bot/{id}/files/{file_id}", H_scoped);
  ("DELETE /v1/user/{id}", H_ownerOrAnyWorker); ("DELETE /v1/bot/{id}", H_ownerOrAnyWorker);
  ("PATCH /v1/user/{id}", H_ownerOrAnyWorker); ("PATCH /v1/bot/{id}", H_ownerOrAnyWorker);
  ("POST /v1/user/{id}/updates/subscriptions", H_ownerOrAnyWorker);
  ("POST /v1/bot/{id}/updates/subscriptions", H_ownerOrAnyWorker);
  ("DELETE /v1/user/{id}/limits/cooldowns/{scope}", H_ownerOrAnyWorker);
  ("DELETE /v1/bot/{id}/limits/cooldowns/{scope}", H_ownerOrAnyWorker)].

(** A pattern of [net/http.ServeMux]: a method, then segments, each literal or
    a wildcard. *)
Inductive patseg := Lit (s : string) | Wild (name : string).

Definition parse_seg (s : string) : patseg :=
  match cut_prefix s "{" with
  | Some n => Wild (stake (String.length n - 1) n)
  | None => Lit s
  end.

Definition parse_pattern (p : string) : string * list patseg :=
  match ssplit " " p with
  | [m; path] => (m, map parse_seg (ssplit "/" (sdrop 1 path)))
  | _ => ("", [])
  end.

(** Matching: a wildcard takes one segment, not the empty one a trailing slash
    leaves. *)
Fixpoint match_segs (pat : list patseg) (segs : list string) : option (list (string * string)) :=
  match pat, segs with
  | [], [] => Some []
  | Lit l :: pat, s :: segs => if String.eqb l s then match_segs pat segs else None
  | Wild n :: pat, s :: segs =>
      if String.eqb s "" then None else (λ ps, (n, s) :: ps) <$> match_segs pat segs
  | _, _ => None
  end.

(** A GET pattern serves HEAD too. *)
Definition method_ok (pat m : string) : bool :=
  String.eqb pat m || (String.eqb pat "GET" && String.eqb m "HEAD").

(** No two routes of the table overlap, so the first match is the match. *)
Fixpoint mux_find {H : Type} (rs : list (string * H)) (m : string) (segs : list string)
    : option (string * H * list (string * string)) :=
  match rs with
  | [] => None
  | (p, h) :: rs =>
      let pat := parse_pattern p in
      match match_segs pat.2 segs with
      | Some ps => if method_ok pat.1 m then Some (p, h, ps) else mux_find rs m segs
      | None => mux_find rs m segs
      end
  end.

Definition path_known (segs : list string) : bool :=
  existsb (λ r : string * handler, match match_segs (parse_pattern r.1).2 segs with Some _ => true | None => false end)
    routes.

(** [r.PathValue(name)]. *)
Definition path_value (name : string) (ps : list (string * string)) : string :=
  default "" (last_binding name ps).

(** What the front does with a request: a refusal, the mux's own answer, or a
    handler run with its path values and the scoped token's id ([""] for none). *)
Inductive front :=
| Refuse (status : Z) (msg : string)
| MuxReply (status : Z)
| Run (pattern : string) (h : handler) (ps : list (string * string)) (tok : string).

Definition mux (rq : request) (tok : string) : front :=
  if negb (hq_clean rq) then MuxReply 301
  else match mux_find routes (hq_method rq) (hq_segs rq) with
       | Some (p, h, ps) => Run p h ps tok
       | None => MuxReply (if path_known (hq_segs rq) then 405 else 404)
       end.

(** ** Authorization *)

(** [internal/router/files.go#isFilesPath] *)
Definition isFilesPath (p : string) : bool := String.eqb p "/v1/files" || has_prefix p "/v1/files/".

(** On the parts of the path [internal/router/router.go#sessionTarget]. *)
Definition target_of (method : string) (parts : list string) : option string :=
  let get := String.eqb method "GET" in
  let post := String.eqb method "POST" in
  match parts with
  | v :: k :: id :: rest =>
      if negb (String.eqb v "v1" && (String.eqb k "user" || String.eqb k "bot")) then None
      else match rest with
      | [] => if get then Some id else None
      | [x] =>
          if (post && String.eqb x "call") || (get && String.eqb x "sends")
             || (get && String.eqb x "limits") then Some id else None
      | x :: y :: more =>
          if get && String.eqb x "files" && bool_decide (more = []) then Some id
          else if String.eqb x "updates" && String.eqb y "subscriptions" then
            match more with
            | [] => if get || post then Some id else None
            | [_] => if get || String.eqb method "DELETE" then Some id else None
            | _ => None
            end
          else None
      end
  | _ => None
  end.

(** [internal/router/router.go#sessionTarget] *)
Definition sessionTarget (method path : string) : option string := target_of method (path_parts path).

(** [up i] tells whether the [i]th statement of the request reaches the
    registry [internal/router/router.go#auth]. *)
Definition auth (master : string) (up : nat → bool) (d : db) (rq : request) : front :=
  let path := url_path (hq_segs rq) in
  if String.eqb path "/healthz" then mux rq ""
  else if String.eqb (hq_auth rq) "" then Refuse 401 "missing bearer token"
  else if String.eqb (hq_auth rq) ("Bearer " +:+ master) then mux rq ""
  else match cut_prefix (hq_auth rq) "Bearer " with
  | None => Refuse 401 "invalid bearer token"
  | Some tok =>
      if String.eqb tok "" then Refuse 401 "invalid bearer token"
      else if negb (up 0%nat) then Refuse 502 "database"
      else match ResolveToken (sha256 tok) d with
      | None => Refuse 401 "invalid bearer token"
      | Some (id, enabled) =>
          if negb enabled then Refuse 403 "token is disabled"
          else if isFilesPath path then mux rq ""
          else if String.eqb (hq_method rq) "POST" && String.eqb path "/v1/execute" then mux rq ""
          else if String.eqb (hq_method rq) "GET" &&
                  (String.eqb path "/v1/sessions" || String.eqb path "/v1/me/limits") then mux rq id
          else match sessionTarget (hq_method rq) path with
          | None => Refuse 403 "token limited to session calls; management requires the master token"
          | Some sid =>
              if negb (up 1%nat) then Refuse 502 "database"
              else if negb (TokenGrantsSession id sid d) then Refuse 403 "token not permitted for this session"
              else mux rq id
          end
      end
  end.

(** ** The parts of a path *)

Lemma string_rev_app (a b : string) : String.rev (a +:+ b) = String.rev b +:+ String.rev a.
Proof.
  assert (Hgo : ∀ a b c, String.rev_app (a +:+ b) c = String.rev_app b (String.rev_app a c)).
  { induction a0 as [|x a0 IH]; intros b0 c; simpl; [done|]. apply IH. }
  assert (Hacc : ∀ a c, String.rev_app a c = String.rev_app a "" +:+ c).
  { induction a0 as [|x a0 IH]; intros c; simpl; [done|]. rewrite IH, (IH (String x "")), app_assoc_s. done. }
  unfold String.rev. by rewrite Hgo, Hacc.
Qed.

Lemma string_rev_involutive (a : string) : String.rev (String.rev a) = a.
Proof.
  induction a as [|c a IH]; [done|].
  change (String c a) with ((String c "") +:+ a). rewrite string_rev_app, string_rev_app, IH. done.
Qed.

(** Trimming at the end, by the last byte. *)
Lemma trim_end_slash (P : ascii → bool) (s : string) (c : ascii) :
  String.rev (drop_while P (String.rev (s +:+ String c ""))) =
  if P c then String.rev (drop_while P (String.rev s)) else s +:+ String c "".
Proof.
  rewrite string_rev_app. simpl. destruct (P c); [done|].
  change (String c (String.rev s)) with (String.rev (String c "") +:+ String.rev s).
  rewrite <- string_rev_app. by rewrite string_rev_involutive.
Qed.

Lemma last_byte (s : string) : s ≠ "" → ∃ t c, s = t +:+ String c "".
Proof.
  induction s as [|c s IH]; [done|]. intros _. destruct (decide (s = "")) as [->|Hn].
  - by exists "", c.
  - destruct (IH Hn) as (t&d&->). by exists (String c t), d.
Qed.

Lemma sjoin_snoc (sep : string) (l : list string) (w : string) :
  l ≠ [] → sjoin sep (l ++ [w]) = sjoin sep l +:+ sep +:+ w.
Proof.
  induction l as [|x [|y l] IH]; intros Hne; [done..|].
  change (x +:+ sep +:+ sjoin sep ((y :: l) ++ [w]) = (x +:+ sep +:+ sjoin sep (y :: l)) +:+ sep +:+ w).
  rewrite IH by done. by rewrite !app_assoc_s.
Qed.

(** The path's parts when what comes first and what comes last of a prefix are
    not empty: the prefix, and something of the rest. *)
Lemma parts_of_list (A B : list string) (a z : string) :
  Forall (no_char "/") (A ++ B) → head A = Some a → a ≠ "" → last A = Some z → z ≠ "" →
  ∃ X, ssplit "/" (strim is_slash ("/" +:+ sjoin "/" (A ++ B))) = A ++ X ∧ (B = [] → X = []).
Proof.
  intros Hf Ha Hna Hz Hnz.
  assert (Hne : A ≠ []) by (by intros ->).
  assert (Hleft : ∀ B, Forall (no_char "/") (A ++ B) →
    drop_while is_slash ("/" +:+ sjoin "/" (A ++ B)) = sjoin "/" (A ++ B)).
  { intros B' Hf'. destruct A as [|a' A]; [done|]. simpl in Ha. injection Ha as ->. simpl in Hf'.
    apply Forall_cons in Hf' as [Hf' _]. destruct a as [|c a]; [done|].
    apply no_char_cons in Hf' as [Hc _]. simpl.
    destruct (A ++ B') as [|? ?]; simpl; unfold is_slash;
      by rewrite (proj2 (Ascii.eqb_neq c "/")) by congruence. }
  unfold strim. rewrite Hleft by done.
  assert (Hkeep : ∀ (l : list string) w, w ≠ "" → no_char "/" w →
    String.rev (drop_while is_slash (String.rev (sjoin "/" (l ++ [w])))) = sjoin "/" (l ++ [w])).
  { intros l w Hw Hc. destruct (last_byte w Hw) as (t&c&->).
    assert (Hsl : is_slash c = false).
    { apply no_char_app in Hc as [_ Hc]. apply no_char_cons in Hc as [Hc _]. unfold is_slash. by rewrite Ascii.eqb_neq. }
    destruct l as [|x l]; [simpl; by rewrite trim_end_slash, Hsl|].
    rewrite sjoin_snoc by done. rewrite <- !app_assoc_s. by rewrite trim_end_slash, Hsl. }
  clear Hleft. induction B as [|w B IH] using rev_ind.
  - exists []. rewrite app_nil_r in *. split; [|done].
    apply last_Some in Hz as [A' ->]. rewrite Hkeep.
    + apply ssplit_sjoin; [by destruct A'|done].
    + done.
    + apply Forall_app in Hf as [_ Hf]. by apply Forall_cons in Hf as [? _].
  - rewrite app_assoc in *. assert (Hf' := Hf). apply Forall_app in Hf as [Hf Hw].
    apply Forall_cons in Hw as [Hw _]. destruct (decide (w = "")) as [->|Hn].
    + destruct (IH Hf) as (X&HX&_). exists X. split; [|by intros [_ [=]]%app_eq_nil].
      rewrite sjoin_snoc by (by destruct A). rewrite app_nil_r_s, (trim_end_slash is_slash (sjoin "/" (A ++ B)) "/"). done.
    + exists (B ++ [w]). split; [|by intros [_ [=]]%app_eq_nil]. rewrite Hkeep by done.
      rewrite <- app_assoc. apply ssplit_sjoin; [by destruct A|]. by rewrite app_assoc.
Qed.

Lemma sjoin_concat (sep : string) (l k : list string) :
  l ≠ [] → k ≠ [] → sjoin sep (l ++ k) = sjoin sep l +:+ sep +:+ sjoin sep k.
Proof.
  intros Hl Hk. induction l as [|x [|y l] IH]; [done| |].
  - simpl. by destruct k.
  - change (x +:+ sep +:+ sjoin sep ((y :: l) ++ k) = (x +:+ sep +:+ sjoin sep (y :: l)) +:+ sep +:+ sjoin sep k).
    rewrite IH by done. by rewrite !app_assoc_s.
Qed.

(** Splitting every segment further at the slashes it holds. *)
Definition flat (segs : list string) : list string := mjoin (map (ssplit "/") segs).

Lemma sjoin_flat segs : sjoin "/" (flat segs) = sjoin "/" segs.
Proof.
  induction segs as [|s segs IH]; [done|]. unfold flat in *. simpl.
  destruct segs as [|s' segs]; [simpl; by rewrite app_nil_r, sjoin_ssplit|].
  rewrite sjoin_concat; [|apply ssplit_nonempty|].
  - rewrite sjoin_ssplit, IH. done.
  - simpl. intros [?%ssplit_nonempty _]%app_eq_nil. done.
Qed.

Lemma flat_no_slash segs : Forall (no_char "/") (flat segs).
Proof.
  induction segs as [|s segs IH]; [constructor|]. unfold flat. simpl. apply Forall_app.
  split; [apply ssplit_no_char|done].
Qed.

Lemma flat_app l k : flat (l ++ k) = flat l ++ flat k.
Proof. unfold flat. by rewrite map_app, join_app. Qed.

Lemma flat_id l : Forall (no_char "/") l → flat l = l.
Proof. induction 1 as [|x l Hx _ IH]; [done|]. unfold flat in *. simpl. by rewrite ssplit_single, IH. Qed.

(** The parts of a path whose first segments hold no slash. *)
Lemma path_parts_prefix (A B : list string) (a z : string) :
  Forall (no_char "/") A → head A = Some a → a ≠ "" → last A = Some z → z ≠ "" →
  ∃ X, path_parts (url_path (A ++ B)) = A ++ X ∧ (B = [] → X = []).
Proof.
  intros HA Ha Hna Hz Hnz. unfold path_parts, url_path. rewrite <- sjoin_flat.
  assert (HAB : flat (A ++ B) = A ++ flat B) by (by rewrite flat_app, flat_id).
  pose proof (flat_no_slash (A ++ B)) as Hf. rewrite HAB in *.
  destruct (parts_of_list A (flat B) a z Hf Ha Hna Hz Hnz) as (X&HX&HN). exists X. split; [done|].
  intros ->. by apply HN.
Qed.

#[export] Instance no_char_dec c s : Decision (no_char c s).
Proof. unfold no_char. apply _. Defined.

(** ** Which routes a token reaches *)

(** The session routes a scoped token may use. *)
Definition token_routes : list string := [
  "GET /v1/user/{id}"; "GET /v1/bot/{id}"; "POST /v1/user/{id}/call"; "POST /v1/bot/{id}/call";
  "GET /v1/user/{id}/files/{file_id}"; "GET /v1/bot/{id}/files/{file_id}";
  "GET /v1/user/{id}/sends"; "GET /v1/bot/{id}/sends";
  "GET /v1/user/{id}/limits"; "GET /v1/bot/{id}/limits";
  "GET /v1/user/{id}/updates/subscriptions"; "GET /v1/bot/{id}/updates/subscriptions";
  "POST /v1/user/{id}/updates/subscriptions"; "POST /v1/bot/{id}/updates/subscriptions";
  "GET /v1/user/{id}/updates/subscriptions/{sub}"; "GET /v1/bot/{id}/updates/subscriptions/{sub}";
  "DELETE /v1/user/{id}/updates/subscriptions/{sub}"; "DELETE /v1/bot/{id}/updates/subscriptions/{sub}"].

(** The routes open to any enabled token: uploads, and local execution. *)
Definition open_routes : list string := "POST /v1/execute" :: map fst file_routes.

(** The listings filtered to the token's own grants. *)
Definition own_routes : list string := ["GET /v1/sessions"; "GET /v1/me/limits"].

Lemma mux_find_sound {H : Type} (rs : list (string * H)) m segs p h ps :
  mux_find rs m segs = Some (p, h, ps) →
  (p, h) ∈ rs ∧ match_segs (parse_pattern p).2 segs = Some ps ∧ method_ok (parse_pattern p).1 m = true.
Proof.
  induction rs as [|[p' h'] rs IH]; [done|]. simpl.
  destruct (match_segs (parse_pattern p').2 segs) as [ps'|] eqn:E.
  - destruct (method_ok (parse_pattern p').1 m) eqn:Em.
    + intros [= <- <- <-]. split; [by left|done].
    + intros Hf. destruct (IH Hf) as (?&?). split; [by right|done].
  - intros Hf. destruct (IH Hf) as (?&?). split; [by right|done].
Qed.

Lemma match_lit l pat segs ps :
  match_segs (Lit l :: pat) segs = Some ps → ∃ segs', segs = l :: segs' ∧ match_segs pat segs' = Some ps.
Proof.
  destruct segs as [|s segs]; simpl; [done|]. destruct (String.eqb_spec l s) as [->|]; [|done]. eauto.
Qed.

Lemma match_wild n pat segs ps :
  match_segs (Wild n :: pat) segs = Some ps →
  ∃ s segs' ps', segs = s :: segs' ∧ s ≠ "" ∧ ps = (n, s) :: ps' ∧ match_segs pat segs' = Some ps'.
Proof.
  destruct segs as [|s segs]; simpl; [done|]. destruct (String.eqb_spec s "") as [->|Hn]; [done|].
  destruct (match_segs pat segs) as [ps'|] eqn:E; [|done]. intros [= <-]. by exists s, segs, ps'.
Qed.

Lemma match_nil segs ps : match_segs [] segs = Some ps → segs = [] ∧ ps = [].
Proof. destruct segs; [|done]. by intros [= <-]. Qed.

(** Reads a match off a concrete pattern. *)
Ltac inv_match H :=
  first
    [ apply match_nil in H; destruct H as [-> ->]
    | let s := fresh "segs" in apply match_lit in H; destruct H as (s & -> & H); inv_match H
    | let w := fresh "w" in let s := fresh "segs" in let q := fresh "ps" in let Hn := fresh "Hn" in
      apply match_wild in H; destruct H as (w & s & q & -> & Hn & -> & H); inv_match H ].

Lemma method_ok_cases pat m : method_ok pat m = true → m = pat ∨ (pat = "GET" ∧ m = "HEAD").
Proof. unfold method_ok. rewrite orb_true_iff, andb_true_iff, !String.eqb_eq. naive_solver. Qed.

(** The target of a path whose parts start so. *)
Lemma target_parts m A B a z sid :
  sessionTarget m (url_path (A ++ B)) = Some sid →
  Forall (no_char "/") A → head A = Some a → a ≠ "" → last A = Some z → z ≠ "" →
  ∃ X, target_of m (A ++ X) = Some sid ∧ (B = [] → X = []).
Proof.
  intros H HA Ha Hna Hz Hnz. destruct (path_parts_prefix A B a z HA Ha Hna Hz Hnz) as (X&HX&HN).
  exists X. split; [|done]. unfold sessionTarget in H. by rewrite HX in H.
Qed.

Ltac is_member := repeat first [apply list_elem_of_here | apply list_elem_of_further].

(** Splits a list of segments at the first one that may hold a slash. *)
Ltac safe_prefix l k :=
  lazymatch l with
  | ?x :: ?l' =>
      lazymatch goal with
      | H : no_char "/" x |- _ => safe_prefix l' ltac:(fun A B => k constr:(x :: A) B)
      | _ => tryif is_var x then k constr:(@nil string) l
             else safe_prefix l' ltac:(fun A B => k constr:(x :: A) B)
      end
  | _ => k constr:(@nil string) l
  end.

Lemma token_route_of m segs p h ps sid :
  mux_find routes m segs = Some (p, h, ps) → no_char "/" (path_value "id" ps) →
  sessionTarget m (url_path segs) = Some sid → p ∈ token_routes ∧ sid = path_value "id" ps.
Proof.
  intros Hf Hid Ht. apply mux_find_sound in Hf as (Hin&Hm&Hok).
  unfold routes, file_routes in Hin. cbn [app] in Hin.
  repeat (apply elem_of_cons in Hin as [Hin|Hin];
    [injection Hin as -> _;
     match type of Hm with match_segs (parse_pattern ?q).2 _ = _ =>
       let v := eval vm_compute in (parse_pattern q) in change (parse_pattern q) with v in Hm, Hok end;
     cbn [fst snd] in Hm, Hok; inv_match Hm;
     unfold path_value in Hid |- *; cbn [last_binding foldl String.eqb Ascii.eqb Bool.eqb fst snd default id] in Hid |- *;
     match type of Ht with sessionTarget _ (url_path ?l) = _ =>
       safe_prefix l ltac:(fun A B => change l with (A ++ B) in Ht) end;
     eapply target_parts in Ht;
       [destruct Ht as (X&Ht&HX)
       |repeat (apply Forall_cons; split; [first [assumption|reflexivity]|]); apply Forall_nil_2
       |reflexivity|done|reflexivity|done];
     apply method_ok_cases in Hok as [->|[Hg ->]]; try discriminate Hg;
     try (rewrite (HX eq_refl) in Ht); try destruct X as [|x [|y X]]; cbn in Ht; try discriminate Ht;
     (injection Ht as <-); (split; [is_member|reflexivity])
    |]).
  by apply not_elem_of_nil in Hin.
Qed.

(** The routes below one session. *)
Definition session_routes : list string :=
  filter (λ p, match (parse_pattern p).2 with
               | Lit v :: Lit k :: Wild n :: _ => String.eqb v "v1" && (String.eqb k "user" || String.eqb k "bot") && String.eqb n "id"
               | _ => false
               end = true) (map fst routes).

(** A path with a session as its target is on a route below one. *)
Lemma session_route_of m segs p h ps sid :
  mux_find routes m segs = Some (p, h, ps) → sessionTarget m (url_path segs) = Some sid → p ∈ session_routes.
Proof.
  intros Hf Ht. apply mux_find_sound in Hf as (Hin&Hm&_).
  let v := eval vm_compute in session_routes in change session_routes with v.
  unfold routes, file_routes in Hin. cbn [app] in Hin.
  repeat (apply elem_of_cons in Hin as [Hin|Hin];
    [injection Hin as -> _; first [solve [is_member]|exfalso;
     match type of Hm with match_segs (parse_pattern ?q).2 _ = _ =>
       let v := eval vm_compute in (parse_pattern q) in change (parse_pattern q) with v in Hm end;
     cbn [fst snd] in Hm; inv_match Hm;
     match type of Ht with sessionTarget _ (url_path ?l) = _ =>
       safe_prefix l ltac:(fun A B => change l with (A ++ B) in Ht) end;
     eapply target_parts in Ht;
       [destruct Ht as (X&Ht&HX)
       |repeat (apply Forall_cons; split; [reflexivity|]); apply Forall_nil_2
       |reflexivity|done|reflexivity|done];
     try (rewrite (HX eq_refl) in Ht); destruct X; discriminate Ht]
    |]).
  by apply not_elem_of_nil in Hin.
Qed.

Lemma flat_of_path segs t : url_path segs = "/" +:+ t → t ≠ "" → flat segs = ssplit "/" t.
Proof.
  unfold url_path. intros [= H] Hn. rewrite <- sjoin_flat in H.
  rewrite <- H. symmetry. apply ssplit_sjoin; [|apply flat_no_slash].
  intros E. rewrite E in H. simpl in H. congruence.
Qed.

(** The route of a path, by the path's first parts. *)
Lemma route_by_path m segs p h ps :
  mux_find routes m segs = Some (p, h, ps) →
  match flat segs with
  | [_] => p = "GET /healthz"
  | _ :: y :: _ =>
      (y = "files" → p ∈ map fst file_routes) ∧ (y = "execute" → p = "POST /v1/execute") ∧
      (y = "sessions" → p = "GET /v1/sessions") ∧ (y = "me" → p = "GET /v1/me/limits")
  | [] => False
  end.
Proof.
  intros Hf. apply mux_find_sound in Hf as (Hin&Hm&_).
  unfold routes, file_routes in Hin. cbn [app] in Hin.
  repeat (apply elem_of_cons in Hin as [Hin|Hin];
    [injection Hin as -> _;
     match type of Hm with match_segs (parse_pattern ?q).2 _ = _ =>
       let v := eval vm_compute in (parse_pattern q) in change (parse_pattern q) with v in Hm end;
     cbn [snd] in Hm; inv_match Hm; unfold flat; cbn;
     first [reflexivity | repeat split; intros E; first [discriminate E | reflexivity | is_member]]
    |]).
  by apply not_elem_of_nil in Hin.
Qed.

Lemma mux_run rq tok p h ps tok' :
  mux rq tok = Run p h ps tok' → tok' = tok ∧ mux_find routes (hq_method rq) (hq_segs rq) = Some (p, h, ps).
Proof.
  unfold mux. destruct (negb _); [done|]. destruct (mux_find _ _ _) as [[[p' h'] ps']|]; [|done].
  by intros [= -> -> -> ->].
Qed.

Lemma ResolveToken_row hash d id en :
  ResolveToken hash d = Some (id, en) → ∃ t, tokens d !! id = Some t ∧ t_hash t = hash ∧ t_enabled t = en.
Proof.
  unfold ResolveToken. destruct (select _ _) as [|[k t] l] eqn:E; [done|]. intros [= -> <-].
  assert (Hin : (id, t) ∈ select (λ _ t, String.eqb (t_hash t) hash) (tokens d)) by (rewrite E; by left).
  apply elem_of_select in Hin as [? ?%String.eqb_eq]. eauto.
Qed.

(** A request without the master token, by the branches of [auth]. *)
Lemma token_confined master up d rq p h ps tok :
  auth master up d rq = Run p h ps tok →
  hq_auth rq ≠ "Bearer " +:+ master → p ≠ "GET /healthz" →
  ∃ secret tid t,
    hq_auth rq = "Bearer " +:+ secret ∧ tokens d !! tid = Some t ∧ t_hash t = sha256 secret ∧
    t_enabled t = true ∧
    ((p ∈ open_routes ∧ tok = "") ∨ (p ∈ own_routes ∧ tok = tid) ∨
     (tok = tid ∧ p ∈ session_routes ∧ (no_char "/" (path_value "id" ps) →
        p ∈ token_routes ∧ TokenGrantsSession tid (path_value "id" ps) d = true))).
Proof.
  unfold auth. intros H Hnm Hnh.
  destruct (String.eqb_spec (url_path (hq_segs rq)) "/healthz") as [Hp|_].
  { apply mux_run in H as [-> Hf]. apply route_by_path in Hf.
    rewrite (flat_of_path _ "healthz" Hp) in Hf by done. by destruct (Hnh Hf). }
  destruct (String.eqb_spec (hq_auth rq) "") as [|_]; [done|].
  destruct (String.eqb_spec (hq_auth rq) ("Bearer " +:+ master)) as [|_]; [done|].
  destruct (cut_prefix (hq_auth rq) "Bearer ") as [secret|] eqn:Ec; [|done]. apply cut_prefix_some in Ec.
  destruct (String.eqb secret ""); [done|]. destruct (up 0%nat); [|done].
  destruct (ResolveToken (sha256 secret) d) as [[tid en]|] eqn:Er; [|done].
  apply ResolveToken_row in Er as (t&Ht&Hh&He). destruct en; [|done]. cbn [negb] in H.
  exists secret, tid, t. repeat (split; [done|]).
  destruct (isFilesPath (url_path (hq_segs rq))) eqn:Efp.
  { apply mux_run in H as [-> Hf]. left. split; [|done]. apply route_by_path in Hf. right.
    unfold isFilesPath in Efp. apply orb_true_iff in Efp as [Hp%String.eqb_eq|[u Hu]%has_prefix_spec].
    - rewrite (flat_of_path _ "v1/files" Hp) in Hf by done. simpl in Hf. by apply Hf.
    - rewrite (flat_of_path _ ("v1/files/" +:+ u) Hu) in Hf by done. simpl in Hf. by apply Hf. }
  destruct (String.eqb (hq_method rq) "POST" && String.eqb (url_path (hq_segs rq)) "/v1/execute") eqn:Eex.
  { apply mux_run in H as [-> Hf]. left. split; [|done]. apply andb_true_iff in Eex as [_ Hp%String.eqb_eq].
    apply route_by_path in Hf. rewrite (flat_of_path _ "v1/execute" Hp) in Hf by done. simpl in Hf.
    destruct Hf as (_&Hx&_). rewrite (Hx eq_refl). by left. }
  destruct (String.eqb (hq_method rq) "GET" && _) eqn:Eown.
  { apply mux_run in H as [-> Hf]. right. left. split; [|done].
    apply andb_true_iff in Eown as [_ [Hp%String.eqb_eq|Hp%String.eqb_eq]%orb_true_iff];
      apply route_by_path in Hf.
    - rewrite (flat_of_path _ "v1/sessions" Hp) in Hf by done. simpl in Hf.
      destruct Hf as (_&_&Hx&_). rewrite (Hx eq_refl). by left.
    - rewrite (flat_of_path _ "v1/me/limits" Hp) in Hf by done. simpl in Hf.
      destruct Hf as (_&_&_&Hx). rewrite (Hx eq_refl). right. by left. }
  destruct (sessionTarget _ _) as [sid|] eqn:Es; [|done]. destruct (up 1%nat); [|done]. cbn [negb] in H.
  destruct (TokenGrantsSession tid sid d) eqn:Eg; [|done]. cbn [negb] in H.
  apply mux_run in H as [-> Hf]. right. right. split; [done|]. split; [exact (session_route_of _ _ _ _ _ _ Hf Es)|]. intros Hid.
  destruct (token_route_of _ _ _ _ _ _ Hf Hid Es) as [? <-]. done.
Qed.

(** C11: A scoped token cannot leave its scope. If a request that does not carry
    the master token reaches any handler but the liveness probe, it carries a
    secret whose SHA-256 is that of an enabled token in the registry, and: the
    route is an upload or local execution, run without an identity; or it is
    one of the two listings, run as that token; or it is a route below one
    session, run as that token, and then either it is one of the routes meant for
    tokens and the session the handler will read from the path is one the token
    covers, or the path spells an id that holds an escaped slash, which names no
    session of the registry, session ids being uuids. So no spelling of the path
    gets a decision about one session applied to another, or acts on one the
    token does not cover. *)
Theorem scoped_token_confined master up d rq p h ps tok :
  (∀ k, is_Some (sessions d !! k) → no_char "/" k) →
  auth master up d rq = Run p h ps tok →
  hq_auth rq ≠ "Bearer " +:+ master → p ≠ "GET /healthz" →
  ∃ secret tid t,
    hq_auth rq = "Bearer " +:+ secret ∧ tokens d !! tid = Some t ∧ t_hash t = sha256 secret ∧
    t_enabled t = true ∧
    ((p ∈ open_routes ∧ tok = "") ∨ (p ∈ own_routes ∧ tok = tid) ∨
     (tok = tid ∧ p ∈ session_routes ∧
      ((p ∈ token_routes ∧ TokenGrantsSession tid (path_value "id" ps) d = true) ∨
       (¬ no_char "/" (path_value "id" ps) ∧ sessions d !! path_value "id" ps = None)))).
Proof.
  intros Hids H Hm Hh. destruct (token_confined master up d rq p h ps tok H Hm Hh) as (secret&tid&t&H1&H2&H3&H4&Hc).
  exists secret, tid, t. repeat (split; [done|]). destruct Hc as [?|[?|(?&?&Hs)]]; [by left|by right; left|right; right].
  split; [done|]. split; [done|]. destruct (decide (no_char "/" (path_value "id" ps))) as [Hn|Hn]; [by left; apply Hs|right].
  split; [done|]. apply eq_None_not_Some. intros Hk. by apply Hn, Hids.
Qed.

Definition ex_token_db2 : db :=
  unwrap_db (CreateToken "t" 7 "bot" (sha256 "s3cret") true false [] ["s1"] ex_token_db).

(** A call on the session granted, and what a token reaches when it tries
    elsewhere. *)
Definition ex_request (m : string) (segs : list string) : request :=
  mkRequest m segs true "Bearer s3cret" "" [].

Example ex_call :
  auth "master" (λ _, true) ex_token_db2 (ex_request "POST" ["v1"; "user"; "s1"; "call"]) =
  Run "POST /v1/user/{id}/call" H_scoped [("id", "s1")] "t".
Proof. vm_compute. reflexivity. Qed.

Example ex_refused :
  map (λ rq, match auth "master" (λ _, true) ex_token_db2 rq with Refuse st _ => st | _ => 0%Z end)
    [ex_request "DELETE" ["v1"; "user"; "s1"]; ex_request "GET" ["v1"; "tokens"];
     ex_request "POST" ["v1"; "user"; "s2"; "call"]; ex_request "HEAD" ["v1"; "user"; "s1"];
     ex_request "POST" ["v1"; "user"; "s1"; "login"; "code"];
     ex_request "DELETE" ["v1"; "user"; "s1"; "limits"; "cooldowns"; "@send"]] =
  [403; 403; 403; 403; 403; 403]%Z.
Proof. vm_compute. reflexivity. Qed.

(** The front decides on the unescaped path, the mux on the escaped segments: a
    token gets through to the handler that deletes sessions. The id it does so
    with is none. *)
Example slash_reaches_management :
  auth "master" (λ _, true) ex_token_db2 (ex_request "DELETE" ["v1"; "user"; "s1/updates/subscriptions/x"]) =
    Run "DELETE /v1/user/{id}" H_ownerOrAnyWorker [("id", "s1/updates/subscriptions/x")] "t".
Proof. vm_compute. reflexivity. Qed.

Lemma ex_token_db2_ids k : is_Some (sessions ex_token_db2 !! k) → no_char "/" k.
Proof.
  intros Hk%elem_of_dom. revert k Hk. change (set_Forall (no_char "/") (dom (sessions ex_token_db2))).
  apply (bool_decide_unpack _). vm_compute. exact I.
Qed.

Lemma scoped_token_confined_witness :
  ∃ secret tid t,
    "Bearer s3cret" = "Bearer " +:+ secret ∧ tokens ex_token_db2 !! tid = Some t ∧ t_hash t = sha256 secret ∧
    t_enabled t = true ∧
    (("POST /v1/user/{id}/call" ∈ open_routes ∧ "t" = "") ∨ ("POST /v1/user/{id}/call" ∈ own_routes ∧ "t" = tid) ∨
     ("t" = tid ∧ "POST /v1/user/{id}/call" ∈ session_routes ∧
      (("POST /v1/user/{id}/call" ∈ token_routes ∧
        TokenGrantsSession tid (path_value "id" [("id", "s1")]) ex_token_db2 = true) ∨
       (¬ no_char "/" (path_value "id" [("id", "s1")]) ∧ sessions ex_token_db2 !! path_value "id" [("id", "s1")] = None)))).
Proof.
  apply (scoped_token_confined "master" (λ _, true) ex_token_db2
    (ex_request "POST" ["v1"; "user"; "s1"; "call"]) "POST /v1/user/{id}/call" H_scoped [("id", "s1")] "t");
    [exact ex_token_db2_ids|vm_compute; reflexivity|done|done].
Defined.
