(* ===== verification/Gateway.v ===== *)
(** The gateway's handlers (internal/router/router.go): routing a session's
    request to its worker, registry reads, renames, subscriptions and tokens.
    A handler answers [Ok] with what it sends or [Err] with a status and a
    message; [up i] tells whether its [i]th statement reaches the registry. *)

From S2P Require Import Prelude GoStr Json Types Sha256 Gcm Db Registry Tokens Quota Counters Guard Secret Sends Subs Auth.


Abbreviation herr := (Z * string)%type.

(** A statement, its failures answered as 502. *)
Definition stmt {A} (up : bool) (r : res dberr A) : res herr A :=
  if negb up then Err (502%Z, "database")
  else match r with Ok a => Ok a | Err _ => Err (502%Z, "database") end.

(** A request body: none, something that is no JSON (or too long), a value. *)
Inductive body := NoBody | BadBody | JBody (v : json).

(** [internal/router/router.go#decodeJSON] *)
Definition decodeJSON {A} (d : dec A) (zero : A) (b : body) : res herr A :=
  match b with
  | NoBody => Ok zero
  | BadBody => Err (400%Z, "invalid JSON body")
  | JBody v => match unmarshal_ok d zero (Some v) with
               | Some a => Ok a
               | None => Err (400%Z, "invalid JSON body")
               end
  end.

Section gateway.
(** Whether a worker's address parses as a URL. *)
Context (url_ok : string → bool).
(** How long a worker may stay silent. *)
Context (stale : Z).

(** ** Routing *)

(** [internal/router/router.go#pathKind] *)
Definition pathKind (path : string) : string :=
  match path_parts path with
  | v :: k :: _ => if String.eqb v "v1" then k else ""
  | _ => ""
  end.

(** The live owner's address, "" when there is none
    [internal/router/router.go#resolveSession]. *)
Definition resolveSession (up : bool) (now : Z) (path id : string) (d : db) : res herr string :=
  if negb up then Err (502%Z, "database")
  else match SessionRoute id (now - stale) d with
  | None => Err (404%Z, "session not found")
  | Some (kind, addr) =>
      let want := pathKind path in
      if String.eqb kind want then Ok addr
      else Err (404%Z, "session " +:+ id +:+ " is a " +:+ kind +:+ ", not a " +:+ want)
  end.

(** [internal/router/router.go:38-38#tokenIDHeader] *)
Definition tokenIDHeader : string := "X-Tgcontrol-Token-Id".

(** The name of a header, as [http.Header.Del] finds it. *)
Definition same_header (a b : string) : bool :=
  bool_decide (map fold_ascii (list_ascii_of_string a) = map fold_ascii (list_ascii_of_string b)).

(** What [httputil.ReverseProxy] leaves of a header: those the client's own
    Connection header names go, as of one hop, after everything the gateway set. *)
Definition past_proxy (rq : request) (name value : string) : string :=
  if existsb (same_header name) (hq_connection rq) then "" else value.

(** The request as the worker gets it: method and path as they came. The copy of
    the identity header that the client sent is dropped, then the authenticated
    token stated, if any; then the proxy removes the headers of the last hop
    [internal/router/router.go:664-675#forward]. *)
Definition at_worker (rq : request) (tok : string) : request :=
  let sent := "" in
  let stated := if String.eqb tok "" then sent else tok in
  mkRequest (hq_method rq) (hq_segs rq) (hq_clean rq) (hq_auth rq) (past_proxy rq tokenIDHeader stated) [].

(** Where a request goes on to, and how it arrives there
    [internal/router/router.go#forward]. *)
Definition forward (rq : request) (base tok : string) : res herr (string * request) :=
  if url_ok base then Ok (base, at_worker rq tok) else Err (502%Z, "bad worker address").

(** [internal/router/router.go#scoped] *)
Definition scoped (up : bool) (now : Z) (rq : request) (id tok : string) (d : db) : res herr (string * request) :=
  let! addr := resolveSession up now (url_path (hq_segs rq)) id d in
  if String.eqb addr "" then Err (503%Z, "session not currently hosted by a live worker")
  else forward rq addr tok.

(** [internal/router/router.go#anyWorker] *)
Definition anyWorker (up : bool) (now : Z) (rq : request) (tok : string) (d : db) : res herr (string * request) :=
  if negb up then Err (502%Z, "database")
  else
    let addr := PickWorker (now - stale) d in
    if String.eqb addr "" then Err (503%Z, "no live workers available") else forward rq addr tok.

(** [internal/router/router.go#ownerOrAnyWorker] *)
Definition ownerOrAnyWorker (up : nat → bool) (now : Z) (rq : request) (id tok : string) (d : db)
    : res herr (string * request) :=
  let! addr := resolveSession (up 0%nat) now (url_path (hq_segs rq)) id d in
  if String.eqb addr "" then anyWorker (up 1%nat) now rq tok d else forward rq addr tok.

(** ** Reads *)

(** [internal/router/router.go#listApps] *)
Definition listApps (up : bool) (d : db) : res herr (list AppInfo) := stmt up (Ok (ListApps d)).
(** [internal/router/router.go#listProxies] *)
Definition listProxies (up : bool) (d : db) : res herr (list ProxyInfo) := stmt up (Ok (ListProxies d)).
(** [internal/router/router.go#listWorkers] *)
Definition listWorkers (up : bool) (now : Z) (d : db) : res herr (list WorkerInfo) :=
  stmt up (Ok (ListWorkers (now - stale) d)).
(** All for the master token, a scoped token's own
    [internal/router/router.go#listSessions]. *)
Definition listSessions (up : bool) (now : Z) (tok : string) (d : db) : res herr (list SessionInfo) :=
  stmt up (Ok (if String.eqb tok "" then ListSessions now d else ListSessionsForToken now tok d)).

(** What became of a send: its status, and the final id or the error
    [internal/router/router.go#getSend]. *)
Definition getSend (up : nat → bool) (now : Z) (path id qchat qmsg : string) (d : db)
    : res herr (string * Z * option Z * raw) :=
  let! _ := resolveSession (up 0%nat) now path id d in
  match atoi qchat with
  | None => Err (400%Z, "chat_id must be an integer")
  | Some chat =>
      match atoi qmsg with
      | None => Err (400%Z, "message_id must be an integer")
      | Some temp =>
          let! rec := stmt (up 1%nat) (Ok (GetSend id chat temp d)) in
          match rec with
          | None => Err (404%Z, "unknown send: never registered, or past SEND_TTL")
          | Some m =>
              Ok (se_status m, chat,
                  if String.eqb (se_status m) "sent" then Some (se_final m) else None,
                  if String.eqb (se_status m) "failed" then se_error m else None)
          end
      end
  end.

(** ** Subscriptions *)

(** [internal/router/router.go#listSubscriptions] *)
Definition listSubscriptions (up : nat → bool) (now : Z) (path id tok : string) (d : db)
    : res herr (list Subscription) :=
  let! _ := resolveSession (up 0%nat) now path id d in
  stmt (up 1%nat) (Ok (ListSubscriptions id tok "" d)).

(** [internal/router/router.go#getSubscription] *)
Definition getSubscription (up : nat → bool) (now : Z) (path id sub tok : string) (d : db)
    : res herr Subscription :=
  let! _ := resolveSession (up 0%nat) now path id d in
  let! items := stmt (up 1%nat) (Ok (ListSubscriptions id tok sub d)) in
  match items with
  | [] => Err (404%Z, "subscription not found")
  | x :: _ => Ok x
  end.

(** [internal/router/router.go#deleteSubscription] *)
Definition deleteSubscription (up : nat → bool) (now : Z) (path id sub tok : string) (d : db)
    : res herr () * db :=
  match resolveSession (up 0%nat) now path id d with
  | Err e => (Err e, d)
  | Ok _ =>
      if negb (up 1%nat) then (Err (502%Z, "database"), d)
      else let r := DeleteSubscription id tok sub d in
           if r.1 then (Ok (), r.2) else (Err (404%Z, "subscription not found"), r.2)
  end.

(** ** Renames *)

Definition set_label (k : string) : dec string := λ l v, if names k "label" then dec_string l v else (l, true).

(** A rename of a row, by the statement that does it. *)
Definition rename (update : string → db → bool * db) (what : string) (up : bool) (b : body) (d : db)
    : res herr () * db :=
  match decodeJSON (dec_struct set_label) "" b with
  | Err e => (Err e, d)
  | Ok label =>
      if negb up then (Err (502%Z, "database"), d)
      else let r := update label d in
           if r.1 then (Ok (), r.2) else (Err (404%Z, what +:+ " not found"), r.2)
  end.

(** [internal/router/router.go#updateApp] *)
Definition updateApp (up : bool) (id : string) (b : body) (d : db) : res herr () * db :=
  rename (UpdateAppLabel id) "app" up b d.
(** [internal/router/router.go#updateProxy] *)
Definition updateProxy (up : bool) (id : string) (b : body) (d : db) : res herr () * db :=
  rename (UpdateProxyLabel id) "proxy" up b d.

(** ** Tokens *)

(** The fields a request may give a token. *)
Record token_req := mkTokenReq {
  tr_name : option string; tr_enabled : option bool; tr_all : option bool;
  tr_apps : option (list string); tr_sessions : option (list string);
}.

Definition token_req_zero : token_req := mkTokenReq None None None None None.

(** Decoding into the five fields, all pointers. *)
Definition set_token_req (k : string) : dec token_req := λ q v,
  if names k "name" then
    let r := dec_ptr "" dec_string (tr_name q) v in
    (mkTokenReq r.1 (tr_enabled q) (tr_all q) (tr_apps q) (tr_sessions q), r.2)
  else if names k "enabled" then
    let r := dec_ptr false dec_bool (tr_enabled q) v in
    (mkTokenReq (tr_name q) r.1 (tr_all q) (tr_apps q) (tr_sessions q), r.2)
  else if names k "all_sessions" then
    let r := dec_ptr false dec_bool (tr_all q) v in
    (mkTokenReq (tr_name q) (tr_enabled q) r.1 (tr_apps q) (tr_sessions q), r.2)
  else if names k "app_ids" then
    let r := dec_ptr [] (dec_list "" dec_string) (tr_apps q) v in
    (mkTokenReq (tr_name q) (tr_enabled q) (tr_all q) r.1 (tr_sessions q), r.2)
  else if names k "session_ids" then
    let r := dec_ptr [] (dec_list "" dec_string) (tr_sessions q) v in
    (mkTokenReq (tr_name q) (tr_enabled q) (tr_all q) (tr_apps q) r.1, r.2)
  else (q, true).

(** Decoding for a new token, where only [enabled] is a pointer: null leaves
    the other fields as they are, which for a list is to empty it. *)
Definition set_new_token (k : string) : dec token_req := λ q v,
  if names k "name" then
    let r := dec_string (default "" (tr_name q)) v in
    (mkTokenReq (Some r.1) (tr_enabled q) (tr_all q) (tr_apps q) (tr_sessions q), r.2)
  else if names k "all_sessions" then
    let r := dec_bool (default false (tr_all q)) v in
    (mkTokenReq (tr_name q) (tr_enabled q) (Some r.1) (tr_apps q) (tr_sessions q), r.2)
  else if names k "app_ids" then
    let r := dec_list "" dec_string (default [] (tr_apps q)) v in
    (mkTokenReq (tr_name q) (tr_enabled q) (tr_all q) (Some r.1) (tr_sessions q), r.2)
  else if names k "session_ids" then
    let r := dec_list "" dec_string (default [] (tr_sessions q)) v in
    (mkTokenReq (tr_name q) (tr_enabled q) (tr_all q) (tr_apps q) (Some r.1), r.2)
  else set_token_req k q v.

(** [internal/router/router.go#listTokens] *)
Definition listTokens (up : bool) (d : db) : res herr (list TokenInfo) := stmt up (Ok (ListTokens d)).

(** 32 random bytes in URL-safe base64 [internal/router/router.go#newToken]. *)
Definition newToken (rand : option string) : option string := RawURLEncode <$> rand.

(** The id and the secret, which is not stored
    [internal/router/router.go#createToken]. *)
Definition createToken (up : bool) (rand : option string) (id : string) (now : Z) (b : body) (d : db)
    : res herr (string * string) * db :=
  match decodeJSON (dec_struct set_new_token) token_req_zero b with
  | Err e => (Err e, d)
  | Ok q =>
      match newToken rand with
      | None => (Err (500%Z, "random source"), d)
      | Some secret =>
          match stmt up (CreateToken id now (default "" (tr_name q)) (sha256 secret)
                  (default true (tr_enabled q)) (default false (tr_all q))
                  (default [] (tr_apps q)) (default [] (tr_sessions q)) d) with
          | Err e => (Err e, d)
          | Ok (id, d) => (Ok (id, secret), d)
          end
      end
  end.

(** [internal/router/router.go#updateToken] *)
Definition updateToken (up : bool) (id : string) (b : body) (d : db) : res herr () * db :=
  match decodeJSON (dec_struct set_token_req) token_req_zero b with
  | Err e => (Err e, d)
  | Ok q =>
      match stmt up (UpdateToken id (mkTokenPatch (tr_name q) (tr_enabled q) (tr_all q) (tr_apps q)
                                        (tr_sessions q)) d) with
      | Err e => (Err e, d)
      | Ok (true, d) => (Ok (), d)
      | Ok (false, d) => (Err (404%Z, "token not found"), d)
      end
  end.

(** [internal/router/router.go#deleteToken] *)
Definition deleteToken (up : bool) (id : string) (d : db) : res herr () * db :=
  if negb up then (Err (502%Z, "database"), d)
  else let r := DeleteToken id d in
       if r.1 then (Ok (), r.2) else (Err (404%Z, "token not found"), r.2).

(** ** Theorems *)

(** Whose identity the worker sees. *)
Lemma at_worker_id rq tok :
  hq_token_id (at_worker rq tok) = tok ∨
  hq_token_id (at_worker rq tok) = "" ∧ existsb (same_header tokenIDHeader) (hq_connection rq) = true.
Proof.
  unfold at_worker, past_proxy. cbn. destruct (existsb _ _); [by right|left]. by destruct (String.eqb_spec tok "") as [->|].
Qed.

(** Where a forwarded request goes. *)
Lemma scoped_ok up now rq id tok d addr out :
  scoped up now rq id tok d = Ok (addr, out) →
  out = at_worker rq tok ∧ ∃ s w r, sessions d !! id = Some s ∧ s_kind s = pathKind (url_path (hq_segs rq)) ∧ s_worker s = Some w ∧
    workers d !! w = Some r ∧ (now - stale < w_seen r)%Z ∧ w_addr r = addr.
Proof.
  unfold scoped, resolveSession. intros (a&Ha&H)%res_bind_ok. destruct (negb up); [done|].
  pose proof (SessionRoute_spec id (now - stale) d) as Hs. destruct (SessionRoute id (now - stale) d) as [[kind a']|]; [|done].
  destruct (String.eqb_spec kind (pathKind (url_path (hq_segs rq)))) as [Hk|]; [|done]. injection Ha as ->.
  destruct (String.eqb_spec a "") as [|Hne]; [done|]. unfold forward in H. destruct (url_ok a); [|done].
  injection H as <- <-. split; [done|]. destruct Hs as (s&Hs&->&[[_ ?]|(w&r&Hw&Hr&Hseen&->)]); [done|]. by exists s, w, r.
Qed.

(** C12: A session's request goes to its live owner or nowhere. It is forwarded
    exactly when the session exists, the path names its kind, and a worker seen
    within the staleness window owns it; it then goes to that worker's address.
    Otherwise the answer tells which failed: 404 for an unknown session or
    another kind, 503 for no live owner, 502 for an outage or an address that is
    no URL. What arrives does not depend on any identity header the client sent,
    and carries the identity the gateway authenticated, unless the client named
    that header among its Connection options: then, and only then, it carries
    none. *)
Theorem scoped_routes_to_owner up now rq id tok d :
  let path := url_path (hq_segs rq) in
  (∀ addr out, scoped up now rq id tok d = Ok (addr, out) ↔
     up = true ∧ url_ok addr = true ∧ addr ≠ "" ∧ out = at_worker rq tok ∧
     ∃ s w r, sessions d !! id = Some s ∧ s_kind s = pathKind path ∧ s_worker s = Some w ∧
       workers d !! w = Some r ∧ (now - stale < w_seen r)%Z ∧ w_addr r = addr) ∧
  (∀ st msg, scoped up now rq id tok d = Err (st, msg) →
     (st = 502%Z ∧ (up = false ∨ ∃ a, a ≠ "" ∧ url_ok a = false)) ∨
     (st = 404%Z ∧ ∀ s, sessions d !! id = Some s → s_kind s ≠ pathKind path) ∨
     (st = 503%Z ∧ ∀ s w r, sessions d !! id = Some s → s_worker s = Some w → workers d !! w = Some r →
        (now - stale < w_seen r)%Z → w_addr r = "")) ∧
  (∀ addr out, scoped up now rq id tok d = Ok (addr, out) →
     hq_method out = hq_method rq ∧ hq_segs out = hq_segs rq ∧
     hq_token_id out = (if existsb (same_header tokenIDHeader) (hq_connection rq) then "" else tok) ∧
     ∀ forged, scoped up now (mkRequest (hq_method rq) (hq_segs rq) (hq_clean rq) (hq_auth rq) forged (hq_connection rq)) id tok d =
       Ok (addr, out)).
Proof.
  intros path. apply and_assoc. split.
  2:{ intros addr out H. split; [|split; [|split]]; [| | |intros forged; exact H]; destruct (scoped_ok _ _ _ _ _ _ _ _ H) as [-> _]; [done..|].
      cbn. unfold past_proxy. destruct (existsb _ _); [done|]. by destruct (String.eqb_spec tok "") as [->|]. }
  unfold scoped, resolveSession, SessionRoute, forward. fold path. clearbody path. destruct up; cbn [negb]; [|split].
  2:{ intros addr out. split; [done|]. by intros (?&_). }
  2:{ intros st msg [= <- <-]. left. split; [done|]. by left. }
  destruct (sessions d !! id) as [s|] eqn:Es; [|split].
  2:{ intros addr hdr. split; [done|]. by intros (_&_&_&_&s&_&_&?&_). }
  2:{ intros st msg [= <- <-]. right. left. split; [done|]. by intros s. }
  cbn [res_bind]. destruct (String.eqb_spec (s_kind s) (pathKind path)) as [Hk|Hk]; cbn [res_bind]; [|split].
  2:{ intros addr hdr. split; [done|]. intros (_&_&_&_&s'&w&r&[= <-]&?&_). done. }
  2:{ intros st msg [= <- <-]. right. left. split; [done|]. by intros s' [= <-]. }
  set (a := match s_worker s with Some w => _ | None => "" end).
  assert (Ha : ∀ addr, addr ≠ "" → a = addr ↔
    ∃ w r, s_worker s = Some w ∧ workers d !! w = Some r ∧ (now - stale < w_seen r)%Z ∧ w_addr r = addr).
  { intros addr Hne. unfold a. destruct (s_worker s) as [w|]; [|naive_solver].
    destruct (workers d !! w) as [r|] eqn:Ew; [|naive_solver].
    destruct (Z.ltb_spec (now - stale) (w_seen r)) as [Hl|Hl].
    - split; [intros <-; by exists w, r|]. intros (w'&r'&[= <-]&E&_&<-). congruence.
    - split; [by intros <-|]. intros (w'&r'&[= <-]&E&?&<-). assert (r' = r) as -> by congruence. lia. }
  assert (Hnone : a = "" → ∀ w r, s_worker s = Some w → workers d !! w = Some r →
    (now - stale < w_seen r)%Z → w_addr r = "").
  { intros E w r H1 H2 H3. unfold a in E. rewrite H1, H2, (proj2 (Z.ltb_lt _ _) H3) in E. done. }
  clearbody a. destruct (String.eqb_spec a "") as [->|Hne]; split.
  - intros addr hdr. split; [done|]. intros (_&_&Hn&_&s'&w&r&[= <-]&_&H). exfalso. apply Hn. symmetry.
    apply Ha; [done|]. by exists w, r.
  - intros st msg [= <- <-]. right. right. split; [done|]. intros s' w r [= <-]. by apply Hnone.
  - intros addr hdr. destruct (url_ok a) eqn:Eu.
    + split.
      * intros [= <- <-]. repeat (split; [done|]). destruct (proj1 (Ha a Hne) eq_refl) as (w&r&?&?&?&?).
        by exists s, w, r.
      * intros (_&_&Hn&->&s'&w&r&[= <-]&_&H). f_equal. f_equal. apply Ha; [done|]. by exists w, r.
    + split; [done|]. intros (_&Hu&Hn&_&s'&w&r&[= <-]&_&H).
      assert (a = addr) as -> by (apply Ha; [done|by exists w, r]). congruence.
  - intros st msg. destruct (url_ok a) eqn:Eu; [done|]. intros [= <- <-]. left. split; [done|]. right. by exists a.
Qed.

(** A token made through the gateway works and its secret is nowhere in the
    registry but as a hash. When creation succeeds, authorization by the
    returned secret finds the new token with the enabled flag the request gave
    (true when it gave none); the stored hash is the secret's SHA-256. *)
Theorem created_token_resolves up rand id now b d id' secret d' :
  createToken up rand id now b d = (Ok (id', secret), d') →
  id' = id ∧ ∃ q bytes, rand = Some bytes ∧ secret = RawURLEncode bytes ∧
    decodeJSON (dec_struct set_new_token) token_req_zero b = Ok q ∧
    ResolveToken (sha256 secret) d' = Some (id, default true (tr_enabled q)) ∧
    (∃ t, tokens d' !! id = Some t ∧ t_hash t = sha256 secret).
Proof.
  unfold createToken. destruct (decodeJSON _ _ b) as [q|e]; [|done].
  destruct rand as [bytes|]; [|done]. unfold newToken. cbn [fmap option_fmap option_map].
  unfold stmt. destruct up; cbn [negb]; [|done].
  set (sec := RawURLEncode bytes).
  destruct (CreateToken _ _ _ _ _ _ _ _ d) as [[i d1]|e] eqn:Ec; [|done].
  intros [= <- <- <-]. pose proof Ec as Ec'. unfold CreateToken in Ec'.
  destruct (_ || _) eqn:Eh in Ec'; [done|]. apply orb_false_iff in Eh as [_ Hh].
  apply res_bind_ok in Ec' as (d2&Hg&[= <- <-]).
  apply replaceTokenGrants_patch in Hg as (Ht&_). cbn [tokens with_tokens] in Ht.
  split; [done|]. exists q, bytes. repeat (split; [done|]).
  set (row := mkToken _ _ _ _ _) in Ht.
  split; [exact (ResolveToken_new (sha256 sec) id row d _ Hh Ht eq_refl)|].
  exists row. split; [by rewrite Ht, lookup_insert_eq|done].
Qed.
End gateway.

Definition ex_bytes : string := of_byte_vals (repeat 7%Z 32).
Definition ex_created : res herr (string * string) * db :=
  createToken true (Some ex_bytes) "t9" 5 (JBody (JObj [("all_sessions", JBool true)])) empty_db.

Lemma created_token_resolves_witness :
  "t9" = "t9" ∧ ∃ q bytes, Some ex_bytes = Some bytes ∧ RawURLEncode ex_bytes = RawURLEncode bytes ∧
    decodeJSON (dec_struct set_new_token) token_req_zero (JBody (JObj [("all_sessions", JBool true)])) = Ok q ∧
    ResolveToken (sha256 (RawURLEncode ex_bytes)) ex_created.2 = Some ("t9", default true (tr_enabled q)) ∧
    (∃ t, tokens ex_created.2 !! "t9" = Some t ∧ t_hash t = sha256 (RawURLEncode ex_bytes)).
Proof.
  apply (created_token_resolves true (Some ex_bytes) "t9" 5 (JBody (JObj [("all_sessions", JBool true)])) empty_db
           "t9" (RawURLEncode ex_bytes) ex_created.2).
  vm_compute. reflexivity.
Defined.
