(* ===== verification/RuleApi.v ===== *)
(** Managing the operator's rules through the gateway
    (internal/router/limits.go): validation, partial update, and the views with
    usage. *)

From S2P Require Import Prelude GoStr Json Types Db Registry Tokens Quota Counters Guard Sends Subs Auth Gateway.


(** ** Validation *)

Definition is_hex (c : ascii) : bool :=
  let n := Ascii.nat_of_ascii c in
  (((48 <=? n) && (n <=? 57)) || ((97 <=? n) && (n <=? 102)) || ((65 <=? n) && (n <=? 70)))%nat.

Definition hex_word (n : nat) (s : string) : bool :=
  Nat.eqb (String.length s) n && negb (any_char (λ c, negb (is_hex c)) s).

(** Five groups of hex digits [internal/router/limits.go:22-22#uuidPattern]. *)
Definition uuidPattern (s : string) : bool :=
  match ssplit "-" s with
  | [a; b; c; d; e] => hex_word 8 a && hex_word 4 b && hex_word 4 c && hex_word 4 d && hex_word 12 e
  | _ => false
  end.

Definition bad_methods : string :=
  "methods must list at least one of '*', a method group ('@send') or a method ('sendMessage')".

(** "" for a rule whose methods, max and window are good
    [internal/router/limits.go#validLimit]. *)
Definition validLimit (l : Limit) : string :=
  if bool_decide (l_methods l = []) then bad_methods
  else match filter (λ m, ValidPattern m = false) (l_methods l) with
  | m :: _ => "bad method " +:+ m +:+ ": use '*', a method group ('@send') or a td_api method name"
  | [] =>
      if (l_max l <=? 0)%Z then "max must be positive"
      else if negb (existsb (String.eqb (l_per l)) Pers) then "per must be " +:+ sjoin ", " Pers
      else ""
  end.

Definition want_session : string :=
  "a session limit takes session_id, or kind (user or bot) for the default of every session of the kind".

Definition isID (p : option string) : bool := match p with Some s => uuidPattern s | None => false end.

(** "" for a rule that names exactly its level's target
    [internal/router/limits.go#validTarget]. *)
Definition validTarget (l : Limit) : string :=
  if String.eqb (l_level l) "session" then
    if is_set (l_token l) then want_session
    else match l_session l with
    | None =>
        match l_kind l with
        | Some k => if String.eqb k "user" || String.eqb k "bot" then "" else want_session
        | None => want_session
        end
    | Some _ => if negb (isID (l_session l)) || is_set (l_kind l) then want_session else ""
    end
  else if String.eqb (l_level l) "token" then
    if negb (isID (l_token l)) || is_set (l_kind l) || is_set (l_session l)
    then "a token limit takes only token_id" else ""
  else "level must be session or token".

(** ** Decoding a rule *)

Section decoding.
(** Whether a text is an RFC 3339 time. *)
Context (time_ok : string → bool).

(** A [time.Time], which no handler keeps. *)
Definition dec_time : dec () := λ _ v,
  match v with JNull => ((), true) | JStr s => ((), time_ok s) | _ => ((), false) end.

(** Into a [store.Limit] [internal/store/limits.go#Limit]. *)
Definition set_limit (k : string) : dec Limit := λ l v,
  let '(mkLimit id level kind ses tok ms mx per label en created) := l in
  if names k "id" then
    let r := dec_string id v in (mkLimit r.1 level kind ses tok ms mx per label en created, r.2)
  else if names k "level" then
    let r := dec_string level v in (mkLimit id r.1 kind ses tok ms mx per label en created, r.2)
  else if names k "kind" then
    let r := dec_ptr "" dec_string kind v in (mkLimit id level r.1 ses tok ms mx per label en created, r.2)
  else if names k "session_id" then
    let r := dec_ptr "" dec_string ses v in (mkLimit id level kind r.1 tok ms mx per label en created, r.2)
  else if names k "token_id" then
    let r := dec_ptr "" dec_string tok v in (mkLimit id level kind ses r.1 ms mx per label en created, r.2)
  else if names k "methods" then
    let r := dec_list "" dec_string ms v in (mkLimit id level kind ses tok r.1 mx per label en created, r.2)
  else if names k "max" then
    let r := dec_int32 mx v in (mkLimit id level kind ses tok ms r.1 per label en created, r.2)
  else if names k "per" then
    let r := dec_string per v in (mkLimit id level kind ses tok ms mx r.1 label en created, r.2)
  else if names k "label" then
    let r := dec_ptr "" dec_string label v in (mkLimit id level kind ses tok ms mx per r.1 en created, r.2)
  else if names k "enabled" then
    let r := dec_bool en v in (mkLimit id level kind ses tok ms mx per label r.1 created, r.2)
  else if names k "created_at" then (l, (dec_time () v).2)
  else (l, true).

Definition new_limit : Limit := mkLimit "" "" None None None [] 0 "" None true 0.

(** ** Views *)

(** A rule, what it has counted in its window and that window's end, and on a
    session the rule in its place [internal/router/limits.go#ruleView]. *)
Record ruleView := mkRuleView {
  rv_limit : Limit; rv_used : Z; rv_window_end : Z; rv_replaced_by : option string;
}.

(** [internal/router/limits.go#limitView] *)
Definition limitView (up : bool) (now : Z) (l : Limit) (d : db) : ruleView :=
  let w := Window (l_per l) now in
  mkRuleView l (if up then MaxCounter (l_id l) w.1 d else 0%Z) w.2 None.

(** [internal/router/limits.go#sessionRules] *)
Definition sessionRules (up : bool) (now : Z) (all : list Limit) (sid kind tok : string) (d : db)
    : res herr (list ruleView) :=
  let applied := Applicable all sid kind tok in
  let key := λ a, mkCounterKey (l_id (ap_limit a)) sid (Window (l_per (ap_limit a)) now).1 in
  let! counts := stmt up (Ok (read_counters (map key applied) d)) in
  Ok (map (λ a, mkRuleView (ap_limit a) (default 0%Z (counts !! key a))
                  (Window (l_per (ap_limit a)) now).2
                  (if String.eqb (ap_replaced a) "" then None else Some (ap_replaced a))) applied).

(** ** Handlers *)

(** [internal/router/limits.go#createLimit] *)
Definition createLimit (up : nat → bool) (id : string) (now : Z) (b : body) (d : db)
    : res herr ruleView * db :=
  match decodeJSON (dec_struct set_limit) new_limit b with
  | Err e => (Err e, d)
  | Ok l =>
      if negb (String.eqb (validTarget l) "") then (Err (400%Z, validTarget l), d)
      else if negb (String.eqb (validLimit l) "") then (Err (400%Z, validLimit l), d)
      else if negb (up 0%nat) then (Err (502%Z, "database"), d)
      else match CreateLimit id now l d with
      | Err ErrLimitTarget => (Err (400%Z, "the limit's session or token does not exist"), d)
      | Err (LimitDb _) => (Err (502%Z, "database"), d)
      | Ok (l, d) => (Ok (limitView (up 1%nat) now l d), d)
      end
  end.

(** [internal/router/limits.go#listLimits] *)
Definition listLimits (up : nat → bool) (now : Z) (d : db) : res herr (list ruleView) :=
  let! all := stmt (up 0%nat) (Ok (ListLimits d)) in
  Ok (imap (λ i l, limitView (up (S i)) now l d) all).

(** [internal/router/limits.go#limitByPath] *)
Definition limitByPath (up : bool) (id : string) (d : db) : res herr Limit :=
  if uuidPattern id then
    let! l := stmt up (Ok (GetLimit id d)) in
    match l with Some l => Ok l | None => Err (404%Z, "limit not found") end
  else Err (404%Z, "limit not found").

(** [internal/router/limits.go#getLimit] *)
Definition getLimit (up : nat → bool) (now : Z) (id : string) (d : db) : res herr ruleView :=
  let! l := limitByPath (up 0%nat) id d in Ok (limitView (up 1%nat) now l d).

Definition fixed_fields : list string := ["id"; "level"; "kind"; "session_id"; "token_id"].
Definition patch_fields : list string := ["methods"; "max"; "per"; "label"; "enabled"].

Definition dec_map : dec (gmap string json) := λ m v,
  match v with
  | JObj kvs => (foldl (λ m kv, <[kv.1 := kv.2]> m) m kvs, true)
  | JNull => (∅, true)
  | _ => (m, false)
  end.

(** The rule with the given fields decoded into it; [None] when one is of
    another type. The five targets are distinct, so their order is free. *)
Definition patch_limit (f : gmap string json) (l : Limit) : option Limit :=
  foldl (λ acc k, l ← acc;
           match f !! k with
           | None => Some l
           | Some v => let r := set_limit k l v in if r.2 then Some r.1 else None
           end) (Some l) patch_fields.

(** [internal/router/limits.go#updateLimit] *)
Definition updateLimit (up : nat → bool) (now : Z) (id : string) (b : body) (d : db)
    : res herr ruleView * db :=
  match limitByPath (up 0%nat) id d with
  | Err e => (Err e, d)
  | Ok l =>
      match decodeJSON dec_map ∅ b with
      | Err e => (Err e, d)
      | Ok f =>
          match filter (λ k, is_Some (f !! k)) fixed_fields with
          | k :: _ => (Err (400%Z, k +:+ " cannot change: create another limit"), d)
          | [] =>
              match patch_limit f l with
              | None => (Err (400%Z, "a field does not decode"), d)
              | Some l =>
                  if negb (String.eqb (validLimit l) "") then (Err (400%Z, validLimit l), d)
                  else match stmt (up 1%nat) (UpdateLimit l d) with
                  | Err e => (Err e, d)
                  | Ok (out, d) => (Ok (limitView (up 2%nat) now out d), d)
                  end
              end
          end
      end
  end.

(** [internal/router/limits.go#deleteLimit] *)
Definition deleteLimit (up : nat → bool) (id : string) (d : db) : res herr () * db :=
  match limitByPath (up 0%nat) id d with
  | Err e => (Err e, d)
  | Ok l => if negb (up 1%nat) then (Err (502%Z, "database"), d)
            else (Ok (), (DeleteLimit (l_id l) d).2)
  end.

Context (stale : Z).

(** [internal/router/router.go#getLimits] *)
Definition getLimits (up : nat → bool) (now : Z) (path id tok : string) (d : db)
    : res herr (Limits * list ruleView) :=
  let! _ := resolveSession stale (up 0%nat) now path id d in
  let! l := stmt (up 1%nat) (Ok (SessionLimits now id d)) in
  match l with
  | None => Err (404%Z, "session not found")
  | Some l =>
      let! all := stmt (up 2%nat) (Ok (ListLimits d)) in
      let! rules := sessionRules (up 3%nat) now all id (pathKind path) tok d in
      Ok (l, rules)
  end.

(** One session's entry of the caller's overview. *)
Definition my_entry (up : nat → bool) (now : Z) (all : list Limit) (tok : string) (d : db) (i : nat)
    (it : SessionInfo) : res herr (SessionInfo * list Cooldown * list ruleView) :=
  let! l := stmt (up (2 + 2 * i)%nat) (Ok (SessionLimits now (si_id it) d)) in
  let! rules := sessionRules (up (3 + 2 * i)%nat) now all (si_id it) (si_kind it) tok d in
  Ok (it, match l with Some l => ls_cooldowns l | None => [] end, rules).

Fixpoint collect {A B} (f : nat → A → res herr B) (i : nat) (l : list A) : res herr (list B) :=
  match l with
  | [] => Ok []
  | x :: l => let! y := f i x in let! ys := collect f (S i) l in Ok (y :: ys)
  end.

(** [internal/router/limits.go#myLimits] *)
Definition myLimits (up : nat → bool) (now : Z) (tok : string) (d : db)
    : res herr (list (SessionInfo * list Cooldown * list ruleView)) :=
  if String.eqb tok "" then
    Err (403%Z, "for scoped tokens; the master token reads /v1/{user|bot}/{id}/limits")
  else
    let! items := stmt (up 0%nat) (Ok (ListSessionsForToken now tok d)) in
    let! all := stmt (up 1%nat) (Ok (ListLimits d)) in
    collect (my_entry up now all tok d) 0 items.
End decoding.

(** ** Lemmas *)

Lemma validTarget_cases l :
  validTarget l = "" ↔
  (l_level l = "session" ∧ l_token l = None ∧
     ((∃ s, l_session l = Some s ∧ uuidPattern s = true ∧ l_kind l = None) ∨
      (l_session l = None ∧ (l_kind l = Some "user" ∨ l_kind l = Some "bot")))) ∨
  (l_level l = "token" ∧ l_kind l = None ∧ l_session l = None ∧
     ∃ t, l_token l = Some t ∧ uuidPattern t = true).
Proof.
  unfold validTarget, isID. split.
  - destruct (String.eqb_spec (l_level l) "session") as [->|Hs].
    + destruct (l_token l); [done|]. destruct (l_session l) as [s|]; simpl.
      * destruct (uuidPattern s) eqn:E, (l_kind l); try done. intros _. left. do 2 (split; [done|]). left. by exists s.
      * destruct (l_kind l) as [k|]; [|done]. intros H. left. do 2 (split; [done|]). right. split; [done|].
        destruct (String.eqb_spec k "user") as [E|]; [left; by rewrite E|].
        destruct (String.eqb_spec k "bot") as [E|]; [right; by rewrite E|done].
    + destruct (String.eqb_spec (l_level l) "token") as [->|Ht]; [|done].
      destruct (l_token l) as [t|]; [|done]. destruct (uuidPattern t) eqn:E, (l_kind l), (l_session l); try done.
      intros _. right. repeat (split; [done|]). by exists t.
  - intros [(->&->&[(s&->&E&->)|(->&[->| ->])])|(->&->&->&t&->&E)]; simpl; rewrite ?E; done.
Qed.

Lemma validLimit_cases l :
  validLimit l = "" ↔
  l_methods l ≠ [] ∧ Forall (λ m, ValidPattern m = true) (l_methods l) ∧ (0 < l_max l)%Z ∧ l_per l ∈ Pers.
Proof.
  unfold validLimit. case_bool_decide as Hm; [naive_solver|].
  destruct (filter _ _) as [|m ms] eqn:Ef.
  - assert (Hall : Forall (λ m, ValidPattern m = true) (l_methods l)).
    { apply Forall_forall. intros m Hin. destruct (ValidPattern m) eqn:E; [done|].
      assert (Hf : m ∈ filter (λ m, ValidPattern m = false) (l_methods l)) by (by apply list_elem_of_filter).
      rewrite Ef in Hf. by apply not_elem_of_nil in Hf. }
    destruct (Z.leb_spec (l_max l) 0); [split; [done|]; intros (_&_&?&_); lia|].
    destruct (existsb (String.eqb (l_per l)) Pers) eqn:Ep; simpl.
    + split; [intros _|done]. repeat (split; [done|]).
      apply existsb_exists in Ep as (p&Hp&->%String.eqb_eq). by apply list_elem_of_In.
    + split; [done|]. intros (_&_&_&Hp). exfalso.
      assert (existsb (String.eqb (l_per l)) Pers = true); [|congruence].
      apply existsb_exists. exists (l_per l). split; [by apply list_elem_of_In|apply String.eqb_refl].
  - split; [done|]. intros (_&Hall&_). exfalso.
    assert (Hin : m ∈ filter (λ m, ValidPattern m = false) (l_methods l)) by (rewrite Ef; by left).
    apply list_elem_of_filter in Hin as [Hf Hin]. rewrite Forall_forall in Hall. specialize (Hall m Hin).
    simpl in *. congruence.
Qed.

(** The fields an update may not change. *)
Definition fixed (l : Limit) : string * string * option string * option string * option string * Z :=
  (l_id l, l_level l, l_kind l, l_session l, l_token l, l_created l).

Lemma set_limit_fixed time_ok k l v : k ∈ patch_fields → fixed (set_limit time_ok k l v).1 = fixed l.
Proof.
  intros Hk. destruct l as [id level kind ses tok ms mx per label en created]. unfold patch_fields in Hk.
  repeat (apply elem_of_cons in Hk as [->|Hk];
    [unfold set_limit;
     repeat match goal with |- context [names ?a ?b] =>
       let x := eval vm_compute in (names a b) in change (names a b) with x end; reflexivity|]).
  by apply not_elem_of_nil in Hk.
Qed.

Lemma patch_limit_fixed time_ok f l l' : patch_limit time_ok f l = Some l' → fixed l' = fixed l.
Proof.
  unfold patch_limit. set (step := λ (acc : option Limit) (k : string), _).
  assert (Hgo : ∀ ks acc, ks ⊆ patch_fields → (∀ m, acc = Some m → fixed m = fixed l) →
    ∀ m, foldl step acc ks = Some m → fixed m = fixed l).
  { induction ks as [|k ks IH]; intros acc Hsub Hacc m Hm; [by apply Hacc|]. simpl in Hm.
    eapply IH; [| |exact Hm].
    - intros x Hx. apply Hsub. by right.
    - intros m' Hm'. unfold step in Hm'. destruct acc as [a|]; [|done]. simpl in Hm'.
      specialize (Hacc a eq_refl). destruct (f !! k) as [v|]; [|congruence].
      destruct (set_limit time_ok k a v) as [a' ok] eqn:E. destruct ok; [|done]. simpl in Hm'. injection Hm' as <-.
      rewrite <- Hacc. rewrite <- (set_limit_fixed time_ok k a v) by (apply Hsub; by left). by rewrite E. }
  apply Hgo; [done|]. by intros m [= ->].
Qed.

(** ** Theorems *)

(** C40: Only rules the policy understands get in. Creating a rule answers with
    it and stores exactly it, under its new id, as the request decoded with
    [enabled] true by default: its methods are a nonempty list of valid
    patterns, its window is known, its count positive, and its target is
    exactly its level's (one session, every session of a kind, or a token).
    Every refusal leaves the registry as it was. *)
Theorem created_rule_admitted time_ok up id now b d r d' :
  createLimit time_ok up id now b d = (r, d') →
  match r with
  | Err _ => d' = d
  | Ok v =>
      ∃ q l, decodeJSON (dec_struct (set_limit time_ok)) new_limit b = Ok q ∧
        rv_limit v = l ∧ d' = with_limits <[id := l]> d ∧ limits d !! id = None ∧
        l = mkLimit id (l_level q) (l_kind q) (l_session q) (l_token q) (l_methods q) (l_max q) (l_per q)
              (l_label q) (l_enabled q) now ∧
        l_methods l ≠ [] ∧ Forall (λ m, ValidPattern m = true) (l_methods l) ∧ l_per l ∈ Pers ∧
        (0 < l_max l < 2 ^ 31)%Z ∧
        ((l_level l = "session" ∧ l_token l = None ∧
            ((∃ s, l_session l = Some s ∧ is_Some (sessions d !! s) ∧ l_kind l = None) ∨
             (l_session l = None ∧ (l_kind l = Some "user" ∨ l_kind l = Some "bot")))) ∨
         (l_level l = "token" ∧ l_kind l = None ∧ l_session l = None ∧
            ∃ t, l_token l = Some t ∧ is_Some (tokens d !! t)))
  end.
Proof.
  unfold createLimit. destruct (decodeJSON _ _ b) as [q|e]; [|by intros [= <- <-]].
  destruct (String.eqb_spec (validTarget q) "") as [Ht|]; [|by intros [= <- <-]].
  destruct (String.eqb_spec (validLimit q) "") as [Hl|]; [|by intros [= <- <-]]. cbn [negb].
  destruct (up 0%nat); [|by intros [= <- <-]]. cbn [negb]. unfold CreateLimit.
  set (l := mkLimit id _ _ _ _ _ _ _ _ _ _).
  destruct (in_int32 (l_max l)) eqn:Er; [|by intros [= <- <-]]. cbn [negb].
  destruct (limit_checks l); [|by intros [= <- <-]]. cbn [negb].
  destruct (has id (limits d)) eqn:Eh; [by intros [= <- <-]|].
  destruct (has_opt (l_session l) (sessions d) && has_opt (l_token l) (tokens d)) eqn:Ef;
    [|by intros [= <- <-]]. cbn [negb].
  intros [= <- <-]. exists q, l. repeat (split; [done|]).
  split. { destruct (limits d !! id) eqn:E; [|done]. by rewrite (proj2 (has_spec id (limits d))) in Eh by eauto. }
  split; [done|].
  apply validLimit_cases in Hl as (H1&H2&H3&H4). apply in_int32_spec in Er.
  repeat (split; [done|]). split; [subst l; simpl in *; lia|].
  apply andb_true_iff in Ef as [F1 F2]. rewrite has_opt_spec in F1. rewrite has_opt_spec in F2.
  apply validTarget_cases in Ht as [(L1&L2&[(s&L3&L4&L5)|(L3&L4)])|(L1&L2&L3&t&L4&L5)].
  - left. do 2 (split; [done|]). left. exists s. split; [done|]. split; [|done]. by apply F1.
  - left. do 2 (split; [done|]). by right.
  - right. do 3 (split; [done|]). exists t. split; [done|]. by apply F2.
Qed.

(** A rule's update cannot move it. Whatever the body, when the update
    succeeds the rule keeps its id, level, target and creation time, its new
    methods, count and window pass the same checks as a new rule's, no other
    rule changes and its counters stay; a body that names a fixed field, does
    not decode or fails the checks changes nothing. *)
Theorem rule_update_keeps_target time_ok up now id b d r d' :
  (∀ k l, limits d !! k = Some l → l_id l = k) →
  updateLimit time_ok up now id b d = (r, d') →
  match r with
  | Err _ => d' = d
  | Ok v =>
      ∃ old new, limits d !! id = Some old ∧ rv_limit v = new ∧ d' = with_limits <[id := new]> d ∧
        fixed new = fixed old ∧
        l_methods new ≠ [] ∧ Forall (λ m, ValidPattern m = true) (l_methods new) ∧
        l_per new ∈ Pers ∧ (0 < l_max new < 2 ^ 31)%Z ∧
        ∀ k, k ∈ fixed_fields → ∀ f, decodeJSON dec_map ∅ b = Ok f → f !! k = None
  end.
Proof.
  intros Hkeys. unfold updateLimit, limitByPath.
  destruct (uuidPattern id); [|by intros [= <- <-]]. unfold stmt.
  destruct (up 0%nat); cbn [negb res_bind]; [|by intros [= <- <-]].
  unfold GetLimit. destruct (limits d !! id) as [old|] eqn:Eold; [|by intros [= <- <-]].
  destruct (decodeJSON dec_map ∅ b) as [f|e]; [|by intros [= <- <-]].
  destruct (filter _ fixed_fields) as [|k0 ks] eqn:Ef; [|by intros [= <- <-]].
  destruct (patch_limit time_ok f old) as [l|] eqn:Ep; [|by intros [= <- <-]].
  destruct (String.eqb_spec (validLimit l) "") as [Hl|]; [|by intros [= <- <-]]. cbn [negb].
  destruct (up 1%nat); cbn [negb]; [|by intros [= <- <-]].
  pose proof (patch_limit_fixed _ _ _ _ Ep) as Hfix.
  assert (Hid : l_id l = id).
  { unfold fixed in Hfix. injection Hfix as -> _ _ _ _ _. by apply Hkeys. }
  unfold UpdateLimit. rewrite Hid, Eold.
  destruct (in_int32 (l_max l)) eqn:Er; cbn [negb]; [|by intros [= <- <-]].
  destruct (limit_checks _); cbn [negb]; [|by intros [= <- <-]].
  intros [= <- <-]. eexists old, _. split; [done|]. split; [done|]. split; [done|].
  apply validLimit_cases in Hl as (H1&H2&H3&H4). apply in_int32_spec in Er.
  split. { unfold fixed. cbn. by rewrite (Hkeys _ _ Eold). }
  repeat (split; [done|]). split; [simpl; lia|].
  intros k Hk f' [= <-]. destruct (f !! k) eqn:E; [|done]. exfalso.
  assert (Hin : k ∈ filter (λ k, is_Some (f !! k)) fixed_fields)
    by (apply list_elem_of_filter; split; [rewrite E; eauto|done]).
  rewrite Ef in Hin. by apply not_elem_of_nil in Hin.
Qed.

Definition ex_sid : string := "0a1b2c3d-0000-4000-8000-00000000abcd".
Definition ex_rule_body : body :=
  JBody (JObj [("level", JStr "session"); ("session_id", JStr ex_sid); ("methods", JArr [JStr "@send"]);
               ("max", JNum 20); ("per", JStr "minute")]).
Definition ex_rule_db : db := with_sessions (λ _, {[ex_sid := ex_session]}) empty_db.
Definition ex_rule_id : string := "11111111-2222-4333-8444-555555555555".
Definition ex_made : res herr ruleView * db :=
  createLimit (λ _, true) (λ _, true) ex_rule_id 100 ex_rule_body ex_rule_db.

Definition ex_made_rule : Limit :=
  mkLimit ex_rule_id "session" None (Some ex_sid) None ["@send"] 20 "minute" None true 100.

Lemma created_rule_admitted_witness :
  ∃ q l, decodeJSON (dec_struct (set_limit (λ _, true))) new_limit ex_rule_body = Ok q ∧
    ex_made_rule = l ∧ ex_made.2 = with_limits <[ex_rule_id := l]> ex_rule_db ∧ limits ex_rule_db !! ex_rule_id = None ∧
    l = mkLimit ex_rule_id (l_level q) (l_kind q) (l_session q) (l_token q) (l_methods q) (l_max q) (l_per q)
          (l_label q) (l_enabled q) 100 ∧
    l_methods l ≠ [] ∧ Forall (λ m, ValidPattern m = true) (l_methods l) ∧ l_per l ∈ Pers ∧
    (0 < l_max l < 2 ^ 31)%Z ∧
    ((l_level l = "session" ∧ l_token l = None ∧
        ((∃ s, l_session l = Some s ∧ is_Some (sessions ex_rule_db !! s) ∧ l_kind l = None) ∨
         (l_session l = None ∧ (l_kind l = Some "user" ∨ l_kind l = Some "bot")))) ∨
     (l_level l = "token" ∧ l_kind l = None ∧ l_session l = None ∧
        ∃ t, l_token l = Some t ∧ is_Some (tokens ex_rule_db !! t))).
Proof.
  apply (created_rule_admitted (λ _, true) (λ _, true) ex_rule_id 100 ex_rule_body ex_rule_db
           (Ok (limitView true 100 ex_made_rule ex_made.2)) ex_made.2).
  vm_compute. reflexivity.
Defined.

Definition ex_one_rule : db := with_limits (λ _, {[ex_rule_id := ex_made_rule]}) ex_rule_db.
Definition ex_patched : Limit :=
  mkLimit ex_rule_id "session" None (Some ex_sid) None ["@send"] 5 "minute" None true 100.

Lemma rule_update_keeps_target_witness :
  ∃ old new, limits ex_one_rule !! ex_rule_id = Some old ∧ ex_patched = new ∧
    with_limits <[ex_rule_id := ex_patched]> ex_one_rule = with_limits <[ex_rule_id := new]> ex_one_rule ∧
    fixed new = fixed old ∧
    l_methods new ≠ [] ∧ Forall (λ m, ValidPattern m = true) (l_methods new) ∧
    l_per new ∈ Pers ∧ (0 < l_max new < 2 ^ 31)%Z ∧
    ∀ k, k ∈ fixed_fields → ∀ f, decodeJSON dec_map ∅ (JBody (JObj [("max", JNum 5)])) = Ok f → f !! k = None.
Proof.
  apply (rule_update_keeps_target (λ _, true) (λ _, true) 200 ex_rule_id (JBody (JObj [("max", JNum 5)])) ex_one_rule
           (Ok (limitView true 200 ex_patched ex_one_rule)) (with_limits <[ex_rule_id := ex_patched]> ex_one_rule)).
  - intros k l. unfold ex_one_rule. cbn [limits with_limits]. rewrite lookup_singleton_Some. by intros [<- <-].
  - vm_compute. reflexivity.
Defined.
