(* ===== verification/Api.v ===== *)
(** The worker's endpoints (internal/api/server.go): how a failure is rendered,
    and the handlers that create applications, proxies and subscriptions. *)

From S2P Require Import Prelude GoStr Json Types Tdjson Utf8 Sha256 Gcm Secret Db Registry Guard Subs Gateway.


(** ** Responses *)

Record response := mkResponse {
  rs_status : Z;
  rs_retry_after : option Z;   (* the Retry-After header *)
  rs_body : json;
}.

(** [internal/api/server.go#writeOK] *)
Definition writeOK (result : json) : response :=
  mkResponse 200 None (JObj [("ok", JBool true); ("result", result)]).

Definition failure (error : list (string * json)) : json :=
  JObj [("ok", JBool false); ("error", JObj error)].

(** [internal/api/server.go#writeErr] *)
Definition writeErr (status : Z) (msg : string) : response :=
  mkResponse status None (failure [("message", JStr msg); ("source", JStr "gateway")]).

(** [internal/api/server.go#httpStatusForTd] *)
Definition httpStatusForTd (code : Z) : Z :=
  if (code =? 0)%Z then 502
  else if (code =? 420)%Z then 429
  else if ((400 <=? code) && (code <=? 599))%Z then code
  else 400.

(** The whole seconds left, rounded up [internal/session/guard.go#RefusedError.RetryAfter]. The code
    rounds through a float64, which is exact to the nanosecond for waits under
    a month. *)
Definition refused_secs (now until : Z) : Z := - ((- time_sub until now) / second).

Section rendering.
(** The [%q] verb, and a time as JSON text. *)
Context (quote : string → string) (time_text : Z → string).

(** [internal/api/server.go#writeRefused] *)
Definition writeRefused (now : Z) (re : refused) : response :=
  let secs := Z.max (refused_secs now (r_until re)) 1 in
  let details :=
    [("source", JStr (r_reason re)); ("until", JStr (time_text (r_until re))); ("retry_after", JNum secs)] ++
    (if String.eqb (r_scope re) "" then [] else [("scope", JStr (r_scope re))]) ++
    (if String.eqb (r_cause re) "" then [] else [("error", JStr (r_cause re))]) ++
    (match r_limit re with
     | Some l => [("level", JStr (l_level l)); ("limit_id", JStr (l_id l))]
     | None => []
     end) in
  mkResponse 429 (Some secs)
    (failure [("source", JStr "gateway"); ("code", JStr "rate_limited");
              ("message", JStr (refused_text quote re)); ("retry_after", JNum secs);
              ("details", JObj details)]).

(** [internal/api/server.go#writeCallErr] *)
Definition writeCallErr (now : Z) (err : gerr) : response :=
  match as_refused err with
  | Some re => writeRefused now re
  | None =>
      match as_td err with
      | Some te =>
          let base := [("code", JNum (te_code te)); ("message", JStr (te_message te)); ("source", JStr "tdlib")] in
          match RetryAfter te with
          | Some secs => mkResponse (httpStatusForTd (te_code te)) (Some secs)
                           (failure (base ++ [("retry_after", JNum secs)]))
          | None => mkResponse (httpStatusForTd (te_code te)) None (failure base)
          end
      | None => writeErr 502 (error_text quote err)
      end
  end.

(** [internal/api/server.go#writeLoginErr] *)
Definition writeLoginErr (now : Z) (err : gerr) : response :=
  match as_td err with
  | Some _ => writeCallErr now err
  | None => writeErr 409 (error_text quote err)
  end.

(** [internal/api/server.go#writeConflict] *)
Definition writeConflict (msg sid : string) : response :=
  mkResponse 409 None
    (failure [("message", JStr msg); ("source", JStr "gateway"); ("session_id", JStr sid)]).

(** ** Handlers *)

(** [internal/api/server.go#decode] *)
Definition decode {A} (d : dec A) (zero : A) (b : body) : option A :=
  match b with
  | JBody v => unmarshal_ok d zero (Some v)
  | _ => None
  end.

Definition bad_json : response := writeErr 400 "invalid JSON body".

Record app_req := mkAppReq { aq_id : Z; aq_hash : string; aq_label : string }.

Definition set_app_req (k : string) : dec app_req := λ q v,
  if names k "api_id" then let r := dec_int32 (aq_id q) v in (mkAppReq r.1 (aq_hash q) (aq_label q), r.2)
  else if names k "api_hash" then
    let r := dec_string (aq_hash q) v in (mkAppReq (aq_id q) r.1 (aq_label q), r.2)
  else if names k "label" then
    let r := dec_string (aq_label q) v in (mkAppReq (aq_id q) (aq_hash q) r.1, r.2)
  else (q, true).

(** [internal/api/server.go#handleCreateApp] *)
Definition handleCreateApp (box : Box) (nonce : option string) (up : bool) (id : string) (now : Z)
    (b : body) (d : db) : response * db :=
  match decode (dec_struct set_app_req) (mkAppReq 0 "" "") b with
  | None => (bad_json, d)
  | Some q =>
      if (aq_id q =? 0)%Z || String.eqb (aq_hash q) "" then
        (writeErr 400 "api_id and api_hash are required", d)
      else match Encrypt box nonce (aq_hash q) with
      | Err e => (writeErr 500 e, d)
      | Ok enc =>
          match (if up then CreateApp id now (aq_id q) enc (aq_label q) d else Err DbDown) with
          | Err _ => (writeErr 500 "database", d)
          | Ok (id, d) => (writeOK (JObj [("app_id", JStr id)]), d)
          end
      end
  end.

Record proxy_req := mkProxyReq {
  xq_type : string; xq_host : string; xq_port : Z; xq_user : string; xq_pass : string;
  xq_secret : string; xq_label : string;
}.

Definition set_proxy_req (k : string) : dec proxy_req := λ q v,
  let '(mkProxyReq ty host port user pass sec label) := q in
  if names k "type" then let r := dec_string ty v in (mkProxyReq r.1 host port user pass sec label, r.2)
  else if names k "host" then let r := dec_string host v in (mkProxyReq ty r.1 port user pass sec label, r.2)
  else if names k "port" then let r := dec_int32 port v in (mkProxyReq ty host r.1 user pass sec label, r.2)
  else if names k "username" then let r := dec_string user v in (mkProxyReq ty host port r.1 pass sec label, r.2)
  else if names k "password" then let r := dec_string pass v in (mkProxyReq ty host port user r.1 sec label, r.2)
  else if names k "secret" then let r := dec_string sec v in (mkProxyReq ty host port user pass r.1 label, r.2)
  else if names k "label" then let r := dec_string label v in (mkProxyReq ty host port user pass sec r.1, r.2)
  else (q, true).

(** [internal/api/server.go#handleCreateProxy] *)
Definition handleCreateProxy (box : Box) (nonce : option string) (up : bool) (id : string) (now : Z)
    (b : body) (d : db) : response * db :=
  match decode (dec_struct set_proxy_req) (mkProxyReq "" "" 0 "" "" "" "") b with
  | None => (bad_json, d)
  | Some q =>
      if String.eqb (xq_type q) "" || String.eqb (xq_host q) "" || (xq_port q =? 0)%Z then
        (writeErr 400 "type, host, port are required", d)
      else
        let plain := if String.eqb (xq_type q) "mtproto" then xq_secret q else xq_pass q in
        match (if String.eqb plain "" then Ok None
               else match Encrypt box nonce plain with Ok e => Ok (Some e) | Err e => Err e end) with
        | Err e => (writeErr 500 e, d)
        | Ok enc =>
            match (if up then CreateProxy id now (mkProxyOut "" (xq_type q) (xq_host q) (xq_port q) (xq_user q)
                                                    enc (xq_label q)) d
                   else Err DbDown) with
            | Err _ => (writeErr 500 "database", d)
            | Ok (id, d) => (writeOK (JObj [("proxy_id", JStr id)]), d)
            end
        end
  end.

Record sub_req := mkSubReq { uq_url : string; uq_secret : string; uq_filters : FilterSpec }.

Definition set_sub_req (k : string) : dec sub_req := λ q v,
  if names k "url" then let r := dec_string (uq_url q) v in (mkSubReq r.1 (uq_secret q) (uq_filters q), r.2)
  else if names k "secret" then
    let r := dec_string (uq_secret q) v in (mkSubReq (uq_url q) r.1 (uq_filters q), r.2)
  else if names k "filters" then
    let r := dec_struct set_filter (uq_filters q) v in (mkSubReq (uq_url q) (uq_secret q) r.1, r.2)
  else (q, true).

Definition sub_req_zero : sub_req := mkSubReq "" "" (mkFilter [] []).

(** A filter as stored: empty lists are left out, and no filter at all is NULL. *)
Definition filter_json (f : FilterSpec) : raw :=
  if bool_decide (fs_types f = []) && bool_decide (fs_chats f = []) then None
  else Some (JObj
    ((if bool_decide (fs_types f = []) then []
      else [("types", JArr (map (λ s, JStr (json_coerce s)) (fs_types f)))]) ++
     (if bool_decide (fs_chats f = []) then [] else [("chats", JArr (map JNum (fs_chats f)))]))).

(** [parse_url] gives an URL's scheme and host; [rand] the random reader's
    bytes for a secret; [tok] the identity header
    [internal/api/server.go#handleCreateSubscription]. *)
Definition handleCreateSubscription (parse_url : string → option (string * string)) (box : Box)
    (nonce rand : option string) (up : bool) (id : string) (now : Z) (sid tok : string) (b : body) (d : db)
    : response * db :=
  match decode (dec_struct set_sub_req) sub_req_zero b with
  | None => (bad_json, d)
  | Some q =>
      if match parse_url (uq_url q) with
         | None => true
         | Some (scheme, host) =>
             negb (String.eqb scheme "http" || String.eqb scheme "https") || String.eqb host ""
         end
      then (writeErr 400 "url must be an absolute http(s) URL", d)
      else
        let generated := String.eqb (uq_secret q) "" in
        match (if generated then newToken rand else Some (uq_secret q)) with
        | None => (writeErr 500 "random source", d)
        | Some plain =>
            match Encrypt box nonce plain with
            | Err e => (writeErr 500 e, d)
            | Ok enc =>
                match (if up then CreateSubscription id now sid tok (uq_url q) (Some enc)
                                    (filter_json (uq_filters q)) d
                       else Err DbDown) with
                | Err _ => (writeErr 502 "database", d)
                | Ok (id, d) =>
                    (writeOK (JObj (("id", JStr id) ::
                       if generated then [("secret", JStr plain)] else [])), d)
                end
            end
        end
  end.

(** [internal/api/server.go#handleClearCooldown] *)
Definition handleClearCooldown (up : bool) (sid scope : string) (g : option guard) (d : db)
    : response * option guard * db :=
  if negb up then (writeErr 502 "database", g, d)
  else let '(found, g, d) := ClearCooldown sid scope g d in
       if found then (writeOK (JObj [("status", JStr "deleted")]), g, d)
       else (writeErr 404 "no such cooldown", g, d).

(** ** Theorems *)

(** A field of the error object of a failure. *)
Definition error_field (k : string) (r : response) : option json :=
  match rs_body r with
  | JObj kvs => match last_binding "error" kvs with
                | Some (JObj es) => last_binding k es
                | _ => None
                end
  | _ => None
  end.

(** Every failure of a call is classified. A refusal by the guard, however
    wrapped, is a 429 from the gateway with a wait of at least a second, the
    same in the header and the body; a TDLib error keeps its code and message,
    is marked as Telegram's, maps to a client or server error status (its own
    code where that is one, 429 for 420), and carries the wait in header and
    body exactly when it is a flood wait that names one; anything else is the
    gateway's 502. No failure is ever answered as a success. *)
Theorem call_failure_classified now err :
  let r := writeCallErr now err in
  (400 <= rs_status r <= 599)%Z ∧
  match as_refused err, as_td err with
  | Some re, _ =>
      rs_status r = 429%Z ∧ error_field "source" r = Some (JStr "gateway") ∧
      error_field "code" r = Some (JStr "rate_limited") ∧
      ∃ n, (1 <= n)%Z ∧ rs_retry_after r = Some n ∧ error_field "retry_after" r = Some (JNum n)
  | None, Some te =>
      error_field "source" r = Some (JStr "tdlib") ∧ error_field "code" r = Some (JNum (te_code te)) ∧
      error_field "message" r = Some (JStr (te_message te)) ∧
      (((400 <= te_code te <= 599)%Z ∧ te_code te ≠ 420%Z) → rs_status r = te_code te) ∧
      rs_retry_after r = RetryAfter te ∧ error_field "retry_after" r = JNum <$> RetryAfter te ∧
      (is_Some (RetryAfter te) → rs_status r = 429%Z)
  | None, None => rs_status r = 502%Z ∧ error_field "source" r = Some (JStr "gateway") ∧
                  rs_retry_after r = None
  end.
Proof.
  cbn zeta. unfold writeCallErr. destruct (as_refused err) as [re|].
  - split; [simpl; lia|]. split; [done|]. split; [done|]. split; [done|].
    eexists. split; [|by split]. lia.
  - destruct (as_td err) as [te|]; [|by repeat split].
    assert (Hst : (400 <= httpStatusForTd (te_code te) <= 599)%Z).
    { unfold httpStatusForTd. repeat match goal with |- context [if ?x then _ else _] => destruct x eqn:? end;
        bool_props; lia. }
    assert (Hown : ((400 <= te_code te <= 599)%Z ∧ te_code te ≠ 420%Z) → httpStatusForTd (te_code te) = te_code te).
    { intros [? ?]. unfold httpStatusForTd.
      repeat match goal with |- context [if ?x then _ else _] => destruct x eqn:? end; bool_props; lia. }
    destruct (RetryAfter te) as [n|] eqn:Er; (split; [done|]); (split; [done|]); (split; [done|]);
      (split; [done|]); (split; [done|]); (split; [done|]); (split; [done|]).
    + intros _. simpl. unfold RetryAfter in Er. unfold httpStatusForTd.
      destruct (Z.eqb_spec (te_code te) 429) as [->|]; [done|].
      destruct (Z.eqb_spec (te_code te) 420) as [->|]; done.
    + by intros [? ?].
Qed.

(** Waiting as long as told is enough, and not much longer than needed.
    When a call is refused for a cooldown, a retry after the answered number of
    seconds is not refused by that cooldown, and the answer exceeds what is left
    by less than a second (cooldowns end within the range of a duration). *)
Theorem told_wait_suffices g scope now re :
  checkCooldown g scope now = Some re → (r_until re - now < 2 ^ 63)%Z →
  ∃ n, rs_retry_after (writeCallErr now (ERefused re)) = Some n ∧
    (r_until re <= now + n * second < r_until re + second)%Z ∧
    ∀ t, (now + n * second <= t)%Z → checkCooldown g scope t = None.
Proof.
  unfold checkCooldown, active. destruct (g_cool g !! scope) as [c|] eqn:Ec; [|done].
  destruct (Z.ltb_spec now (c_until c)) as [Hlt|]; [|done]. intros [= <-] Hr. cbn [r_until] in *.
  eexists. split; [done|]. cbn [r_until]. unfold refused_secs. rewrite time_sub_small by lia.
  assert (Hs : (0 < second)%Z) by done.
  set (q := ((- (c_until c - now)) / second)%Z).
  assert (Hq : (q * second <= - (c_until c - now) < q * second + second)%Z).
  { unfold q. pose proof (Z.div_mod (- (c_until c - now)) second). pose proof (Z.mod_pos_bound (- (c_until c - now)) second).
    lia. }
  assert (Hq1 : (q <= -1)%Z) by nia. rewrite Z.max_l by lia.
  split; [nia|]. intros t Ht. rewrite (proj2 (Z.ltb_ge _ _)) by nia. done.
Qed.

Lemma dec_struct_inv {A} (P : A → Prop) (set : string → dec A) old v :
  (∀ k a v, P a → P (set k a v).1) → P old → P (dec_struct set old v).1.
Proof.
  intros Hset. revert old. unfold dec_struct. destruct v as [| | | | | |kvs]; try done.
  generalize true. induction kvs as [|[k v] kvs IH]; intros b old Ho; [done|]. simpl.
  destruct (set k old v) as [a ok] eqn:E. simpl. apply IH. specialize (Hset k old v Ho). by rewrite E in Hset.
Qed.

Lemma dec_elems_inv {A} (P : A → Prop) zero (d : dec A) olds vs :
  (∀ a v, P a → P (d a v).1) → P zero → Forall P olds → Forall P (dec_elems zero d olds vs).1.
Proof.
  intros Hd Hz. revert olds. induction vs as [|v vs IH]; intros olds Ho; [constructor|]. simpl.
  constructor; [apply Hd; destruct Ho; done|apply IH; by destruct Ho].
Qed.

Definition spec_ok (f : FilterSpec) : Prop := Forall (λ z, in_int64 z = true) (fs_chats f).

Lemma sub_req_ok v : spec_ok (uq_filters (dec_struct set_sub_req sub_req_zero v).1).
Proof.
  apply (dec_struct_inv (λ q, spec_ok (uq_filters q))); [|constructor].
  intros k q v' Hq. unfold set_sub_req. destruct (names k "url"); [done|]. destruct (names k "secret"); [done|].
  destruct (names k "filters"); [|done]. simpl. apply dec_struct_inv; [|done].
  intros k' f v'' Hf. unfold set_filter. destruct (names k' "types"); [done|].
  destruct (names k' "chats"); [|done]. unfold spec_ok. simpl. unfold dec_list.
  destruct v''; try done. apply dec_elems_inv; [|done|done].
  intros a [| |z| | | |] Ha; try done. simpl. destruct (in_int64 z) eqn:E; done.
Qed.

Lemma dec_strings l olds : dec_elems "" dec_string olds (map JStr l) = (l, true).
Proof. revert olds. induction l as [|s l IH]; intros olds; [done|]. simpl. by rewrite IH. Qed.

Lemma dec_ints l olds :
  Forall (λ z, in_int64 z = true) l → dec_elems 0%Z dec_int64 olds (map JNum l) = (l, true).
Proof. intros Hl. revert olds. induction Hl as [|z l Hz _ IH]; intros olds; [done|]. simpl. by rewrite Hz, IH. Qed.

Lemma filter_json_read f :
  spec_ok f → Forall (λ s, valid_utf8 s = true) (fs_types f) → read_filter (filter_json f) = Some f.
Proof.
  intros Hc Ht. destruct f as [types chats]. unfold filter_json, spec_ok in *. simpl in *.
  assert (Hco : map (λ s, JStr (json_coerce s)) types = map JStr types).
  { clear -Ht. induction Ht as [|s l Hs _ IH]; [done|]. simpl. by rewrite json_coerce_valid, IH. }
  rewrite Hco. unfold read_filter, unmarshal_ok, unmarshal.
  destruct (bool_decide_reflect (types = [])) as [->|Hn1], (bool_decide_reflect (chats = [])) as [->|Hn2]; cbn [andb app].
  - done.
  - unfold dec_struct. cbn [foldl fst snd]. unfold set_filter.
    change (names "chats" "types") with false. change (names "chats" "chats") with true. cbn [fs_types fs_chats dec_list].
    by rewrite dec_ints.
  - unfold dec_struct. cbn [foldl fst snd]. unfold set_filter.
    change (names "types" "types") with true. cbn [fs_types fs_chats dec_list]. by rewrite dec_strings.
  - unfold dec_struct. cbn [foldl fst snd]. unfold set_filter.
    change (names "types" "types") with true. change (names "chats" "types") with false.
    change (names "chats" "chats") with true. cbn [fs_types fs_chats dec_list fst snd].
    rewrite dec_strings. cbn [fs_types fs_chats fst snd]. by rewrite dec_ints.
Qed.

(** A subscription is what was asked for. When creation succeeds, the
    registry holds it for that session under the identity the gateway passed
    on, its secret is stored encrypted and decrypts to the one requested (or,
    when none was, to the one generated and returned this once), and its stored
    filter reads back as the requested one: routing will accept exactly what
    the request's filter says. *)
Theorem subscription_as_requested parse_url key nonce rand up id now sid tok b d r d' :
  handleCreateSubscription parse_url (mkBox key) (Some nonce) rand up id now sid tok b d = (r, d') →
  rs_status r = 200%Z → String.length nonce = NonceSize →
  ∃ q row enc plain,
    decode (dec_struct set_sub_req) sub_req_zero b = Some q ∧
    d' = with_subs <[id := row]> d ∧ is_Some (sessions d !! sid) ∧
    sb_session row = sid ∧ sb_token row = nullStr tok ∧ sb_url row = uq_url q ∧
    sb_secret_enc row = Some enc ∧ Decrypt (mkBox key) enc = Ok plain ∧
    (if String.eqb (uq_secret q) "" then Some plain = RawURLEncode <$> rand ∧
        rs_body r = rs_body (writeOK (JObj [("id", JStr id); ("secret", JStr plain)]))
     else plain = uq_secret q ∧ rs_body r = rs_body (writeOK (JObj [("id", JStr id)]))) ∧
    (Forall (λ s, valid_utf8 s = true) (fs_types (uq_filters q)) →
       read_filter (sb_filters row) = Some (uq_filters q)).
Proof.
  unfold handleCreateSubscription. intros H Hst Hn.
  destruct (decode _ sub_req_zero b) as [q|] eqn:Eq; [|by injection H as <- <-].
  destruct (match parse_url _ with Some _ => _ | None => _ end); [by injection H as <- <-|].
  destruct (if String.eqb (uq_secret q) "" then newToken rand else Some (uq_secret q)) as [plain|] eqn:Ep;
    [|by injection H as <- <-].
  unfold Encrypt in H. cbn [bx_key] in H. set (enc := nonce +:+ Seal key nonce plain) in *.
  destruct up; [|by injection H as <- <-]. unfold CreateSubscription in H.
  destruct (has id (subs d)); [by injection H as <- <-|].
  destruct (has sid (sessions d) && _) eqn:Ef; [|by injection H as <- <-]. cbn [negb] in H.
  injection H as <- <-. apply andb_true_iff in Ef as [Hs%has_spec _].
  eexists q, _, enc, plain. split; [done|]. split; [done|]. split; [done|]. do 4 (split; [done|]).
  split.
  { unfold Decrypt, enc. cbn [bx_key]. rewrite stake_app_eq, sdrop_app_eq, Open_Seal by done.
    destruct (Nat.ltb_spec (String.length (nonce +:+ Seal key nonce plain)) NonceSize) as [Hl|]; [|done].
    rewrite length_app_s in Hl. lia. }
  split.
  - destruct (String.eqb (uq_secret q) ""); [by split|]. injection Ep as <-. done.
  - intros Ht. cbn [sb_filters]. apply filter_json_read; [|done].
    unfold decode in Eq. destruct b as [| |v]; [done..|]. unfold unmarshal_ok, unmarshal in Eq.
    pose proof (sub_req_ok v) as Hok. destruct (dec_struct _ _ v) as [q' ok]. destruct ok; [|done].
    by injection Eq as <-.
Qed.
End rendering.

Definition ex_guard : guard := (set (mkCooldown "@send" (10 * second) "FLOOD") new_guard).1.

Lemma told_wait_suffices_witness :
  let re := mkRefused "cooldown" "@send" (10 * second) "FLOOD" None in
  ∃ n, rs_retry_after (writeCallErr (λ s, s) (λ _, "") 1 (ERefused re)) = Some n ∧
    (r_until re <= 1 + n * second < r_until re + second)%Z ∧
    ∀ t, (1 + n * second <= t)%Z → checkCooldown ex_guard "@send" t = None.
Proof.
  apply (told_wait_suffices (λ s, s) (λ _, "") ex_guard "@send" 1
           (mkRefused "cooldown" "@send" (10 * second) "FLOOD" None)); [vm_compute; reflexivity|].
  vm_compute. reflexivity.
Defined.

Definition ex_sub_body : body :=
  JBody (JObj [("url", JStr "https://hook"); ("filters", JObj [("types", JArr [JStr "updateNewMessage"]);
                                                              ("chats", JArr [JNum 7])])]).
Definition ex_sub_db : db := with_sessions (λ _, {["s" := ex_session]}) empty_db.
Definition ex_sub_made : response * db :=
  handleCreateSubscription (λ _, Some ("https", "hook")) (mkBox (zeros 32)) (Some (zeros 12)) (Some (zeros 32)) true
    "sub" 4 "s" "" ex_sub_body ex_sub_db.

Lemma subscription_as_requested_witness :
  ∃ q row enc plain,
    decode (dec_struct set_sub_req) sub_req_zero ex_sub_body = Some q ∧
    ex_sub_made.2 = with_subs <["sub" := row]> ex_sub_db ∧ is_Some (sessions ex_sub_db !! "s") ∧
    sb_session row = "s" ∧ sb_token row = nullStr "" ∧ sb_url row = uq_url q ∧
    sb_secret_enc row = Some enc ∧ Decrypt (mkBox (zeros 32)) enc = Ok plain ∧
    (if String.eqb (uq_secret q) "" then Some plain = RawURLEncode <$> Some (zeros 32) ∧
        rs_body ex_sub_made.1 = rs_body (writeOK (JObj [("id", JStr "sub"); ("secret", JStr plain)]))
     else plain = uq_secret q ∧ rs_body ex_sub_made.1 = rs_body (writeOK (JObj [("id", JStr "sub")]))) ∧
    (Forall (λ s, valid_utf8 s = true) (fs_types (uq_filters q)) →
       read_filter (sb_filters row) = Some (uq_filters q)).
Proof.
  apply (subscription_as_requested (λ _, Some ("https", "hook")) (zeros 32) (zeros 12) (Some (zeros 32)) true
    "sub" 4 "s" "" ex_sub_body ex_sub_db ex_sub_made.1 ex_sub_made.2); vm_compute; reflexivity.
Defined.
