(* ===== verification/Serving.v ===== *)
(** The worker's mux (internal/api/server.go NewServer) behind the gateway's: what
    the gateway proxies, a worker serves, under the same route. *)

From S2P Require Import Prelude GoStr Json Types Db Registry Tokens Auth Gateway.


(** ** The worker's routes *)

(** The handlers of a worker. *)
Inductive whandler :=
| W_healthz | W_execute | W_createApp | W_createProxy | W_createBot | W_createUser
| W_loginCode | W_loginPassword | W_loginResend | W_call | W_createSubscription
| W_getSession | W_downloadFile | W_deleteSession | W_updateSession | W_clearCooldown.

(** [internal/api/server.go#NewServer] *)
Definition worker_routes : list (string * whandler) := [
  ("GET /healthz", W_healthz);
  ("POST /v1/execute", W_execute); ("POST /v1/apps", W_createApp); ("POST /v1/proxies", W_createProxy);
  ("POST /v1/bot", W_createBot); ("POST /v1/user", W_createUser);
  ("POST /v1/user/{id}/login/code", W_loginCode); ("POST /v1/user/{id}/login/password", W_loginPassword);
  ("POST /v1/user/{id}/login/resend", W_loginResend);
  ("POST /v1/user/{id}/call", W_call); ("POST /v1/bot/{id}/call", W_call);
  ("POST /v1/user/{id}/updates/subscriptions", W_createSubscription);
  ("POST /v1/bot/{id}/updates/subscriptions", W_createSubscription);
  ("GET /v1/user/{id}", W_getSession); ("GET /v1/bot/{id}", W_getSession);
  ("GET /v1/user/{id}/files/{file_id}", W_downloadFile); ("GET /v1/bot/{id}/files/{file_id}", W_downloadFile);
  ("DELETE /v1/user/{id}", W_deleteSession); ("DELETE /v1/bot/{id}", W_deleteSession);
  ("PATCH /v1/user/{id}", W_updateSession); ("PATCH /v1/bot/{id}", W_updateSession);
  ("DELETE /v1/user/{id}/limits/cooldowns/{scope}", W_clearCooldown);
  ("DELETE /v1/bot/{id}/limits/cooldowns/{scope}", W_clearCooldown)].

(** The gateway handlers that pass the request on. *)
Definition proxied (h : handler) : bool :=
  match h with H_anyWorker | H_scoped | H_ownerOrAnyWorker => true | _ => false end.

(** A worker's dispatch. *)
Definition serve (rq : request) : option (string * whandler * list (string * string)) :=
  if hq_clean rq then mux_find worker_routes (hq_method rq) (hq_segs rq) else None.

(** ** Routes that overlap *)

Fixpoint overlap_segs (a b : list patseg) : bool :=
  match a, b with
  | [], [] => true
  | Lit x :: a, Lit y :: b => String.eqb x y && overlap_segs a b
  | _ :: a, _ :: b => overlap_segs a b
  | _, _ => false
  end.

Definition overlap_methods (a b : string) : bool :=
  String.eqb a b || (String.eqb a "GET" && String.eqb b "HEAD") || (String.eqb b "GET" && String.eqb a "HEAD").

(** Could one request match both patterns. *)
Definition overlap (p q : string) : bool :=
  overlap_segs (parse_pattern p).2 (parse_pattern q).2 && overlap_methods (parse_pattern p).1 (parse_pattern q).1.

Lemma overlap_segs_spec a b segs ps qs :
  match_segs a segs = Some ps → match_segs b segs = Some qs → overlap_segs a b = true.
Proof.
  revert b segs ps qs. induction a as [|x a IH]; intros [|y b] [|s segs] ps qs H1 H2; try (by destruct x || done);
    try (by destruct y).
  destruct x as [l|n], y as [l'|n']; simpl in *; repeat case_match; try done; bool_props; simplify_eq;
    repeat match goal with H : _ <$> _ = Some _ |- _ => apply fmap_Some in H as (?&?&_) end;
    try (by eapply IH).
  split; [done|by eapply IH].
Qed.

Lemma overlap_spec p q m segs ps qs :
  match_segs (parse_pattern p).2 segs = Some ps → method_ok (parse_pattern p).1 m = true →
  match_segs (parse_pattern q).2 segs = Some qs → method_ok (parse_pattern q).1 m = true → overlap p q = true.
Proof.
  intros H1 M1 H2 M2. unfold overlap. rewrite (overlap_segs_spec _ _ _ _ _ H1 H2). simpl.
  apply method_ok_cases in M1 as [E1|[E1 E1']], M2 as [E2|[E2 E2']]; unfold overlap_methods; rewrite ?E1, ?E2; subst m;
    rewrite <- ?E1, <- ?E2, ?E2', ?E1'; by rewrite ?String.eqb_refl, ?orb_true_r.
Qed.

(** Finding a route that no other of the table overlaps. *)
Lemma mux_find_complete {H} (rs : list (string * H)) m segs p h ps :
  Forall (λ r, overlap p r.1 = true → r = (p, h)) rs → (p, h) ∈ rs →
  match_segs (parse_pattern p).2 segs = Some ps → method_ok (parse_pattern p).1 m = true →
  mux_find rs m segs = Some (p, h, ps).
Proof.
  intros Hun Hin Hm Hok. induction Hun as [|[q h'] rs Hq _ IH]; [by apply not_elem_of_nil in Hin|].
  simpl. destruct (match_segs (parse_pattern q).2 segs) as [qs|] eqn:Eq; [destruct (method_ok (parse_pattern q).1 m) eqn:Em|].
  - specialize (Hq (overlap_spec p q m segs ps qs Hm Hok Eq Em)). simplify_eq. done.
  - apply elem_of_cons in Hin as [[= -> ->]|Hin]; [congruence|by apply IH].
  - apply elem_of_cons in Hin as [[= -> ->]|Hin]; [congruence|by apply IH].
Qed.

#[export] Instance whandler_eq_dec : EqDecision whandler.
Proof. solve_decision. Defined.

(** ** The two muxes together *)

(** Each proxied route of the gateway is a route of the worker, and the worker's
    routes do not overlap; both by evaluation of the tables. *)
Lemma proxied_routes :
  forallb (λ r, negb (proxied r.2) || existsb (λ w, String.eqb r.1 w.1) worker_routes) routes = true.
Proof. vm_compute. reflexivity. Qed.

Lemma worker_routes_apart :
  forallb (λ w, forallb (λ w', negb (overlap w.1 w'.1) || bool_decide (w' = w)) worker_routes) worker_routes = true.
Proof. vm_compute. reflexivity. Qed.

Lemma reached_routes :
  forallb (λ w, String.eqb w.1 "GET /healthz" || existsb (λ r, String.eqb w.1 r.1 && proxied r.2) routes) worker_routes = true.
Proof. vm_compute. reflexivity. Qed.

Lemma run_routed master up d rq p h ps tok :
  auth master up d rq = Run p h ps tok →
  hq_clean rq = true ∧ mux_find routes (hq_method rq) (hq_segs rq) = Some (p, h, ps).
Proof.
  assert (Hmux : ∀ t, mux rq t = Run p h ps tok →
    hq_clean rq = true ∧ mux_find routes (hq_method rq) (hq_segs rq) = Some (p, h, ps)).
  { intros t H. pose proof (mux_run _ _ _ _ _ _ H) as [_ Hf]. split; [|done].
    unfold mux in H. by destruct (hq_clean rq). }
  unfold auth. repeat case_match; try done; apply Hmux.
Qed.

(** A proxied request finds its own route at the worker. *)
Lemma served_same master up d rq p h ps tok :
  auth master up d rq = Run p h ps tok → proxied h = true →
  ∃ wh, (p, wh) ∈ worker_routes ∧ serve (at_worker rq tok) = Some (p, wh, ps).
Proof.
  intros H Hp. apply run_routed in H as [Hc Hf]. apply mux_find_sound in Hf as (Hin&Hm&Hok).
  pose proof proxied_routes as Hr. rewrite forallb_forall in Hr. apply list_elem_of_In, Hr in Hin.
  cbn [snd] in Hin. rewrite Hp in Hin. cbn [negb orb] in Hin.
  apply existsb_exists in Hin as ([q wh]&Hw&E). simpl in E. apply String.eqb_eq in E as <-.
  pose proof worker_routes_apart as Ha. rewrite forallb_forall in Ha. specialize (Ha _ Hw).
  exists wh. split; [by apply list_elem_of_In|].
  unfold serve. cbn [at_worker hq_clean hq_method hq_segs]. rewrite Hc. apply mux_find_complete; [|by apply list_elem_of_In|done|done].
  apply Forall_forall. intros r Hr' Ho. rewrite forallb_forall in Ha. apply list_elem_of_In, Ha in Hr'.
  cbn [fst] in Hr'. rewrite Ho in Hr'. cbn [negb orb] in Hr'. by apply bool_decide_eq_true in Hr'.
Qed.

(** C13: The gateway and the workers agree on the routes. Whatever the gateway lets
    through to a proxying handler, the worker it is sent to serves, as it
    arrives there, under the same pattern with the same path values, so the
    session the gateway decided about is the session the worker acts on; it does
    so whatever identity the request arrives under. And the worker has no endpoint
    but the liveness probe that the gateway does not front. *)
Theorem proxied_is_served master up d rq p h ps tok :
  (auth master up d rq = Run p h ps tok → proxied h = true →
     ∃ wh, (p, wh) ∈ worker_routes ∧ serve (at_worker rq tok) = Some (p, wh, ps)) ∧
  (∀ q wh, (q, wh) ∈ worker_routes → q ≠ "GET /healthz" → ∃ h', (q, h') ∈ routes ∧ proxied h' = true).
Proof.
  split; [apply served_same|].
  intros q wh Hin Hne. pose proof reached_routes as Hr. rewrite forallb_forall in Hr.
  apply list_elem_of_In, Hr, orb_true_iff in Hin as [E|E]; [by apply String.eqb_eq in E|].
  apply existsb_exists in E as ([p' h']&Hp'&[E Hx]%andb_true_iff). simpl in E, Hx. apply String.eqb_eq in E as <-.
  exists h'. split; [by apply list_elem_of_In|done].
Qed.

Lemma proxied_is_served_witness :
  let rq := mkRequest "POST" ["v1"; "user"; "s1"; "call"] true "Bearer master" "forged" [] in
  auth "master" (λ _, true) empty_db rq = Run "POST /v1/user/{id}/call" H_scoped [("id", "s1")] "" ∧
  ∃ wh, ("POST /v1/user/{id}/call", wh) ∈ worker_routes ∧
    serve (at_worker rq "") = Some ("POST /v1/user/{id}/call", wh, [("id", "s1")]).
Proof.
  intros rq. assert (H : auth "master" (λ _, true) empty_db rq = Run "POST /v1/user/{id}/call" H_scoped [("id", "s1")] "")
    by (vm_compute; reflexivity).
  split; [exact H|].
  exact (proj1 (proxied_is_served "master" (λ _, true) empty_db rq _ _ _ _) H eq_refl).
Defined.
