(* ===== verification/Login.v ===== *)
(** Logging an account in (internal/session/authorizer.go, manager.go): the
    state a login keeps, the authorization handler go-tdlib calls, the submits
    that feed it, the resends of its code, the status mirrored into the registry,
    and their interleaving as events. go-tdlib's loop calls the
    handler with TDLib's authorization state until the handler fails, which
    closes the client, or the state is Ready; which states come, and how TDLib
    answers a request, is given by the events. *)

From S2P Require Import Prelude GoStr Json Types Db Registry Guard.


(** ** State *)

(** The in-process state of a login: the part of a liveSession guarded by its
    mutex, its channels, and the status handed to [persist], whose write to the
    registry is not over. The client is there or not; [lv_attempt] is the submit
    whose result channel is armed; the two input channels hold one value
    [internal/session/manager.go#liveSession]. *)
Record live := mkLive {
  lv_status : string;
  lv_client : bool;
  lv_err : option gerr;
  lv_logging : bool;
  lv_codeInfo : option json;
  lv_lastErr : string;
  lv_attempt : option nat;
  lv_canceled : bool;
  lv_done : option bool;       (* loginDone: None when not interactive, else closed? *)
  lv_code : option string;
  lv_password : option string;
  lv_write : option string;
}.

(** [internal/session/manager.go#newLiveSession] *)
Definition newLiveSession (interactive : bool) : live :=
  mkLive "connecting" false None false None "" None false (if interactive then Some false else None)
    None None None.

Definition l_set_status st s := mkLive st (lv_client s) (lv_err s) (lv_logging s) (lv_codeInfo s) (lv_lastErr s)
  (lv_attempt s) (lv_canceled s) (lv_done s) (lv_code s) (lv_password s) (lv_write s).
Definition l_set_write m s := mkLive (lv_status s) (lv_client s) (lv_err s) (lv_logging s) (lv_codeInfo s)
  (lv_lastErr s) (lv_attempt s) (lv_canceled s) (lv_done s) (lv_code s) (lv_password s) m.
Definition l_set_client c lg s := mkLive (lv_status s) c (lv_err s) lg (lv_codeInfo s) (lv_lastErr s)
  (lv_attempt s) (lv_canceled s) (lv_done s) (lv_code s) (lv_password s) (lv_write s).
Definition l_set_err e s := mkLive (lv_status s) (lv_client s) e (lv_logging s) (lv_codeInfo s) (lv_lastErr s)
  (lv_attempt s) (lv_canceled s) (lv_done s) (lv_code s) (lv_password s) (lv_write s).
Definition l_set_last e s := mkLive (lv_status s) (lv_client s) (lv_err s) (lv_logging s) (lv_codeInfo s) e
  (lv_attempt s) (lv_canceled s) (lv_done s) (lv_code s) (lv_password s) (lv_write s).
Definition l_set_attempt a s := mkLive (lv_status s) (lv_client s) (lv_err s) (lv_logging s) (lv_codeInfo s)
  (lv_lastErr s) a (lv_canceled s) (lv_done s) (lv_code s) (lv_password s) (lv_write s).
Definition l_set_info i s := mkLive (lv_status s) (lv_client s) (lv_err s) (lv_logging s) i (lv_lastErr s)
  (lv_attempt s) (lv_canceled s) (lv_done s) (lv_code s) (lv_password s) (lv_write s).
Definition l_set_cancel c s := mkLive (lv_status s) (lv_client s) (lv_err s) (lv_logging s) (lv_codeInfo s)
  (lv_lastErr s) (lv_attempt s) c (lv_done s) (lv_code s) (lv_password s) (lv_write s).
Definition l_set_done d s := mkLive (lv_status s) (lv_client s) (lv_err s) (lv_logging s) (lv_codeInfo s)
  (lv_lastErr s) (lv_attempt s) (lv_canceled s) d (lv_code s) (lv_password s) (lv_write s).
Definition l_set_inputs c p s := mkLive (lv_status s) (lv_client s) (lv_err s) (lv_logging s) (lv_codeInfo s)
  (lv_lastErr s) (lv_attempt s) (lv_canceled s) (lv_done s) c p (lv_write s).

(** Records a status and hands it to the mirror; the same status again is not
    written again [internal/session/manager.go#setStatus]. *)
Definition setStatus (st : string) (s : live) : live :=
  if String.eqb (lv_status s) st then s else l_set_write (Some st) (l_set_status st s).

(** [internal/session/manager.go#setClient] *)
Definition setClient (s : live) : live := setStatus "authorized" (l_set_client true false s).

(** [internal/session/manager.go#readyClient] *)
Definition readyClient (s : live) : bool :=
  if lv_logging s || negb (String.eqb (lv_status s) "authorized") then false else lv_client s.

(** [internal/session/manager.go#beginLogin] *)
Definition beginLogin (s : live) : live := l_set_client true true s.

Section texts.
Context (quote : string → string).

(** [internal/session/manager.go#failLogin] *)
Definition failLogin (err : gerr) (s : live) : live :=
  let s' := l_set_last (error_text quote err) (l_set_client false false (l_set_err (Some err) s)) in
  if String.eqb (lv_status s) "authorized" then s' else setStatus "error" s'.

(** [internal/session/manager.go#armAttempt] *)
Definition armAttempt (i : nat) (s : live) : live := l_set_last "" (l_set_attempt (Some i) s).

(** Publishes a verdict to the armed submit, if any
    [internal/session/manager.go#reportAttempt]. *)
Definition reportAttempt (err : option gerr) (s : live) : option nat * live :=
  let s' := l_set_attempt None s in
  (lv_attempt s, match err with Some e => l_set_last (error_text quote e) s' | None => s' end).

(** [internal/session/manager.go#setLastErr] *)
Definition setLastErr (err : gerr) (s : live) : live := l_set_last (error_text quote err) s.

(** [internal/session/manager.go#setCodeInfo] *)
Definition setCodeInfo (info : option json) (s : live) : live :=
  match info with Some i => l_set_info (Some i) s | None => s end.

(** [internal/session/manager.go#abortLogin] *)
Definition abortLogin (s : live) : bool * live :=
  match lv_done s with
  | Some false => if lv_canceled s then (false, s) else (true, l_set_cancel true s)
  | _ => (false, s)
  end.

(** What a status read reports [internal/session/manager.go#SessionState]. *)
Record SessionState := mkState {
  ss_status : string; ss_info : option json; ss_last : string;
  ss_premium : option bool; ss_frozen : bool; ss_spam : bool;
}.

(** [internal/session/manager.go#liveSession.state] *)
Definition state (g : guard) (now : Z) (s : live) : SessionState :=
  let '(premium, frozen, spam) := flags g now in
  mkState (lv_status s)
    (if String.eqb (lv_status s) "awaiting_code" then lv_codeInfo s else None)
    (if String.eqb (lv_status s) "authorized" then "" else lv_lastErr s)
    premium frozen spam.

(** ** The authorization handler *)

(** TDLib's authorization states. *)
Inductive authState :=
| WaitParameters | WaitPhone | WaitCode (info : option json) | WaitPassword
| StReady | StClosing | StOther (name : string).

(** [internal/session/authorizer.go#authHandler] *)
Record authHandler := mkHandler {
  ah_proxy : bool; ah_bot : string; ah_phoneSent : bool; ah_rehydrate : bool;
}.

(** [internal/session/authorizer.go#errRehydrateExpired] *)
Definition errRehydrateExpired : gerr := EMsg "session not authorized in binlog (needs re-login)".
(** [internal/session/authorizer.go#errLoginCanceled] *)
Definition errLoginCanceled : gerr := EMsg "login canceled".
(** [internal/session/authorizer.go#errLoginRestart] *)
Definition errLoginRestart : gerr := EMsg "login attempt expired; start a new login".

(** What an operator is asked for. *)
Inductive input := Code | Password.

Definition input_status (k : input) : string :=
  match k with Code => "awaiting_code" | Password => "awaiting_password" end.

(** [internal/session/authorizer.go#authHandler.fatal] *)
Definition fatal (err : option gerr) (s : live) : option gerr * live :=
  (err, match err with Some e => setLastErr e s | None => s end).

(** The start of a wait: the state is published before blocking
    [internal/session/authorizer.go:129-131#await]. *)
Definition await_enter (k : input) (s : live) : live := setStatus (input_status k) (beginLogin s).

(** How a call of the handler goes on: it returns, or waits for input. *)
Inductive handled := Returns (err : option gerr) | Awaits (k : input).

(** [td m] is TDLib's answer to the request [m] this call makes; the third
    result lists the requests made [internal/session/authorizer.go#authHandler.Handle]. *)
Definition Handle (td : string → option gerr) (st : authState) (h : authHandler) (s : live)
    : handled * authHandler * live * list string :=
  let ret r h reqs := (Returns r.1, h, r.2, reqs) in
  match st with
  | WaitParameters =>
      match td "setTdlibParameters" with
      | Some e => ret (fatal (Some e) s) h ["setTdlibParameters"]
      | None =>
          if ah_proxy h then
            match td "addProxy" with
            | Some e => ret (fatal (Some e) s) h ["setTdlibParameters"; "addProxy"]
            | None => (Returns None, h, s, ["setTdlibParameters"; "addProxy"])
            end
          else (Returns None, h, s, ["setTdlibParameters"])
      end
  | WaitPhone =>
      if ah_rehydrate h then (Returns (Some errRehydrateExpired), h, s, [])
      else if negb (String.eqb (ah_bot h) "") then
        ret (fatal (td "checkAuthenticationBotToken") s) h ["checkAuthenticationBotToken"]
      else if ah_phoneSent h then ret (fatal (Some errLoginRestart) s) h []
      else
        let h := mkHandler (ah_proxy h) (ah_bot h) true (ah_rehydrate h) in
        ret (fatal (td "setAuthenticationPhoneNumber") (beginLogin s)) h ["setAuthenticationPhoneNumber"]
  | WaitCode info =>
      if ah_rehydrate h then (Returns (Some errRehydrateExpired), h, s, [])
      else (Awaits Code, h, await_enter Code (setCodeInfo info s), [])
  | WaitPassword =>
      if ah_rehydrate h then (Returns (Some errRehydrateExpired), h, s, [])
      else (Awaits Password, h, await_enter Password s, [])
  | StReady | StClosing => (Returns None, h, s, [])
  | StOther name => ret (fatal (Some (EMsg ("not supported state: " +:+ name))) s) h []
  end.

(** ** A login running *)

(** Where the goroutine that builds the client is: in go-tdlib's loop, in the
    handler waiting for input, checking a value with TDLib, or finished. *)
Inductive auth_pc := InLoop | Waiting (k : input) | Checking (k : input) (value : string) | Finished (ok : bool).

(** A submit, after each of its steps; [SGot] is its caller's answer. *)
Inductive submit_pc :=
| SChecked (k : input) (value : string)
| SArmed (k : input) (value : string)
| SSent (k : input) (value : string)
| SGot (r : res string (option gerr)).   (* a verdict, or why there is none *)

(** A resend of the code: it found the login waiting for a code; Telegram was
    asked; it answered. Or it was refused before. *)
Inductive resend_pc := RChecked | RAsked | RGot (r : option gerr) | RRefused (why : string).

Record login := mkLogin {
  lg_live : live;
  lg_handler : authHandler;
  lg_pc : auth_pc;
  lg_requests : list string;               (* requests made, newest first *)
  lg_submits : gmap nat submit_pc;
  lg_verdicts : gmap nat (option gerr);    (* result channels not yet read *)
  lg_resends : gmap nat resend_pc;
  lg_mirror : string;                      (* the status the registry shows *)
}.

Inductive event :=
| EHandle (td : string → option gerr) (st : authState)   (* go-tdlib calls the handler *)
| ETake                                                   (* the handler receives a value *)
| ECanceled                                               (* the handler sees the cancel *)
| EVerdict (r : option gerr)                              (* TDLib answers the check *)
| EClient                                                 (* go-tdlib hands the client over *)
| EDone                                                   (* the goroutine ends *)
| EWrite (ok : bool)                                      (* the registry takes a status, or does not *)
| ESubmit (i : nat) (k : input) (value : string)          (* a submit checks the status *)
| EArm (i : nat) | ESend (i : nat) | ERead (i : nat) | ETimeout (i : nat)
| EAbort
| EResend (i : nat)                                       (* a resend checks the status *)
| EAsk (i : nat)                                          (* it looks for the client, and asks *)
| EResent (i : nat) (r : option gerr).                    (* Telegram answers *)

Definition with_live f l := mkLogin (f (lg_live l)) (lg_handler l) (lg_pc l) (lg_requests l) (lg_submits l) (lg_verdicts l) (lg_resends l) (lg_mirror l).
Definition set_submit i p l :=
  mkLogin (lg_live l) (lg_handler l) (lg_pc l) (lg_requests l) (<[i := p]> (lg_submits l)) (lg_verdicts l)
    (lg_resends l) (lg_mirror l).
Definition set_pc pc l := mkLogin (lg_live l) (lg_handler l) pc (lg_requests l) (lg_submits l) (lg_verdicts l)
  (lg_resends l) (lg_mirror l).
Definition set_resend i p l := mkLogin (lg_live l) (lg_handler l) (lg_pc l) (lg_requests l) (lg_submits l) (lg_verdicts l)
  (<[i := p]> (lg_resends l)) (lg_mirror l).
Definition add_requests reqs l := mkLogin (lg_live l) (lg_handler l) (lg_pc l) (reqs ++ lg_requests l) (lg_submits l)
  (lg_verdicts l) (lg_resends l) (lg_mirror l).
Definition set_handler h l := mkLogin (lg_live l) h (lg_pc l) (lg_requests l) (lg_submits l) (lg_verdicts l)
  (lg_resends l) (lg_mirror l).
Definition set_verdicts f l := mkLogin (lg_live l) (lg_handler l) (lg_pc l) (lg_requests l) (lg_submits l) (f (lg_verdicts l))
  (lg_resends l) (lg_mirror l).
Definition set_mirror m l := mkLogin (lg_live l) (lg_handler l) (lg_pc l) (lg_requests l) (lg_submits l) (lg_verdicts l)
  (lg_resends l) m.

Definition chan (k : input) (s : live) : option string :=
  match k with Code => lv_code s | Password => lv_password s end.
Definition set_chan (k : input) (v : option string) (s : live) : live :=
  match k with
  | Code => l_set_inputs v (lv_password s) s
  | Password => l_set_inputs (lv_code s) v s
  end.

(** A failed login
    [internal/session/manager.go:921-930#CreateUser]. *)
Definition login_failed (e : gerr) (l : login) : login :=
  set_pc (Finished false) (with_live (failLogin e) l).

(** The steps; an event that is not possible leaves the login as it is. The
    authorizer's side is [Handle] and the rest of [await]
    [internal/session/authorizer.go:129-148#await]. *)
Definition auth_step (l : login) (e : event) : login :=
  match e, lg_pc l with
  | EHandle td st, InLoop =>
      let '(r, h, s, reqs) := Handle td st (lg_handler l) (lg_live l) in
      let l := add_requests (rev reqs) (set_handler h (with_live (λ _, s) l)) in
      match r with
      | Returns None => l
      | Returns (Some e) => login_failed e l
      | Awaits k => set_pc (Waiting k) l
      end
  | ETake, Waiting k =>
      match chan k (lg_live l) with
      | Some v => set_pc (Checking k v) (with_live (set_chan k None) l)
      | None => l
      end
  | ECanceled, Waiting k => if lv_canceled (lg_live l) then login_failed errLoginCanceled l else l
  | EVerdict r, Checking k v =>
      let '(to, s) := reportAttempt r (lg_live l) in
      set_verdicts (match to with Some i => <[i := r]> | None => id end) (set_pc InLoop (with_live (λ _, s) l))
  | EClient, InLoop =>
      set_pc (Finished true) (with_live setClient l)
  | EDone, Finished _ => with_live (l_set_done (Some true)) l
  | _, _ => l
  end.

(** A submit's side, up to what its caller is told
    [internal/session/manager.go#submit]. *)
Definition submit_step (l : login) (e : event) : login :=
  match e with
  | ESubmit i k v =>
      match lg_submits l !! i with
      | Some _ => l
      | None =>
          if String.eqb (lv_status (lg_live l)) (input_status k) then set_submit i (SChecked k v) l
          else set_submit i (SGot (Err ("session is " +:+ lv_status (lg_live l) +:+ ", not " +:+ input_status k))) l
      end
  | EArm i =>
      match lg_submits l !! i with
      | Some (SChecked k v) => set_submit i (SArmed k v) (with_live (armAttempt i) l)
      | _ => l
      end
  | ESend i =>
      match lg_submits l !! i with
      | Some (SArmed k v) =>
          match chan k (lg_live l) with
          | None => set_submit i (SSent k v) (with_live (set_chan k (Some v)) l)
          | Some _ => set_submit i (SGot (Err "login is not accepting input right now")) l
          end
      | _ => l
      end
  | ERead i =>
      match lg_submits l !! i, lg_verdicts l !! i with
      | Some (SSent _ _), Some r =>
          set_verdicts (delete i) (set_submit i (SGot (Ok r)) l)
      | _, _ => l
      end
  | ETimeout i =>
      match lg_submits l !! i with
      | Some (SSent _ _) => set_submit i (SGot (Err "timed out waiting for Telegram")) l
      | _ => l
      end
  | EAbort => with_live (λ s, (abortLogin s).2) l
  | _ => l
  end.

(** A resend's side; the requests it makes come in between the login's own
    [internal/session/manager.go#ResendCode]. *)
Definition resend_step (l : login) (e : event) : login :=
  match e with
  | EResend i =>
      match lg_resends l !! i with
      | Some _ => l
      | None =>
          if String.eqb (lv_status (lg_live l)) "awaiting_code" then set_resend i RChecked l
          else set_resend i (RRefused ("session is " +:+ lv_status (lg_live l) +:+ ", not awaiting_code")) l
      end
  | EAsk i =>
      match lg_resends l !! i with
      | Some RChecked =>
          if lv_client (lg_live l) then add_requests ["resendAuthenticationCode"] (set_resend i RAsked l)
          else set_resend i (RRefused "login is not ready for a resend") l
      | _ => l
      end
  | EResent i r =>
      match lg_resends l !! i with
      | Some RAsked => set_resend i (RGot r) (match r with Some e => with_live (setLastErr e) l | None => l end)
      | _ => l
      end
  | _ => l
  end.

(** The mirror: the registry takes the status, or the failure is only logged
    [internal/session/manager.go:72-76#newLiveSession]. *)
Definition persist (ok : bool) (l : login) : login :=
  match lv_write (lg_live l) with
  | Some st => with_live (l_set_write None) (if ok then set_mirror st l else l)
  | None => l
  end.

(** The login's goroutine does not go on while it writes a status. *)
Definition lstep (l : login) (e : event) : login :=
  match e with
  | EHandle _ _ | ETake | ECanceled | EVerdict _ | EClient | EDone =>
      if lv_write (lg_live l) then l else auth_step l e
  | EWrite ok => persist ok l
  | EResend _ | EAsk _ | EResent _ _ => resend_step l e
  | _ => submit_step l e
  end.

(** A user's login as created [internal/session/manager.go:911-919#CreateUser]. *)
Definition new_login (proxy : bool) : login :=
  mkLogin (newLiveSession true) (mkHandler proxy "" false false) InLoop [] ∅ ∅ ∅ "connecting".

(** ** Theorems *)

Definition made (x : string) (l : login) : nat := length (filter (λ r, r = x) (lg_requests l)).
Definition code_sends : login → nat := made "setAuthenticationPhoneNumber".
Definition code_resends : login → nat := made "resendAuthenticationCode".

(** The resend came to ask Telegram. *)
Definition asked (p : resend_pc) : bool := match p with RAsked | RGot _ => true | _ => false end.

Definition unfinished : list string := ["connecting"; "awaiting_code"; "awaiting_password"].

Definition pc_ok (pc : auth_pc) (s : live) : Prop :=
  match pc with
  | InLoop => lv_status s ∈ unfinished
  | Waiting k | Checking k _ => lv_status s = input_status k ∧ lv_client s = true ∧ lv_logging s = true
  | Finished true => lv_status s = "authorized" ∧ lv_client s = true ∧ lv_logging s = false
  | Finished false => lv_status s = "error" ∧ lv_client s = false ∧ lv_logging s = false
  end.

Record linv (l : login) : Prop := mkLinv {
  li_handler : ah_bot (lg_handler l) = "" ∧ ah_rehydrate (lg_handler l) = false;
  li_sends : (code_sends l <= if ah_phoneSent (lg_handler l) then 1 else 0)%nat;
  li_pc : pc_ok (lg_pc l) (lg_live l);
}.

Lemma setStatus_fields st s :
  lv_status (setStatus st s) = st ∧ lv_client (setStatus st s) = lv_client s ∧
  lv_logging (setStatus st s) = lv_logging s.
Proof. unfold setStatus. destruct (String.eqb_spec (lv_status s) st) as [->|]; by repeat split. Qed.

Lemma input_unfinished k : input_status k ∈ unfinished.
Proof. destruct k; [right; left|do 2 right; left]. Qed.

Lemma not_unfinished st : st = "authorized" ∨ st = "error" → st ∉ unfinished.
Proof.
  unfold unfinished. intros H Hu.
  repeat (apply elem_of_cons in Hu as [?|Hu]; [by destruct H; subst|]). by apply not_elem_of_nil in Hu.
Qed.

Lemma failed_ok e l : lv_status (lg_live l) ∈ unfinished → pc_ok (Finished false) (lg_live (login_failed e l)).
Proof.
  intros Hu. simpl. unfold failLogin. simpl.
  destruct (String.eqb_spec (lv_status (lg_live l)) "authorized") as [E|_]; [by destruct (not_unfinished _ (or_introl E))|].
  destruct (setStatus_fields "error" (l_set_last (error_text quote e)
    (l_set_client false false (l_set_err (Some e) (lg_live l))))) as (->&H1&H2).
  by rewrite H1, H2.
Qed.

Lemma linv_handle td st l : lg_pc l = InLoop → linv l → linv (auth_step l (EHandle td st)).
Proof.
  intros Epc [[H1 H1'] H2 H4]. rewrite Epc in H4. simpl in H4. unfold auth_step. rewrite Epc.
  set (made_at s h reqs := add_requests (rev reqs) (set_handler h (with_live (λ _, s) l))).
  assert (Hfail : ∀ e s h reqs, lv_status s ∈ unfinished → ah_bot h = "" → ah_rehydrate h = false →
    (length (filter (λ r, r = "setAuthenticationPhoneNumber") (rev reqs ++ lg_requests l))
       <= if ah_phoneSent h then 1 else 0)%nat →
    linv (login_failed e (made_at s h reqs))).
  { intros e s h reqs Hs Hb Hre Hc. pose proof (failed_ok e (made_at s h reqs) Hs) as F. by constructor. }
  assert (Hok : ∀ s h reqs, lv_status s ∈ unfinished → ah_bot h = "" → ah_rehydrate h = false →
    (length (filter (λ r, r = "setAuthenticationPhoneNumber") (rev reqs ++ lg_requests l))
       <= if ah_phoneSent h then 1 else 0)%nat →
    linv (made_at s h reqs)).
  { intros; constructor; [done..|]. cbn. by rewrite Epc. }
  unfold code_sends, made in H2. destruct st; unfold Handle, fatal; rewrite ?H1, ?H1'; cbn [String.eqb negb].
  - destruct (td "setTdlibParameters"); [by apply Hfail|]. destruct (ah_proxy _); [|by apply Hok].
    destruct (td "addProxy"); [by apply Hfail|by apply Hok].
  - destruct (ah_phoneSent (lg_handler l)) eqn:Ep.
    + apply Hfail; try done. by rewrite Ep.
    + assert (Hc : (length (filter (λ r, r = "setAuthenticationPhoneNumber")
        (rev ["setAuthenticationPhoneNumber"] ++ lg_requests l)) <= 1)%nat).
      { cbn [rev app]. rewrite filter_cons_True by done. cbn [length]. lia. }
      destruct (td "setAuthenticationPhoneNumber"); [apply Hfail|apply Hok]; done.
  - destruct (setStatus_fields (input_status Code) (beginLogin (setCodeInfo info (lg_live l)))) as (S1&S2&S3).
    constructor; [done|exact H2|]. simpl. unfold await_enter. by rewrite S1, S2, S3.
  - destruct (setStatus_fields (input_status Password) (beginLogin (lg_live l))) as (S1&S2&S3).
    constructor; [done|exact H2|]. simpl. unfold await_enter. by rewrite S1, S2, S3.
  - by apply Hok.
  - by apply Hok.
  - by apply Hfail.
Qed.

Lemma linv_auth l e : linv l → linv (auth_step l e).
Proof.
  intros Hi. destruct (lg_pc l) as [|k|k v|ok] eqn:Epc; destruct e as [td st| | |r| | |ok'|i k' v'|i|i|i|i| |i|i|i r];
    try exact Hi; try (unfold auth_step; rewrite Epc; exact Hi); [by apply linv_handle|unfold auth_step; rewrite Epc..].
  - destruct Hi as [H1 H2 H4]. constructor; [done..|]. cbn. unfold setClient.
    destruct (setStatus_fields "authorized" (l_set_client true false (lg_live l))) as (S1&S2&S3). by rewrite S1, S2, S3.
  - destruct (chan k (lg_live l)); [|done]. destruct Hi as [H1 H2 H4]. rewrite Epc in H4. destruct k; by constructor.
  - destruct (lv_canceled _); [|done]. destruct Hi as [H1 H2 H4]. rewrite Epc in H4. destruct H4 as [Hs _].
    pose proof (failed_ok errLoginCanceled l) as F. rewrite Hs in F. constructor; [done..|]. apply F, input_unfinished.
  - destruct Hi as [H1 H2 H4]. rewrite Epc in H4. destruct H4 as [Hs _].
    constructor; [done..|]. destruct r; simpl; rewrite Hs; apply input_unfinished.
  - destruct Hi as [H1 H2 H4]. rewrite Epc in H4. constructor; [done..|]. simpl. by rewrite Epc.
Qed.

(** What leaves the login's own side alone. *)
Lemma linv_same l l' :
  linv l → lg_handler l' = lg_handler l → code_sends l' = code_sends l → lg_pc l' = lg_pc l →
  lv_status (lg_live l') = lv_status (lg_live l) → lv_client (lg_live l') = lv_client (lg_live l) →
  lv_logging (lg_live l') = lv_logging (lg_live l) → linv l'.
Proof.
  intros [H1 H2 H4] Eh Es Ep E1 E2 E3. constructor; rewrite ?Eh, ?Es; [done..|]. rewrite Ep.
  destruct (lg_pc l) as [| | |[]]; simpl in *; congruence.
Qed.

Lemma linv_step l e : linv l → linv (lstep l e).
Proof.
  intros Hi. assert (Ha : linv (if lv_write (lg_live l) then l else auth_step l e))
    by (destruct (lv_write _); [done|by apply linv_auth]).
  destruct e as [td st| | |r| | |ok|i k v|i|i|i|i| |i|i|i r]; cbn [lstep]; try exact Ha; clear Ha.
  - unfold persist. destruct (lv_write _); [|done]. by destruct ok; apply (linv_same l).
  - unfold submit_step. destruct (lg_submits l !! i); [done|]. by destruct (String.eqb _ _); apply (linv_same l).
  - unfold submit_step. destruct (lg_submits l !! i) as [[]|]; try done; by apply (linv_same l).
  - unfold submit_step. destruct (lg_submits l !! i) as [[|k v| |]|]; try done.
    by destruct (chan k (lg_live l)), k; apply (linv_same l).
  - unfold submit_step. destruct (lg_submits l !! i) as [[]|]; try done.
    destruct (lg_verdicts l !! i); [|done]; by apply (linv_same l).
  - unfold submit_step. destruct (lg_submits l !! i) as [[]|]; try done; by apply (linv_same l).
  - unfold submit_step, abortLogin, with_live.
    by destruct (lv_done (lg_live l)) as [[]|]; [|destruct (lv_canceled (lg_live l))|]; apply (linv_same l).
  - unfold resend_step. destruct (lg_resends l !! i); [done|]. by destruct (String.eqb _ _); apply (linv_same l).
  - unfold resend_step. destruct (lg_resends l !! i) as [[]|]; try done. by destruct (lv_client _); apply (linv_same l).
  - unfold resend_step. destruct (lg_resends l !! i) as [[]|]; try done. by destruct r; apply (linv_same l).
Qed.

(** The requests of a call of the handler are not resends. *)
Lemma Handle_reqs td st h s : "resendAuthenticationCode" ∉ rev (Handle td st h s).2.
Proof.
  unfold Handle. destruct st; repeat case_match; simpl; rewrite ?not_elem_of_cons;
    repeat split; try done; apply not_elem_of_nil.
Qed.

Lemma auth_resends l e :
  code_resends (auth_step l e) = code_resends l ∧ lg_resends (auth_step l e) = lg_resends l.
Proof.
  unfold auth_step, code_resends, made. destruct e as [td st| | |r| | |ok|i k v|i|i|i|i| |i|i|i r], (lg_pc l) as [|k'|k' v'|ok']; try done.
  - pose proof (Handle_reqs td st (lg_handler l) (lg_live l)) as Hn.
    destruct (Handle td st (lg_handler l) (lg_live l)) as [[[r h] s] reqs]. cbn [snd] in Hn.
    assert (Hf : filter (λ r, r = "resendAuthenticationCode") (rev reqs ++ lg_requests l) =
                 filter (λ r, r = "resendAuthenticationCode") (lg_requests l)).
    { rewrite filter_app. destruct (filter _ (rev reqs)) as [|x xs] eqn:Ex; [done|]. destruct Hn.
      assert (Hx : x ∈ filter (λ r, r = "resendAuthenticationCode") (rev reqs)) by (rewrite Ex; left).
      by apply list_elem_of_filter in Hx as [-> ?]. }
    destruct r as [[e|]|k]; cbn; by rewrite Hf.
  - by destruct (chan k' (lg_live l)).
  - by destruct (lv_canceled (lg_live l)).
Qed.

Definition were_asked (m : gmap nat resend_pc) : gmap nat resend_pc := filter (λ kv, asked kv.2 = true) m.

Lemma ask_more m i p q : m !! i = Some p → asked p = false → asked q = true →
  size (were_asked (<[i := q]> m)) = S (size (were_asked m)).
Proof.
  intros Hp Hf Ht. unfold were_asked. rewrite map_filter_insert_True by done. apply map_size_insert_None.
  apply map_lookup_filter_None. right. intros x Hx. cbn. congruence.
Qed.

Lemma ask_same m i q : (∀ p, m !! i = Some p → asked p = asked q) → (m !! i = None → asked q = false) →
  size (were_asked (<[i := q]> m)) = size (were_asked m).
Proof.
  intros Hs Hn. unfold were_asked. destruct (asked q) eqn:Eq.
  - rewrite map_filter_insert_True by done. destruct (m !! i) as [p|] eqn:Em; [|by discriminate (Hn eq_refl)].
    apply map_size_insert_Some. exists p. apply map_lookup_filter_Some. split; [done|]. by apply Hs.
  - rewrite map_filter_insert_False by (cbn; congruence). f_equal. apply map_eq. intros k. apply option_eq. intros x.
    rewrite !map_lookup_filter_Some. rewrite lookup_delete_Some. cbn. split; [naive_solver|].
    intros [Hx Hax]. split; [|done]. split; [|done]. intros <-. rewrite (Hs x Hx) in Hax. congruence.
Qed.

(** As many resends were asked for as operators' requests came to ask, each an
    event of the run. *)
Lemma resends_counted l0 es :
  code_resends l0 = 0%nat → lg_resends l0 = ∅ →
  let l := foldl lstep l0 es in
  code_resends l = size (were_asked (lg_resends l)) ∧ (∀ i, is_Some (lg_resends l !! i) → EResend i ∈ es).
Proof.
  intros H0 He. induction es as [|e es IH] using rev_ind.
  { cbn. rewrite He. split; [exact H0|]. intros i. rewrite lookup_empty. by intros [? ?]. }
  rewrite foldl_snoc. set (l := foldl lstep l0 es) in *. cbn zeta in IH. destruct IH as [IH1 IH2]. clearbody l.
  assert (Hin : ∀ l', (∀ i, is_Some (lg_resends l' !! i) → is_Some (lg_resends l !! i) ∨ e = EResend i) →
    ∀ i, is_Some (lg_resends l' !! i) → EResend i ∈ es ++ [e]).
  { intros l' Hl' i [Hi| ->]%Hl'; apply elem_of_app; [left; by apply IH2|right; by apply list_elem_of_singleton]. }
  assert (Hq : code_resends (lstep l e) = code_resends l → lg_resends (lstep l e) = lg_resends l →
    code_resends (lstep l e) = size (were_asked (lg_resends (lstep l e))) ∧
    ∀ i, is_Some (lg_resends (lstep l e) !! i) → EResend i ∈ es ++ [e]).
  { intros -> E. rewrite E. split; [exact IH1|]. rewrite <- E. apply Hin. intros i. rewrite E. by left. }
  assert (Hau : lstep l e = (if lv_write (lg_live l) then l else auth_step l e) →
    code_resends (lstep l e) = code_resends l ∧ lg_resends (lstep l e) = lg_resends l).
  { intros ->. destruct (lv_write _); [done|apply auth_resends]. }
  destruct e as [td st| | |r| | |ok|i k v|i|i|i|i| |i|i|i r]; try (destruct (Hau eq_refl); by apply Hq); clear Hau.
  - apply Hq; cbn; unfold persist; by repeat case_match.
  - apply Hq; cbn; by repeat case_match.
  - apply Hq; cbn; by destruct (lg_submits l !! i) as [[]|].
  - apply Hq; cbn; destruct (lg_submits l !! i) as [[|k v| |]|]; try done; by destruct (chan k (lg_live l)).
  - apply Hq; cbn; by repeat case_match.
  - apply Hq; cbn; by destruct (lg_submits l !! i) as [[]|].
  - by apply Hq.
  - clear Hq. cbn [lstep resend_step] in *. destruct (lg_resends l !! i) eqn:Ei; [split; [done|apply Hin; by left]|].
    assert (Hset : ∀ p, asked p = false → code_resends (set_resend i p l) = size (were_asked (lg_resends (set_resend i p l))) ∧
      ∀ i0, is_Some (lg_resends (set_resend i p l) !! i0) → EResend i0 ∈ es ++ [EResend i]).
    { intros p Hp. cbn. rewrite ask_same by (by rewrite Ei). split; [exact IH1|]. apply (Hin (set_resend i p l)). cbn.
      intros k [<-|[_ ?]]%lookup_insert_is_Some; [by right|by left]. }
    destruct (String.eqb _ _); by apply Hset.
  - clear Hq. cbn [lstep resend_step] in *. destruct (lg_resends l !! i) as [[]|] eqn:Ei; try (split; [done|apply Hin; by left]).
    assert (Hi : ∀ p k, is_Some (<[i := p]> (lg_resends l) !! k) → is_Some (lg_resends l !! k) ∨ EAsk i = EResend k).
    { intros p k [<-|[_ ?]]%lookup_insert_is_Some; left; [by exists RChecked|done]. }
    destruct (lv_client _).
    + split; [|apply Hin, Hi]. cbn. unfold code_resends, made. cbn. rewrite (ask_more _ _ RChecked), <- IH1 by done. done.
    + split; [|apply Hin, Hi]. cbn. rewrite ask_same; [exact IH1|by rewrite Ei; intros ? [= <-]|by rewrite Ei].
  - clear Hq. cbn [lstep resend_step] in *. destruct (lg_resends l !! i) as [[]|] eqn:Ei; try (split; [done|apply Hin; by left]).
    split; [|apply Hin; destruct r; cbn; (intros k [<-|[_ ?]]%lookup_insert_is_Some; left; [by exists RAsked|done])].
    destruct r; cbn; (rewrite ask_same; [exact IH1|by rewrite Ei; intros ? [= <-]|by rewrite Ei]).
Qed.

(** What a step of the login does to the status: it stays, or is on its way to
    the registry. *)
Definition moved (s s' : live) : Prop :=
  lv_write s' = Some (lv_status s') ∨ lv_write s' = None ∧ lv_status s' = lv_status s.

Lemma setStatus_moved st s0 s : lv_status s = lv_status s0 → lv_write s = None → moved s0 (setStatus st s).
Proof.
  intros Es Ew. unfold setStatus, moved. destruct (String.eqb_spec (lv_status s) st); [by right|by left].
Qed.

Lemma failed_moved e s0 s : lv_status s = lv_status s0 → lv_write s = None → moved s0 (failLogin e s).
Proof.
  intros Es Ew. unfold failLogin. destruct (String.eqb _ _); [by right|]. by apply setStatus_moved.
Qed.

Lemma Handle_moved td st h s :
  lv_write s = None → let '(r, _, s', _) := Handle td st h s in
  match r with Awaits _ => moved s s' | Returns _ => lv_status s' = lv_status s ∧ lv_write s' = None end.
Proof.
  intros Ew. unfold Handle, fatal. destruct st; repeat case_match; simplify_eq; cbn; try done;
    apply setStatus_moved; first [done|by destruct info].
Qed.

Lemma auth_moved l e :
  lv_write (lg_live l) = None →
  lg_mirror (auth_step l e) = lg_mirror l ∧ moved (lg_live l) (lg_live (auth_step l e)).
Proof.
  intros Ew. assert (Hst : lg_mirror l = lg_mirror l ∧ moved (lg_live l) (lg_live l)) by (split; [done|by right]).
  unfold auth_step. destruct e as [td st| | |r| | |ok|i k v|i|i|i|i| |i|i|i r], (lg_pc l) as [|k'|k' v'|ok']; try exact Hst.
  - pose proof (Handle_moved td st (lg_handler l) (lg_live l) Ew) as H.
    destruct (Handle td st (lg_handler l) (lg_live l)) as [[[r h] s] reqs]. destruct r as [[e|]|k]; cbn.
    + split; [done|]. destruct H. by apply failed_moved.
    + split; [done|]. destruct H. by right.
    + by split.
  - destruct (chan k' (lg_live l)); [|exact Hst]. split; [done|]. by right; destruct k'.
  - destruct (lv_canceled _); [|exact Hst]. split; [done|]. by apply failed_moved.
  - split; [done|]. right. by destruct r.
  - split; [done|]. by apply setStatus_moved.
Qed.

(** Steps of submits and resends leave status and mirror alone. *)
Lemma other_moved l e :
  lstep l e = submit_step l e ∨ lstep l e = resend_step l e →
  lg_mirror (lstep l e) = lg_mirror l ∧ lg_pc (lstep l e) = lg_pc l ∧ lv_status (lg_live (lstep l e)) = lv_status (lg_live l) ∧
  lv_write (lg_live (lstep l e)) = lv_write (lg_live l).
Proof.
  intros [-> | ->]; destruct e as [td st| | |r| | |ok|i k v|i|i|i|i| |i|i|i r]; cbn; try done.
  - by repeat case_match.
  - by destruct (lg_submits l !! i) as [[]|].
  - destruct (lg_submits l !! i) as [[|k v| |]|]; try done. by destruct (chan k (lg_live l)), k.
  - by repeat case_match.
  - by destruct (lg_submits l !! i) as [[]|].
  - unfold abortLogin. by destruct (lv_done (lg_live l)) as [[]|]; [|destruct (lv_canceled (lg_live l))|].
  - by repeat case_match.
  - by repeat case_match.
  - destruct (lg_resends l !! i) as [[]|]; try done. by destruct r.
Qed.

(** The mirror lags behind, but never ahead. *)
Record minv (l : login) : Prop := mkMinv {
  mi_write : ∀ st, lv_write (lg_live l) = Some st → st = lv_status (lg_live l);
  mi_mirror : lg_mirror l ∈ unfinished ∨ lg_mirror l = lv_status (lg_live l) ∧ ∃ ok, lg_pc l = Finished ok;
}.

Definition synced (l : login) : Prop := lv_write (lg_live l) = None → lg_mirror l = lv_status (lg_live l).

Lemma auth_finished l e ok : lg_pc l = Finished ok →
  lg_pc (auth_step l e) = Finished ok ∧ lv_status (lg_live (auth_step l e)) = lv_status (lg_live l).
Proof. intros Hp. unfold auth_step. rewrite Hp. by destruct e. Qed.

Lemma minv_step l e : linv l → minv l → minv (lstep l e) ∧ (e ≠ EWrite false → synced l → synced (lstep l e)).
Proof.
  intros Hl [H1 H2]. unfold synced.
  assert (Ho : lstep l e = submit_step l e ∨ lstep l e = resend_step l e →
    minv (lstep l e) ∧ (e ≠ EWrite false → synced l → synced (lstep l e))).
  { intros (E1&E2&E3&E4)%other_moved. unfold synced. rewrite E1, E3, E4. split; [|done].
    constructor; by rewrite ?E1, ?E2, ?E3, ?E4. }
  assert (Ha : lstep l e = (if lv_write (lg_live l) then l else auth_step l e) →
    minv (lstep l e) ∧ (e ≠ EWrite false → synced l → synced (lstep l e))).
  { intros ->. destruct (lv_write (lg_live l)) eqn:Ew; [split; [constructor; by rewrite ?Ew|intros; congruence]|].
    destruct (auth_moved l e Ew) as [E1 E2]. split.
    - constructor; rewrite ?E1.
      + intros st Hst. destruct E2 as [E2|[E2 _]]; congruence.
      + destruct H2 as [H2|[H2 [ok Hok]]]; [by left|right]. destruct (auth_finished l e ok Hok) as [F1 F2].
        rewrite F2. eauto.
    - intros _ Hs Hn. rewrite E1. destruct E2 as [E2|[_ ->]]; [congruence|by apply Hs]. }
  destruct e as [td st| | |r| | |ok|i k v|i|i|i|i| |i|i|i r];
    first [exact (Ha eq_refl)|exact (Ho (or_introl eq_refl))|exact (Ho (or_intror eq_refl))|idtac].
  clear Ho Ha. cbn [lstep]. unfold persist. destruct (lv_write (lg_live l)) as [st|] eqn:Ew.
  2:{ split; [constructor; by rewrite ?Ew|]. intros _ Hs _. by apply Hs. }
  specialize (H1 st eq_refl) as ->. destruct ok; cbn; (split; [|by intros]); constructor; try done. cbn.
  destruct Hl as [_ _ Hp]. destruct (lg_pc l) as [|k|k v|ok]; cbn in Hp; [by left|left; destruct Hp as [-> _]; apply input_unfinished..|].
  right. eauto.
Qed.

Lemma login_run proxy es :
  let l := foldl lstep (new_login proxy) es in
  linv l ∧ minv l ∧ (EWrite false ∉ es → synced l).
Proof.
  induction es as [|e es IH] using rev_ind.
  { cbn. split; [|split; [|done]]; constructor; try done; left; left. }
  rewrite foldl_snoc. cbn zeta in IH. set (l := foldl lstep (new_login proxy) es) in *. destruct IH as (I1&I2&I3).
  destruct (minv_step l e I1 I2) as [M1 M2]. split; [by apply linv_step|]. split; [done|].
  intros [Hn1 Hn2]%not_elem_of_app. apply M2; [|by apply I3]. intros ->. apply Hn2. by apply list_elem_of_singleton.
Qed.

(** C20: A login is never mistaken for an account, and a code is requested at
    most once by itself. Over any interleaving of go-tdlib's calls with whatever
    states and answers TDLib gives, submits, timeouts, resends, aborts, and writes
    of the status that succeed or fail: the login asks Telegram to send a code at
    most once, and again only for an operator's resend, once for each that came
    to ask; the client is usable for calls only once go-tdlib has handed the
    finished client over; what the registry shows is never ahead of the login: it
    shows connecting, awaiting_code or awaiting_password until the login has
    finished, and exactly the login's status whenever no write is under way, if
    none has failed; and a login that fails ends in error with its client gone. *)
Theorem login_safe proxy es :
  let l := foldl lstep (new_login proxy) es in
  (code_sends l <= 1)%nat ∧
  (code_resends l = size (were_asked (lg_resends l)) ∧ ∀ i, is_Some (lg_resends l !! i) → EResend i ∈ es) ∧
  (readyClient (lg_live l) = true ↔ lg_pc l = Finished true) ∧
  (lg_mirror l ∈ unfinished ∨ lg_mirror l = lv_status (lg_live l) ∧ ∃ ok, lg_pc l = Finished ok) ∧
  (EWrite false ∉ es → lv_write (lg_live l) = None → lg_mirror l = lv_status (lg_live l)) ∧
  match lg_pc l with
  | InLoop => lv_status (lg_live l) ∈ unfinished
  | Waiting k | Checking k _ => lv_status (lg_live l) = input_status k ∧ lv_client (lg_live l) = true
  | Finished ok => lv_status (lg_live l) = (if ok then "authorized" else "error") ∧ lv_client (lg_live l) = ok
  end.
Proof.
  intros l. destruct (login_run proxy es) as ([H1 H2 H4]&[_ H3]&Hs). fold l in H1, H2, H3, H4, Hs.
  split; [destruct (ah_phoneSent _); lia|]. split; [by apply resends_counted|]. split; [|split; [done|split; [done|]]].
  - unfold readyClient. destruct (lg_pc l) as [|k|k v|[]]; simpl in H4.
    + assert (Hne : String.eqb (lv_status (lg_live l)) "authorized" = false).
      { apply String.eqb_neq. intros E. by destruct (not_unfinished _ (or_introl E)). }
      rewrite Hne, orb_true_r. done.
    + by destruct H4 as (_&_&->).
    + by destruct H4 as (_&_&->).
    + by destruct H4 as (->&->&->).
    + by destruct H4 as (->&->&->).
  - destruct (lg_pc l) as [|k|k v|[]]; simpl in H4; naive_solver.
Qed.

(** One round: a value submitted, checked, and answered. *)
Definition round (i : nat) (k : input) (v : string) (r : option gerr) : list event :=
  [ESubmit i k v; EArm i; ESend i; ETake; EVerdict r; ERead i].

(** The state a checked value leaves behind. *)
Definition after_verdict (r : option gerr) (s : live) : live :=
  let s' := l_set_attempt None s in
  match r with Some e => l_set_last (error_text quote e) s' | None => s' end.

Lemma step_submit l i k v :
  lv_status (lg_live l) = input_status k → lg_submits l !! i = None →
  lstep l (ESubmit i k v) = set_submit i (SChecked k v) l.
Proof. intros Hs Hi. cbn [lstep submit_step]. by rewrite Hi, Hs, String.eqb_refl. Qed.

Lemma step_arm l i k v :
  lg_submits l !! i = Some (SChecked k v) →
  lstep l (EArm i) = set_submit i (SArmed k v) (with_live (armAttempt i) l).
Proof. intros Hi. cbn [lstep submit_step]. by rewrite Hi. Qed.

Lemma step_send l i k v :
  lg_submits l !! i = Some (SArmed k v) → chan k (lg_live l) = None →
  lstep l (ESend i) = set_submit i (SSent k v) (with_live (set_chan k (Some v)) l).
Proof. intros Hi Hc. cbn [lstep submit_step]. by rewrite Hi, Hc. Qed.

Lemma step_take l k v :
  lg_pc l = Waiting k → lv_write (lg_live l) = None → chan k (lg_live l) = Some v →
  lstep l ETake = set_pc (Checking k v) (with_live (set_chan k None) l).
Proof. intros Hp Hw Hc. cbn [lstep auth_step]. by rewrite Hp, Hw, Hc. Qed.

Lemma step_verdict l k v i r :
  lg_pc l = Checking k v → lv_write (lg_live l) = None → lv_attempt (lg_live l) = Some i →
  lstep l (EVerdict r) = mkLogin (after_verdict r (lg_live l)) (lg_handler l) InLoop (lg_requests l)
    (lg_submits l) (<[i := r]> (lg_verdicts l)) (lg_resends l) (lg_mirror l).
Proof. intros Hp Hw Ha. cbn [lstep auth_step reportAttempt]. by rewrite Hp, Hw, Ha. Qed.

Lemma step_read l i k v r :
  lg_submits l !! i = Some (SSent k v) → lg_verdicts l !! i = Some r →
  lstep l (ERead i) = mkLogin (lg_live l) (lg_handler l) (lg_pc l) (lg_requests l)
    (<[i := SGot (Ok r)]> (lg_submits l)) (delete i (lg_verdicts l)) (lg_resends l) (lg_mirror l).
Proof. intros Hi Hv. cbn [lstep submit_step]. by rewrite Hi, Hv. Qed.

(** A round run alone. *)
Lemma round_runs l i k v r :
  lg_pc l = Waiting k → lv_write (lg_live l) = None → lv_status (lg_live l) = input_status k →
  chan k (lg_live l) = None → lg_submits l !! i = None →
  ∃ sub ver, foldl lstep l (round i k v r) =
    mkLogin (after_verdict r (set_chan k None (set_chan k (Some v) (armAttempt i (lg_live l)))))
      (lg_handler l) InLoop (lg_requests l) (<[i := SGot (Ok r)]> sub) ver (lg_resends l) (lg_mirror l).
Proof.
  intros Hpc Hw Hst Hch Hi. unfold round. cbn [foldl].
  erewrite step_submit by done. erewrite step_arm by apply lookup_insert_eq.
  erewrite step_send; [|apply lookup_insert_eq|by destruct k].
  erewrite step_take; [|exact Hpc|by destruct k|by destruct k].
  erewrite step_verdict; [|done|by destruct k|by destruct k].
  erewrite step_read by apply lookup_insert_eq. eauto.
Qed.

Definition same_state (k : input) : authState := match k with Code => WaitCode None | Password => WaitPassword end.

(** A wrong code or password costs nothing. When a login waits for input
    and one value is submitted, its submitter is told TDLib's own verdict on
    that value. On a rejection the error is kept for status reads, the client
    stays, no request but the check was made, and when TDLib asks again the
    login waits again in the same status, ready for another value. *)
Theorem wrong_input_is_cheap l i k v r :
  lg_pc l = Waiting k → lv_write (lg_live l) = None → lv_status (lg_live l) = input_status k →
  chan k (lg_live l) = None → lg_submits l !! i = None →
  let l1 := foldl lstep l (round i k v r) in
  lg_submits l1 !! i = Some (SGot (Ok r)) ∧ lg_pc l1 = InLoop ∧ lg_requests l1 = lg_requests l ∧
  lv_status (lg_live l1) = input_status k ∧ lv_client (lg_live l1) = lv_client (lg_live l) ∧
  lv_lastErr (lg_live l1) = (match r with Some e => error_text quote e | None => "" end) ∧
  (∀ td, ah_rehydrate (lg_handler l) = false →
     let l2 := lstep l1 (EHandle td (same_state k)) in
     lg_pc l2 = Waiting k ∧ lg_requests l2 = lg_requests l ∧ lv_status (lg_live l2) = input_status k ∧
     chan k (lg_live l2) = None ∧ lv_lastErr (lg_live l2) = lv_lastErr (lg_live l1)).
Proof.
  intros Hpc Hw Hst Hch Hi. destruct (round_runs l i k v r Hpc Hw Hst Hch Hi) as (sub&ver&E). cbv zeta. rewrite E.
  set (s1 := after_verdict r _). cbn [lg_submits lg_pc lg_requests lg_live lg_handler].
  assert (Hs1 : lv_status s1 = input_status k ∧ lv_client s1 = lv_client (lg_live l) ∧ chan k s1 = None ∧
    lv_lastErr s1 = (match r with Some e => error_text quote e | None => "" end) ∧ lv_write s1 = None)
    by (unfold s1; destruct r, k; by repeat split).
  destruct Hs1 as (Hs&Hc&Hk&Hl&Hw1). clearbody s1. split; [by rewrite lookup_insert_eq|].
  repeat (split; [done|]). intros td Hre.
  assert (Hx : lstep (mkLogin s1 (lg_handler l) InLoop (lg_requests l) (<[i:=SGot (Ok r)]> sub) ver (lg_resends l) (lg_mirror l))
      (EHandle td (same_state k)) = set_pc (Waiting k)
        (mkLogin (await_enter k s1) (lg_handler l) InLoop (lg_requests l) (<[i:=SGot (Ok r)]> sub) ver (lg_resends l) (lg_mirror l))).
  { cbn [lstep auth_step lg_pc lg_handler lg_live]. rewrite Hw1. destruct k; cbn [same_state Handle]; by rewrite Hre. }
  rewrite Hx. cbn [set_pc lg_pc lg_requests lg_live]. unfold await_enter, setStatus, beginLogin.
  cbn [lv_status l_set_client]. rewrite Hs, String.eqb_refl. repeat (split; [done|]). by destruct k.
Qed.
End texts.

Definition no_answer : string → option gerr := λ _, None.
Definition to_code : list event :=
  [EHandle no_answer WaitParameters; EHandle no_answer WaitPhone; EHandle no_answer (WaitCode None); EWrite true].
Definition ex_waiting : login := foldl (lstep (λ s, s)) (new_login false) to_code.

Lemma wrong_input_is_cheap_witness :
  let r := Some (ETd (mkTdError 400 "PHONE_CODE_INVALID")) in
  let l1 := foldl (lstep (λ s, s)) ex_waiting (round 1 Code "11111" r) in
  lg_submits l1 !! 1%nat = Some (SGot (Ok r)) ∧ lg_pc l1 = InLoop ∧ lg_requests l1 = lg_requests ex_waiting ∧
  lv_status (lg_live l1) = input_status Code ∧ lv_client (lg_live l1) = lv_client (lg_live ex_waiting) ∧
  lv_lastErr (lg_live l1) = error_text (λ s, s) (ETd (mkTdError 400 "PHONE_CODE_INVALID")) ∧
  (∀ td, ah_rehydrate (lg_handler ex_waiting) = false →
     let l2 := lstep (λ s, s) l1 (EHandle td (same_state Code)) in
     lg_pc l2 = Waiting Code ∧ lg_requests l2 = lg_requests ex_waiting ∧ lv_status (lg_live l2) = input_status Code ∧
     chan Code (lg_live l2) = None ∧ lv_lastErr (lg_live l2) = lv_lastErr (lg_live l1)).
Proof.
  apply (wrong_input_is_cheap (λ s, s) ex_waiting 1 Code "11111"
           (Some (ETd (mkTdError 400 "PHONE_CODE_INVALID")))); reflexivity.
Defined.

(** The write that shows that a code is awaited is lost: TDLib asks again after
    a wrong code, but the same status is not written again, and the registry
    shows connecting as long as the login waits. *)
Example awaiting_not_shown :
  let l := foldl (lstep (λ s, s)) (new_login false)
    ([EHandle no_answer WaitParameters; EHandle no_answer WaitPhone; EHandle no_answer (WaitCode None); EWrite false] ++
     round 1 Code "11111" (Some (ETd (mkTdError 400 "PHONE_CODE_INVALID"))) ++
     [EHandle no_answer (WaitCode None); EWrite true]) in
  lg_pc l = Waiting Code ∧ lv_status (lg_live l) = "awaiting_code" ∧ lg_mirror l = "connecting".
Proof. vm_compute. done. Qed.

(** A code asked for again, twice; the second resend is refused by Telegram. *)
Example code_resent :
  let l := foldl (lstep (λ s, s)) ex_waiting
    [EResend 1; EAsk 1; EResent 1 None; EResend 2; EAsk 2; EResent 2 (Some (ETd (mkTdError 400 "TOO_SOON")))] in
  (code_sends l, code_resends l) = (1, 2)%nat ∧ lg_pc l = Waiting Code ∧ lv_status (lg_live l) = "awaiting_code".
Proof. vm_compute. done. Qed.

(** Two submits that overlap: the second arms its channel while the first's
    value is still being checked, so it is told the verdict on a value that is
    not its own (its own, the right one, is still queued), and the first hears
    nothing and times out. *)
Example verdict_stolen :
  let bad := Some (ETd (mkTdError 400 "PHONE_CODE_INVALID")) in
  let l := foldl (lstep (λ s, s)) ex_waiting
    [ESubmit 1 Code "11111"; EArm 1; ESend 1; ETake;
     ESubmit 2 Code "22222"; EArm 2; ESend 2; EVerdict bad; ERead 1; ERead 2; ETimeout 1] in
  lg_submits l !! 2%nat = Some (SGot (Ok bad)) ∧
  lg_submits l !! 1%nat = Some (SGot (Err "timed out waiting for Telegram")) ∧
  lv_code (lg_live l) = Some "22222".
Proof. vm_compute. done. Qed.
