(* ===== verification/Worker.v ===== *)
(** A worker's life (internal/session/manager.go): reopening sessions from
    disk, the reconciler that converges ownership with the registry, shedding,
    and the graceful shutdown. Code runs in a state monad over what the worker
    holds and the registry. Three oracles, indexed by the number of questions
    so far, decide the rest: the clock, whether the registry answers, and what
    TDLib says to opening a directory. *)

From S2P Require Import Prelude GoStr Json Types Sha256 Gcm Secret Db Registry Guard Subs Login.


(** ** State *)

(** What the live map holds for a session. *)
Record held := mkHeld {
  hd_kind : string;
  hd_live : Login.live;
  hd_subs : option subSnapshot;
  hd_guard : guard;
}.

(** What happened to TDLib clients and ownership, a ghost record; an entry may
    carry the registry as it was then. *)
Inductive life :=
| Opened (sid : string)            (* a client was started on the session's directory *)
| Closed (sid : string) (d : db)   (* a client was asked to close *)
| Aborted (sid : string) (d : db)  (* a shutdown told a waiting login to unwind *)
| Released (sid : string).         (* the session's ownership was cleared *)

(** The parts of the Manager this file changes, and the registry
    [internal/session/manager.go#Manager]. *)
Record node := mkNode {
  nd_tick : nat;
  nd_held : gmap string held;
  nd_retry : gmap string Z;
  nd_stopping : bool;
  nd_db : db;
  nd_log : list life;        (* newest first *)
}.

(** [internal/session/manager.go:340-340#workerStale] *)
Definition workerStale : Z := 30 * second.
(** [internal/session/manager.go:343-343#shedPerTick] *)
Definition shedPerTick : Z := 2.
(** [internal/session/manager.go:342-342#claimBatch] *)
Definition claimBatch : Z := 8.
(** [internal/session/manager.go:344-344#openBackoff] *)
Definition openBackoff : Z := 20 * second.
(** [internal/session/manager.go:345-345#staleLoginGrace] *)
Definition staleLoginGrace : Z := 2 * minute.

Definition n_set_tick t w := mkNode t (nd_held w) (nd_retry w) (nd_stopping w) (nd_db w) (nd_log w).
Definition n_set_held f w := mkNode (nd_tick w) (f (nd_held w)) (nd_retry w) (nd_stopping w) (nd_db w) (nd_log w).
Definition n_set_retry f w := mkNode (nd_tick w) (nd_held w) (f (nd_retry w)) (nd_stopping w) (nd_db w) (nd_log w).
Definition n_set_stopping b w := mkNode (nd_tick w) (nd_held w) (nd_retry w) b (nd_db w) (nd_log w).
Definition n_set_db f w := mkNode (nd_tick w) (nd_held w) (nd_retry w) (nd_stopping w) (f (nd_db w)) (nd_log w).
Definition n_log e w := mkNode (nd_tick w) (nd_held w) (nd_retry w) (nd_stopping w) (nd_db w) (e :: nd_log w).
Definition n_close sid w := n_log (Closed sid (nd_db w)) w.
Definition n_abort sid w := n_log (Aborted sid (nd_db w)) w.

(** ** The monad *)

Definition N (A : Type) : Type := node → A * node.
Definition nret {A} (a : A) : N A := λ w, (a, w).
Definition nbind {A B} (c : N A) (f : A → N B) : N B := λ w, let r := c w in f r.1 r.2.
Notation "'let+' x := c1 'in' c2" := (nbind c1 (λ x, c2))
  (at level 10, x pattern, c1 at level 100, c2 at level 200) : tg_scope.
Definition nget : N node := λ w, (w, w).
Definition nupd (f : node → node) : N () := λ w, ((), f w).
Definition nask {A} (oracle : nat → A) : N A := λ w, (oracle (nd_tick w), n_set_tick (S (nd_tick w)) w).

(** A loop over a list. *)
Fixpoint neach {A} (f : A → N ()) (l : list A) : N () :=
  match l with
  | [] => nret ()
  | a :: l => let+ _ := f a in neach f l
  end.

(** A TDLib proxy. *)
Inductive ProxyType :=
| ProxyTypeSocks5 (username password : string)
| ProxyTypeHttp (username password : string)
| ProxyTypeMtproto (secret : string).
Record AddProxyRequest := mkAddProxy {
  xr_server : string; xr_port : Z; xr_type : ProxyType; xr_enable : bool;
}.

(** The parameters a client is started with
    [internal/session/manager.go#buildParams]. *)
Record tdParams := mkTdParams {
  tp_db_dir : string; tp_files_dir : string; tp_key : string;
  tp_file_db : bool; tp_chat_db : bool; tp_message_db : bool; tp_secret_chats : bool;
  tp_api_id : Z; tp_api_hash : string;
}.

Section worker.
Context (clock : nat → Z) (up : nat → bool).
(** [client.NewClient] with an authorizer that may only reopen: its error. *)
Context (opens : nat → tdParams → option AddProxyRequest → option gerr).
(** The order a walk of the live map visits its keys in. *)
Context (order : nat → list string → list string).
(** The [%q] verb. *)
Context (quote : string → string).
Context (box : Box) (workerID selfAddr : string) (capacity : Z).

(** A statement: its result, or nothing when the registry does not answer. *)
Definition stmt {A} (f : Z → db → A * db) : N (option A) :=
  let+ ok := nask up in
  let+ now := nask clock in
  if ok : bool then λ w, let r := f now (nd_db w) in (Some r.1, n_set_db (λ _, r.2) w)
  else nret None.

(** A read that may fail. *)
Definition read {A} (f : db → res dberr A) : N (res gerr A) :=
  let+ r := stmt (λ _ d, (f d, d)) in
  nret (match r with Some (Ok a) => Ok a | _ => Err (EMsg "database") end).

(** [internal/session/manager.go:671-688#buildParams] *)
Definition buildParams (dbDir dbKey : string) (apiID : Z) (apiHash : string) : tdParams :=
  mkTdParams (path_join dbDir "db") (path_join dbDir "files") dbKey true true false false apiID apiHash.

Definition decrypt (ct : string) : res gerr string :=
  match Decrypt box ct with Ok p => Ok p | Err e => Err (EMsg e) end.

(** [internal/session/manager.go#proxyRequest] *)
Definition proxyRequest (proxyID : string) : N (res gerr (option AddProxyRequest)) :=
  if String.eqb proxyID "" then nret (Ok None)
  else
    let+ r := read (GetProxy proxyID) in
    match r with
    | Err e => nret (Err e)
    | Ok p =>
        match (match Px_SecretEnc p with
               | Some ct => if String.eqb ct "" then Ok "" else decrypt ct
               | None => Ok ""
               end) with
        | Err e => nret (Err e)
        | Ok sec =>
            let ok t := nret (Ok (Some (mkAddProxy (Px_Host p) (Px_Port p) t true))) in
            if String.eqb (Px_Type p) "socks5" then ok (ProxyTypeSocks5 (Px_Username p) sec)
            else if String.eqb (Px_Type p) "http" then ok (ProxyTypeHttp (Px_Username p) sec)
            else if String.eqb (Px_Type p) "mtproto" then ok (ProxyTypeMtproto sec)
            else nret (Err (EMsg ("unknown proxy type " +:+ quote (Px_Type p))))
        end
    end.

(** [internal/session/manager.go#put] *)
Definition put (sid : string) (h : held) : N () := nupd (n_set_held <[sid := h]>).
(** [internal/session/manager.go#delete] *)
Definition drop (sid : string) : N () := nupd (n_set_held (delete sid)).
(** [internal/session/manager.go#clearRetry] *)
Definition clearRetry (sid : string) : N () := nupd (n_set_retry (delete sid)).
(** [internal/session/manager.go#backoff] *)
Definition backoff (sid : string) : N () :=
  let+ now := nask clock in nupd (n_set_retry <[sid := (now + openBackoff)%Z]>).
(** [internal/session/manager.go#retryReady] *)
Definition retryReady (sid : string) : N bool :=
  let+ now := nask clock in
  let+ w := nget in
  nret (match nd_retry w !! sid with Some t => (t <? now)%Z | None => true end).

Definition h_set_live s h := mkHeld (hd_kind h) s (hd_subs h) (hd_guard h).
Definition h_set_subs s h := mkHeld (hd_kind h) (hd_live h) s (hd_guard h).
Definition h_set_guard g h := mkHeld (hd_kind h) (hd_live h) (hd_subs h) g.

Definition new_held (kind : string) : held := mkHeld kind (newLiveSession false) None new_guard.

(** Reloads one held session's subscriptions
    [internal/session/subs.go#RefreshSubscriptions]. *)
Definition RefreshSubscriptions (sid : string) : N () :=
  let+ w := nget in
  if has sid (nd_held w) then
    let+ fs := stmt (λ _ d, (SubscriptionFilters [sid] d, d)) in
    match fs with
    | None => nret ()
    | Some fs => nupd (n_set_held (alter (h_set_subs (newSnapshot fs)) sid))
    end
  else nret ().

(** [errors.Is(err, errRehydrateExpired)]: the sentinel is told by its text. *)
Fixpoint is_expired (e : gerr) : bool :=
  match e with
  | EMsg m => String.eqb m "session not authorized in binlog (needs re-login)"
  | EWrap _ e => is_expired e
  | _ => false
  end.

(** The end of a failed attempt: the half-live entry goes, so that a later pass
    can retry [internal/session/manager.go:759-773#rehydrateOne]. *)
Definition open_failed (sid : string) (e : gerr) : N () :=
  let+ _ := drop sid in
  if is_expired e then
    let+ _ := clearRetry sid in
    let+ _ := stmt (λ now d, ((), UpdateSessionStatus now sid "expired" d)) in
    nret ()
  else backoff sid.

(** The end of a good one; the status change is mirrored to the registry
    [internal/session/manager.go:774-777#rehydrateOne]. *)
Definition open_done (sid : string) : N () :=
  let+ _ := clearRetry sid in
  let+ _ := nupd (n_set_held (alter (λ h, h_set_live (setClient (hd_live h)) h) sid)) in
  let+ _ := stmt (λ now d, ((), UpdateSessionStatus now sid "authorized" d)) in
  nret ().

(** Restores a held session's guard [internal/session/guard.go#loadGuard]. *)
Definition loadHeldGuard (sid : string) : N () :=
  let+ ok := nask up in
  let+ now := nask clock in
  let+ w := nget in
  nupd (n_set_held (alter (λ h, h_set_guard (loadGuard now sid ok (nd_db w) (hd_guard h)) h) sid)).

(** Restores a session from its directory
    [internal/session/manager.go#rehydrateOne]. *)
Definition rehydrateOne (r : Rehydratable) : N (option gerr) :=
  let sid := rh_id r in
  let+ app := read (GetApp (rh_app r)) in
  match app with
  | Err e => nret (Some (EWrap "app: " e))
  | Ok app =>
  match decrypt (App_HashEnc app) with
  | Err e => nret (Some e)
  | Ok apiHash =>
  let+ px := proxyRequest (rh_proxy r) in
  match px with
  | Err e => nret (Some (EWrap "proxy: " e))
  | Ok proxyReq =>
  match decrypt (rh_db_key_enc r) with
  | Err e => nret (Some e)
  | Ok dbKey =>
      let+ _ := put sid (new_held (rh_kind r)) in
      let+ _ := RefreshSubscriptions sid in
      let+ _ := loadHeldGuard sid in
      let+ _ := nupd (n_log (Opened sid)) in
      let+ res := nask (λ i, opens i (buildParams (rh_db_dir r) dbKey (App_APIID app) apiHash) proxyReq) in
      let+ _ := match res with Some e => open_failed sid e | None => open_done sid end in
      nret res
  end end end end.

(** A session that is not backing off is reopened; the outcome is only logged
    [internal/session/manager.go#hydrateLogged]. *)
Definition hydrate (r : Rehydratable) : N () :=
  let+ go := retryReady (rh_id r) in
  if go then let+ _ := rehydrateOne r in nret () else nret ().

(** A session whose account is usable. *)
Definition ready (w : node) (sid : string) : bool :=
  match nd_held w !! sid with Some h => readyClient (hd_live h) | None => false end.

(** One session of it [internal/session/manager.go:549-561#shed]. *)
Definition shed_one (sid : string) : N () :=
  let+ w := nget in
  let+ _ := (if ready w sid then nupd (n_close sid) else nret ()) in
  let+ _ := drop sid in
  let+ done := stmt (λ now d, ((), ReleaseSession now sid d)) in
  if is_set done then nupd (n_log (Released sid)) else nret ().

(** [internal/session/manager.go#shed]; [n] is positive. *)
Definition shed (n : nat) : N () :=
  let+ w := nget in
  let+ walk := nask (λ i, order i (elements (dom (nd_held w)))) in
  neach shed_one (take n (filter (λ sid, ready w sid = true) walk)).

(** The reaping of abandoned logins, first step of a pass
    [internal/session/manager.go:423-427#reconcile]. *)
Definition reap (cutoff : Z) : N () :=
  let+ _ := stmt (λ now d, ExpireStaleLogins now cutoff staleLoginGrace d) in nret ().

(** Sessions the registry gives to a live peer: the active holder wins
    [internal/session/manager.go:435-455#reconcile]. *)
Definition fence (cutoff : Z) : N () :=
  let+ w := nget in
  let ids := elements (dom (nd_held w)) in
  let+ foreign := stmt (λ _ d, (ForeignOwned workerID ids cutoff d, d)) in
  match foreign with
  | None => nret ()
  | Some foreign =>
      neach (λ sid,
        let+ w := nget in
        if ready w sid then let+ _ := stmt (λ now d, ((), SetSessionOwner now sid workerID d)) in nret ()
        else drop sid) foreign
  end.

(** [internal/session/manager.go:460-469#reconcile] *)
Definition adopt : N () :=
  let+ owned := stmt (λ _ d, (ListOwned workerID d, d)) in
  match owned with
  | None => nret ()
  | Some owned =>
      neach (λ r,
        let+ w := nget in
        if has (rh_id r) (nd_held w) then nret () else hydrate r) owned
  end.

(** The fair share of the sessions. *)
Definition fair_share (total alive : nat) : Z :=
  let live := Z.max 1 (Z.of_nat alive) in (Z.of_nat total + live - 1) / live.

(** Toward the fair share; [locked] are the rows a concurrent claim holds
    [internal/session/manager.go:472-515#reconcile]. *)
Definition balance (locked : nat → gset string) (cutoff : Z) : N () :=
  let+ load := stmt (λ _ d, (WorkerLoad workerID cutoff d, d)) in
  match load with
  | None => nret ()
  | Some (mine, total, alive) =>
      let mine := Z.of_nat mine in
      let share := fair_share total alive in
      let+ w := nget in
      let heldN := Z.of_nat (size (nd_held w)) in
      if (share <? mine)%Z then shed (Z.to_nat (Z.min (mine - share) shedPerTick))
      else if ((mine <? share) && (heldN <? capacity))%Z then
        let limit := Z.min (Z.min (share - mine) claimBatch) (capacity - heldN) in
        if (limit <=? 0)%Z then nret ()
        else
          let+ rows := stmt (λ now d, ClaimOrphans now (locked (nd_tick w)) workerID cutoff (Z.to_nat limit) d) in
          match rows with
          | None => nret ()
          | Some rows =>
              neach hydrate rows
          end
      else nret ()
  end.

(** One pass [internal/session/manager.go#reconcile]. *)
Definition reconcile (locked : nat → gset string) : N () :=
  let+ w := nget in
  if nd_stopping w then nret ()
  else
    let+ now := nask clock in
    let cutoff := (now - workerStale)%Z in
    let+ _ := reap cutoff in
    let+ _ := fence cutoff in
    let+ _ := adopt in
    balance locked cutoff.

(** One beat [internal/session/manager.go#runHeartbeat]. *)
Definition beat : N () :=
  let+ w := nget in
  if nd_stopping w then nret ()
  else let+ _ := stmt (λ now d, ((), RegisterWorker now workerID selfAddr d)) in nret ().

(** Releasing a login that waits for input, if there is one. *)
Definition n_abort_login (sid : string) (w : node) : node :=
  let aborted := match nd_held w !! sid with Some h => (abortLogin (hd_live h)).1 | None => false end in
  n_set_held (alter (λ h, h_set_live (abortLogin (hd_live h)).2 h) sid) (if aborted then n_abort sid w else w).

(** The logins still waiting for input are released: their authorizers close
    their clients as they unwind (what they do then, [Manage.unwind], is theirs)
    [internal/session/manager.go:596-600#Shutdown]. *)
Definition abort_pending (w : node) (walk : list string) : N () :=
  neach (λ sid, if ready w sid then nret () else nupd (n_abort_login sid)) walk.

(** [internal/session/manager.go:601-609#Shutdown] *)
Definition close_ready (w : node) (walk : list string) : N () :=
  neach (λ sid, if ready w sid then nupd (n_close sid) else nret ()) walk.

(** Hands the sessions to the peers
    [internal/session/manager.go#Shutdown]. *)
Definition Shutdown : N () :=
  let+ _ := nupd (n_set_stopping true) in
  let+ w := nget in
  let+ walk := nask (λ i, order i (elements (dom (nd_held w)))) in
  let+ _ := abort_pending w walk in
  let+ _ := close_ready w walk in
  let+ _ := stmt (λ now d, ReleaseSessions now workerID d) in
  let+ _ := stmt (λ _ d, ((), DeregisterWorker workerID d)) in
  nret ().
End worker.

(** ** Reasoning about runs *)

(** Every run of a computation relates the nodes before and after. *)
Definition moves {A} (R : relation node) (c : N A) : Prop := ∀ w, R w (c w).2.

Section moves.
Context (R : relation node) `{!PreOrder R}.

Lemma moves_ret {A} (a : A) : moves R (nret a).
Proof. intros w. simpl. reflexivity. Qed.

Lemma moves_bind {A B} (c : N A) (f : A → N B) : moves R c → (∀ a, moves R (f a)) → moves R (nbind c f).
Proof. intros Hc Hf w. unfold nbind. simpl. etrans; [apply Hc|apply Hf]. Qed.

Lemma moves_get : moves R nget.
Proof. intros w. simpl. reflexivity. Qed.

Lemma moves_each {A} (f : A → N ()) (l : list A) : (∀ a, a ∈ l → moves R (f a)) → moves R (neach f l).
Proof.
  induction l as [|a l IH]; intros Hf; [apply moves_ret|]. simpl. apply moves_bind.
  - apply Hf. left.
  - intros _. apply IH. intros b Hb. apply Hf. by right.
Qed.
End moves.

(** Relations that do not look at the number of questions asked. *)
Class Timeless (R : relation node) : Prop := timeless t w : R w (n_set_tick t w).

Lemma moves_ask (R : relation node) `{!Timeless R} {A} (o : nat → A) : moves R (nask o).
Proof. intros w. simpl. apply timeless. Qed.

(** What a statement returns is what it computes, in a state that differs from
    its own by the questions asked. *)
Lemma stmt_at clock up {A} (f : Z → db → A * db) w :
  let now := clock (S (nd_tick w)) in
  stmt clock up f w =
    (if up (nd_tick w)
     then (Some (f now (nd_db w)).1, n_set_tick (S (S (nd_tick w))) (n_set_db (λ _, (f now (nd_db w)).2) w))
     else (None, n_set_tick (S (S (nd_tick w))) w)).
Proof. unfold stmt, nbind, nask. simpl. by destruct (up (nd_tick w)). Qed.

Lemma stmt_run clock up {A} (f : Z → db → A * db) w :
  ∃ t now, stmt clock up f w =
    (if up (nd_tick w) then (Some (f now (nd_db w)).1, n_set_tick t (n_set_db (λ _, (f now (nd_db w)).2) w))
     else (None, n_set_tick t w)).
Proof.
  exists (S (S (nd_tick w))), (clock (S (nd_tick w))). apply stmt_at.
Qed.

Lemma moves_stmt (R : relation node) `{!PreOrder R, !Timeless R} clock up {A} (f : Z → db → A * db) :
  (∀ w now, R w (n_set_db (λ _, (f now (nd_db w)).2) w)) → moves R (stmt clock up f).
Proof.
  intros Hf w. destruct (stmt_run clock up f w) as (t&now&->). destruct (up (nd_tick w)); simpl.
  - etrans; [apply (Hf w now)|apply timeless].
  - apply timeless.
Qed.

Lemma moves_read (R : relation node) `{!PreOrder R, !Timeless R} clock up {A} (f : db → Prelude.res dberr A) :
  moves R (read clock up f).
Proof.
  unfold read. apply moves_bind; [done|apply moves_stmt; [done..|]; intros w _; apply (timeless (nd_tick w))|].
  intros a. by apply moves_ret.
Qed.

(** What reopening sessions may change: their own entries, their own rows'
    status, nobody's ownership. *)
Record touches (ids : list string) (w w' : node) : Prop := mkTouches {
  to_held : ∀ k, k ∉ ids → nd_held w' !! k = nd_held w !! k;
  to_rows : ∀ k, k ∉ ids → sessions (nd_db w') !! k = sessions (nd_db w) !! k;
  to_row : ∀ k s', sessions (nd_db w') !! k = Some s' → ∃ s, sessions (nd_db w) !! k = Some s ∧
    s_worker s' = s_worker s ∧ (s_status s' = s_status s ∨ s_status s' = "expired" ∨ s_status s' = "authorized");
  to_workers : workers (nd_db w') = workers (nd_db w);
  to_opened : ∀ k, Opened k ∈ nd_log w' → Opened k ∈ nd_log w ∨ k ∈ ids;
}.

#[export] Instance touches_preorder ids : PreOrder (touches ids).
Proof.
  split.
  - intros w. constructor; try done; [|by left]. intros k s' Hs. exists s'. by auto.
  - intros w1 w2 w3 [A1 A2 A3 A4 A5] [B1 B2 B3 B4 B5]. constructor.
    + intros k Hk. by rewrite B1, A1.
    + intros k Hk. by rewrite B2, A2.
    + intros k s3 (s2&(s1&H1&O1&S1)%A3&O2&S2)%B3. exists s1. split; [done|]. split; [congruence|].
      destruct S2 as [->|[]]; auto.
    + congruence.
    + intros k [[|]%A5|]%B5; auto.
Qed.

#[export] Instance touches_timeless ids : Timeless (touches ids).
Proof. intros t w. constructor; try done; [|by left]. intros k s' Hs. exists s'. by auto. Qed.

Lemma touches_weaken ids ids' w w' : ids ⊆ ids' → touches ids w w' → touches ids' w w'.
Proof.
  intros Hsub [A1 A2 A3 A4 A5]. constructor; [..|done|].
  - intros k Hk. apply A1. set_solver.
  - intros k Hk. apply A2. set_solver.
  - done.
  - intros k Hk. destruct (A5 k Hk); [by left|right; by apply Hsub].
Qed.

Lemma touches_held sid f w :
  (∀ m k, k ≠ sid → f m !! k = (m : gmap string held) !! k) → touches [sid] w (n_set_held f w).
Proof.
  intros Hf. constructor; try done; [intros k Hk; apply Hf; set_solver| |by left].
  intros k s' Hs. exists s'. by auto.
Qed.

Lemma touches_retry ids f w : touches ids w (n_set_retry f w).
Proof. constructor; try done; [|by left]. intros k s' Hs. exists s'. by auto. Qed.

Lemma touches_status sid now st w : st = "expired" ∨ st = "authorized" →
  touches [sid] w (n_set_db (λ _, UpdateSessionStatus now sid st (nd_db w)) w).
Proof.
  intros Hst. constructor; try done; [| |by left]; simpl.
  - intros k Hk. rewrite lookup_alter_ne; [done|set_solver].
  - intros k s'. destruct (decide (k = sid)) as [->|Hk].
    + rewrite lookup_alter_eq. destruct (sessions (nd_db w) !! sid) as [s|]; [|done].
      intros [= <-]. exists s. simpl. naive_solver.
    + rewrite lookup_alter_ne by done. intros Hs. exists s'. by auto.
Qed.

(** An event on the way from one node to another. *)
Definition happened (e : life) (w w' : node) : Prop := ∃ new, nd_log w' = new ++ nd_log w ∧ e ∈ new.

Lemma happened_before e w1 w2 w3 : nd_log w1 `suffix_of` nd_log w2 → happened e w2 w3 → happened e w1 w3.
Proof.
  intros [l Hl] (new&E&He). exists (new ++ l). rewrite E, Hl, app_assoc. split; [done|]. apply elem_of_app. by left.
Qed.

Lemma happened_after e w1 w2 w3 : happened e w1 w2 → nd_log w2 `suffix_of` nd_log w3 → happened e w1 w3.
Proof.
  intros (new&E&He) [l Hl]. exists (l ++ new). rewrite Hl, E, app_assoc. split; [done|]. apply elem_of_app. by right.
Qed.

(** The log only grows. *)
Definition grows : relation node := λ w w', nd_log w `suffix_of` nd_log w'.
#[export] Instance grows_preorder : PreOrder grows.
Proof. split; [by intros w; exists []|]. intros w1 w2 w3 H1 H2. unfold grows in *. by etrans. Qed.
#[export] Instance grows_timeless : Timeless grows.
Proof. intros t w. by exists []. Qed.

(** What shedding may change: entries go, closed first when they were usable;
    their rows lose their owner. *)
Record releases (ids : list string) (w w' : node) : Prop := mkReleases {
  re_held : ∀ k,
    nd_held w' !! k = nd_held w !! k ∧ (is_Some (nd_held w !! k) → sessions (nd_db w') !! k = sessions (nd_db w) !! k) ∨
    k ∈ ids ∧ nd_held w' !! k = None ∧
      (ready w k = true → ∃ d, happened (Closed k d) w w' ∧ sessions d !! k = sessions (nd_db w) !! k);
  re_rows : ∀ k, k ∉ ids → sessions (nd_db w') !! k = sessions (nd_db w) !! k;
  re_row : ∀ k s', sessions (nd_db w') !! k = Some s' → ∃ s, sessions (nd_db w) !! k = Some s ∧
    s_status s' = s_status s ∧ (s_worker s' = s_worker s ∨ s_worker s' = None);
  re_workers : workers (nd_db w') = workers (nd_db w);
  re_log : nd_log w `suffix_of` nd_log w';
  re_opened : ∀ k, Opened k ∈ nd_log w' → Opened k ∈ nd_log w;
}.

Lemma ready_held w w' k : nd_held w' !! k = nd_held w !! k → ready w' k = ready w k.
Proof. intros H. unfold ready. by rewrite H. Qed.

#[export] Instance releases_preorder ids : PreOrder (releases ids).
Proof.
  split.
  - intros w. constructor; try done; [intros k; left; by split|]. intros k s' Hs. exists s'. by auto.
  - intros w1 w2 w3 [A1 A2 A3 A4 A5 A6] [B1 B2 B3 B4 B5 B6]. constructor.
    + intros k. destruct (A1 k) as [[E1 R1]|(Hk&E1&C1)].
      * destruct (B1 k) as [[E2 R2]|(Hk&E2&C2)]; [left; rewrite E2, E1|right].
        { split; [done|]. intros Hs. rewrite R2 by (by rewrite E1). by apply R1. }
        split; [done|]. split; [done|]. intros Hr. destruct C2 as (d&Hd&Er); [by rewrite (ready_held w1)|].
        exists d. split; [by eapply happened_before|]. rewrite Er. apply R1. unfold ready in Hr. by destruct (nd_held w1 !! k).
      * right. split; [done|]. split; [destruct (B1 k) as [[E2 _]|(_&E2&_)]; congruence|].
        intros (d&Hd&Er)%C1. exists d. split; [by eapply happened_after|done].
    + intros k Hk. by rewrite B2, A2.
    + intros k s3 (s2&(s1&H1&S1&O1)%A3&S2&O2)%B3. exists s1. split; [done|]. split; [congruence|].
      destruct O2 as [->|]; auto.
    + congruence.
    + by etrans.
    + auto.
Qed.

#[export] Instance releases_timeless ids : Timeless (releases ids).
Proof. intros t w. constructor; try done; [intros k; left; by split|]. intros k s' Hs. exists s'. by auto. Qed.

(** What a loop has done once it met an element. *)
Lemma each_does {A} (P Q : node → Prop) (f : A → N ()) (l : list A) (a : A) (w : node) :
  a ∈ l → P w → (∀ b w, P w → P (f b w).2) → (∀ w, P w → Q (f a w).2) → (∀ b w, Q w → Q (f b w).2) →
  Q (neach f l w).2.
Proof.
  intros Ha HP HPs HPQ HQs. revert w HP. induction l as [|b l IH]; [by apply not_elem_of_nil in Ha|].
  intros w HP. cbn [neach]. unfold nbind. cbn [fst snd]. apply elem_of_cons in Ha as [->|Ha].
  - generalize (HPQ w HP). generalize (f b w).2. clear -HQs. intros w HQ. revert w HQ.
    induction l as [|c l IH]; [done|]. intros w HQ. cbn [neach]. unfold nbind. cbn [fst snd]. by apply IH, HQs.
  - apply IH; [done|by apply HPs].
Qed.

Section runs.
Context (clock : nat → Z) (up : nat → bool).
Context (opens : nat → tdParams → option AddProxyRequest → option gerr).
Context (order : nat → list string → list string).
Context (quote : string → string).
Context (box : Box) (workerID : string) (capacity : Z).

Notation rehydrateOne := (rehydrateOne clock up opens quote box).
Notation hydrate := (hydrate clock up opens quote box).
Notation balance := (balance clock up opens order quote box workerID capacity).

Lemma moves_proxyRequest (R : relation node) `{!PreOrder R, !Timeless R} pid :
  moves R (proxyRequest clock up quote box pid).
Proof.
  unfold proxyRequest. destruct (String.eqb pid ""); [by apply moves_ret|].
  apply moves_bind; [done|by apply moves_read|]. intros [p|e]; [|by apply moves_ret].
  destruct (match Px_SecretEnc p with Some _ => _ | None => _ end); [|by apply moves_ret].
  repeat (destruct (String.eqb _ _); [by apply moves_ret|]). by apply moves_ret.
Qed.

Ltac run_alter := intros w'; apply touches_held; intros m k Hk; by rewrite ?lookup_alter_ne.

Lemma touches_refresh sid : moves (touches [sid]) (RefreshSubscriptions clock up sid).
Proof.
  unfold RefreshSubscriptions. apply moves_bind; [apply _|apply moves_get, _|]. intros w.
  destruct (has sid (nd_held w)); [|apply moves_ret, _].
  apply moves_bind; [apply _|apply moves_stmt; [apply _..|]; intros w' _; apply (timeless (nd_tick w'))|].
  intros [fs|]; [|apply moves_ret, _]. run_alter.
Qed.

Lemma touches_guard sid : moves (touches [sid]) (loadHeldGuard clock up sid).
Proof.
  unfold loadHeldGuard. apply moves_bind; [apply _|apply moves_ask; apply _|intros ok].
  apply moves_bind; [apply _|apply moves_ask; apply _|intros now].
  apply moves_bind; [apply _|apply moves_get, _|intros w]. run_alter.
Qed.

Lemma touches_mirror sid st : st = "expired" ∨ st = "authorized" →
  moves (touches [sid]) (let+ _ := stmt clock up (λ now d, ((), UpdateSessionStatus now sid st d)) in nret ()).
Proof.
  intros Hst. apply moves_bind; [apply _|apply moves_stmt; [apply _..|]; intros w' now'|intros; apply moves_ret, _].
  by apply touches_status.
Qed.

Lemma touches_failed sid e : moves (touches [sid]) (open_failed clock up sid e).
Proof.
  unfold open_failed. apply moves_bind; [apply _| |intros _].
  { intros w'. apply touches_held. intros m k Hk. by rewrite lookup_delete_ne. }
  destruct (is_expired e).
  - apply moves_bind; [apply _|intros w'; apply touches_retry|intros _]. by apply touches_mirror; left.
  - apply moves_bind; [apply _|apply moves_ask; apply _|intros t w'; apply touches_retry].
Qed.

Lemma touches_done sid : moves (touches [sid]) (open_done clock up sid).
Proof.
  unfold open_done. apply moves_bind; [apply _|intros w'; apply touches_retry|intros _].
  apply moves_bind; [apply _|run_alter|intros _]. by apply touches_mirror; right.
Qed.

Lemma rehydrate_touches r : moves (touches [rh_id r]) (rehydrateOne r).
Proof.
  unfold Worker.rehydrateOne. apply moves_bind; [apply _|apply moves_read; apply _|].
  intros [app|]; [|apply moves_ret, _]. destruct (decrypt box (App_HashEnc app)); [|apply moves_ret, _].
  apply moves_bind; [apply _|apply moves_proxyRequest; apply _|]. intros [px|]; [|apply moves_ret, _].
  destruct (decrypt box (rh_db_key_enc r)) as [key|]; [|apply moves_ret, _].
  apply moves_bind; [apply _| |intros _].
  { intros w. apply touches_held. intros m k Hk. by rewrite lookup_insert_ne. }
  apply moves_bind; [apply _|apply touches_refresh|intros _].
  apply moves_bind; [apply _|apply touches_guard|intros _].
  apply moves_bind; [apply _| |intros _].
  { intros w'. constructor; try done.
    - intros k s' Hs. exists s'. by auto.
    - intros k [[= ->]|Hk]%elem_of_cons; [right; left|by left]. }
  apply moves_bind; [apply _|apply moves_ask; apply _|intros res].
  apply moves_bind; [apply _| |intros; apply moves_ret, _].
  destruct res as [e|]; [apply touches_failed|apply touches_done].
Qed.

(** Reopening the sessions of a list, those not backing off. *)
Lemma touches_reopen (rs : list Rehydratable) :
  moves (touches (rh_id <$> rs)) (neach hydrate rs).
Proof.
  apply moves_each; [apply _|]. intros r Hr. unfold Worker.hydrate.
  apply moves_bind; [apply _| |intros []; [|apply moves_ret, _]].
  - apply moves_bind; [apply _|apply moves_ask, _|intros now].
    apply moves_bind; [apply _|apply moves_get, _|intros w; apply moves_ret, _].
  - apply moves_bind; [apply _| |intros _; apply moves_ret, _]. intros w.
    eapply touches_weaken; [|apply rehydrate_touches]. intros k ->%list_elem_of_singleton.
    by apply list_elem_of_fmap_2.
Qed.

Lemma releases_drop k ids w : k ∈ ids →
  releases ids w (n_set_held (delete k) ((if ready w k then nupd (n_close k) else nret ()) w).2).
Proof.
  intros Hk. destruct (ready w k) eqn:Er; simpl; (constructor; simpl; try done).
  - intros k'. destruct (decide (k' = k)) as [->|Hne]; [right|left; by rewrite lookup_delete_ne].
    rewrite lookup_delete_eq. split; [done|]. split; [done|]. intros _. exists (nd_db w). split; [|done].
    exists [Closed k (nd_db w)]. split; [done|left].
  - intros k' s' Hs. exists s'. by auto.
  - by exists [Closed k (nd_db w)].
  - intros k' [|]%elem_of_cons; [done|auto].
  - intros k'. destruct (decide (k' = k)) as [->|Hne]; [right|left; by rewrite lookup_delete_ne].
    rewrite lookup_delete_eq, Er. by repeat split.
  - intros k' s' Hs. exists s'. by auto.
Qed.

Lemma releases_release k ids w now : k ∈ ids → nd_held w !! k = None →
  releases ids w (n_set_db (λ _, ReleaseSession now k (nd_db w)) w).
Proof.
  intros Hk Hh. constructor; simpl; try done.
  - intros k'. left. split; [done|]. intros Hs. rewrite lookup_alter_ne; [done|]. intros ->. rewrite Hh in Hs. by destruct Hs.
  - intros k' Hk'. rewrite lookup_alter_ne; [done|]. by intros ->.
  - intros k' s'. destruct (decide (k' = k)) as [->|Hne].
    + rewrite lookup_alter_eq. destruct (sessions (nd_db w) !! k) as [s|]; [|done].
      intros [= <-]. exists s. simpl. auto.
    + rewrite lookup_alter_ne by done. intros Hs. exists s'. auto.
Qed.

Lemma releases_log k ids w : releases ids w (n_log (Released k) w).
Proof.
  constructor; simpl; try done.
  - intros k'. by left.
  - intros k' s' Hs. exists s'. by auto.
  - by exists [Released k].
  - intros k' [|]%elem_of_cons; [done|auto].
Qed.

(** How one session is let go. *)
Lemma shed_one_run k w :
  let w3 := n_set_held (delete k) ((if ready w k then nupd (n_close k) else nret ()) w).2 in
  (shed_one clock up k w).2 =
    if up (nd_tick w3)
    then n_log (Released k) (n_set_tick (S (S (nd_tick w3)))
           (n_set_db (λ _, ReleaseSession (clock (S (nd_tick w3))) k (nd_db w3)) w3))
    else n_set_tick (S (S (nd_tick w3))) w3.
Proof.
  intros w3. transitivity (nbind (stmt clock up (λ now d, ((), ReleaseSession now k d)))
    (λ done, if is_set done then nupd (n_log (Released k)) else nret ()) w3).2; [done|].
  unfold nbind. rewrite stmt_at. by destruct (up (nd_tick w3)).
Qed.

Lemma releases_one k ids : k ∈ ids → moves (releases ids) (shed_one clock up k).
Proof.
  intros Hk w. rewrite shed_one_run. pose proof (releases_drop k ids w Hk) as H1.
  cbv zeta. set (w3 := n_set_held (delete k) _) in *.
  assert (Hh : nd_held w3 !! k = None) by apply lookup_delete_eq. clearbody w3. destruct (up (nd_tick w3)).
  - etrans; [exact H1|]. etrans; [apply (releases_release k ids w3 (clock (S (nd_tick w3)))); done|].
    etrans; [apply (releases_timeless ids (S (S (nd_tick w3))))|apply releases_log].
  - etrans; [exact H1|apply releases_timeless].
Qed.

Lemma releases_shed n w : ∃ ids, (length ids <= n)%nat ∧ Forall (λ k, ready w k = true) ids ∧
  releases ids w (shed clock up order n w).2.
Proof.
  set (walk := order (nd_tick w) (elements (dom (nd_held w)))).
  exists (take n (filter (λ sid, ready w sid = true) walk)). split; [rewrite length_take; lia|]. split.
  { apply Forall_forall. intros k [Hk _]%take_subseteq%list_elem_of_filter. done. }
  unfold shed. set (ids := take n _). unfold nbind at 1. simpl. unfold nbind at 1. simpl. fold walk. fold ids.
  etrans; [apply (timeless (S (nd_tick w)))|]. apply (moves_each (releases ids)). intros k Hk. by apply releases_one.
Qed.

(** When the registry answers, shedding [ids] lets exactly them go. *)
Lemma shed_all ids w : (∀ i, up i = true) →
  let w' := (neach (shed_one clock up) ids w).2 in
  (∀ k, k ∈ ids → nd_held w' !! k = None ∧ ∀ s, sessions (nd_db w') !! k = Some s → s_worker s = None) ∧
  (∀ k, k ∉ ids → nd_held w' !! k = nd_held w !! k ∧ sessions (nd_db w') !! k = sessions (nd_db w) !! k).
Proof.
  intros Hup. revert w. induction ids as [|a ids IH]; intros w; [split; [by intros k ?%not_elem_of_nil|done]|].
  change ((neach (shed_one clock up) (a :: ids) w).2) with ((neach (shed_one clock up) ids (shed_one clock up a w).2).2).
  set (w1 := (shed_one clock up a w).2).
  assert (H1 : nd_held w1 = delete a (nd_held w) ∧
    sessions (nd_db w1) = alter (s_touch (clock (S (nd_tick w))) ∘ s_set_worker None) a (sessions (nd_db w))).
  { unfold w1. rewrite shed_one_run, Hup. by destruct (ready w a). }
  clearbody w1. destruct H1 as [Eh Es]. destruct (IH w1) as [I1 I2]. cbv zeta in *. set (w' := (neach _ ids w1).2) in *. clearbody w'.
  split.
  - intros k [->|Hk]%elem_of_cons; [|by apply I1]. destruct (decide (a ∈ ids)) as [Ha|Ha]; [by apply I1|].
    destruct (I2 a Ha) as [-> ->]. rewrite Eh, Es, lookup_delete_eq, lookup_alter_eq. split; [done|].
    intros s. destruct (sessions (nd_db w) !! a); [|done]. by intros [= <-].
  - intros k [Hne Hk]%not_elem_of_cons. destruct (I2 k Hk) as [-> ->].
    rewrite Eh, Es, lookup_delete_ne, lookup_alter_ne by done. done.
Qed.

(** A worker's share before and after a change of the rows. *)
Lemma affected_le {A B : Type} (P : string → A → bool) (Q : string → B → bool)
    (m : gmap string A) (m' : gmap string B) (l : list string) :
  (∀ k b, m' !! k = Some b → Q k b = true → (∃ a, m !! k = Some a ∧ P k a = true) ∨ k ∈ l) →
  (affected Q m' <= affected P m + length l)%nat.
Proof.
  intros H. unfold affected. rewrite <- (length_fmap fst (select Q m')), <- (length_fmap fst (select P m)), <- length_app.
  apply submseteq_length, NoDup_submseteq; [apply NoDup_select|].
  intros k ([k' b]&->&[Hb Hq]%elem_of_select)%list_elem_of_fmap. simpl in *. apply elem_of_app.
  destruct (H k' b Hb Hq) as [(a&Ha&Hp)|]; [left|by right].
  apply list_elem_of_fmap. exists (k', a). split; [done|]. by apply elem_of_select.
Qed.

Lemma affected_ge {A B : Type} (P : string → A → bool) (Q : string → B → bool)
    (m : gmap string A) (m' : gmap string B) (l : list string) :
  NoDup l → (∀ k, k ∈ l → (∃ a, m !! k = Some a ∧ P k a = true) ∧ ∀ b, m' !! k = Some b → Q k b = false) →
  (∀ k b, m' !! k = Some b → Q k b = true → ∃ a, m !! k = Some a ∧ P k a = true) →
  (affected Q m' + length l <= affected P m)%nat.
Proof.
  intros Hnd Hl H. unfold affected. rewrite <- (length_fmap fst (select Q m')), <- (length_fmap fst (select P m)), <- length_app.
  assert (Hin : ∀ k, (∃ a, m !! k = Some a ∧ P k a = true) → k ∈ (select P m).*1).
  { intros k (a&Ha&Hp). apply list_elem_of_fmap. exists (k, a). split; [done|]. by apply elem_of_select. }
  apply submseteq_length, NoDup_submseteq.
  - apply NoDup_app. split; [apply NoDup_select|]. split; [|done].
    intros k ([k' b]&->&[Hb Hq]%elem_of_select)%list_elem_of_fmap Hk. simpl in *. destruct (Hl k' Hk) as [_ Hf].
    by rewrite Hf in Hq.
  - intros k [([k' b]&->&[Hb Hq]%elem_of_select)%list_elem_of_fmap|Hk]%elem_of_app; apply Hin; [by eapply H|by apply Hl].
Qed.

(** ** Balancing *)

Definition mine_of (d : db) : nat := affected (λ _ s, owned_authorized workerID s) (sessions d).

Lemma mine_stable ids w w' : touches ids w w' →
  Forall (λ k, ∀ s, sessions (nd_db w) !! k = Some s → authorized s = true) ids →
  (mine_of (nd_db w') <= mine_of (nd_db w))%nat.
Proof.
  intros Ht Hids. unfold mine_of. rewrite <- (Nat.add_0_r (affected _ (sessions (nd_db w)))).
  change 0%nat with (length (@nil string)). apply affected_le. intros k s' Hs' Ho. left.
  destruct (to_row _ _ _ Ht k s' Hs') as (s&Hs&Hw&Hst). exists s. split; [done|].
  unfold owned_authorized in *. rewrite <- Hw. apply andb_true_iff in Ho as [-> Ha]. simpl.
  destruct (decide (k ∈ ids)) as [Hk|Hk].
  - rewrite Forall_forall in Hids. by apply (Hids k Hk s Hs).
  - rewrite (to_rows _ _ _ Ht k Hk) in Hs'. congruence.
Qed.

Lemma affected_true {A} (m : gmap string A) : affected (λ _ _, true) m = size m.
Proof.
  unfold affected, select. rewrite filter_all; [by rewrite length_map_to_list|by apply Forall_true].
Qed.

Lemma size_le (ids : list string) (m m' : gmap string held) :
  (∀ k h, m' !! k = Some h → is_Some (m !! k) ∨ k ∈ ids) → (size m' <= size m + length ids)%nat.
Proof.
  intros H. rewrite <- !affected_true. apply affected_le. intros k h Hh _.
  destruct (H k h Hh) as [[x Hx]|]; eauto.
Qed.

(** ** What a pass does to the balance *)

(** The three ways a balancing step ends: nothing to do (or no answer), a shed,
    a claim whose rows are then reopened. *)
Lemma balance_cases locked cutoff w :
  let '(mine, total, alive) := WorkerLoad workerID cutoff (nd_db w) in
  let share := fair_share total alive in
  let w' := (balance locked cutoff w).2 in
  (∃ t, w' = n_set_tick t w) ∨
  (∃ t, share < Z.of_nat mine ∧
     w' = (shed clock up order (Z.to_nat (Z.min (Z.of_nat mine - share) shedPerTick)) (n_set_tick t w)).2)%Z ∨
  ∃ limit now busy t', let c := ClaimOrphans now busy workerID cutoff limit (nd_db w) in
    (Z.of_nat limit <= share - Z.of_nat mine)%Z ∧ (Z.of_nat limit <= capacity - Z.of_nat (size (nd_held w)))%Z ∧
    w' = (neach hydrate c.1 (n_set_tick t' (n_set_db (λ _, c.2) w))).2.
Proof.
  destruct (WorkerLoad workerID cutoff (nd_db w)) as [[mine total] alive] eqn:EL. cbv zeta.
  destruct (balance locked cutoff w) as [u w'] eqn:Eb. cbn [snd]. unfold Worker.balance in Eb. unfold nbind at 1 in Eb.
  destruct (stmt_run clock up (λ _ d, (WorkerLoad workerID cutoff d, d)) w) as (t&now&Er).
  rewrite Er, EL in Eb. clear Er.
  destruct (up (nd_tick w)); cbv beta iota zeta delta [fst snd nbind nget] in Eb; [|injection Eb as _ <-; left; by exists t].
  set (share := fair_share total alive) in *. clearbody share.
  change (n_set_tick t (n_set_db (λ _, nd_db w) w)) with (n_set_tick t w) in Eb.
  change (nd_held (n_set_tick t w)) with (nd_held w) in Eb. change (nd_tick (n_set_tick t w)) with t in Eb.
  destruct (Z.ltb_spec share (Z.of_nat mine)); [right; left; exists t; split; [done|by rewrite Eb]|].
  destruct (Z.ltb_spec (Z.of_nat mine) share); [|injection Eb as _ <-; left; by exists t].
  destruct (Z.ltb_spec (Z.of_nat (size (nd_held w))) capacity); [|injection Eb as _ <-; left; by exists t]. cbn [andb] in Eb.
  set (limit := Z.min _ (capacity - _)) in *. assert (Hl : limit = Z.min (Z.min (share - Z.of_nat mine) claimBatch)
    (capacity - Z.of_nat (size (nd_held w)))) by done. clearbody limit.
  destruct (Z.leb_spec limit 0); [injection Eb as _ <-; left; by exists t|].
  destruct (stmt_run clock up (λ now d, ClaimOrphans now (locked t) workerID cutoff (Z.to_nat limit) d)
    (n_set_tick t w)) as (t'&now'&Er). rewrite !Er in Eb. clear Er.
  destruct (up (nd_tick (n_set_tick t w))); [|injection Eb as _ <-; left; by exists t'].
  right. right. exists (Z.to_nat limit), now', (locked t), t'. split; [lia|]. split; [lia|]. exact (eq_sym (f_equal snd Eb)).
Qed.

Lemma mine_spec cutoff d : (WorkerLoad workerID cutoff d).1.1 = mine_of d.
Proof. done. Qed.

(** Shedding [n] takes at most [n] of the worker's sessions away. *)
Lemma mine_shed ids w w' : releases ids w w' →
  (mine_of (nd_db w) <= mine_of (nd_db w') + length ids)%nat.
Proof.
  intros H. unfold mine_of. apply affected_le. intros k s Hs Ho.
  destruct (decide (k ∈ ids)) as [Hk|Hk]; [by right|left]. exists s. by rewrite (re_rows _ _ _ H k Hk).
Qed.

Lemma held_shed ids w w' : releases ids w w' → (size (nd_held w') <= size (nd_held w))%nat.
Proof.
  intros H. rewrite <- (Nat.add_0_r (size (nd_held w))). change 0%nat with (length (@nil string)).
  apply size_le. intros k h Hh. left. destruct (re_held _ _ _ H k) as [[E _]|(_&E&_)]; [|congruence].
  rewrite E in Hh. by exists h.
Qed.

(** Claiming and reopening. *)
Lemma claim_reopen now busy cutoff limit t w :
  let c := ClaimOrphans now busy workerID cutoff limit (nd_db w) in
  let w' := (neach hydrate c.1 (n_set_tick t (n_set_db (λ _, c.2) w))).2 in
  (mine_of (nd_db w') <= mine_of (nd_db w) + limit)%nat ∧
  (size (nd_held w') <= size (nd_held w) + limit)%nat.
Proof.
  intros c w'. set (rows := claim_rows busy cutoff limit (nd_db w)).
  assert (Hids : rh_id <$> c.1 = rows.*1) by apply ids_to_rehydratable.
  pose proof (touches_reopen c.1 (n_set_tick t (n_set_db (λ _, c.2) w))) as Ht. fold w' in Ht.
  destruct (claim_rows_spec busy cutoff limit (nd_db w)) as (_&_&Hlen). fold rows in Hlen.
  assert (Hll : (length rows.*1 <= limit)%nat) by (rewrite length_fmap; lia). split.
  - apply mine_stable in Ht.
    2:{ rewrite Hids. apply Forall_forall. intros k (s0&Hs0&Ho&_)%claim_row_orphan s Hs.
        cbn [n_set_tick n_set_db nd_db] in Hs. unfold c in Hs. rewrite ClaimOrphans_session, Hs0 in Hs.
        injection Hs as <-. unfold orphan, hydratable in Ho. bool_props.
        destruct Ho as [[[E _] _] _]. destruct (decide _); unfold authorized; by apply String.eqb_eq. }
    etrans; [exact Ht|]. cbn [n_set_tick n_set_db nd_db].
    etrans; [apply (affected_le (λ _ s, owned_authorized workerID s) _ (sessions (nd_db w)) _ rows.*1)|unfold mine_of; lia].
    intros k s Hs Ho. unfold c in Hs. rewrite ClaimOrphans_session in Hs. fold rows in Hs.
    destruct (decide (k ∈ rows.*1)) as [|Hk]; [by right|left].
    destruct (sessions (nd_db w) !! k) as [s0|]; [|done]. injection Hs as <-. by exists s0.
  - etrans; [apply (size_le rows.*1 (nd_held w))|lia]. intros k h Hh.
    destruct (decide (k ∈ rows.*1)) as [|Hk]; [by right|left].
    rewrite (to_held _ _ _ Ht k) in Hh by (by rewrite Hids). by exists h.
Qed.

(** What balancing does when the registry answers. *)
Lemma balance_up locked cutoff w : (∀ i, up i = true) →
  let '(mine, total, alive) := WorkerLoad workerID cutoff (nd_db w) in
  let share := fair_share total alive in
  let t := S (S (nd_tick w)) in
  let room := Z.min (Z.min (share - Z.of_nat mine) claimBatch) (capacity - Z.of_nat (size (nd_held w))) in
  let c := ClaimOrphans (clock (S t)) (locked t) workerID cutoff (Z.to_nat room) (nd_db w) in
  (balance locked cutoff w).2 =
    if (share <? Z.of_nat mine)%Z
    then (shed clock up order (Z.to_nat (Z.min (Z.of_nat mine - share) shedPerTick)) (n_set_tick t w)).2
    else if (0 <? room)%Z then (neach hydrate c.1 (n_set_tick (S (S t)) (n_set_db (λ _, c.2) w))).2
    else n_set_tick t w.
Proof.
  intros Hup. destruct (WorkerLoad workerID cutoff (nd_db w)) as [[mine total] alive] eqn:EL. cbv zeta.
  set (share := fair_share total alive). set (room := Z.min _ (capacity - _)).
  unfold Worker.balance, nbind at 1. rewrite stmt_at, Hup, EL. cbv beta iota zeta delta [fst snd nbind nget]. fold share.
  change (n_set_tick (S (S (nd_tick w))) (n_set_db (λ _, nd_db w) w)) with (n_set_tick (S (S (nd_tick w))) w).
  change (nd_held (n_set_tick _ w)) with (nd_held w). fold room.
  destruct (Z.ltb_spec share (Z.of_nat mine)); [done|].
  assert (Hroom : (0 < room)%Z ↔ (Z.of_nat mine < share ∧ Z.of_nat (size (nd_held w)) < capacity)%Z)
    by (unfold room, claimBatch; lia).
  destruct (Z.ltb_spec 0 room) as [Hr|Hr].
  - apply Hroom in Hr as H2. rewrite (proj2 (Z.ltb_lt _ _) (proj1 H2)), (proj2 (Z.ltb_lt _ _) (proj2 H2)).
    rewrite (proj2 (Z.leb_gt _ _) Hr). cbn [andb]. rewrite !stmt_at. cbn [nd_tick n_set_tick]. by rewrite Hup.
  - destruct (Z.ltb_spec (Z.of_nat mine) share); [|done].
    destruct (Z.ltb_spec (Z.of_nat (size (nd_held w))) capacity); [lia|done].
Qed.

(** The sessions a worker can shed, and the ones it can claim. *)
Definition able (w : node) : list string := filter (λ k, ready w k = true) (elements (dom (nd_held w))).
Definition free_orphans (busy : gset string) (cutoff : Z) (d : db) : nat :=
  affected (λ k s, orphan d cutoff s && bool_decide (k ∉ busy)) (sessions d).

Lemma shed_exact n w : (∀ i, up i = true) → (∀ i l, order i l ≡ₚ l) →
  let w' := (shed clock up order n w).2 in
  ∃ gone, NoDup gone ∧ gone ⊆ able w ∧ length gone = (n `min` length (able w))%nat ∧
    (∀ k, k ∈ gone → nd_held w' !! k = None ∧ ∀ s, sessions (nd_db w') !! k = Some s → s_worker s = None) ∧
    (∀ k, k ∉ gone → nd_held w' !! k = nd_held w !! k ∧ sessions (nd_db w') !! k = sessions (nd_db w) !! k).
Proof.
  intros Hup Hord w'. set (walk := order (nd_tick w) (elements (dom (nd_held w)))).
  assert (Hp : filter (λ sid, ready w sid = true) walk ≡ₚ able w) by (unfold able, walk; by rewrite Hord).
  exists (take n (filter (λ sid, ready w sid = true) walk)).
  split; [apply NoDup_take; rewrite Hp; apply NoDup_filter, NoDup_elements|].
  split; [intros k Hk%take_subseteq; by rewrite Hp in Hk|]. split; [by rewrite length_take, Hp|].
  exact (shed_all _ (n_set_tick (S (nd_tick w)) w) Hup).
Qed.

(** Claiming takes exactly these rows; reopening leaves owners alone. *)
Lemma claim_exact now busy cutoff limit t w :
  let c := ClaimOrphans now busy workerID cutoff limit (nd_db w) in
  let w' := (neach hydrate c.1 (n_set_tick t (n_set_db (λ _, c.2) w))).2 in
  ∃ claimed, NoDup claimed ∧ length claimed = (limit `min` free_orphans busy cutoff (nd_db w))%nat ∧
    (∀ k, k ∈ claimed → ∃ s, sessions (nd_db w) !! k = Some s ∧ orphan (nd_db w) cutoff s = true ∧
       ∀ s', sessions (nd_db w') !! k = Some s' → s_worker s' = Some workerID) ∧
    (∀ k, k ∉ claimed → sessions (nd_db w') !! k = sessions (nd_db w) !! k).
Proof.
  intros c w'. set (rows := claim_rows busy cutoff limit (nd_db w)). exists rows.*1.
  destruct (claim_rows_spec busy cutoff limit (nd_db w)) as (_&Hnd&Hlen). fold rows in Hnd, Hlen.
  split; [done|]. split; [by rewrite length_fmap|].
  pose proof (touches_reopen c.1 (n_set_tick t (n_set_db (λ _, c.2) w))) as Ht. fold w' in Ht.
  assert (Hids : rh_id <$> c.1 = rows.*1) by apply ids_to_rehydratable. split.
  - intros k Hk. destruct (claim_row_orphan _ _ _ _ _ Hk) as (s&Hs&Ho&_). exists s. split; [done|]. split; [done|].
    intros s' Hs'. destruct (to_row _ _ _ Ht k s' Hs') as (s1&Hs1&->&_). cbn [n_set_tick n_set_db nd_db] in Hs1.
    unfold c in Hs1. rewrite ClaimOrphans_session, Hs in Hs1. fold rows in Hs1. destruct (decide _); [|done].
    by injection Hs1 as <-.
  - intros k Hk. rewrite (to_rows _ _ _ Ht k) by (by rewrite Hids). cbn [n_set_tick n_set_db nd_db].
    unfold c. rewrite ClaimOrphans_session. fold rows. destruct (decide _); [done|]. by destruct (sessions (nd_db w) !! k).
Qed.

(** What a balancing step achieves: above its share a worker lets go of its
    surplus, two sessions at most, as far as it has usable ones, and of nothing
    else; below it takes what it lacks, eight at most, as far as there is room
    and there are orphans, and nothing else; at its share it does nothing. *)
Definition balanced (locked : nat → gset string) (cutoff : Z) (w w' : node) : Prop :=
  let '(mine, total, alive) := WorkerLoad workerID cutoff (nd_db w) in
  let mine := Z.of_nat mine in
  let share := fair_share total alive in
  if (share <? mine)%Z then
    ∃ gone, NoDup gone ∧ gone ⊆ able w ∧
      Z.of_nat (length gone) = Z.min (Z.min (mine - share) 2) (Z.of_nat (length (able w))) ∧
      (∀ k, k ∈ gone → nd_held w' !! k = None ∧ ∀ s, sessions (nd_db w') !! k = Some s → s_worker s = None) ∧
      (∀ k, k ∉ gone → nd_held w' !! k = nd_held w !! k ∧ sessions (nd_db w') !! k = sessions (nd_db w) !! k) ∧
      ((∀ k, k ∈ gone → ∃ s, sessions (nd_db w) !! k = Some s ∧ owned_authorized workerID s = true) →
       Z.of_nat (WorkerLoad workerID cutoff (nd_db w')).1.1 = (mine - Z.of_nat (length gone))%Z)
  else
    let lack := Z.max 0 (Z.min (Z.min (share - mine) 8) (capacity - Z.of_nat (size (nd_held w)))) in
    ∃ claimed, NoDup claimed ∧
      Z.of_nat (length claimed) = Z.min lack (Z.of_nat (free_orphans (locked (S (S (nd_tick w)))) cutoff (nd_db w))) ∧
      (∀ k, k ∈ claimed → ∃ s, sessions (nd_db w) !! k = Some s ∧ orphan (nd_db w) cutoff s = true ∧
         ∀ s', sessions (nd_db w') !! k = Some s' → s_worker s' = Some workerID) ∧
      (∀ k, k ∉ claimed → sessions (nd_db w') !! k = sessions (nd_db w) !! k).

Lemma balance_balanced locked cutoff w : (∀ i, up i = true) → (∀ i l, order i l ≡ₚ l) →
  balanced locked cutoff w (balance locked cutoff w).2.
Proof.
  intros Hup Hord. unfold balanced. pose proof (balance_up locked cutoff w Hup) as Hb.
  pose proof (mine_spec cutoff (nd_db w)) as Hm.
  destruct (WorkerLoad workerID cutoff (nd_db w)) as [[mine total] alive]. cbv zeta in *. cbn [fst] in Hm. subst mine.
  set (share := fair_share total alive) in *. clearbody share. rewrite Hb. clear Hb.
  destruct (Z.ltb_spec share (Z.of_nat (mine_of (nd_db w)))) as [Hlt|Hge].
  - set (n := Z.to_nat _). destruct (shed_exact n (n_set_tick (S (S (nd_tick w))) w) Hup Hord) as (gone&H1&H2&H3&H4&H5).
    exists gone. split; [done|]. split; [done|]. split; [rewrite H3; unfold n, shedPerTick; change (able (n_set_tick _ w)) with (able w); lia|].
    split; [done|]. split; [done|]. intros Hown. rewrite mine_spec. cbn [n_set_tick nd_db] in H5. set (w' := (shed _ _ _ _ _).2) in *.
    assert (Hge : (mine_of (nd_db w') + length gone <= mine_of (nd_db w))%nat).
    { apply affected_ge; [done|..].
      - intros k Hk. split; [by apply Hown|]. intros s' Hs'. unfold owned_authorized. by rewrite (proj2 (H4 k Hk) s' Hs').
      - intros k s' Hs' Ho. destruct (decide (k ∈ gone)) as [Hk|Hk]; [by apply Hown|]. exists s'. by rewrite <- (proj2 (H5 k Hk)). }
    assert (Hle : (mine_of (nd_db w) <= mine_of (nd_db w') + length gone)%nat).
    { apply affected_le. intros k s Hs Ho. destruct (decide (k ∈ gone)) as [Hk|Hk]; [by right|left]. exists s. by rewrite (proj2 (H5 k Hk)). }
    lia.
  - set (room := Z.min _ (capacity - _)). unfold claimBatch in room. destruct (Z.ltb_spec 0 room) as [Hr|Hr].
    + set (t := S (S (nd_tick w))).
      destruct (claim_exact (clock (S t)) (locked t) cutoff (Z.to_nat room) (S (S t)) w) as (cl&H1&H2&H3&H4).
      exists cl. split; [done|]. split; [rewrite H2; lia|]. by split.
    + exists []. split; [constructor|]. split; [simpl; lia|]. split; [by intros k ?%not_elem_of_nil|done].
Qed.

(** C23: Balancing reaches for the fair share and never overshoots it. With the
    load the registry reports, a worker above its share sheds at most two
    sessions and stays at or above it; one at or below its share ends at or
    below it, so no session is claimed only to be shed again; and claiming
    never takes a worker past its capacity, whatever the registry and TDLib
    answer on the way. And when the registry answers and the walk of the live
    map meets every entry, it does get closer: above the share exactly the
    surplus is let go, two at most, as far as there are sessions with a usable
    client; below it exactly what lacks is claimed, eight at most, as far as
    there is room and there are orphans no concurrent claim holds; no other
    session changes its owner. *)
Theorem balance_no_overshoot locked cutoff w :
  let w' := (balance locked cutoff w).2 in
  let '(mine, total, alive) := WorkerLoad workerID cutoff (nd_db w) in
  let mine' := (WorkerLoad workerID cutoff (nd_db w')).1.1 in
  let share := fair_share total alive in
  ((share < Z.of_nat mine → share <= Z.of_nat mine' ∧ Z.of_nat mine - 2 <= Z.of_nat mine') ∧
   (Z.of_nat mine <= share → Z.of_nat mine' <= share) ∧
   Z.of_nat (size (nd_held w')) <= Z.max (Z.of_nat (size (nd_held w))) capacity)%Z ∧
  ((∀ i, up i = true) → (∀ i l, order i l ≡ₚ l) → balanced locked cutoff w w').
Proof.
  pose proof (balance_cases locked cutoff w) as Hc. pose proof (mine_spec cutoff (nd_db w)) as Hm.
  pose proof (balance_balanced locked cutoff w) as Hbal. cbv zeta. set (w' := (balance locked cutoff w).2) in *. clearbody w'.
  destruct (WorkerLoad workerID cutoff (nd_db w)) as [[mine total] alive]. cbv zeta in *. cbn [fst] in Hm. subst mine.
  split; [clear Hbal|exact Hbal].
  rewrite mine_spec. set (share := fair_share total alive) in *. clearbody share.
  destruct Hc as [[t ->]|[(t&Hlt& ->)|(limit&now&busy&t&Hl1&Hl2& ->)]].
  - cbn [n_set_tick nd_db nd_held]. lia.
  - destruct (releases_shed (Z.to_nat (Z.min (Z.of_nat (mine_of (nd_db w)) - share) shedPerTick)) (n_set_tick t w))
      as (ids&Hlen&_&Hr).
    pose proof (mine_shed _ _ _ Hr) as H1. pose proof (held_shed _ _ _ Hr) as H2. cbn [n_set_tick nd_db nd_held] in *.
    unfold shedPerTick in *. lia.
  - destruct (claim_reopen now busy cutoff limit t w) as [H1 H2]. lia.
Qed.
(** ** What a pass does to a session held *)

Notation reconcile := (reconcile clock up opens order quote box workerID capacity).

(** The registry knows the session as this worker's, and would not hand it out:
    the worker is seen alive, or the session is a login still waiting. *)
Definition kept_row (cutoff : Z) (sid : string) (d : db) : Prop :=
  ∃ s, sessions d !! sid = Some s ∧ s_worker s = Some workerID ∧
    (Registry.live d cutoff workerID = true ∨ authorized s = false).

(** Invariant of a pass up to its last step. *)
Definition kept (cutoff : Z) (sid : string) (h : held) (log : list life) (w : node) : Prop :=
  nd_held w !! sid = Some h ∧ kept_row cutoff sid (nd_db w) ∧ (Opened sid ∈ nd_log w → Opened sid ∈ log).

Definition keeping cutoff sid h log : relation node := λ w w', kept cutoff sid h log w → kept cutoff sid h log w'.

#[local] Instance keeping_preorder cutoff sid h log : PreOrder (keeping cutoff sid h log).
Proof. split; [intros w H; exact H|]. intros w1 w2 w3 H1 H2 H. exact (H2 (H1 H)). Qed.
#[local] Instance keeping_timeless cutoff sid h log : Timeless (keeping cutoff sid h log).
Proof. intros t w H. exact H. Qed.

Lemma live_workers d d' cutoff x : workers d' = workers d → Registry.live d' cutoff x = Registry.live d cutoff x.
Proof. intros E. unfold Registry.live. by rewrite E. Qed.

Lemma keeping_touches cutoff sid h log ids w w' : sid ∉ ids → touches ids w w' → keeping cutoff sid h log w w'.
Proof.
  intros Hn [T1 T2 T3 T4 T5] (H1&(s&Hs&Ho&Hl)&H3). split; [by rewrite T1|]. split.
  - exists s. rewrite T2 by done. split; [done|]. split; [done|]. by rewrite (live_workers _ _ _ _ T4).
  - intros [|]%T5; [by apply H3|done].
Qed.

Lemma keeping_reap cutoff sid h log : moves (keeping cutoff sid h log) (reap clock up cutoff).
Proof.
  unfold reap. apply moves_bind; [apply _|apply moves_stmt; [apply _..|]|intros; apply moves_ret, _].
  intros w now (H1&(s&Hs&Ho&Hl)&H3). split; [done|]. split; [|done]. simpl. unfold kept_row.
  cbn [sessions with_sessions]. rewrite lookup_update_where, Hs.
  eexists. split; [reflexivity|]. destruct (stale_login (nd_db w) cutoff staleLoginGrace now s); [|by split].
  split; [done|]. destruct Hl; [by left|by right].
Qed.

Lemma keeping_fence cutoff sid h log : moves (keeping cutoff sid h log) (fence clock up workerID cutoff).
Proof.
  intros w. unfold fence, nbind at 1, nget. cbn [fst snd]. unfold nbind at 1.
  destruct (stmt_run clock up (λ _ d, (ForeignOwned workerID (elements (dom (nd_held w))) cutoff d, d)) w) as (t&now&->).
  intros Hk. destruct (up (nd_tick w)); cbn [fst snd]; [|exact Hk].
  assert (Hn : sid ∉ ForeignOwned workerID (elements (dom (nd_held w))) cutoff (nd_db w)).
  { destruct Hk as (_&(s&Hs&Ho&_)&_). unfold ForeignOwned. destruct (bool_decide _); [by intros ?%not_elem_of_nil|].
    intros ([k s']&->&[Hs' Hf]%elem_of_select)%list_elem_of_fmap. simpl in *. simplify_eq.
    rewrite Ho in Hf. bool_props. naive_solver. }
  match goal with |- kept _ _ _ _ (neach ?f ?l ?w1).2 => cut (moves (keeping cutoff sid h log) (neach f l));
    [intros Hm; exact (Hm w1 Hk)|] end.
  apply moves_each; [apply _|]. clear Hk. intros k Hk w1. unfold nbind at 1. cbn [fst snd].
  assert (Hne : sid ≠ k) by (intros ->; done). destruct (ready w1 k).
  - revert w1. apply moves_bind; [apply _|apply moves_stmt; [apply _..|]|intros; apply moves_ret, _].
    intros w1 now' (H1&(s&Hs&Ho&Hl)&H3). split; [done|]. split; [|done].
    exists s. simpl. by rewrite lookup_alter_ne.
  - intros (H1&H2&H3). split; [|done]. simpl. by rewrite lookup_delete_ne.
Qed.

Lemma keeping_adopt cutoff sid h log :
  moves (keeping cutoff sid h log) (adopt clock up opens quote box workerID).
Proof.
  unfold adopt. apply moves_bind; [apply _|apply moves_stmt; [apply _..|]; intros w _ H; exact H|].
  intros [owned|]; [|apply moves_ret, _]. apply moves_each; [apply _|]. intros r _ w.
  unfold nbind at 1, nget. cbn [fst snd]. destruct (has (rh_id r) (nd_held w)) eqn:Eh; [by intros|].
  intros Hk. apply (keeping_touches cutoff sid h log [rh_id r] w); [|apply (touches_reopen [r] w)|done].
  intros ->%list_elem_of_singleton. apply not_true_iff_false in Eh. apply Eh, has_spec. destruct Hk as (?&_). by eexists.
Qed.

(** The pieces of a pass only add to the log. *)
Ltac run_grows := repeat match goal with
  | |- moves grows (nbind _ _) => apply moves_bind; [apply _| |intros ?]
  | |- moves grows (nret _) => apply moves_ret, _
  | |- moves grows nget => apply moves_get, _
  | |- moves grows (nask _) => apply moves_ask; apply _
  | |- moves grows (read _ _ _) => apply moves_read; apply _
  | |- moves grows (stmt _ _ _) => apply moves_stmt; [apply _..|intros; by exists []]
  | |- moves grows (neach _ _) => apply moves_each; [apply _|intros ? ?]
  | |- moves grows (nupd _) => intros ?; first [by exists []|by eexists [_]]
  | |- moves grows (match ?x with _ => _ end) => destruct x
  end.

Lemma grows_hydrate r : moves grows (hydrate r).
Proof.
  unfold Worker.hydrate, retryReady, Worker.rehydrateOne, proxyRequest, put, RefreshSubscriptions, loadHeldGuard,
    open_failed, open_done, drop, clearRetry, Worker.backoff. cbv zeta. run_grows.
Qed.

Lemma grows_pass cutoff w :
  grows w (adopt clock up opens quote box workerID (fence clock up workerID cutoff (reap clock up cutoff w).2).2).2.
Proof.
  assert (H1 : moves grows (reap clock up cutoff)) by (unfold reap; run_grows).
  assert (H2 : moves grows (fence clock up workerID cutoff)) by (unfold fence, drop; run_grows).
  assert (H3 : moves grows (adopt clock up opens quote box workerID)) by (unfold adopt; run_grows; apply grows_hydrate).
  etrans; [apply H1|]. etrans; [apply H2|apply H3].
Qed.

Lemma reconcile_run locked w :
  (reconcile locked w).2 =
    if nd_stopping w then w
    else
      let cutoff := (clock (nd_tick w) - workerStale)%Z in
      let w0 := n_set_tick (S (nd_tick w)) w in
      (balance locked cutoff (adopt clock up opens quote box workerID
        (fence clock up workerID cutoff (reap clock up cutoff w0).2).2).2).2.
Proof. unfold Worker.reconcile, nbind, nget. simpl. by destruct (nd_stopping w). Qed.


(** ** Shutting down *)

Context (selfAddr : string).
Notation Shutdown := (Shutdown clock up order workerID).

(** The statements of a shutdown that the registry answers. *)
Lemma stmt_up {A} (f : Z → db → A * db) w : (∀ i, up i = true) →
  ∃ t now, (stmt clock up f w).2 = n_set_tick t (n_set_db (λ _, (f now (nd_db w)).2) w).
Proof. intros Hup. destruct (stmt_run clock up f w) as (t&now&->). rewrite Hup. by exists t, now. Qed.

Lemma Shutdown_run w : (∀ i, up i = true) →
  let walk := order (nd_tick w) (elements (dom (nd_held w))) in
  let w0 := n_set_stopping true w in
  let w1 := (abort_pending w0 walk (n_set_tick (S (nd_tick w)) w0)).2 in
  let w2 := (close_ready w0 walk w1).2 in
  ∃ t now, (Shutdown w).2 =
    n_set_tick t (n_set_db (λ _, DeregisterWorker workerID (ReleaseSessions now workerID (nd_db w2)).2) w2).
Proof.
  intros Hup walk w0 w1 w2.
  destruct (stmt_up (λ now d, ReleaseSessions now workerID d) w2 Hup) as (t1&now&E1).
  set (w3 := (stmt clock up (λ now d, ReleaseSessions now workerID d) w2).2) in *.
  destruct (stmt_up (λ _ d, ((), DeregisterWorker workerID d)) w3 Hup) as (t2&now2&E2).
  exists t2, now. change ((Shutdown w).2) with (stmt clock up (λ _ d, ((), DeregisterWorker workerID d)) w3).2.
  rewrite E2, E1. done.
Qed.

Lemma n_abort_login_same b w :
  nd_db (n_abort_login b w) = nd_db w ∧ nd_stopping (n_abort_login b w) = nd_stopping w ∧ grows w (n_abort_login b w).
Proof.
  unfold n_abort_login. destruct (nd_held w !! b) as [h|]; [destruct (abortLogin (hd_live h)).1|];
    (split; [done|split; [done|]]); first [by exists []|by eexists [_]].
Qed.

(** What one step of the walk does to a login that waits. *)
Lemma n_abort_login_entry b w k h : nd_held w !! k = Some h → lv_done (hd_live h) = Some false →
  ∃ h', nd_held (n_abort_login b w) !! k = Some h' ∧ lv_done (hd_live h') = Some false ∧
    (b ≠ k → lv_canceled (hd_live h') = lv_canceled (hd_live h)) ∧
    (lv_canceled (hd_live h) = true ∨ b = k → lv_canceled (hd_live h') = true) ∧
    (b = k → lv_canceled (hd_live h) = false → happened (Aborted k (nd_db w)) w (n_abort_login b w)).
Proof.
  intros Hh Hd. destruct (decide (b = k)) as [->|Hne].
  - destruct (lv_canceled (hd_live h)) eqn:Ec.
    + assert (Ea : abortLogin (hd_live h) = (false, hd_live h)) by (unfold abortLogin; by rewrite Hd, Ec).
      exists (h_set_live (hd_live h) h). unfold n_abort_login. rewrite Hh, Ea. cbn [fst nd_held n_set_held].
      rewrite lookup_alter_eq, Hh. cbn. by rewrite Ea, Ec.
    + assert (Ea : abortLogin (hd_live h) = (true, l_set_cancel true (hd_live h))) by (unfold abortLogin; by rewrite Hd, Ec).
      exists (h_set_live (l_set_cancel true (hd_live h)) h). unfold n_abort_login. rewrite Hh, Ea. cbn [fst nd_held n_set_held n_abort n_log].
      rewrite lookup_alter_eq, Hh. cbn. rewrite Ea. repeat (split; [done|]). intros _ _. exists [Aborted k (nd_db w)]. split; [done|left].
  - exists h. split; [|split; [done|split; [done|split; [by intros [|]|done]]]].
    unfold n_abort_login. cbn [nd_held n_set_held]. rewrite lookup_alter_ne by done.
    by destruct (match nd_held w !! b with Some _ => _ | None => _ end).
Qed.

Lemma abort_pending_does w0 walk w k h :
  k ∈ walk → nd_held w !! k = Some h → ready w0 k = false → lv_done (hd_live h) = Some false →
  let w' := (abort_pending w0 walk w).2 in
  (lv_canceled (hd_live h) = false → happened (Aborted k (nd_db w)) w w') ∧
  ∃ h', nd_held w' !! k = Some h' ∧ lv_canceled (hd_live h') = true.
Proof.
  intros Hk Hh Hr Hd. cbv zeta.
  set (base := λ w1 : node, nd_db w1 = nd_db w ∧ grows w w1).
  set (Q := λ w1 : node, base w1 ∧ (lv_canceled (hd_live h) = false → happened (Aborted k (nd_db w)) w w1) ∧
    ∃ h', nd_held w1 !! k = Some h' ∧ lv_done (hd_live h') = Some false ∧ lv_canceled (hd_live h') = true).
  set (P := λ w1 : node, Q w1 ∨ base w1 ∧
    ∃ h', nd_held w1 !! k = Some h' ∧ lv_done (hd_live h') = Some false ∧ lv_canceled (hd_live h') = lv_canceled (hd_live h)).
  set (f := λ b : string, if ready w0 b then nret () else nupd (n_abort_login b)).
  assert (HQ : ∀ b w1, Q w1 → Q (f b w1).2).
  { intros b w1 ([Ed Hg]&Ha&h1&H1&D1&C1). unfold f. destruct (ready w0 b); [by split; [|split; [|exists h1]]|]. cbn [nupd snd].
    destruct (n_abort_login_same b w1) as (E1&_&E2). destruct (n_abort_login_entry b w1 k h1 H1 D1) as (h2&H2&D2&_&C2&_).
    split; [split; [congruence|by etrans]|]. split; [intros Hc; eapply happened_after; [by apply Ha|exact E2]|].
    exists h2. split; [done|]. split; [done|]. apply C2. by left. }
  assert (HP : ∀ b w1, P w1 → P (f b w1).2 ∧ (b = k → Q (f b w1).2)).
  { intros b w1 [HQ1|([Ed Hg]&h1&H1&D1&C1)]; [split; [left; by apply HQ|intros _; by apply HQ]|]. unfold f.
    destruct (ready w0 b) eqn:Eb; [split; [right; split; [done|by exists h1]|intros ->; congruence]|]. cbn [nupd snd].
    destruct (n_abort_login_same b w1) as (E1&_&E2).
    destruct (n_abort_login_entry b w1 k h1 H1 D1) as (h2&H2&D2&N2&C2&A2).
    assert (Hb : base (n_abort_login b w1)) by (split; [congruence|by etrans]).
    assert (Hq : b = k → Q (n_abort_login b w1)).
    { intros Eb'. split; [done|]. split; [|exists h2; split; [done|split; [done|apply C2; by right]]].
      intros Hc. rewrite <- Ed. eapply happened_before; [exact Hg|]. apply A2; [done|congruence]. }
    split; [|exact Hq]. destruct (decide (b = k)) as [Ek|Ek]; [left; by apply Hq|right]. split; [done|].
    exists h2. split; [done|]. split; [done|]. rewrite N2 by done. exact C1. }
  cut (Q (neach f walk w).2); [intros (_&Ha&h'&?&_&?); split; [exact Ha|by exists h']|].
  apply (each_does P Q f walk k w Hk); [|intros b w1 H; by apply HP|intros w1 H; by apply HP|exact HQ].
  right. split; [split; [done|by exists []]|]. by exists h.
Qed.

Lemma close_ready_does w0 walk w k : k ∈ walk → ready w0 k = true →
  happened (Closed k (nd_db w)) w (close_ready w0 walk w).2.
Proof.
  intros Hk Hr. unfold close_ready.
  assert (Hstep : ∀ b w1, nd_db w1 = nd_db w ∧ grows w w1 →
    let w2 := ((if ready w0 b then nupd (n_close b) else nret ()) w1).2 in nd_db w2 = nd_db w ∧ grows w w2).
  { intros b w1 [Ed Hg]. destruct (ready w0 b); [|done]. split; [done|]. etrans; [exact Hg|]. by exists [Closed b (nd_db w1)]. }
  apply (each_does (λ w1, nd_db w1 = nd_db w ∧ grows w w1) (λ w1, happened (Closed k (nd_db w)) w w1) _ walk k w Hk);
    [split; [done|by exists []]|exact Hstep|..].
  - intros w1 [Ed Hg]. rewrite Hr. eapply happened_before; [exact Hg|]. exists [Closed k (nd_db w1)]. rewrite <- Ed. split; [done|left].
  - intros b w1 H1. eapply happened_after; [exact H1|]. destruct (ready w0 b); [by exists [Closed b (nd_db w1)]|by exists []].
Qed.

(** The loops leave the registry and the entries' presence alone. *)
Definition same_db : relation node := λ w w', nd_db w' = nd_db w.
#[local] Instance same_db_preorder : PreOrder same_db.
Proof. split; [by intros w|]. intros w1 w2 w3 H1 H2. unfold same_db in *. congruence. Qed.

Lemma abort_pending_db w0 walk : moves same_db (abort_pending w0 walk).
Proof. apply moves_each; [apply _|]. intros k _ w. destruct (ready w0 k); [done|]. apply n_abort_login_same. Qed.

Lemma close_ready_db w0 walk : moves same_db (close_ready w0 walk).
Proof. apply moves_each; [apply _|]. intros k _ w. by destruct (ready w0 k). Qed.

Lemma abort_pending_stop w0 walk : moves (λ w w', nd_stopping w' = nd_stopping w) (abort_pending w0 walk).
Proof.
  apply moves_each.
  - split; [by intros w|]. intros w1 w2 w3 H1 H2. by rewrite H2.
  - intros k _ w. destruct (ready w0 k); [done|]. apply n_abort_login_same.
Qed.

Lemma abort_pending_grows w0 walk : moves grows (abort_pending w0 walk).
Proof.
  apply moves_each; [apply _|]. intros k _ w. destruct (ready w0 k); [by exists []|]. apply n_abort_login_same.
Qed.

Lemma close_ready_grows w0 walk : moves grows (close_ready w0 walk).
Proof. unfold close_ready. run_grows. Qed.

Definition same_held : relation node := λ w w', nd_held w' = nd_held w ∧ nd_stopping w' = nd_stopping w.
#[local] Instance same_held_preorder : PreOrder same_held.
Proof. split; [by intros w|]. intros w1 w2 w3 [] []. split; congruence. Qed.

Lemma close_ready_held w0 walk : moves same_held (close_ready w0 walk).
Proof. apply moves_each; [apply _|]. intros k _ w. by destruct (ready w0 k). Qed.
(** A peer with room takes every orphan that no concurrent claim holds. *)
Lemma claim_takes_all now busy peer cutoff limit d k s :
  sessions d !! k = Some s → orphan d cutoff s = true → k ∉ busy →
  (affected (λ _ s, orphan d cutoff s) (sessions d) <= limit)%nat →
  k ∈ rh_id <$> (ClaimOrphans now busy peer cutoff limit d).1.
Proof.
  intros Hs Ho Hb Hn. unfold ClaimOrphans. cbn [fst]. rewrite ids_to_rehydratable. unfold claim_rows.
  rewrite take_ge.
  - apply list_elem_of_fmap. exists (k, s). split; [done|]. apply elem_of_order_by, elem_of_select.
    split; [done|]. by rewrite Ho, bool_decide_eq_true_2.
  - rewrite order_by_perm. etrans; [|exact Hn].
    rewrite <- (Nat.add_0_r (affected _ _)). change 0%nat with (length (@nil string)).
    apply (affected_le (λ _ s, orphan d cutoff s) (λ k s, orphan d cutoff s && bool_decide (k ∉ busy))).
    intros k' s' Hs' Hq. left. exists s'. split; [done|]. by apply andb_true_iff in Hq as [? _].
Qed.

(** The rows after a worker has released its sessions and left. *)
Lemma released_row now d k s :
  sessions d !! k = Some s →
  sessions (DeregisterWorker workerID (ReleaseSessions now workerID d).2) !! k =
    Some (if owned_authorized workerID s then s_touch now (s_set_worker None s) else s).
Proof. intros Hs. simpl. by rewrite lookup_update_where, Hs. Qed.

Lemma released_mine now d : mine_of (DeregisterWorker workerID (ReleaseSessions now workerID d).2) = 0%nat.
Proof.
  unfold mine_of, affected. apply length_zero_iff_nil, elem_of_nil_inv. intros [k s]. rewrite elem_of_select.
  simpl. rewrite lookup_update_where. destruct (sessions d !! k) as [s0|]; [|naive_solver].
  intros [[= <-] Ho]. destruct (owned_authorized workerID s0) eqn:E; [done|congruence].
Qed.

(** ** Reopening *)

Lemma read_at {A} (f : db → Prelude.res dberr A) w :
  read clock up f w =
    (match (if up (nd_tick w) then f (nd_db w) else Err DbNoRows) with Ok a => Ok a | Err _ => Err (EMsg "database") end,
     n_set_tick (2 + nd_tick w) w).
Proof. unfold read, nbind. rewrite stmt_at. by destruct (up (nd_tick w)); [destruct (f (nd_db w))|]. Qed.

Lemma read_run {A} (f : db → Prelude.res dberr A) w : ∃ t, (read clock up f w).2 = n_set_tick t w.
Proof. exists (2 + nd_tick w)%nat. by rewrite read_at. Qed.

(** How many questions looking up a proxy asks. *)
Definition proxy_ticks (pid : string) : nat := if String.eqb pid "" then 0 else 2.

Lemma proxyRequest_at pid w : (proxyRequest clock up quote box pid w).2 = n_set_tick (proxy_ticks pid + nd_tick w) w.
Proof.
  unfold proxyRequest, proxy_ticks. destruct (String.eqb pid ""); [by destruct w|]. unfold nbind. rewrite read_at. cbn [fst snd].
  destruct (match (if up (nd_tick w) then _ else _) with Ok _ => _ | Err _ => _ end) as [p|]; [|done].
  destruct (match Px_SecretEnc p with Some _ => _ | None => _ end); [|done].
  by repeat (destruct (String.eqb _ _); [done|]).
Qed.

Lemma proxyRequest_run pid w : ∃ t, (proxyRequest clock up quote box pid w).2 = n_set_tick t w.
Proof. eexists. apply proxyRequest_at. Qed.

Lemma refresh_at sid h w : nd_held w !! sid = Some h →
  (RefreshSubscriptions clock up sid w).2 = n_set_tick (2 + nd_tick w)
    (n_set_held (alter (h_set_subs (if up (nd_tick w) then newSnapshot (SubscriptionFilters [sid] (nd_db w)) else hd_subs h)) sid) w).
Proof.
  intros Hh. unfold RefreshSubscriptions, nbind, nget. cbn [fst snd].
  assert (Hhas : has sid (nd_held w) = true) by (apply has_spec; by exists h). rewrite Hhas, stmt_at.
  destruct (up (nd_tick w)); cbn [fst snd]; [done|].
  unfold nret, n_set_held, n_set_tick. cbn. f_equal. apply map_eq. intros k.
  destruct (decide (k = sid)) as [->|Hne]; [|by rewrite lookup_alter_ne].
  rewrite lookup_alter_eq, Hh. by destruct h.
Qed.

Lemma refresh_run sid h w : nd_held w !! sid = Some h → ∃ t sn,
  (RefreshSubscriptions clock up sid w).2 = n_set_tick t (n_set_held (alter (h_set_subs sn) sid) w) ∧
  (sn = hd_subs h ∨ sn = newSnapshot (SubscriptionFilters [sid] (nd_db w))).
Proof. intros Hh. do 2 eexists. split; [by apply refresh_at|]. destruct (up (nd_tick w)); [by right|by left]. Qed.

Lemma guard_at sid h w : nd_held w !! sid = Some h →
  (loadHeldGuard clock up sid w).2 =
    n_set_tick (2 + nd_tick w) (n_set_held (alter (h_set_guard
      (loadGuard (clock (S (nd_tick w))) sid (up (nd_tick w)) (nd_db w) (hd_guard h))) sid) w).
Proof.
  intros Hh. unfold loadHeldGuard, nbind, nask, nget, nupd, n_set_held, n_set_tick. cbn. f_equal. apply map_eq. intros k.
  destruct (decide (k = sid)) as [->|Hne]; [|by rewrite !lookup_alter_ne]. by rewrite !lookup_alter_eq, Hh.
Qed.

Lemma guard_run sid h w : nd_held w !! sid = Some h → ∃ t now ok,
  (loadHeldGuard clock up sid w).2 =
    n_set_tick t (n_set_held (alter (h_set_guard (loadGuard now sid ok (nd_db w) (hd_guard h))) sid) w).
Proof. intros Hh. do 3 eexists. by apply guard_at. Qed.

(** The status written at the [i]-th question, if the registry answers it. *)
Definition mirrored (i : nat) (sid st : string) (d : db) : db :=
  if up i then UpdateSessionStatus (clock (S i)) sid st d else d.

Lemma failed_run sid e w :
  let w' := (open_failed clock up sid e w).2 in
  nd_log w' = nd_log w ∧ nd_held w' !! sid = None ∧
  if is_expired e then nd_retry w' !! sid = None ∧ nd_db w' = mirrored (nd_tick w) sid "expired" (nd_db w)
  else nd_db w' = nd_db w ∧ nd_retry w' !! sid = Some (clock (nd_tick w) + openBackoff)%Z.
Proof.
  unfold open_failed, nbind at 1, drop, nupd at 1. cbn [fst snd]. destruct (is_expired e).
  - unfold nbind, clearRetry, nupd, nret, mirrored. cbn [fst snd]. rewrite stmt_at. cbn.
    destruct (up (nd_tick w)); simpl; by rewrite !lookup_delete_eq.
  - unfold backoff, nbind, nask, nupd. simpl. by rewrite lookup_delete_eq, lookup_insert_eq.
Qed.

Lemma done_run sid h w : nd_held w !! sid = Some h →
  let w' := (open_done clock up sid w).2 in
  nd_log w' = nd_log w ∧ nd_retry w' !! sid = None ∧
  nd_held w' !! sid = Some (h_set_live (setClient (hd_live h)) h) ∧
  nd_db w' = mirrored (nd_tick w) sid "authorized" (nd_db w).
Proof.
  intros Hh. unfold open_done, nbind, clearRetry, nupd, nret, mirrored. cbn [fst snd]. rewrite stmt_at. cbn.
  destruct (up (nd_tick w)); simpl; by rewrite lookup_delete_eq, lookup_alter_eq, Hh.
Qed.

Lemma mirrored_expired i sid d : up i = true →
  ∀ s, sessions (mirrored i sid "expired" d) !! sid = Some s → hydratable s = false.
Proof.
  intros Hi s. unfold mirrored. rewrite Hi. simpl. rewrite lookup_alter_eq.
  destruct (sessions d !! sid); [|done]. by intros [= <-].
Qed.

(** What a session is reopened with: the registry answered for its application
    and, if it has one, its proxy, and the secrets could be decrypted. *)
Definition inputs (r : Rehydratable) (w : node) (app : App) (hash : string) (px : option AddProxyRequest) (key : string) : Prop :=
  up (nd_tick w) = true ∧ GetApp (rh_app r) (nd_db w) = Ok app ∧ decrypt box (App_HashEnc app) = Ok hash ∧
  (proxyRequest clock up quote box (rh_proxy r) (n_set_tick (2 + nd_tick w) w)).1 = Ok px ∧
  decrypt box (rh_db_key_enc r) = Ok key.

(** What an attempt to reopen [r] from [w] leaves; [i] numbers its first
    question after the inputs. *)
Definition reopened (r : Rehydratable) (i : nat) (w : node) (res : option gerr) (w' : node) : Prop :=
  let sid := rh_id r in
  nd_log w' = Opened sid :: nd_log w ∧
  match res with
  | None =>
      nd_retry w' !! sid = None ∧ nd_db w' = mirrored (i + 5) sid "authorized" (nd_db w) ∧
      ∃ h, nd_held w' !! sid = Some h ∧ readyClient (hd_live h) = true ∧ hd_kind h = rh_kind r ∧
           hd_subs h = (if up i then newSnapshot (SubscriptionFilters [sid] (nd_db w)) else None) ∧
           hd_guard h = loadGuard (clock (i + 3)) sid (up (i + 2)) (nd_db w) new_guard
  | Some e =>
      nd_held w' !! sid = None ∧
      if is_expired e then
        nd_retry w' !! sid = None ∧ nd_db w' = mirrored (i + 5) sid "expired" (nd_db w) ∧
        (up (i + 5) = true → ∀ s, sessions (nd_db w') !! sid = Some s → hydratable s = false)
      else nd_db w' = nd_db w ∧ nd_retry w' !! sid = Some (clock (i + 5) + openBackoff)%Z
  end.

(** The part after the inputs. *)
Lemma reopen_rest r p px w :
  let run := (let+ _ := put (rh_id r) (new_held (rh_kind r)) in
      let+ _ := RefreshSubscriptions clock up (rh_id r) in
      let+ _ := loadHeldGuard clock up (rh_id r) in
      let+ _ := nupd (n_log (Opened (rh_id r))) in
      let+ res := nask (λ i, opens i p px) in
      let+ _ := match res with Some e => open_failed clock up (rh_id r) e | None => open_done clock up (rh_id r) end in
      nret res) in
  (run w).1 = opens (nd_tick w + 4) p px ∧ reopened r (nd_tick w) w (run w).1 (run w).2.
Proof.
  intros run. unfold run, nbind, put, nupd, nask, nret. cbn [fst snd]. clear run.
  set (w1 := n_set_held <[rh_id r := new_held (rh_kind r)]> w).
  pose proof (refresh_at (rh_id r) (new_held (rh_kind r)) w1 (lookup_insert_eq _ _ _)) as Ew.
  set (w2 := (RefreshSubscriptions clock up (rh_id r) w1).2) in *. set (sn := if up (nd_tick w1) then _ else _) in Ew.
  assert (Hsn : sn = if up (nd_tick w) then newSnapshot (SubscriptionFilters [rh_id r] (nd_db w)) else None) by done.
  clearbody sn.
  assert (H2 : nd_held w2 !! rh_id r = Some (h_set_subs sn (new_held (rh_kind r)))).
  { rewrite Ew. simpl. by rewrite lookup_alter_eq, lookup_insert_eq. }
  pose proof (guard_at _ _ _ H2) as Eg. set (w3 := (loadHeldGuard clock up (rh_id r) w2).2) in *. set (g := loadGuard _ _ _ _ _) in Eg.
  assert (H3 : nd_held w3 !! rh_id r = Some (h_set_guard g (h_set_subs sn (new_held (rh_kind r))))).
  { rewrite Eg. simpl. by rewrite lookup_alter_eq, H2. }
  assert (Hw : nd_log w3 = nd_log w ∧ nd_db w3 = nd_db w ∧ nd_tick w3 = (nd_tick w + 4)%nat).
  { rewrite Eg, Ew. repeat split. cbn. lia. }
  assert (Hg : g = loadGuard (clock (nd_tick w + 3)) (rh_id r) (up (nd_tick w + 2)) (nd_db w) new_guard).
  { unfold g. rewrite Ew. cbn. do 2 f_equal; [f_equal; lia|]. do 2 f_equal. lia. }
  clearbody w3 g. clear Eg H2 Ew w2. destruct Hw as (Hlog&Hdb&Ht). subst g. clear w1.
  change (nd_tick (n_log (Opened (rh_id r)) w3)) with (nd_tick w3). rewrite Ht. split; [done|]. unfold reopened.
  set (w4 := n_set_tick _ (n_log _ w3)).
  assert (H4 : nd_tick w4 = (nd_tick w + 5)%nat) by (cbn; lia). destruct (opens (nd_tick w + 4) p px) as [e|].
  - pose proof (failed_run (rh_id r) e w4) as Hf. cbv zeta in Hf. rewrite H4 in Hf. cbn [w4 n_set_tick n_log nd_log nd_db] in Hf.
    rewrite Hlog, Hdb in Hf. destruct Hf as (Hl&Hh&Hc). split; [done|]. split; [done|]. destruct (is_expired e); [|done].
    destruct Hc as [Hr Ed]. split; [done|]. split; [done|]. intros Hu. rewrite Ed. by apply mirrored_expired.
  - pose proof (done_run (rh_id r) _ w4 H3) as Hd. cbv zeta in Hd. rewrite H4 in Hd. cbn [w4 n_set_tick n_log nd_log nd_db] in Hd.
    rewrite Hlog, Hdb in Hd. destruct Hd as (Hl&Hr&Hh&Ed). split; [done|]. split; [done|]. split; [done|].
    eexists. split; [exact Hh|]. cbn. by rewrite Hsn.
Qed.

(** C26: Reopening a session ends in one of four ways. Its inputs cannot be had
    (the registry does not answer for the application or the proxy, or a secret
    does not decrypt) and nothing changes but an error is reported; otherwise
    the directory is opened once, with these inputs, and TDLib's answer decides.
    When it opens, the session is held, usable and of its own kind, its
    subscriptions are those of the registry if that read was answered and none
    yet otherwise, its guard is restored as far as its read was answered, and
    the status is mirrored if that write was. When its binlog is no longer
    authorized, it is dropped and, if the write is answered, marked so that no
    worker tries again. On any other error it is dropped, its row left alone,
    and not tried again for twenty seconds. *)
Theorem reopen_outcomes r w :
  let '(res, w') := rehydrateOne r w in
  (∀ app hash px key, inputs r w app hash px key →
     let i := (2 + proxy_ticks (rh_proxy r) + nd_tick w)%nat in
     res = opens (i + 4) (buildParams (rh_db_dir r) key (App_APIID app) hash) px ∧ reopened r i w res w') ∧
  ((∀ app hash px key, ¬ inputs r w app hash px key) → w' = n_set_tick (nd_tick w') w ∧ is_Some res).
Proof.
  unfold Worker.rehydrateOne, nbind at 1. rewrite read_at. cbn [fst snd]. unfold inputs.
  destruct (up (nd_tick w)); [|by split; [intros ???? (?&_)|]].
  destruct (GetApp (rh_app r) (nd_db w)) as [app|e]; [|by split; [intros ???? (_&?&_)|]].
  destruct (decrypt box (App_HashEnc app)) as [hash|e] eqn:Eh.
  2: { split; [intros app' ??? (_&[= <-]&H&_); congruence|done]. }
  unfold nbind at 1. pose proof (proxyRequest_at (rh_proxy r) (n_set_tick (2 + nd_tick w) w)) as E2.
  destruct (proxyRequest clock up quote box (rh_proxy r) _) as [px w2]. cbn [fst snd] in E2 |- *. subst w2.
  destruct px as [px|e]; [|by split; [intros ???? (_&_&_&?&_)|]].
  destruct (decrypt box (rh_db_key_enc r)) as [key|e]; [|by split; [intros ???? (_&_&_&_&?)|]].
  set (i := (2 + proxy_ticks (rh_proxy r) + nd_tick w)%nat).
  change (nd_tick (n_set_tick (2 + nd_tick w) w)) with (2 + nd_tick w)%nat.
  replace (n_set_tick (proxy_ticks (rh_proxy r) + (2 + nd_tick w)) (n_set_tick (2 + nd_tick w) w)) with (n_set_tick i w)
    by (unfold i, n_set_tick; cbn; f_equal; lia).
  destruct (reopen_rest r (buildParams (rh_db_dir r) key (App_APIID app) hash) px (n_set_tick i w)) as [H1 H2].
  cbv zeta in H1, H2. change (nd_tick (n_set_tick i w)) with i in H1, H2.
  match type of H1 with (?run _).1 = _ => destruct (run (n_set_tick i w)) as [res w'] eqn:Er end. cbn [fst snd] in H1, H2.
  clear Er. split.
  - intros app' hash' px' key' (_&[= <-]&Eh'&[= <-]&[= <-]). rewrite Eh in Eh'. injection Eh' as <-. by split.
  - intros Hn. exfalso. by eapply Hn.
Qed.
End runs.

(** ** Examples *)

Definition ex_box : Box := mkBox (zeros 32).
Definition ex_ct : string := zeros 12 +:+ Seal (zeros 32) (zeros 12) "hash".

(** A session of worker [wid], authorized and on disk. *)
Definition ex_row (wid : string) (dir : string) : session_row :=
  mkSession "user" "app" None (Some "+1") None None "authorized" (Some dir) (Some ex_ct) (Some wid)
    0 0 None None None None.

(** Two workers with a session each; worker A was last seen at [seen]. *)
Definition ex_reg (seen : Z) : db :=
  with_workers (λ _, {["A" := mkWorker "http://a" seen; "B" := mkWorker "http://b" (100 * second)%Z]})
    (with_sessions (λ _, {["s" := ex_row "A" "/data/s"; "t" := ex_row "B" "/data/t"]})
       (with_apps (λ _, {["app" := mkApp 1 ex_ct None 0]}) empty_db)).

Definition ex_live : held := h_set_live (setClient (newLiveSession false)) (new_held "user").
Definition ex_login : held := mkHeld "user" (newLiveSession true) None new_guard.

(** Worker A holding the usable client of "s". *)
Definition ex_node (seen : Z) : node := mkNode 0 {["s" := ex_live]} ∅ false (ex_reg seen) [].

(** A directory whose lock the first client still holds. *)
Definition ex_locked : nat → tdParams → option AddProxyRequest → option gerr :=
  λ _ _ _, Some (EMsg "Can't lock file").
Definition ex_reconcile (w : node) : () * node :=
  reconcile (λ _, 100 * second)%Z (λ _, true) ex_locked (λ _ l, l)  (λ s, s) ex_box "A" 10 (λ _, ∅) w.


(** A worker whose own heartbeat has lapsed (a registry outage of half a minute
    is enough) sees its own sessions as orphans: it claims one it still holds,
    starts a second client on the directory, which fails because the first
    still has it locked, and drops the entry. The working client is neither
    closed nor reachable any more, and every later attempt fails the same way. *)
Example own_session_reclaimed :
  let w' := (ex_reconcile (ex_node 0)).2 in
  ready (ex_node 0) "s" = true ∧ nd_log w' = [Opened "s"] ∧ nd_held w' !! "s" = None ∧
  s_worker <$> sessions (nd_db w') !! "s" = Some (Some "A").
Proof. vm_compute. done. Qed.

(** A login that failed stays in the live map, and counts against the worker's
    capacity until somebody deletes the session. *)
Example failed_login_takes_room :
  let failed := mkHeld "user" (failLogin (λ s, s) (EMsg "login canceled") (newLiveSession true)) None new_guard in
  let reg := with_sessions (alter (s_set_worker None) "s") (ex_reg (100 * second)) in
  let pass held := reconcile (λ _, 100 * second)%Z (λ _, true) (λ _ _ _, None) (λ _ l, l)  (λ s, s) ex_box
    "A" 1 (λ _, ∅) (mkNode 0 held ∅ false reg []) in
  nd_log (pass ∅).2 = [Opened "s"] ∧ nd_log (pass {["x" := failed]}).2 = [].
Proof. vm_compute. done. Qed.

