(* ===== verification/Downloads.v ===== *)
(** Fetching files (internal/session/downloads.go, api/server.go): a local file
    id or a persistent remote id is turned into a file on the worker's disk.
    The monad and its world are Admit's; serving the bytes is net/http's. *)

From S2P Require Import Prelude GoStr Json Types Tdjson Quota Db Counters Chats Guard Admit Sends UploadStore LocalFiles Call Utf8 Sha256 Gcm Secret Subs Gateway Api.


(** [internal/session/downloads.go#ErrBadFileRef] *)
Definition ErrBadFileRef : gerr := EMsg "file_id must be an integer, or pass ?remote_id=".

Definition is_letter (c : ascii) : bool :=
  let n := nat_of_ascii c in ((65 <=? n) && (n <=? 90) || (97 <=? n) && (n <=? 122))%nat.

Fixpoint letters (s : string) : string :=
  match s with
  | EmptyString => ""
  | String c s => if is_letter c then String c (letters s) else ""
  end.

(** The fileType constructor a rejection names; "" when it names none
    [internal/session/downloads.go#fileTypeFromError]. *)
Definition fileTypeFromError (err : gerr) : string :=
  match as_td err with
  | None => ""
  | Some te =>
      match sindex (te_message te) "of type " with
      | None => ""
      | Some i =>
          let name := letters (sdrop (i + String.length "of type ") (te_message te)) in
          if String.eqb name "" then "" else "fileType" +:+ name
      end
  end.

Definition set_file_id (k : string) : dec Z := λ o v, if names k "id" then dec_int32 o v else (o, true).

(** [internal/session/downloads.go#fileIDFromObj] *)
Definition fileIDFromObj (v : json) : res gerr Z :=
  match unmarshal_ok (dec_struct set_file_id) 0%Z (Some v) with
  | Some id => if (id =? 0)%Z then Err (EMsg "could not resolve remote file id") else Ok id
  | None => Err (EMsg "could not resolve remote file id")
  end.

Record file_local := mkFileLocal { fl_path : string; fl_done : bool }.

Definition set_file_local (k : string) : dec file_local := λ l v,
  if names k "path" then let r := dec_string (fl_path l) v in (mkFileLocal r.1 (fl_done l), r.2)
  else if names k "is_downloading_completed" then
    let r := dec_bool (fl_done l) v in (mkFileLocal (fl_path l) r.1, r.2)
  else (l, true).

Definition set_file (k : string) : dec file_local := λ l v,
  if names k "local" then dec_struct set_file_local l v else (l, true).

(** [internal/session/downloads.go#localPathFromFile] *)
Definition localPathFromFile (v : json) : res gerr string :=
  match unmarshal_ok (dec_struct set_file) (mkFileLocal "" false) (Some v) with
  | None => Err (EMsg "bad file object")
  | Some l =>
      if String.eqb (fl_path l) "" then Err (EMsg "download did not complete (no local path)")
      else Ok (fl_path l)
  end.

(** The params of the requests made here. *)
Definition remote_params (remoteID fileType : string) : raw :=
  Some (marshal_map (<["remote_file_id" := JStr (json_coerce remoteID)]>
    {["file_type" := JObj [("@type", JStr (json_coerce fileType))]]})).

Definition download_params (fid : Z) : raw :=
  Some (marshal_map (<["file_id" := JNum fid]> (<["priority" := JNum 1]> (<["offset" := JNum 0]>
    (<["limit" := JNum 0]> {["synchronous" := JBool true]}))))).

Section downloads.
Context {T : Type} (td_send : T → rawRequest → T * td_reply).

(** [internal/session/downloads.go#getRemoteFile] *)
Definition getRemoteFile (remoteID fileType : string) : M T json :=
  call_td td_send "getRemoteFile" (remote_params remoteID fileType).

(** The local file id of a remote id: tried without a type, then with the type
    a rejection names [internal/session/downloads.go:37-52#DownloadFile]. *)
Definition resolve_remote (remoteID : string) : M T Z :=
  let* r := try (getRemoteFile remoteID "fileTypeNone") in
  let* r := (match r with
             | Ok _ => ret r
             | Err e =>
                 let ft := fileTypeFromError e in
                 if String.eqb ft "" then ret r else try (getRemoteFile remoteID ft)
             end) in
  match r with
  | Err e => fail e
  | Ok v => lift (fileIDFromObj v)
  end.

(** The path of the file on this worker's disk, and its local id; the number in
    [ref] is a Go int, cut to 32 bits
    [internal/session/downloads.go#DownloadFile]. *)
Definition DownloadFile (h : hold) (ref remoteID : string) : M T (string * Z) :=
  match h with
  | HNone => fail (EMsg "session not found")
  | HBusy st => fail (EMsg ("session is " +:+ st +:+ ", not authorized"))
  | HReady =>
      let* fid := (if negb (String.eqb remoteID "") then resolve_remote remoteID
                   else match atoi ref with
                   | None => fail ErrBadFileRef
                   | Some n => ret (wrap32 n)
                   end) in
      let* v := call_td td_send "downloadFile" (download_params fid) in
      let* p := lift (localPathFromFile v) in
      ret (p, fid)
  end.

(** [internal/session/downloads.go#DeleteTdFile] *)
Definition DeleteTdFile (h : hold) (fid : Z) : M T () :=
  match h with
  | HReady =>
      let* _ := try (call_td td_send "deleteFile" (Some (marshal_map {["file_id" := JNum fid]}))) in
      ret ()
  | _ => ret ()
  end.

(** What the download endpoint sends: a rendered failure, or the file's bytes
    under a name. *)
Inductive download_answer :=
| Failed (r : response)
| Served (path name : string).

Context (quote : string → string) (time_text : Z → string) (clock : nat → Z).
(** Whether a file opens, and whether it can be examined then. *)
Context (opens stats : string → bool).

Definition is_bad_ref (e : gerr) : bool :=
  match e with EMsg m => String.eqb m "file_id must be an integer, or pass ?remote_id=" | _ => false end.

(** [internal/api/server.go#handleDownloadFile] *)
Definition handleDownloadFile (h : hold) (ref remoteID delete : string) (range : bool) : M T download_answer :=
  let* r := try (DownloadFile h ref remoteID) in
  match r with
  | Err e =>
      let* now := ask clock in
      ret (Failed (if is_bad_ref e then writeErr 400 (error_text quote e)
                   else if String.eqb (error_text quote e) "session not found" then
                     writeErr 404 (error_text quote e)
                   else writeCallErr quote time_text now e))
  | Ok (path, fid) =>
      if negb (opens path) then ret (Failed (writeErr 502 "downloaded file unavailable"))
      else if negb (stats path) then ret (Failed (writeErr 502 "stat downloaded file"))
      else
        let* _ := (if String.eqb delete "1" && negb range then DeleteTdFile h fid else ret ()) in
        ret (Served path (path_base path))
  end.
End downloads.

(** ** Theorems *)

Section theorems.
Context {T : Type} (td_send : T → rawRequest → T * td_reply).

(** A request for a method, whose params hold some values. *)
Definition asks (method : string) (vals : list (string * json)) (q : rawRequest) : Prop :=
  rq_method q = method ∧ ∀ k v, (k, v) ∈ vals → rq_params q !! k = Some v.

Definition remote_request (remoteID ft : string) : rawRequest → Prop :=
  asks "getRemoteFile" [("remote_file_id", JStr (json_coerce remoteID));
                        ("file_type", JObj [("@type", JStr (json_coerce ft))])].

(** A call with marshalled params sends exactly one request with those. *)
Lemma call_td_sent method (m : gmap string json) (w : world T) :
  w_log (call_td td_send method (Some (marshal_map m)) w).2 = mkReq method m :: w_log w.
Proof.
  unfold call_td, td_call. cbn [request_params marshal_map]. by rewrite obj_map_marshal.
Qed.

Lemma in_int32_wrap z : in_int32 (wrap32 z) = true.
Proof. apply in_int32_spec. unfold wrap32. pose proof (Z.mod_pos_bound (z + 2 ^ 31) (2 ^ 32) eq_refl). lia. Qed.

(** Resolving a remote id asks with no type, and then at most once more. *)
Lemma resolve_remote_sent remoteID w :
  ∃ pre, w_log (resolve_remote td_send remoteID w).2 = pre ++ w_log w ∧
    ((∃ q, pre = [q] ∧ remote_request remoteID "fileTypeNone" q) ∨
     (∃ q1 q2 e, pre = [q2; q1] ∧ remote_request remoteID "fileTypeNone" q1 ∧ fileTypeFromError e ≠ "" ∧
        remote_request remoteID (fileTypeFromError e) q2)).
Proof.
  assert (Hask : ∀ ft, remote_request remoteID ft (mkReq "getRemoteFile"
    (<["remote_file_id" := JStr (json_coerce remoteID)]> {["file_type" := JObj [("@type", JStr (json_coerce ft))]]}))).
  { intros ft. split; [done|]. intros k v. rewrite !elem_of_cons. intros [[= -> ->]|[[= -> ->]|Hn]].
    - apply lookup_insert_eq.
    - cbn [rq_params]. by simplify_map_eq.
    - by apply not_elem_of_nil in Hn. }
  unfold resolve_remote, bind, try, getRemoteFile, remote_params.
  set (m0 := <["remote_file_id" := _]> _). pose proof (call_td_sent "getRemoteFile" m0 w) as H1.
  destruct (call_td td_send "getRemoteFile" (Some (marshal_map m0)) w) as [[v|e] w1]; cbn [fst snd] in *.
  - unfold ret, lift. cbn. exists [mkReq "getRemoteFile" m0]. rewrite H1. split; [done|]. left. by eexists.
  - destruct (String.eqb_spec (fileTypeFromError e) "") as [Ee|Hne].
    + cbn. exists [mkReq "getRemoteFile" m0]. rewrite H1. split; [done|]. left. by eexists.
    + set (m1 := <["remote_file_id" := _]> {["file_type" := JObj [("@type", JStr (json_coerce (fileTypeFromError e)))]]}).
      pose proof (call_td_sent "getRemoteFile" m1 w1) as H2.
      destruct (call_td td_send "getRemoteFile" (Some (marshal_map m1)) w1) as [r w2].
      cbn [fst snd] in *.
      assert (Hw : ∀ (c : M T Z), match r with Ok v => lift (fileIDFromObj v) | Err e0 => fail e0 end = c → (c w2).2 = w2)
        by (intros c <-; by destruct r).
      exists [mkReq "getRemoteFile" m1; mkReq "getRemoteFile" m0]. rewrite (Hw _ eq_refl), H2, H1.
      split; [done|]. right. eauto 10.
Qed.

Lemma resolve_remote_id remoteID w fid w' :
  resolve_remote td_send remoteID w = (Ok fid, w') → fid ≠ 0%Z.
Proof.
  unfold resolve_remote. unfold bind at 1. destruct (try (getRemoteFile td_send remoteID "fileTypeNone") w) as [[r|e] w1]; [|done].
  unfold bind. destruct (_ w1) as [[[v|e]|e] w2]; [|done..]. unfold lift, fileIDFromObj. intros [= H _].
  destruct (unmarshal_ok _ _ _) as [id|]; [|done]. destruct (Z.eqb_spec id 0); [done|]. by injection H as <-.
Qed.

(** A download delivers the file asked for. When it succeeds the account was
    usable, the path is TDLib's own and not empty, and the last request was one
    synchronous download of the file id returned: the number in the path, or,
    for a remote id, the id TDLib gave for that remote id, asked for with no
    type and once more with the type the rejection named; nothing else was
    sent. An account that is not usable is asked nothing. *)
Theorem download_delivers h ref remoteID w :
  match DownloadFile td_send h ref remoteID w with
  | (Ok (p, fid), w') =>
      h = HReady ∧ p ≠ "" ∧
      ∃ q pre, w_log w' = q :: pre ++ w_log w ∧
        asks "downloadFile" [("file_id", JNum fid); ("offset", JNum 0); ("limit", JNum 0); ("synchronous", JBool true)] q ∧
        if String.eqb remoteID "" then pre = [] ∧ ∃ n, atoi ref = Some n ∧ fid = wrap32 n
        else fid ≠ 0%Z ∧
          ((∃ q, pre = [q] ∧ remote_request remoteID "fileTypeNone" q) ∨
           (∃ q1 q2 e, pre = [q2; q1] ∧ remote_request remoteID "fileTypeNone" q1 ∧ fileTypeFromError e ≠ "" ∧
              remote_request remoteID (fileTypeFromError e) q2))
  | (Err e, w') => h ≠ HReady → w' = w
  end.
Proof.
  destruct h as [|st|]; [done..|]. unfold DownloadFile.
  set (src := if negb (String.eqb remoteID "") then _ else _).
  assert (Hsrc : ∀ fid w1, src w = (Ok fid, w1) → ∃ pre, w_log w1 = pre ++ w_log w ∧
    if String.eqb remoteID "" then pre = [] ∧ ∃ n, atoi ref = Some n ∧ fid = wrap32 n
    else fid ≠ 0%Z ∧ ((∃ q, pre = [q] ∧ remote_request remoteID "fileTypeNone" q) ∨
           (∃ q1 q2 e, pre = [q2; q1] ∧ remote_request remoteID "fileTypeNone" q1 ∧ fileTypeFromError e ≠ "" ∧
              remote_request remoteID (fileTypeFromError e) q2))).
  { intros fid w1 E. unfold src in E. destruct (String.eqb remoteID ""); cbn [negb] in E.
    - destruct (atoi ref) as [n|]; [|done]. injection E as <- <-. exists []. eauto.
    - destruct (resolve_remote_sent remoteID w) as (pre&Hp&Hq). rewrite E in Hp. exists pre.
      split; [done|]. split; [by apply (resolve_remote_id remoteID w fid w1)|done]. }
  clearbody src. unfold bind at 1. destruct (src w) as [[fid|e] w1]; [|done].
  destruct (Hsrc fid w1 eq_refl) as (pre&Hp&Hq). clear Hsrc. unfold bind, lift, ret, download_params.
  set (m := <["file_id" := _]> _). pose proof (call_td_sent "downloadFile" m w1) as Hd.
  destruct (call_td td_send "downloadFile" (Some (marshal_map m)) w1) as [[v|e] w2]; cbn [snd] in Hd; [|done].
  unfold localPathFromFile. destruct (unmarshal_ok _ _ _) as [l|]; [|done].
  destruct (String.eqb_spec (fl_path l) "") as [|Hne]; [done|]. split; [done|]. split; [done|].
  exists (mkReq "downloadFile" m), pre. rewrite Hd, Hp. split; [done|]. split; [|done].
  split; [done|]. intros k x. rewrite !elem_of_cons. unfold m.
  intros [[= -> ->]|[[= -> ->]|[[= -> ->]|[[= -> ->]|Hn]]]]; [cbn [rq_params]; by simplify_map_eq..|by apply not_elem_of_nil in Hn].
Qed.
End theorems.

(** A number that does not fit 32 bits is cut, not refused: asking for file
    4294967297 downloads file 1. *)
Example wide_file_id :
  let send (t : list Z) (q : rawRequest) :=
    (match rq_params q !! "file_id" with Some (JNum n) => n :: t | _ => t end,
     TdResult (JObj [("local", JObj [("path", JStr "/f")])])) in
  let w := mkW 0 [] [] new_guard [] empty_db [] 0 ∅ in
  let r := DownloadFile send HReady "4294967297" "" w in
  r.1 = Ok ("/f", 1%Z) ∧ w_td r.2 = [1%Z].
Proof. vm_compute. done. Qed.
