(* ===== verification/Manage.v ===== *)
(** Creating, changing and deleting sessions (internal/session/manager.go and
    the handlers over it in api/server.go). The monad and its node are
    Worker's; a session's TDLib client is a parameter. *)

From S2P Require Import Prelude GoStr Json Types Tdjson Quota Utf8 Sha256 Gcm Secret Db Registry Guard Subs Gateway Api Login Worker.


(** Why a session could not be created
    [internal/session/manager.go#ErrLoginPending]. *)
Inductive create_err :=
| ErrLoginPending (sid : string)
| ECreate (e : gerr).

(** The text of an error of [CreateUser]
    [internal/session/manager.go#ErrLoginPending.Error]. *)
Definition pending_text (sid : string) : string :=
  "a login for this phone is already waiting for input (session " +:+ sid +:+ ")".

Section manage.
Context (clock : nat → Z) (up : nat → bool) (quote : string → string).
Context (box : Box) (workerID dataDir : string).
(** The random reader's answer to a request for some bytes, and the id the
    registry's default makes. *)
Context (rand : nat → nat → option string) (fresh : nat → string).
(** A client's answer to a request. *)
Context (td : nat → string → rawRequest → td_reply).

Notation stmt f := (stmt clock up f).
Notation read f := (read clock up f).
Notation proxyRequest := (proxyRequest clock up quote box).

Definition encrypt (plain : string) : N (res gerr string) :=
  let+ nonce := nask (λ i, rand i NonceSize) in
  nret (match Encrypt box nonce plain with Ok e => Ok e | Err e => Err (EMsg e) end).

(** A statement that may refuse. *)
Definition write {A} (f : Z → db → res dberr (A * db)) : N (res gerr A) :=
  let+ r := stmt (λ now d, match f now d with Ok (a, d) => (Some a, d) | Err _ => (None, d) end) in
  nret (match r with Some (Some a) => Ok a | _ => Err (EMsg "database") end).

(** What creating a session needs from the registry and the box: the
    application's id and hash, and its proxy
    [internal/session/manager.go:881-896#CreateUser]. *)
Definition create_inputs (appID proxyID : string) : N (res gerr (Z * string * option AddProxyRequest)) :=
  let+ app := read (GetApp appID) in
  match app with
  | Err e => nret (Err (EWrap "app: " e))
  | Ok app =>
  match decrypt box (App_HashEnc app) with
  | Err e => nret (Err e)
  | Ok hash =>
      let+ px := proxyRequest proxyID in
      nret (match px with
            | Err e => Err (EWrap "proxy: " e)
            | Ok px => Ok (App_APIID app, hash, px)
            end)
  end end.

(** The row, its directory and its owner; the last two are best effort
    [internal/session/manager.go:897-909#CreateUser]. *)
Definition create_row (kind appID proxyID phone label : string) (tokEnc : option string)
    : N (res gerr (string * string)) :=
  let+ key := nask (λ i, rand i 32%nat) in
  match key with
  | None => nret (Err (EMsg "random source"))
  | Some key =>
      let+ enc := encrypt key in
      match enc with
      | Err e => nret (Err e)
      | Ok enc =>
          let+ id := nask fresh in
          let+ r := write (λ now d, CreateSession id now
                             (mkNewSession kind appID proxyID phone tokEnc (Some enc) label) d) in
          match r with
          | Err e => nret (Err e)
          | Ok id =>
              let+ _ := write (λ now d, match SetSessionDBDir now id (path_join dataDir id) d with
                                        | Ok d => Ok ((), d) | Err e => Err e end) in
              let+ _ := stmt (λ now d, ((), SetSessionOwner now id workerID d)) in
              nret (Ok (id, key))
          end
      end
  end.

(** The check for a login already waiting
    [internal/session/manager.go:876-880#CreateUser]. *)
Definition check_pending (phone : string) : N (res create_err ()) :=
  let+ r := stmt (λ _ d, (PendingUserLogin phone d, d)) in
  nret (match r with
        | None => Err (ECreate (EMsg "database"))
        | Some (Some sid) => Err (ErrLoginPending sid)
        | Some None => Ok ()
        end).

(** The rest of a user's creation, up to the login it starts (Login)
    [internal/session/manager.go:881-933#CreateUser]. *)
Definition start_user (appID phone proxyID label : string) : N (res create_err string) :=
  let+ i := create_inputs appID proxyID in
  match i with
  | Err e => nret (Err (ECreate e))
  | Ok _ =>
      let+ r := create_row "user" appID proxyID phone label None in
      match r with
      | Err e => nret (Err (ECreate e))
      | Ok (id, _) =>
          let+ _ := put id (mkHeld "user" (newLiveSession true) None new_guard) in
          let+ _ := nupd (n_log (Opened id)) in
          nret (Ok id)
      end
  end.

(** [internal/session/manager.go#CreateUser] *)
Definition CreateUser (appID phone proxyID label : string) : N (res create_err string) :=
  let+ c := check_pending phone in
  match c with
  | Err e => nret (Err e)
  | Ok _ => start_user appID phone proxyID label
  end.

(** [opened] is what [client.NewClient] gives within 45 seconds, [None] when it
    takes longer [internal/session/manager.go#CreateBot]. *)
Definition CreateBot (opened : nat → option (option gerr)) (appID token proxyID label : string)
    : N (res gerr (string * json)) :=
  let+ i := create_inputs appID proxyID in
  match i with
  | Err e => nret (Err e)
  | Ok _ =>
  let+ tokEnc := encrypt token in
  match tokEnc with
  | Err e => nret (Err e)
  | Ok tokEnc =>
  let+ r := create_row "bot" appID proxyID "" label (Some tokEnc) in
  match r with
  | Err e => nret (Err e)
  | Ok (id, _) =>
      let+ _ := put id (mkHeld "bot" (newLiveSession false) None new_guard) in
      let+ _ := nupd (n_log (Opened id)) in
      let fails e :=
        let+ _ := nupd (n_set_held (alter (λ h, h_set_live (failLogin quote e (hd_live h)) h) id)) in
        let+ _ := stmt (λ now d, ((), UpdateSessionStatus now id "error" d)) in
        nret (Err e) in
      let+ o := nask opened in
      match o with
      | None => fails (EMsg "bot login timeout")
      | Some (Some e) => fails e
      | Some None =>
          let+ _ := nupd (n_set_held (alter (λ h, h_set_live (setClient (hd_live h)) h) id)) in
          let+ _ := stmt (λ now d, ((), UpdateSessionStatus now id "authorized" d)) in
          let+ me := nask (λ i, reply_result (td i id (mkReq "getMe" ∅))) in
          nret (match me with Ok v => Ok (id, v) | Err e => Err e end)
      end
  end end end.

(** A request on a session's client. *)
Definition td_ask (sid method : string) (params : raw) : N (res gerr json) :=
  match request_params params with
  | None => nret (Err bad_params)
  | Some ps => nask (λ i, reply_result (td i sid (mkReq method ps)))
  end.

(** The proxy's params as sent on a live client
    [internal/session/manager.go:1297-1313#applyProxy]. *)
Definition live_proxy_params (p : Proxy) (sec : string) : res gerr raw :=
  let s x := JStr (json_coerce x) in
  match (if String.eqb (Px_Type p) "socks5" then
           Some [("@type", JStr "proxyTypeSocks5"); ("username", s (Px_Username p)); ("password", s sec)]
         else if String.eqb (Px_Type p) "http" then
           Some [("@type", JStr "proxyTypeHttp"); ("username", s (Px_Username p)); ("password", s sec)]
         else if String.eqb (Px_Type p) "mtproto" then
           Some [("@type", JStr "proxyTypeMtproto"); ("secret", s sec)]
         else None) with
  | None => Err (EMsg ("unknown proxy type " +:+ quote (Px_Type p)))
  | Some pt => Ok (Some (JObj [("enable", JBool true); ("port", JNum (Px_Port p)); ("server", s (Px_Host p));
                               ("type", marshal_map (obj_map pt))]))
  end.

(** [internal/session/manager.go#applyProxy] *)
Definition applyProxy (sid proxyID : string) : N (option gerr) :=
  let res r := match r : res gerr json with Ok _ => None | Err e => Some e end in
  if String.eqb proxyID "" then let+ r := td_ask sid "disableProxy" None in nret (res r)
  else
    let+ r := read (GetProxy proxyID) in
    match r with
    | Err e => nret (Some e)
    | Ok p =>
        match (match Px_SecretEnc p with
               | Some ct => if String.eqb ct "" then Ok "" else decrypt box ct
               | None => Ok ""
               end) with
        | Err e => nret (Some e)
        | Ok sec =>
            match live_proxy_params p sec with
            | Err e => nret (Some e)
            | Ok params => let+ r := td_ask sid "addProxy" params in nret (res r)
            end
        end
    end.

(** Whether a TDLib client is there, usable or not. *)
Definition has_client (w : node) (sid : string) : bool :=
  match nd_held w !! sid with Some h => lv_client (hd_live h) | None => false end.

(** [internal/session/manager.go#UpdateSession] *)
Definition UpdateSession (sid : string) (label proxyID : option string) : N (option gerr) :=
  let+ found := write (λ now d, UpdateSessionMeta now sid label proxyID d) in
  match found with
  | Err e => nret (Some e)
  | Ok false => nret (Some (EMsg "session not found"))
  | Ok true =>
      match proxyID with
      | None => nret None
      | Some p =>
          let+ w := nget in
          if has_client w sid then
            let+ r := applyProxy sid p in
            nret (match r with Some e => Some (EWrap "apply proxy: " e) | None => None end)
          else nret None
      end
  end.

(** An aborted login that unwinds: it fails, and its status is mirrored
    [internal/session/manager.go:921-927#CreateUser]. *)
Definition unwind (sid : string) : N () :=
  let+ _ := nupd (n_set_held (alter (λ h, h_set_live (failLogin quote errLoginCanceled (hd_live h)) h) sid)) in
  let+ _ := stmt (λ now d, ((), UpdateSessionStatus now sid "error" d)) in
  nret ().

(** Letting go of a session about to be deleted. [unwinds] tells whether an
    aborted login has unwound within its ten seconds; its authorizer then closed
    the client itself [internal/session/manager.go:1324-1336#DeleteSession]. *)
Definition let_go (unwinds : nat → bool) (sid : string) : N () :=
  let+ w := nget in
  match nd_held w !! sid with
  | None => nret ()
  | Some h =>
      let+ gone := nask unwinds in
      let aborted := (abortLogin (hd_live h)).1 in
      let+ _ := nupd (n_set_held <[sid := h_set_live (abortLogin (hd_live h)).2 h]>) in
      let+ _ := (if aborted && gone then unwind sid else nret ()) in
      let+ w := nget in
      let+ _ := (if has_client w sid then nupd (n_close sid) else nret ()) in
      drop sid
  end.

(** The result comes with the directory removed, if any
    [internal/session/manager.go#DeleteSession]. *)
Definition DeleteSession (unwinds : nat → bool) (sid : string) : N (option gerr * option string) :=
  let+ _ := let_go unwinds sid in
  let+ _ := clearRetry sid in
  let+ r := stmt (λ _ d, Registry.DeleteSession sid d) in
  nret (match r with
        | None => (Some (EMsg "database"), None)
        | Some None => (Some (EMsg "session not found"), None)
        | Some (Some dir) => (None, if String.eqb dir "" then None else Some dir)
        end).

(** [internal/session/manager.go#ResendCode] *)
Definition ResendCode (sid : string) : N (option gerr) :=
  let+ w := nget in
  match nd_held w !! sid with
  | None => nret (Some (EMsg "session not found"))
  | Some h =>
      if negb (String.eqb (lv_status (hd_live h)) "awaiting_code") then
        nret (Some (EMsg ("session is " +:+ lv_status (hd_live h) +:+ ", not awaiting_code")))
      else if negb (lv_client (hd_live h)) then nret (Some (EMsg "login is not ready for a resend"))
      else
        let+ r := td_ask sid "resendAuthenticationCode" None in
        match r with
        | Ok _ => nret None
        | Err e =>
            let+ _ := nupd (n_set_held (alter (λ h, h_set_live (setLastErr quote e (hd_live h)) h) sid)) in
            nret (Some e)
        end
  end.

(** [internal/session/manager.go#State] *)
Definition State (sid : string) : N (res gerr SessionState) :=
  let+ w := nget in
  match nd_held w !! sid with
  | None => nret (Err (EMsg "session not found"))
  | Some h => let+ now := nask clock in nret (Ok (state (hd_guard h) now (hd_live h)))
  end.

(** ** The handlers *)

Context (time_text : Z → string).

(** A session's state under its id; [omitempty] leaves fields out
    [internal/api/server.go#sessionBody]. *)
Definition sessionBody (sid : string) (st : SessionState) : json :=
  JObj ([("id", JStr sid); ("status", JStr (ss_status st))] ++
    (match ss_info st with Some i => [("code_info", i)] | None => [] end) ++
    (if String.eqb (ss_last st) "" then [] else [("last_error", JStr (json_coerce (ss_last st)))]) ++
    (match ss_premium st with Some b => [("is_premium", JBool b)] | None => [] end) ++
    [("frozen", JBool (ss_frozen st)); ("spam_limited", JBool (ss_spam st))]).

(** Failures of a session's update or removal. *)
Definition session_failed (e : gerr) : response :=
  if String.eqb (error_text quote e) "session not found" then writeErr 404 (error_text quote e)
  else writeErr 502 (error_text quote e).

Record user_req := mkUserReq { ur_app : string; ur_phone : string; ur_proxy : string; ur_label : string }.

Definition set_user_req (k : string) : dec user_req := λ q v,
  let '(mkUserReq app phone proxy label) := q in
  if names k "app_id" then let r := dec_string app v in (mkUserReq r.1 phone proxy label, r.2)
  else if names k "phone" then let r := dec_string phone v in (mkUserReq app r.1 proxy label, r.2)
  else if names k "proxy_id" then let r := dec_string proxy v in (mkUserReq app phone r.1 label, r.2)
  else if names k "label" then let r := dec_string label v in (mkUserReq app phone proxy r.1, r.2)
  else (q, true).

(** [state] is what the login has come to when the wait for it ends
    [internal/api/server.go#handleCreateUser]. *)
Definition handleCreateUser (state_of : nat → SessionState) (b : body) : N response :=
  match decode (dec_struct set_user_req) (mkUserReq "" "" "" "") b with
  | None => nret bad_json
  | Some q =>
      if String.eqb (ur_app q) "" || String.eqb (ur_phone q) "" then
        nret (writeErr 400 "app_id and phone are required")
      else
        let+ r := CreateUser (ur_app q) (ur_phone q) (ur_proxy q) (ur_label q) in
        match r with
        | Ok id => let+ st := nask state_of in nret (writeOK (sessionBody id st))
        | Err (ErrLoginPending sid) => nret (writeConflict (pending_text sid) sid)
        | Err (ECreate e) => let+ now := nask clock in nret (writeCallErr quote time_text now e)
        end
  end.

Record bot_req := mkBotReq { br_token : string; br_app : string; br_proxy : string; br_label : string }.

Definition set_bot_req (k : string) : dec bot_req := λ q v,
  let '(mkBotReq token app proxy label) := q in
  if names k "token" then let r := dec_string token v in (mkBotReq r.1 app proxy label, r.2)
  else if names k "app_id" then let r := dec_string app v in (mkBotReq token r.1 proxy label, r.2)
  else if names k "proxy_id" then let r := dec_string proxy v in (mkBotReq token app r.1 label, r.2)
  else if names k "label" then let r := dec_string label v in (mkBotReq token app proxy r.1, r.2)
  else (q, true).

(** [internal/api/server.go#handleCreateBot] *)
Definition handleCreateBot (opened : nat → option (option gerr)) (b : body) : N response :=
  match decode (dec_struct set_bot_req) (mkBotReq "" "" "" "") b with
  | None => nret bad_json
  | Some q =>
      if String.eqb (br_token q) "" || String.eqb (br_app q) "" then
        nret (writeErr 400 "token and app_id are required")
      else
        let+ r := CreateBot opened (br_app q) (br_token q) (br_proxy q) (br_label q) in
        match r with
        | Ok (id, me) => nret (writeOK (JObj [("id", JStr id); ("status", JStr "authorized"); ("me", me)]))
        | Err e => let+ now := nask clock in nret (writeCallErr quote time_text now e)
        end
  end.

Record update_req := mkUpdateReq { pr_label : option string; pr_proxy : option string }.

Definition set_update_req (k : string) : dec update_req := λ q v,
  if names k "label" then let r := dec_ptr "" dec_string (pr_label q) v in (mkUpdateReq r.1 (pr_proxy q), r.2)
  else if names k "proxy_id" then let r := dec_ptr "" dec_string (pr_proxy q) v in (mkUpdateReq (pr_label q) r.1, r.2)
  else (q, true).

(** [internal/api/server.go#handleUpdateSession] *)
Definition handleUpdateSession (sid : string) (b : body) : N response :=
  match decode (dec_struct set_update_req) (mkUpdateReq None None) b with
  | None => nret bad_json
  | Some q =>
      let+ r := UpdateSession sid (pr_label q) (pr_proxy q) in
      nret (match r with
            | Some e => session_failed e
            | None => writeOK (JObj [("status", JStr "updated")])
            end)
  end.

(** [internal/api/server.go#handleDeleteSession] *)
Definition handleDeleteSession (unwinds : nat → bool) (sid : string) : N response :=
  let+ r := DeleteSession unwinds sid in
  nret (match r.1 with
        | Some e => session_failed e
        | None => writeOK (JObj [("status", JStr "deleted")])
        end).

(** [internal/api/server.go#handleLoginResend] *)
Definition handleLoginResend (sid : string) : N response :=
  let+ r := ResendCode sid in
  match r with
  | Some e => let+ now := nask clock in nret (writeLoginErr quote time_text now e)
  | None =>
      let+ st := State sid in
      nret (match st with
            | Ok st => writeOK (sessionBody sid st)
            | Err e => writeErr 404 (error_text quote e)
            end)
  end.

(** [internal/api/server.go#handleGetSession] *)
Definition handleGetSession (sid : string) : N response :=
  let+ st := State sid in
  nret (match st with
        | Ok st => writeOK (sessionBody sid st)
        | Err e => writeErr 404 (error_text quote e)
        end).

(** A submit's answer as [Login]'s machine leaves it, with the state read then;
    [None] while it has none
    [internal/session/manager.go:964-974#submit]. *)
Definition submit_answer (l : login) (i : nat) (st : SessionState) : option (res gerr SessionState) :=
  match lg_submits l !! i with
  | Some (SGot (Ok None)) => Some (Ok st)
  | Some (SGot (Ok (Some e))) => Some (Err e)
  | Some (SGot (Err msg)) => Some (Err (EMsg msg))
  | _ => None
  end.

(** The submit of a session this worker holds comes to [answer]
    [internal/session/manager.go:950-954#submit]. *)
Definition submit (answer : input → string → res gerr SessionState) (k : input) (sid value : string)
    : N (res gerr SessionState) :=
  let+ w := nget in
  nret (match nd_held w !! sid with
        | None => Err (EMsg "session not found")
        | Some _ => answer k value
        end).

(** [internal/session/manager.go#SubmitCode] *)
Definition SubmitCode answer (sid code : string) := submit answer Code sid code.

(** [internal/session/manager.go#SubmitPassword] *)
Definition SubmitPassword answer (sid password : string) := submit answer Password sid password.

Definition set_field (name : string) (k : string) : dec string := λ o v,
  if names k name then dec_string o v else (o, true).

Definition login_reply (sid : string) (r : res gerr SessionState) : N response :=
  match r with
  | Ok st => nret (writeOK (sessionBody sid st))
  | Err e => let+ now := nask clock in nret (writeLoginErr quote time_text now e)
  end.

(** [internal/api/server.go#handleLoginCode] *)
Definition handleLoginCode answer (sid : string) (b : body) : N response :=
  match decode (dec_struct (set_field "code")) "" b with
  | None => nret bad_json
  | Some code => let+ r := SubmitCode answer sid code in login_reply sid r
  end.

(** [internal/api/server.go#handleLoginPassword] *)
Definition handleLoginPassword answer (sid : string) (b : body) : N response :=
  match decode (dec_struct (set_field "password")) "" b with
  | None => nret bad_json
  | Some password => let+ r := SubmitPassword answer sid password in login_reply sid r
  end.
End manage.

(** ** Theorems *)

Section theorems.
Context (clock : nat → Z) (up : nat → bool) (quote : string → string).
Context (box : Box) (workerID dataDir : string).
Context (rand : nat → nat → option string) (fresh : nat → string).
Context (td : nat → string → rawRequest → td_reply).

Lemma tick_tick t t' w : n_set_tick t (n_set_tick t' w) = n_set_tick t w.
Proof. done. Qed.

Lemma create_inputs_run appID proxyID w : ∃ t,
  (create_inputs clock up quote box appID proxyID w).2 = n_set_tick t w.
Proof.
  unfold create_inputs, nbind. destruct (read_run clock up (GetApp appID) w) as [t ->].
  destruct (read clock up (GetApp appID) w).1 as [app|e]; [|by exists t].
  destruct (decrypt box (App_HashEnc app)) as [hash|e]; [|by exists t].
  destruct (proxyRequest_run clock up quote box proxyID (n_set_tick t w)) as [t' E].
  exists t'. unfold nret. cbn [snd]. by rewrite E.
Qed.

(** A statement that may refuse changes the registry only by succeeding. *)
Lemma write_run {A} (f : Z → db → res dberr (A * db)) w : ∃ t now,
  match write clock up f w with
  | (Ok a, w') => ∃ d, f now (nd_db w) = Ok (a, d) ∧ w' = n_set_tick t (n_set_db (λ _, d) w)
  | (Err _, w') => w' = n_set_tick t w
  end.
Proof.
  unfold write, nbind.
  destruct (stmt_run clock up (λ now d, match f now d with Ok (a, d) => (Some a, d) | Err _ => (None, d) end) w)
    as (t&now&->). exists t, now. destruct (up (nd_tick w)); [|done]. unfold nret. cbn [fst snd].
  destruct (f now (nd_db w)) as [[a d]|e]; cbn [fst snd]; [by exists d|done].
Qed.

(** A session's row right after its creation. *)
Definition fresh_row (kind phone : string) (s : session_row) : Prop :=
  s_kind s = kind ∧ s_phone s = nullStr phone ∧ s_status s = "connecting" ∧ is_Some (s_db_key_enc s) ∧
  (s_worker s = None ∨ s_worker s = Some workerID).

(** A new row on the way: entries and other rows as before. *)
Definition made (kind phone id : string) (w w' : node) : Prop :=
  nd_held w' = nd_held w ∧ nd_log w' = nd_log w ∧
  (∃ s, sessions (nd_db w') !! id = Some s ∧ fresh_row kind phone s) ∧
  ∀ k, k ≠ id → sessions (nd_db w') !! k = sessions (nd_db w) !! k.

(** A best-effort change of the new row keeps it a new row. *)
Lemma made_alter kind phone id w w1 t (f : session_row → session_row) d :
  made kind phone id w w1 →
  (∀ s, fresh_row kind phone s → fresh_row kind phone (f s)) →
  sessions d = alter f id (sessions (nd_db w1)) →
  made kind phone id w (n_set_tick t (n_set_db (λ _, d) w1)).
Proof.
  intros (Hh&Hl&(s&Hs&Hf)&Ho) Hstep Ed. split; [done|]. split; [done|]. cbn [n_set_tick n_set_db nd_db]. rewrite Ed. split.
  - exists (f s). rewrite lookup_alter_eq, Hs. split; [done|by apply Hstep].
  - intros k Hk. rewrite lookup_alter_ne by done. by apply Ho.
Qed.

Lemma create_row_run kind appID proxyID phone label tokEnc w :
  match create_row clock up box workerID dataDir rand fresh kind appID proxyID phone label tokEnc w with
  | (Ok (id, _), w') => sessions (nd_db w) !! id = None ∧ made kind phone id w w'
  | (Err _, w') => w' = n_set_tick (nd_tick w') w
  end.
Proof.
  unfold create_row, encrypt. unfold nbind, nask, nret. cbn [fst snd].
  destruct (rand (nd_tick w) 32%nat) as [key|]; cbn [fst snd]; [|done].
  destruct (Encrypt box _ key) as [enc|e]; cbn [fst snd]; [|done]. rewrite !tick_tick. set (w1 := n_set_tick _ w).
  set (id := fresh _).
  match goal with |- context [write clock up ?f ?w2] => destruct (write_run f w2) as (t&now&Hw);
    destruct (write clock up f w2) as [[id'|e] w3] end; cbn [fst snd]; [|by rewrite Hw].
  destruct Hw as (d&Hd& ->). unfold CreateSession in Hd. destruct (negb _) in Hd; [done|].
  destruct (has id (sessions _)) eqn:Eh; [done|]. destruct (negb _) in Hd; [done|]. injection Hd as <- <-.
  split.
  { apply eq_None_not_Some. intros Hs%has_spec. change (has id (sessions (nd_db w)) = false) in Eh. congruence. }
  match goal with |- context [write clock up ?f (n_set_tick ?t (n_set_db ?g ?w2))] =>
    set (w3 := n_set_tick t (n_set_db g w2)); set (setdir := f) end.
  assert (Hm : made kind phone id w w3).
  { split; [done|]. split; [done|]. unfold w3. simpl. split.
    - eexists. rewrite lookup_insert_eq. split; [reflexivity|]. unfold fresh_row. simpl. naive_solver.
    - intros k Hk. by rewrite lookup_insert_ne. }
  clearbody w3. destruct (write_run setdir w3) as (t4&now4&Hw).
  assert (Hm4 : made kind phone id w (write clock up setdir w3).2).
  { destruct (write clock up setdir w3) as [[[]|e] w4]; cbn [snd]; [|by rewrite Hw].
    destruct Hw as (d&Hd& ->). unfold setdir, SetSessionDBDir in Hd. destruct (_ && _) in Hd; [done|].
    injection Hd as <-. eapply made_alter; [exact Hm| |reflexivity]. intros s Hs. exact Hs. }
  set (w4 := (write clock up setdir w3).2) in *. clearbody w4.
  destruct (stmt_run clock up (λ now d, ((), SetSessionOwner now id workerID d)) w4) as (t5&now5&->).
  destruct (up (nd_tick w4)); [|exact Hm4]. eapply made_alter; [exact Hm4| |reflexivity].
  intros s (?&?&?&?&?). unfold fresh_row. simpl. by auto 10.
Qed.

(** How a creation runs. *)
Lemma create_user_run appID phone proxyID label w :
  let '(res, w') := CreateUser clock up quote box workerID dataDir rand fresh appID phone proxyID label w in
  match res with
  | Err (ErrLoginPending sid) => PendingUserLogin phone (nd_db w) = Some sid ∧ w' = n_set_tick (nd_tick w') w
  | Err (ECreate _) => w' = n_set_tick (nd_tick w') w
  | Ok sid =>
      PendingUserLogin phone (nd_db w) = None ∧ nd_log w' = Opened sid :: nd_log w ∧
      nd_held w' = <[sid := mkHeld "user" (newLiveSession true) None new_guard]> (nd_held w) ∧
      sessions (nd_db w) !! sid = None ∧
      (∃ s, sessions (nd_db w') !! sid = Some s ∧ fresh_row "user" phone s) ∧
      ∀ k, k ≠ sid → sessions (nd_db w') !! k = sessions (nd_db w) !! k
  end.
Proof.
  unfold CreateUser, check_pending, start_user. unfold nbind at 1 2.
  destruct (stmt_run clock up (λ _ d, (PendingUserLogin phone d, d)) w) as (t&now&->).
  destruct (up (nd_tick w)); [|done]. unfold nret at 1. cbn [fst snd].
  change (n_set_tick t (n_set_db (λ _, nd_db w) w)) with (n_set_tick t w).
  destruct (PendingUserLogin phone (nd_db w)) as [sid|] eqn:Ep; [by split|].
  change ((nret (Ok (E := create_err) ()) (n_set_tick t w)).2) with (n_set_tick t w).
  unfold nbind at 1. destruct (create_inputs_run appID proxyID (n_set_tick t w)) as [t' E]. rewrite E. clear E.
  destruct (create_inputs clock up quote box appID proxyID (n_set_tick t w)).1 as [i|e]; [|done].
  unfold nbind at 1. set (w1 := n_set_tick t' _).
  pose proof (create_row_run "user" appID proxyID phone label None w1) as Hr.
  destruct (create_row clock up box workerID dataDir rand fresh "user" appID proxyID phone label None w1) as [[[id k]|e] w2];
    cbn [fst snd]; [|by rewrite Hr].
  destruct Hr as (Hn&Hh&Hl&Hs&Ho). unfold nbind, put, nupd, nret. cbn [fst snd n_log n_set_held nd_log nd_held nd_db].
  rewrite Hl, Hh. by repeat split.
Qed.

(** C28: Creating a user session starts at most one login, and refusing costs
    nothing. When a login for the phone already waits for input, the answer
    names that session and nothing changes; any other failure also leaves the
    registry and the worker as they were; otherwise there was no such login,
    exactly one client is started, on a session that is new in the registry: its
    row is the user's, connecting, with its database key stored, owned by this
    worker or nobody, and no other row or entry changes. *)
Theorem create_user_outcomes appID phone proxyID label w :
  let '(res, w') := CreateUser clock up quote box workerID dataDir rand fresh appID phone proxyID label w in
  match res with
  | Err (ErrLoginPending sid) => PendingUserLogin phone (nd_db w) = Some sid ∧ w' = n_set_tick (nd_tick w') w
  | Err (ECreate _) => w' = n_set_tick (nd_tick w') w
  | Ok sid =>
      PendingUserLogin phone (nd_db w) = None ∧ nd_log w' = Opened sid :: nd_log w ∧
      nd_held w' = <[sid := mkHeld "user" (newLiveSession true) None new_guard]> (nd_held w) ∧
      sessions (nd_db w) !! sid = None ∧
      (∃ s, sessions (nd_db w') !! sid = Some s ∧ fresh_row "user" phone s) ∧
      ∀ k, k ≠ sid → sessions (nd_db w') !! k = sessions (nd_db w) !! k
  end.
Proof. exact (create_user_run appID phone proxyID label w). Qed.

(** A creation touches one new session at most: its entry and its row. *)
Definition bears (w w' : node) : Prop :=
  w' = n_set_tick (nd_tick w') w ∨
  ∃ id, sessions (nd_db w) !! id = None ∧ is_Some (sessions (nd_db w') !! id) ∧
    ∀ k, k ≠ id → nd_held w' !! k = nd_held w !! k ∧ sessions (nd_db w') !! k = sessions (nd_db w) !! k.

Lemma user_bears appID phone proxyID label w :
  bears w (CreateUser clock up quote box workerID dataDir rand fresh appID phone proxyID label w).2.
Proof.
  pose proof (create_user_run appID phone proxyID label w) as H. destruct (CreateUser _ _ _ _ _ _ _ _ _ _ _ _ w) as [[id|[sid|e]] w']; cbn [snd].
  - destruct H as (_&_&Hh&Hn&(s&Hs&_)&Ho). right. exists id. split; [done|]. split; [by exists s|].
    intros k Hk. split; [by rewrite Hh, lookup_insert_ne|by apply Ho].
  - left. by destruct H.
  - by left.
Qed.

(** Changes of one session only. *)
Definition only (id : string) (w w' : node) : Prop :=
  (is_Some (sessions (nd_db w) !! id) → is_Some (sessions (nd_db w') !! id)) ∧
  ∀ k, k ≠ id → nd_held w' !! k = nd_held w !! k ∧ sessions (nd_db w') !! k = sessions (nd_db w) !! k.

#[local] Instance only_preorder id : PreOrder (only id).
Proof.
  split; [intros w; by split|]. intros w1 w2 w3 [A1 A2] [B1 B2]. split; [auto|]. intros k Hk.
  destruct (A2 k Hk), (B2 k Hk). split; congruence.
Qed.
#[local] Instance only_timeless id : Timeless (only id).
Proof. intros t w. by split. Qed.

Lemma only_entry id (f : held → held) : moves (only id) (nupd (n_set_held (alter f id))).
Proof. intros w. split; [done|]. intros k Hk. simpl. by rewrite lookup_alter_ne. Qed.

Lemma only_status id st : moves (only id) (stmt clock up (λ now d, ((), UpdateSessionStatus now id st d))).
Proof.
  apply moves_stmt; [apply _..|]. intros w now. split.
  - simpl. intros [s Hs]. rewrite lookup_alter_eq, Hs. by eexists.
  - intros k Hk. simpl. by rewrite lookup_alter_ne.
Qed.

Lemma bind_run {A B} (c : N A) (f : A → N B) w : nbind c f w = f (c w).1 (c w).2.
Proof. done. Qed.

Lemma bot_bears opened appID token proxyID label w :
  bears w (CreateBot clock up quote box workerID dataDir rand fresh td opened appID token proxyID label w).2.
Proof.
  unfold CreateBot. rewrite bind_run. destruct (create_inputs_run appID proxyID w) as [t ->].
  destruct (create_inputs clock up quote box appID proxyID w).1 as [i|e]; [|by left].
  rewrite bind_run. set (w1 := (encrypt box rand token (n_set_tick t w)).2).
  assert (Hw1 : w1 = n_set_tick (nd_tick w1) w) by done. clearbody w1.
  destruct (encrypt box rand token (n_set_tick t w)).1 as [tokEnc|e]; [|by left].
  rewrite bind_run. pose proof (create_row_run "bot" appID proxyID "" label (Some tokEnc) w1) as Hr.
  destruct (create_row clock up box workerID dataDir rand fresh "bot" appID proxyID "" label (Some tokEnc) w1) as [[[id k]|e] w2];
    cbn [fst snd]; [|left; by rewrite Hr, Hw1].
  destruct Hr as (Hn&Hh&_&(s&Hs&_)&Ho). rewrite Hw1 in Hn, Hh, Ho. right. exists id. split; [done|].
  match goal with |- context [nbind ?c ?f w2] => set (rest := nbind c f) end.
  assert (Hrest : moves (only id) rest).
  { unfold rest. apply moves_bind; [apply _| |intros _].
    { intros w'. split; [done|]. intros k' Hk. simpl. by rewrite lookup_insert_ne. }
    apply moves_bind; [apply _|intros w'; by split|intros _]. apply moves_bind; [apply _|apply moves_ask; apply _|].
    assert (Hfails : ∀ e : gerr, moves (only id) (let+ _ := nupd (n_set_held (alter (λ h, h_set_live (failLogin quote e (hd_live h)) h) id)) in
      let+ _ := stmt clock up (λ now d, ((), UpdateSessionStatus now id "error" d)) in nret (Err (A := string * json) e))).
    { intros e. apply moves_bind; [apply _|apply only_entry|intros _].
      apply moves_bind; [apply _|apply only_status|intros _; apply moves_ret, _]. }
    intros [[e|]|]; [apply Hfails| |apply Hfails].
    apply moves_bind; [apply _|apply only_entry|intros _]. apply moves_bind; [apply _|apply only_status|intros _].
    apply moves_bind; [apply _|apply moves_ask; apply _|]. intros [v|e]; apply moves_ret, _. }
  destruct (Hrest w2) as [H1 H2]. split; [apply H1; by exists s|]. intros k' Hk. destruct (H2 k' Hk) as [-> ->]. split; [by rewrite Hh|by apply Ho].
Qed.

(** No row of the registry refers to a session by a foreign key. *)
Definition no_reference (sid : string) (d : db) : Prop :=
  sessions d !! sid = None ∧
  (∀ k s, subs d !! k = Some s → sb_session s ≠ sid) ∧
  (∀ k r, deliveries d !! k = Some r → d_session r ≠ sid) ∧
  (∀ k r, sends d !! k = Some r → k.1.1 ≠ sid) ∧
  (∀ k r, cooldowns d !! k = Some r → k.1 ≠ sid) ∧
  (∀ k l, limits d !! k = Some l → l_session l ≠ Some sid) ∧
  (∀ t, (t, sid) ∉ token_sessions d).

Lemma cascade_no_reference sid d : no_reference sid (cascade_session sid d).
Proof.
  unfold no_reference, cascade_session, delete_limits, delete_subs. simpl.
  split; [apply lookup_delete_eq|]. split; [|split; [|split; [|split; [|split]]]].
  - intros k s [_ H]%lookup_delete_where E. by rewrite E, String.eqb_refl in H.
  - intros k r [_ H]%lookup_delete_where E. by rewrite E, String.eqb_refl in H.
  - intros k r [_ H]%lookup_delete_where E. by rewrite E, String.eqb_refl in H.
  - intros k r [_ H]%lookup_delete_where E. by rewrite E, String.eqb_refl in H.
  - intros k l [_ H]%lookup_delete_where Hs. rewrite Hs in H. cbn [opt_eqb] in H. by rewrite String.eqb_refl in H.
  - intros t [H _]%elem_of_filter. done.
Qed.

(** A counter of a rule of the session's own. *)
Definition own_counter (sid : string) (d : db) (k : CounterKey) : Prop :=
  ∃ l, limits d !! ck_limit k = Some l ∧ l_session l = Some sid.

Lemma cascade_counters sid d k n :
  counters (cascade_session sid d) !! k = Some n ↔ counters d !! k = Some n ∧ ¬ own_counter sid d k.
Proof.
  unfold cascade_session, delete_limits, delete_subs, own_counter. simpl. rewrite lookup_delete_where.
  destruct (limits d !! ck_limit k) as [l|]; [|naive_solver]. rewrite opt_eqb_false. naive_solver.
Qed.

(** What happens to the client of an entry being deleted: an aborted login that
    unwinds closes its own; any other client is closed here. *)
Definition closes (unwound : bool) (h : held) : bool :=
  lv_client (hd_live h) && negb ((abortLogin (hd_live h)).1 && unwound).

Definition same_rules (w w' : node) : Prop :=
  limits (nd_db w') = limits (nd_db w) ∧ counters (nd_db w') = counters (nd_db w).

(** The same registry but for one row's status. *)
Definition same_but (sid : string) (w w' : node) : Prop :=
  nd_retry w' = nd_retry w ∧ nd_log w' = nd_log w ∧ same_rules w w' ∧
  (∀ k, k ≠ sid → sessions (nd_db w') !! k = sessions (nd_db w) !! k) ∧
  s_db_dir <$> sessions (nd_db w') !! sid = s_db_dir <$> sessions (nd_db w) !! sid.

Notation unwind := (unwind clock up quote).

Lemma unwind_run sid w h : nd_held w !! sid = Some h →
  same_but sid w (unwind sid w).2 ∧ delete sid (nd_held (unwind sid w).2) = delete sid (nd_held w) ∧
  has_client (unwind sid w).2 sid = false.
Proof.
  intros Hh. unfold unwind, nbind, nupd, nret. cbn [fst snd]. set (w1 := n_set_held _ w).
  destruct (stmt_run clock up (λ now d, ((), UpdateSessionStatus now sid "error" d)) w1) as (t&now&->).
  assert (Hd : delete sid (nd_held w1) = delete sid (nd_held w)) by apply delete_alter_eq.
  assert (Hc : has_client w1 sid = false).
  { unfold has_client, w1. simpl. rewrite lookup_alter_eq, Hh. simpl. unfold failLogin, setStatus. simpl.
    by destruct (String.eqb (lv_status (hd_live h)) "authorized"), (String.eqb (lv_status (hd_live h)) "error"). }
  destruct (up (nd_tick w1)); cbn [snd]; (split; [|by split]); [|done].
  split; [done|]. split; [done|]. split; [done|]. simpl. split.
  - intros k Hk. by rewrite lookup_alter_ne.
  - rewrite lookup_alter_eq. by destruct (sessions (nd_db w) !! sid).
Qed.

(** The log of letting go: the client was asked to close, if [closes], while the
    session was still in the registry. *)
Definition let_go_log (sid : string) (closes : bool) (w w' : node) : Prop :=
  if closes
  then ∃ d, nd_log w' = Closed sid d :: nd_log w ∧ (is_Some (sessions d !! sid) ↔ is_Some (sessions (nd_db w) !! sid))
  else nd_log w' = nd_log w.

Definition entry_closes (unwound : bool) (o : option held) : bool :=
  match o with Some h => closes unwound h | None => false end.

Lemma let_go_run unwinds sid w w' : (let_go clock up quote unwinds sid w).2 = w' →
  nd_held w' = delete sid (nd_held w) ∧ nd_retry w' = nd_retry w ∧
  let_go_log sid (entry_closes (unwinds (nd_tick w)) (nd_held w !! sid)) w w' ∧
  same_rules w w' ∧
  (∀ k, k ≠ sid → sessions (nd_db w') !! k = sessions (nd_db w) !! k) ∧
  s_db_dir <$> sessions (nd_db w') !! sid = s_db_dir <$> sessions (nd_db w) !! sid.
Proof.
  intros E. unfold let_go, nbind at 1, nget at 1 in E. cbn [fst snd] in E. destruct (nd_held w !! sid) as [h|] eqn:Eh.
  2:{ subst w'. cbn. split; [|done]. symmetry. by apply delete_id. }
  set (w1 := n_set_held <[sid := h_set_live (abortLogin (hd_live h)).2 h]> (n_set_tick (S (nd_tick w)) w)).
  unfold entry_closes, closes. set (ab := (abortLogin (hd_live h)).1) in *. set (w2 := ((if ab && unwinds (nd_tick w) then unwind sid else nret ()) w1).2).
  change ((nbind nget (λ w, nbind (if has_client w sid then nupd (n_close sid) else nret ()) (λ _, drop sid)) w2).2 = w') in E.
  assert (Hmid : same_but sid w w2 ∧ delete sid (nd_held w2) = delete sid (nd_held w) ∧
    has_client w2 sid = lv_client (hd_live h) && negb (ab && unwinds (nd_tick w))).
  { unfold w2. destruct (ab && unwinds (nd_tick w)).
    - destruct (unwind_run sid w1 (h_set_live (abortLogin (hd_live h)).2 h)) as (H1&H2&H3); [apply lookup_insert_eq|].
      split; [exact H1|]. rewrite andb_false_r. split; [|exact H3].
      etrans; [exact H2|]. unfold w1. simpl. by rewrite delete_insert_eq.
    - cbn [nret snd]. unfold w1. split; [done|]. simpl. rewrite delete_insert_eq, andb_true_r. split; [done|].
      unfold has_client. simpl. rewrite lookup_insert_eq. simpl. unfold abortLogin.
      by destruct (lv_done (hd_live h)) as [[]|], (lv_canceled (hd_live h)). }
  clearbody w2. destruct Hmid as ((Hr&Hl&Hru&Ho&Hd)&Hh&Hc). rewrite <- Hc. clear Hc ab.
  unfold nbind, nget, drop, nupd in E. cbn [fst snd] in E. subst w'.
  assert (Hs : is_Some (sessions (nd_db w2) !! sid) ↔ is_Some (sessions (nd_db w) !! sid))
    by (rewrite <- !(fmap_is_Some s_db_dir); by rewrite Hd).
  destruct (has_client w2 sid); cbn; unfold let_go_log; cbn; rewrite ?Hl; (split; [done|split; [done|split; [|done]]]); [|done].
  by exists (nd_db w2).
Qed.

(** C29: Deleting a session removes what is its own. The worker forgets it, its
    client is asked to close once, before the row goes (never when the authorizer
    of an aborted login has already closed it), other entries stay. When the answer is success the
    session was there and its row is gone with every subscription, queued
    delivery, send, cooldown, rule and grant that refers to it; of the rate
    counters exactly those of its own rules go, those of rules for its kind or
    for a token stay, though their bucket is the session's id; the directory to
    remove is the one the row named. A session the registry does not know, or a
    registry that does not answer, is an error. *)
Theorem delete_session_complete unwinds sid w :
  let '((err, dir), w') := DeleteSession clock up quote unwinds sid w in
  nd_held w' = delete sid (nd_held w) ∧ nd_retry w' = delete sid (nd_retry w) ∧
  let_go_log sid (entry_closes (unwinds (nd_tick w)) (nd_held w !! sid)) w w' ∧
  match err with
  | None => no_reference sid (nd_db w') ∧
      (∀ k n, counters (nd_db w') !! k = Some n ↔ counters (nd_db w) !! k = Some n ∧ ¬ own_counter sid (nd_db w) k) ∧
      ∃ s, sessions (nd_db w) !! sid = Some s ∧
        dir = (if String.eqb (coalesce (s_db_dir s)) "" then None else s_db_dir s)
  | Some _ => dir = None ∧ ∀ k, k ≠ sid → sessions (nd_db w') !! k = sessions (nd_db w) !! k
  end.
Proof.
  destruct (DeleteSession clock up quote unwinds sid w) as [[err dir] w'] eqn:E. unfold DeleteSession in E.
  unfold nbind at 1 in E. destruct (let_go_run unwinds sid w _ eq_refl) as (H1&H2&H3&[Hlm Hct]&H4&H5).
  set (w1 := (let_go clock up quote unwinds sid w).2) in *. clearbody w1.
  unfold nbind, clearRetry, nupd, nret in E. cbn [fst snd] in E. set (w2 := n_set_retry (delete sid) w1) in E.
  destruct (stmt_run clock up (λ _ d, Registry.DeleteSession sid d) w2) as (t&now&Er). rewrite Er in E. clear Er.
  change (nd_db w2) with (nd_db w1) in E. unfold Registry.DeleteSession in E.
  destruct (sessions (nd_db w1) !! sid) as [s|] eqn:Es; destruct (up (nd_tick w2)); cbn in E; injection E as <- <- <-;
    cbn; rewrite H1, H2; (split; [done|]); (split; [done|]); (split; [exact H3|]); try (split; [done|exact H4]).
  split; [apply cascade_no_reference|]. split.
  { intros k n. etrans; [exact (cascade_counters sid (nd_db w1) k n)|]. rewrite Hct. unfold own_counter. by rewrite Hlm. }
  destruct (sessions (nd_db w) !! sid) as [s0|]; [|done]. exists s0.
  split; [done|]. injection H5 as <-. destruct (s_db_dir s) as [x|]; [|done]. simpl. done.
Qed.
End theorems.

(** The count of a deleted session under a rule for all user sessions: it stays
    until the sweep of windows long past. *)
Example counter_outlives_session :
  let rule := mkLimit "d" "session" (Some "user") None None ["@join"] 10 "day" None true 0 in
  let own := mkLimit "o" "session" None (Some "s") None ["@send"] 3 "day" None true 1 in
  let reg := with_counters (λ _, {[mkCounterKey "d" "s" 0 := 7%Z; mkCounterKey "o" "s" 0 := 2%Z]})
               (with_limits (λ _, {["d" := rule; "o" := own]}) (ex_reg (100 * second))) in
  let c := DeleteSession (λ _, 0%Z) (λ _, true) (λ s, s) (λ _, false) "s" (mkNode 0 ∅ ∅ false reg []) in
  c.1.1 = None ∧ map_to_list (counters (nd_db c.2)) = [(mkCounterKey "d" "s" 0, 7%Z)].
Proof. vm_compute. done. Qed.

(** The write of the owner may fail unnoticed: only that statement is lost here,
    the creation reports success, and the bot works. But its row says that it is
    nobody's, so the worker's own next pass claims it as an orphan and starts a
    second client on the directory that is still locked; the entry is dropped
    and the working client lost. *)
Example owner_write_lost :
  let c := CreateBot (λ _, 100 * second)%Z (λ i, negb (i =? 10)%nat) (λ s, s) ex_box "A" "/data" (λ _ n, Some (zeros n))
    (λ i, itoa (Z.of_nat i)) (λ _ _ _, TdResult JNull) (λ _, Some None) "app" "tok" "" ""
    (mkNode 0 ∅ ∅ false (ex_reg (100 * second)) []) in
  let w := (ex_reconcile c.2).2 in
  c.1 = Ok ("5", JNull) ∧ ready c.2 "5" = true ∧ s_worker <$> sessions (nd_db c.2) !! "5" = Some None ∧
  nd_held w !! "5" = None ∧ nd_log w = [Opened "5"; Opened "s"; Opened "5"].
Proof. vm_compute. done. Qed.

(** Two requests for the same phone that overlap both pass the check, and both
    start a login: nothing in the registry stops the second row. *)
Example overlapping_creates :
  let run {A} (c : (nat → Z) → (nat → bool) → N A) := c (λ _, 0%Z) (λ _, true) in
  let check := run (λ clock up, check_pending clock up "+2") in
  let start := run (λ clock up, start_user clock up (λ s, s) ex_box "A" "/data" (λ _ n, Some (zeros n)) (λ i, itoa (Z.of_nat i))
                                  "app" "+2" "" "") in
  let c1 := check (ex_node 0) in
  let c2 := check c1.2 in
  let s1 := start c2.2 in
  let s2 := start s1.2 in
  c1.1 = Ok () ∧ c2.1 = Ok () ∧
  map (λ kv, pending_for "+2" kv.2) (select (λ _ s, pending_for "+2" s) (sessions (nd_db s2.2))) = [true; true] ∧
  length (nd_log s2.2) = 2%nat.
Proof. vm_compute. done. Qed.
