(* ===== verification/Integrity.v ===== *)
(** The registry's integrity (internal/store/store.go, limits.go): every
    statement the store package makes keeps what the schema promises, so no row
    ever refers to one that is gone. *)

From S2P Require Import Prelude GoStr Json Types Db Registry Counters Guard Sends Subs Tokens Delivery.


(** Every change the store package makes to the registry, as a step. *)
Inductive wrote (d : db) : db → Prop :=
| w_CreateApp id now apiID enc label r d' :
    CreateApp id now apiID enc label d = Ok (r, d') → wrote d d'
| w_CreateProxy id now p r d' : CreateProxy id now p d = Ok (r, d') → wrote d d'
| w_UpdateAppLabel id label : wrote d (UpdateAppLabel id label d).2
| w_UpdateProxyLabel id label : wrote d (UpdateProxyLabel id label d).2
| w_CreateSession id now n r d' : CreateSession id now n d = Ok (r, d') → wrote d d'
| w_SetSessionDBDir now id dir d' : SetSessionDBDir now id dir d = Ok d' → wrote d d'
| w_UpdateSessionStatus now id st : wrote d (UpdateSessionStatus now id st d)
| w_ExpireStaleLogins now cutoff grace : wrote d (ExpireStaleLogins now cutoff grace d).2
| w_UpdateSessionMeta now id label p r d' :
    UpdateSessionMeta now id label p d = Ok (r, d') → wrote d d'
| w_DeleteSession id : wrote d (DeleteSession id d).2
| w_RegisterWorker now id addr : wrote d (RegisterWorker now id addr d)
| w_SetSessionOwner now sid wid : wrote d (SetSessionOwner now sid wid d)
| w_ClaimOrphans now busy wid cutoff limit : wrote d (ClaimOrphans now busy wid cutoff limit d).2
| w_ReleaseSessions now wid : wrote d (ReleaseSessions now wid d).2
| w_ReleaseSession now sid : wrote d (ReleaseSession now sid d)
| w_DeregisterWorker wid : wrote d (DeregisterWorker wid d)
| w_PurgeWorkers t : wrote d (PurgeWorkers t d).2
| w_CreateLimit id now l r d' : CreateLimit id now l d = Ok (r, d') → wrote d d'
| w_UpdateLimit l r d' : UpdateLimit l d = Ok (r, d') → wrote d d'
| w_DeleteLimit id : wrote d (DeleteLimit id d).2
| w_TakeCounters uses r d' : TakeCounters uses d = Ok (r, d') → wrote d d'
| w_GiveBackCounters uses : wrote d (GiveBackCounters uses d)
| w_PurgeCounters t : wrote d (PurgeCounters t d).2
| w_SetCooldown now sid c d' : SetCooldown now sid c d = Ok d' → wrote d d'
| w_PurgeCooldowns t : wrote d (PurgeCooldowns t d).2
| w_DeleteCooldown sid scope : wrote d (DeleteCooldown sid scope d).2
| w_SetSessionPremium sid b : wrote d (SetSessionPremium sid b d)
| w_SetSessionFrozen now sid b : wrote d (SetSessionFrozen now sid b d)
| w_SetSessionFreeze sid since del appeal : wrote d (SetSessionFreeze sid since del appeal d)
| w_RegisterSend now sid chat temp d' : RegisterSend now sid chat temp d = Ok d' → wrote d d'
| w_RecordSendOutcome now sid chat temp fin e d' :
    RecordSendOutcome now sid chat temp fin e d = Ok d' → wrote d d'
| w_PurgeSends t : wrote d (PurgeSends t d).2
| w_CreateSubscription id now sid tok url enc fs r d' :
    CreateSubscription id now sid tok url enc fs d = Ok (r, d') → wrote d d'
| w_DeleteSubscription sid tok id : wrote d (DeleteSubscription sid tok id d).2
| w_AddDropped sid n : wrote d (AddDropped sid n d)
| w_CreateToken id now name hash en all appIDs sids r d' :
    CreateToken id now name hash en all appIDs sids d = Ok (r, d') → wrote d d'
| w_UpdateToken id p r d' : UpdateToken id p d = Ok (r, d') → wrote d d'
| w_DeleteToken id : wrote d (DeleteToken id d).2
| w_EnqueueDeliveries fresh text now sid ids d' :
    EnqueueDeliveries fresh text now sid ids d = Ok d' → wrote d d'
| w_MarkDelivered now id : wrote d (MarkDelivered now id d)
| w_FailDelivery now id next giveUp reason d' :
    FailDelivery now id next giveUp reason d = Ok d' → wrote d d'
| w_PurgeDeliveries t : wrote d (PurgeDeliveries t d).2.

(** ** Changes of one table *)

(** The columns of a session that other rows or the schema look at. *)
Definition refs (s : session_row) : string * option string * option string :=
  (s_app s, s_proxy s, s_db_dir s).

(** A table rewritten in place: the same keys, rows alike in what matters. *)
Definition alike {A B} (f : A → B) (m m' : gmap string A) : Prop := ∀ k, f <$> m' !! k = f <$> m !! k.

Lemma alike_some {A B} (f : A → B) m m' k a' :
  alike f m m' → m' !! k = Some a' → ∃ a, m !! k = Some a ∧ f a' = f a.
Proof. intros H Ha. specialize (H k). rewrite Ha in H. destruct (m !! k) as [a|]; [|done]. exists a. by simplify_eq/=. Qed.

Lemma alike_is_Some {A B} (f : A → B) m m' k : alike f m m' → is_Some (m !! k) → is_Some (m' !! k).
Proof. intros H [a Ha]. specialize (H k). rewrite Ha in H. destruct (m' !! k); [by eexists|done]. Qed.

Lemma alike_alter {A B} (f : A → B) (g : A → A) k (m : gmap string A) :
  (∀ a, f (g a) = f a) → alike f m (alter g k m).
Proof.
  intros Hg k'. destruct (decide (k' = k)) as [->|]; [rewrite lookup_alter_eq|by rewrite lookup_alter_ne].
  destruct (m !! k); simpl; [by rewrite Hg|done].
Qed.

Lemma alike_update {A B} (f : A → B) (P : string → A → bool) (g : A → A) (m : gmap string A) :
  (∀ a, f (g a) = f a) → alike f m (update_where P g m).
Proof.
  intros Hg k. rewrite lookup_update_where. destruct (m !! k) as [a|]; [|done]. simpl.
  destruct (P k a); [by rewrite Hg|done].
Qed.

(** A table that only grows keeps what refers to it. *)
Definition grows {A} (m m' : gmap string A) : Prop := ∀ k, is_Some (m !! k) → is_Some (m' !! k).

Lemma grows_insert {A} k (a : A) m : grows m (<[k := a]> m).
Proof. intros k'. apply is_Some_insert_mono. Qed.

Lemma grows_alter {A} (f : A → A) k m : grows m (alter f k m).
Proof. intros k' H. by apply is_Some_alter. Qed.

Lemma grows_alike {A B} (f : A → B) m m' : alike f m m' → grows m m'.
Proof. intros H k. by apply alike_is_Some with f. Qed.

(** A change of the sessions that removes none. *)
Lemma ok_sessions f d :
  grows (sessions d) (f (sessions d)) →
  (∀ k s, f (sessions d) !! k = Some s →
     is_Some (apps d !! s_app s) ∧ (∀ p, s_proxy s = Some p → is_Some (proxies d !! p))) →
  (∀ i j s t dir, f (sessions d) !! i = Some s → f (sessions d) !! j = Some t →
     s_db_dir s = Some dir → s_db_dir t = Some dir → i = j) →
  db_ok d → db_ok (with_sessions f d).
Proof.
  intros Hg Hr Hd [H1 H2 H3 H4 H5 H6 H7 H8 H9 H10 H11]. constructor; simpl; try done.
  - intros t s Hin. destruct (H3 t s Hin). by auto.
  - intros k s Hs. destruct (H4 k s Hs). by auto.
  - intros k r Hk. destruct (H5 k r Hk). by auto.
  - intros k r Hk. by apply Hg, (H6 k r).
  - intros k r Hk. by apply Hg, (H7 k r).
  - intros k l Hl. destruct (H8 k l Hl) as [HA HB]. split; [|done]. intros s Hs. by apply Hg, HA.
Qed.

Lemma ok_sessions_alike f d : alike refs (sessions d) (f (sessions d)) → db_ok d → db_ok (with_sessions f d).
Proof.
  intros Ha Hok. apply ok_sessions; [by apply grows_alike with refs| | |done].
  - intros k s (s0&Hs&E)%(alike_some _ _ _ _ _ Ha). injection E as -> -> _. by apply (ok_session d Hok k).
  - intros i j s t dir (s0&Hs&Es)%(alike_some _ _ _ _ _ Ha) (t0&Ht&Et)%(alike_some _ _ _ _ _ Ha).
    injection Es as _ _ ->. injection Et as _ _ ->. by apply (ok_db_dir d Hok i j s0 t0).
Qed.

Lemma ok_apps f d : grows (apps d) (f (apps d)) → db_ok d → db_ok (with_apps f d).
Proof.
  intros Hg [H1 H2 H3 H4 H5 H6 H7 H8 H9 H10 H11]. constructor; simpl; try done.
  - intros k s Hs. destruct (H1 k s Hs). by auto.
  - intros t a Hin. destruct (H2 t a Hin). by auto.
Qed.

Lemma ok_proxies f d : grows (proxies d) (f (proxies d)) → db_ok d → db_ok (with_proxies f d).
Proof.
  intros Hg [H1 H2 H3 H4 H5 H6 H7 H8 H9 H10 H11]. constructor; simpl; try done.
  intros k s Hs. destruct (H1 k s Hs). by auto.
Qed.

Lemma ok_tokens f d :
  grows (tokens d) (f (tokens d)) →
  (∀ i j s t, f (tokens d) !! i = Some s → f (tokens d) !! j = Some t → t_hash s = t_hash t → i = j) →
  db_ok d → db_ok (with_tokens f d).
Proof.
  intros Hg Hh [H1 H2 H3 H4 H5 H6 H7 H8 H9 H10 H11]. constructor; simpl; try done.
  - intros t a Hin. destruct (H2 t a Hin). by auto.
  - intros t s Hin. destruct (H3 t s Hin). by auto.
  - intros k s Hs. destruct (H4 k s Hs). by auto.
  - intros k l Hl. destruct (H8 k l Hl). by auto.
Qed.

Lemma ok_workers f d : db_ok d → db_ok (with_workers f d).
Proof. intros []. by constructor. Qed.

(** A new session. *)
Lemma ok_session_insert d id s :
  is_Some (apps d !! s_app s) → (∀ p, s_proxy s = Some p → is_Some (proxies d !! p)) → s_db_dir s = None →
  db_ok d → db_ok (with_sessions <[id := s]> d).
Proof.
  intros Ha Hp Hd Hok. apply ok_sessions; [apply grows_insert| | |done].
  - intros k s' [[<- <-]|[_ Hs]]%lookup_insert_Some; [done|by apply (ok_session d Hok k)].
  - intros i j s1 s2 dir [[<- <-]|[Hi Hs1]]%lookup_insert_Some [[<- <-]|[Hj Hs2]]%lookup_insert_Some E1 E2;
      [done|congruence|congruence|by apply (ok_db_dir d Hok i j s1 s2 dir)].
Qed.

(** One session's row changed: its application stays, a proxy it gets exists,
    a directory it gets is nobody else's. *)
Lemma ok_session_alter d id (f : session_row → session_row) :
  (∀ s, s_app (f s) = s_app s ∧
        (s_proxy (f s) = s_proxy s ∨ ∀ p, s_proxy (f s) = Some p → is_Some (proxies d !! p)) ∧
        (s_db_dir (f s) = s_db_dir s ∨
         ∀ k t, sessions d !! k = Some t → k ≠ id → s_db_dir t ≠ s_db_dir (f s))) →
  db_ok d → db_ok (with_sessions (alter f id) d).
Proof.
  intros Hf Hok. apply ok_sessions; [apply grows_alter| | |done].
  - intros k s' [(->&s&Hs&->)|[_ Hs]]%lookup_alter_Some; [|by apply (ok_session d Hok k)].
    destruct (Hf s) as (->&Hp&_), (ok_session d Hok k s Hs) as [Ha Hp']. split; [done|].
    by destruct Hp as [->|].
  - assert (Hone : ∀ j s t dir, sessions d !! id = Some s → sessions d !! j = Some t → id ≠ j →
      s_db_dir (f s) = Some dir → s_db_dir t ≠ Some dir).
    { intros j s t dir Hs Ht Hne E1 E2. destruct (Hf s) as (_&_&[E|Hn]).
      - rewrite E in E1. by apply Hne, (ok_db_dir d Hok id j s t dir).
      - apply (Hn j t Ht (not_eq_sym Hne)). congruence. }
    intros i j s1 s2 dir [(->&s&Hs&->)|[Hi Hs1]]%lookup_alter_Some [(->&s'&Hs'&->)|[Hj Hs2]]%lookup_alter_Some E1 E2;
      [done|..|by apply (ok_db_dir d Hok i j s1 s2 dir)].
    + by destruct (Hone j s s2 dir Hs Hs2 Hj E1).
    + by destruct (Hone i s' s1 dir Hs' Hs1 Hi E2).
Qed.

(** Tables nothing else refers to. *)
Lemma ok_sends f d :
  (∀ k r, f (sends d) !! k = Some r → is_Some (sessions d !! k.1.1)) → db_ok d → db_ok (with_sends f d).
Proof. intros H []. by constructor. Qed.

Lemma ok_cooldowns f d :
  (∀ k r, f (cooldowns d) !! k = Some r → is_Some (sessions d !! k.1)) → db_ok d → db_ok (with_cooldowns f d).
Proof. intros H []. by constructor. Qed.

Lemma ok_counters f d :
  (∀ k n, f (counters d) !! k = Some n → is_Some (limits d !! ck_limit k)) → db_ok d → db_ok (with_counters f d).
Proof. intros H []. by constructor. Qed.

Lemma ok_deliveries f d :
  (∀ k r, f (deliveries d) !! k = Some r → is_Some (sessions d !! d_session r) ∧ is_Some (subs d !! d_sub r)) →
  db_ok d → db_ok (with_deliveries f d).
Proof. intros H []. by constructor. Qed.

Lemma ok_token_apps f d :
  (∀ t a, (t, a) ∈ f (token_apps d) → is_Some (tokens d !! t) ∧ is_Some (apps d !! a)) →
  db_ok d → db_ok (with_token_apps f d).
Proof. intros H []. by constructor. Qed.

Lemma ok_token_sessions f d :
  (∀ t s, (t, s) ∈ f (token_sessions d) → is_Some (tokens d !! t) ∧ is_Some (sessions d !! s)) →
  db_ok d → db_ok (with_token_sessions f d).
Proof. intros H []. by constructor. Qed.

(** Subscriptions and rules that grow. *)
Lemma ok_subs f d :
  grows (subs d) (f (subs d)) →
  (∀ k s, f (subs d) !! k = Some s →
     is_Some (sessions d !! sb_session s) ∧ (∀ t, sb_token s = Some t → is_Some (tokens d !! t))) →
  db_ok d → db_ok (with_subs f d).
Proof.
  intros Hg Hr [H1 H2 H3 H4 H5 H6 H7 H8 H9 H10 H11]. constructor; simpl; try done.
  intros k r Hk. destruct (H5 k r Hk). by auto.
Qed.

Lemma ok_limits f d :
  grows (limits d) (f (limits d)) →
  (∀ k l, f (limits d) !! k = Some l →
     (∀ s, l_session l = Some s → is_Some (sessions d !! s)) ∧
     (∀ t, l_token l = Some t → is_Some (tokens d !! t))) →
  db_ok d → db_ok (with_limits f d).
Proof.
  intros Hg Hr [H1 H2 H3 H4 H5 H6 H7 H8 H9 H10 H11]. constructor; simpl; try done.
  intros k n Hk. by apply Hg, (H9 k n).
Qed.

(** Subscriptions changed in place. *)
Definition sub_refs (s : sub_row) : string * option string := (sb_session s, sb_token s).

Lemma ok_subs_alike f d : alike sub_refs (subs d) (f (subs d)) → db_ok d → db_ok (with_subs f d).
Proof.
  intros Ha Hok. apply ok_subs; [by apply grows_alike with sub_refs| |done].
  intros k s (s0&Hs&E)%(alike_some _ _ _ _ _ Ha). injection E as -> ->. by apply (ok_sub d Hok k).
Qed.

Definition del_refs (r : delivery_row) : string * string := (d_session r, d_sub r).

Lemma ok_deliveries_alike f d : alike del_refs (deliveries d) (f (deliveries d)) → db_ok d → db_ok (with_deliveries f d).
Proof.
  intros Ha Hok. apply ok_deliveries; [|done].
  intros k r (r0&Hr&E)%(alike_some _ _ _ _ _ Ha). injection E as -> ->. by apply (ok_delivery d Hok k).
Qed.

(** Removing subscriptions or rules, with their cascades. *)
Lemma ok_delete_subs P d : db_ok d → db_ok (delete_subs P d).
Proof.
  intros [H1 H2 H3 H4 H5 H6 H7 H8 H9 H10 H11]. constructor; simpl; try done.
  - intros k s [Hs _]%lookup_delete_where. by apply (H4 k).
  - intros k r [Hr Hg]%lookup_delete_where. destruct (H5 k r Hr) as [Ha [s Hs]]. split; [done|].
    exists s. apply lookup_delete_where. split; [done|]. by rewrite Hs in Hg.
Qed.

Lemma ok_delete_limits P d : db_ok d → db_ok (delete_limits P d).
Proof.
  intros [H1 H2 H3 H4 H5 H6 H7 H8 H9 H10 H11]. constructor; simpl; try done.
  - intros k l [Hl _]%lookup_delete_where. by apply (H8 k).
  - intros k n [Hn Hg]%lookup_delete_where. destruct (H9 k n Hn) as [l Hl].
    exists l. apply lookup_delete_where. split; [done|]. by rewrite Hl in Hg.
Qed.

(** Removing a session, once nothing refers to it. *)
Lemma delete_keeps {A} (m : gmap string A) x k : k ≠ x → is_Some (m !! k) → is_Some (delete x m !! k).
Proof. intros Hne. by rewrite lookup_delete_ne. Qed.

Lemma ok_cascade_session sid d : db_ok d → db_ok (cascade_session sid d).
Proof.
  intros [H1 H2 H3 H4 H5 H6 H7 H8 H9 H10 H11].
  assert (Hlim : ∀ k l, limits d !! k = Some l → opt_eqb (l_session l) sid = false →
    ∀ s, l_session l = Some s → s ≠ sid).
  { intros k l _ Hn s Hs ->. rewrite Hs in Hn. simpl in Hn. by rewrite String.eqb_refl in Hn. }
  constructor; simpl.
  - intros k s [_ Hs]%lookup_delete_Some. by apply (H1 k).
  - done.
  - intros t s [Hne Hin]%elem_of_filter. destruct (H3 t s Hin). split; [done|]. by apply delete_keeps.
  - intros k s [Hs Hn]%lookup_delete_where. apply String.eqb_neq in Hn. destruct (H4 k s Hs).
    split; [by apply delete_keeps|done].
  - intros k r [[Hr Hg]%lookup_delete_where Hn]%lookup_delete_where. apply String.eqb_neq in Hn.
    destruct (H5 k r Hr) as [Ha [s Hs]]. split; [by apply delete_keeps|].
    exists s. apply lookup_delete_where. split; [done|]. by rewrite Hs in Hg.
  - intros k r [Hr Hn]%lookup_delete_where. apply String.eqb_neq in Hn. by apply delete_keeps, (H6 k r).
  - intros k r [Hr Hn]%lookup_delete_where. apply String.eqb_neq in Hn. by apply delete_keeps, (H7 k r).
  - intros k l [Hl Hn]%lookup_delete_where. destruct (H8 k l Hl) as [HA HB]. split; [|done].
    intros s Hs. apply delete_keeps; [by apply (Hlim k l)|by apply HA].
  - intros k n [Hn Hg]%lookup_delete_where. destruct (H9 k n Hn) as [l Hl].
    exists l. apply lookup_delete_where. split; [done|]. by rewrite Hl in Hg.
  - intros i j s t dir [_ Hs]%lookup_delete_Some [_ Ht]%lookup_delete_Some. by apply (H10 i j s t dir).
  - done.
Qed.

Lemma ok_cascade_token tid d : db_ok d → db_ok (cascade_token tid d).
Proof.
  intros [H1 H2 H3 H4 H5 H6 H7 H8 H9 H10 H11].
  assert (Hne : ∀ o, opt_eqb o tid = false → ∀ t, o = Some t → t ≠ tid).
  { intros o Hn t -> ->. simpl in Hn. by rewrite String.eqb_refl in Hn. }
  constructor; simpl.
  - done.
  - intros t a [Hn Hin]%elem_of_filter. destruct (H2 t a Hin). split; [by apply delete_keeps|done].
  - intros t s [Hn Hin]%elem_of_filter. destruct (H3 t s Hin). split; [by apply delete_keeps|done].
  - intros k s [Hs Hn]%lookup_delete_where. destruct (H4 k s Hs) as [HA HB]. split; [done|].
    intros t Ht. apply delete_keeps; [by apply (Hne (sb_token s))|by apply HB].
  - intros k r [Hr Hg]%lookup_delete_where. destruct (H5 k r Hr) as [Ha [s Hs]]. split; [done|].
    exists s. apply lookup_delete_where. split; [done|]. by rewrite Hs in Hg.
  - done.
  - done.
  - intros k l [Hl Hn]%lookup_delete_where. destruct (H8 k l Hl) as [HA HB]. split; [done|].
    intros t Ht. apply delete_keeps; [by apply (Hne (l_token l))|by apply HB].
  - intros k n [Hn Hg]%lookup_delete_where. destruct (H9 k n Hn) as [l Hl].
    exists l. apply lookup_delete_where. split; [done|]. by rewrite Hl in Hg.
  - done.
  - intros i j s t [_ Hs]%lookup_delete_Some [_ Ht]%lookup_delete_Some. by apply (H11 i j s t).
Qed.

(** ** Statements of several steps *)

Lemma each_keeps {A} (P : db → Prop) (f : A → db → res dberr db) l d d' :
  (∀ x d d', f x d = Ok d' → P d → P d') → each f l d = Ok d' → P d → P d'.
Proof.
  intros Hf. revert d. induction l as [|x l IH]; intros d; simpl; [by intros [= <-]|].
  intros (d1&H1&H2)%res_bind_ok HP. by apply (IH d1), (Hf x d).
Qed.

Lemma ok_grant_app tid a d d' : grant_app tid a d = Ok d' → db_ok d → db_ok d'.
Proof.
  unfold grant_app. destruct (_ && _) eqn:E; [|done]. intros [= <-] Hok. bool_props. rewrite !has_spec in E.
  apply ok_token_apps; [|done]. intros t x [[= -> ->]%elem_of_singleton|Hin]%elem_of_union; [done|by apply (ok_token_app d Hok)].
Qed.

Lemma ok_grant_session tid s d d' : grant_session tid s d = Ok d' → db_ok d → db_ok d'.
Proof.
  unfold grant_session. destruct (_ && _) eqn:E; [|done]. intros [= <-] Hok. bool_props. rewrite !has_spec in E.
  apply ok_token_sessions; [|done].
  intros t x [[= -> ->]%elem_of_singleton|Hin]%elem_of_union; [done|by apply (ok_token_session d Hok)].
Qed.

Lemma ok_revoke_apps tid d : db_ok d → db_ok (with_token_apps (revoke tid) d).
Proof. intros Hok. apply ok_token_apps; [|done]. intros t a [_ H]%elem_of_filter. by apply (ok_token_app d Hok). Qed.

Lemma ok_revoke_sessions tid d : db_ok d → db_ok (with_token_sessions (revoke tid) d).
Proof. intros Hok. apply ok_token_sessions; [|done]. intros t a [_ H]%elem_of_filter. by apply (ok_token_session d Hok). Qed.

Lemma ok_CreateToken id now name hash en all appIDs sids d r d' :
  CreateToken id now name hash en all appIDs sids d = Ok (r, d') → db_ok d → db_ok d'.
Proof.
  unfold CreateToken. destruct (_ || _) eqn:E; [done|]. intros (d1&H1&[= <- <-])%res_bind_ok Hok. bool_props.
  unfold replaceTokenGrants in H1. apply res_bind_ok in H1 as (d2&H2&H3).
  apply (each_keeps db_ok _ _ _ _ (ok_grant_session id) H3), (each_keeps db_ok _ _ _ _ (ok_grant_app id) H2).
  apply ok_revoke_sessions, ok_revoke_apps, ok_tokens; [apply grows_insert| |done].
  assert (Hfree : ∀ k t, tokens d !! k = Some t → t_hash t ≠ hash).
  { intros k t Ht Hh. destruct E as [_ E]. unfold hash_taken in E. apply negb_false_iff, Nat.eqb_eq in E.
    unfold affected in E. apply length_zero_iff_nil in E.
    assert (Hin : (k, t) ∈ select (λ _ t, String.eqb (t_hash t) hash) (tokens d)).
    { apply elem_of_select. by rewrite Hh, String.eqb_refl. }
    rewrite E in Hin. by apply not_elem_of_nil in Hin. }
  intros i j s t [[<- <-]|[Hi Hs]]%lookup_insert_Some [[<- <-]|[Hj Ht]]%lookup_insert_Some Hh; [done|..].
  - by destruct (Hfree j t Ht).
  - by destruct (Hfree i s Hs).
  - by apply (ok_hash d Hok i j s t).
Qed.

Lemma ok_UpdateToken id p d r d' : UpdateToken id p d = Ok (r, d') → db_ok d → db_ok d'.
Proof.
  unfold UpdateToken. destruct (has id (tokens d)); [|by intros [= <- <-]]. cbn [negb].
  set (d1 := with_tokens _ d). intros H Hok.
  assert (Hok1 : db_ok d1).
  { apply ok_tokens; [apply grows_alter| |done].
    assert (Ha : alike t_hash (tokens d) (alter (patch_row p) id (tokens d))) by by apply alike_alter.
    intros i j s t (s0&Hs&Es)%(alike_some _ _ _ _ _ Ha) (t0&Ht&Et)%(alike_some _ _ _ _ _ Ha) Hh.
    apply (ok_hash d Hok i j s0 t0 Hs Ht). congruence. }
  clearbody d1. destruct (tp_apps p) as [a|], (tp_sessions p) as [s|]; try (injection H as <- <-; done);
    apply res_bind_ok in H as (d2&H&[= <- <-]); unfold patchTokenGrants in H; apply res_bind_ok in H as (d3&Ha&Hs);
    cbn [is_set] in Ha, Hs.
  - apply (each_keeps db_ok _ _ _ _ (ok_grant_session id) Hs), ok_revoke_sessions,
      (each_keeps db_ok _ _ _ _ (ok_grant_app id) Ha), ok_revoke_apps, Hok1.
  - injection Hs as <-. apply (each_keeps db_ok _ _ _ _ (ok_grant_app id) Ha), ok_revoke_apps, Hok1.
  - injection Ha as <-. apply (each_keeps db_ok _ _ _ _ (ok_grant_session id) Hs), ok_revoke_sessions, Hok1.
Qed.

Lemma ok_TakeCounters uses d r d' : TakeCounters uses d = Ok (r, d') → db_ok d → db_ok d'.
Proof.
  unfold TakeCounters. intros (x&Hx&H)%res_bind_ok Hok. destruct x as [i|m]; injection H as <- <-; [done|].
  apply ok_counters; [|done]. pose proof (ok_counter d Hok) as Hc.
  revert Hx Hc. generalize (counters d) as m0. generalize 0%nat as i.
  induction uses as [|u uses IH]; intros i m0; cbn [take_loop]; [by intros [= <-]|].
  intros (o&Ho&Hx)%res_bind_ok Hc. destruct o as [m1|]; [|done]. apply (IH _ m1 Hx). clear IH Hx.
  unfold take_one in Ho. destruct (negb _); [done|]. destruct (negb _); [done|].
  destruct (m0 !! cu_key u) as [c|] eqn:Ek.
  - destruct (negb _); [done|]. destruct (_ <=? _)%Z; [|done]. injection Ho as <-.
    intros k n [[<- _]|[_ Hn]]%lookup_insert_Some; [by apply (Hc _ c)|by apply (Hc k n)].
  - destruct (has (ck_limit (cu_key u)) (limits d)) eqn:Eh; [|done]. injection Ho as <-.
    apply has_spec in Eh. intros k n [[<- _]|[_ Hn]]%lookup_insert_Some; [done|by apply (Hc k n)].
Qed.

Lemma ok_GiveBackCounters uses d : db_ok d → db_ok (GiveBackCounters uses d).
Proof.
  intros Hok. apply ok_counters; [|done]. apply (foldl_inv give_one (λ m, ∀ k n, m !! k = Some n → is_Some (limits d !! ck_limit k))).
  - intros m u _ Hm k n Hk. unfold give_one in Hk. apply lookup_alter_Some in Hk as [(_&c&Hc&_)|[_ Hn]]; [by apply (Hm _ c)|by apply (Hm k n)].
  - apply (ok_counter d Hok).
Qed.

Lemma ok_EnqueueDeliveries fresh text now sid ids d d' :
  EnqueueDeliveries fresh text now sid ids d = Ok d' → db_ok d → db_ok d'.
Proof.
  unfold EnqueueDeliveries. destruct text as [payload|]; [|done]. destruct (_ && _); [|done]. intros [= <-] Hok.
  apply ok_deliveries; [|done].
  apply (foldl_inv _ (λ m, ∀ k r, m !! k = Some r → is_Some (sessions d !! d_session r) ∧ is_Some (subs d !! d_sub r))).
  - intros m [k s] [Hs Hp]%elem_of_select Hm k' r [[_ <-]|[_ Hr]]%lookup_insert_Some; [|by apply (Hm k' r)].
    simpl in *. bool_props. destruct Hp as [_ <-]. split; [by apply (ok_sub d Hok k)|by exists s].
  - apply (ok_delivery d Hok).
Qed.

Lemma ok_MarkDelivered now id d : db_ok d → db_ok (MarkDelivered now id d).
Proof.
  intros Hok. unfold MarkDelivered. destruct (deliveries d !! id) as [r|]; [|done].
  apply ok_subs_alike; [by apply alike_alter|]. by apply ok_deliveries_alike; [apply alike_alter|].
Qed.

Lemma ok_FailDelivery now id next giveUp reason d d' :
  FailDelivery now id next giveUp reason d = Ok d' → db_ok d → db_ok d'.
Proof.
  unfold FailDelivery. destruct (negb _); [done|]. destruct (deliveries d !! id) as [r|]; [|by intros [= <-]].
  intros [= <-] Hok. apply ok_subs_alike; [by apply alike_alter|]. by apply ok_deliveries_alike; [apply alike_alter|].
Qed.

Lemma alike_absent {A B} (f : A → B) (g : A → A) k (m : gmap string A) : has k m = false → alike f m (alter g k m).
Proof.
  intros Hk k'. destruct (decide (k' = k)) as [->|]; [|by rewrite lookup_alter_ne].
  rewrite lookup_alter_eq. destruct (m !! k) eqn:E; [|done]. unfold has in Hk. rewrite E in Hk.
  by rewrite bool_decide_eq_true_2 in Hk; [|eexists].
Qed.

Lemma ok_UpdateSessionMeta now id label p d r d' :
  UpdateSessionMeta now id label p d = Ok (r, d') → db_ok d → db_ok d'.
Proof.
  intros H Hok. assert (Hgen : ∀ f : session_row → session_row,
    has id (sessions d) = false ∨ (∀ s, s_app (f s) = s_app s ∧
      (s_proxy (f s) = s_proxy s ∨ ∀ q, s_proxy (f s) = Some q → is_Some (proxies d !! q)) ∧ s_db_dir (f s) = s_db_dir s) →
    db_ok (with_sessions (alter f id) d)).
  { intros f [Ha|Hf]; [by apply ok_sessions_alike; [apply alike_absent|]|].
    apply ok_session_alter; [|done]. intros s. destruct (Hf s) as (?&?&?). auto. }
  unfold UpdateSessionMeta in H. destruct label as [l|], p as [q|]; [..|by injection H as _ <-];
    destruct (has id (sessions d)) eqn:Eh; cbn [andb] in H;
    try (destruct (has_opt _ _) eqn:Ep; [|done]); injection H as _ <-; apply Hgen; auto; right; intros s;
    (split; [done|split; [|done]]); try (by left); right; by apply has_opt_spec.
Qed.

(** ** Every statement *)

Lemma ok_ClaimOrphans now busy wid cutoff limit d : db_ok d → db_ok (ClaimOrphans now busy wid cutoff limit d).2.
Proof. intros Hok. by apply ok_sessions_alike; [apply alike_update|]. Qed.

Lemma ok_SetSessionDBDir now id dir d d' : SetSessionDBDir now id dir d = Ok d' → db_ok d → db_ok d'.
Proof.
  unfold SetSessionDBDir. destruct (_ && _) eqn:E; [done|]. intros [= <-] Hok.
  destruct (has id (sessions d)) eqn:Eh; [|by apply ok_sessions_alike; [apply alike_absent|]].
  apply bool_decide_eq_false, dec_stable in E.
  apply ok_session_alter; [|done]. intros s. split; [done|split; [by left|right]]. intros k t Hk Hne Hd.
  assert (Hin : (k, t) ∈ select (λ k s, negb (String.eqb k id) && opt_eqb (s_db_dir s) dir) (sessions d)).
  { apply elem_of_select. split; [done|]. simpl. rewrite (proj2 (String.eqb_neq k id) Hne), Hd. simpl. by rewrite String.eqb_refl. }
  rewrite E in Hin. by apply not_elem_of_nil in Hin.
Qed.

Lemma ok_CreateLimit id now l d r d' : CreateLimit id now l d = Ok (r, d') → db_ok d → db_ok d'.
Proof.
  unfold CreateLimit. repeat case_match; try done. intros [= _ <-] Hok. bool_props. rewrite !has_opt_spec in *.
  apply ok_limits; [apply grows_insert| |done].
  intros k l' [[_ <-]|[_ Hl]]%lookup_insert_Some; [done|by apply (ok_limit d Hok k)].
Qed.

Lemma ok_UpdateLimit l d r d' : UpdateLimit l d = Ok (r, d') → db_ok d → db_ok d'.
Proof.
  unfold UpdateLimit. destruct (limits d !! l_id l) as [o|] eqn:Eo; [|done]. repeat case_match; try done.
  intros [= _ <-] Hok. apply ok_limits; [apply grows_insert| |done].
  intros k l' [[_ <-]|[_ Hl]]%lookup_insert_Some; [by apply (ok_limit d Hok _ o Eo)|by apply (ok_limit d Hok k)].
Qed.

Lemma ok_SetCooldown now sid c d d' : SetCooldown now sid c d = Ok d' → db_ok d → db_ok d'.
Proof.
  unfold SetCooldown. intros H Hok.
  assert (Hput : is_Some (sessions d !! sid) → ∀ r, db_ok (with_cooldowns <[(sid, c_scope c) := r]> d)).
  { intros Hs r. apply ok_cooldowns; [|done].
    intros k r' [[<- _]|[_ Hr]]%lookup_insert_Some; [done|by apply (ok_cooldown d Hok k r')]. }
  destruct (cooldowns d !! _) as [r|] eqn:Er.
  - injection H as <-. destruct (_ <? _)%Z; [|done]. apply Hput, (ok_cooldown d Hok _ r Er).
  - destruct (has sid (sessions d)) eqn:Eh; [|done]. injection H as <-. by apply Hput, has_spec.
Qed.

Lemma ok_send_insert sid chat temp r d :
  is_Some (sessions d !! sid) → db_ok d → db_ok (with_sends <[(sid, chat, temp) := r]> d).
Proof.
  intros Hs Hok. apply ok_sends; [|done].
  intros k r' [[<- _]|[_ Hr]]%lookup_insert_Some; [done|by apply (ok_send d Hok k r')].
Qed.

Lemma ok_RegisterSend now sid chat temp d d' : RegisterSend now sid chat temp d = Ok d' → db_ok d → db_ok d'.
Proof.
  unfold RegisterSend. destruct (has _ (sends d)); [by intros [= <-]|].
  destruct (has sid (sessions d)) eqn:Eh; [|done]. intros [= <-]. by apply ok_send_insert, has_spec.
Qed.

Lemma ok_RecordSendOutcome now sid chat temp fin e d d' :
  RecordSendOutcome now sid chat temp fin e d = Ok d' → db_ok d → db_ok d'.
Proof.
  unfold RecordSendOutcome. destruct (outcome_row fin e) as [[st f] er]. intros H Hok.
  destruct (sends d !! _) as [r|] eqn:Er; [injection H as <-; apply ok_send_insert; [|done]; apply (ok_send d Hok _ r Er)|].
  destruct (has sid (sessions d)) eqn:Eh; [|done]. injection H as <-. by apply ok_send_insert; [apply has_spec|].
Qed.

Lemma ok_CreateSubscription id now sid tok url enc fs d r d' :
  CreateSubscription id now sid tok url enc fs d = Ok (r, d') → db_ok d → db_ok d'.
Proof.
  unfold CreateSubscription. destruct (has id (subs d)); [done|]. destruct (_ && _) eqn:E; [|done].
  intros [= _ <-] Hok. bool_props. rewrite has_spec in E. rewrite has_opt_spec in E.
  apply ok_subs; [apply grows_insert| |done].
  intros k s [[_ <-]|[_ Hs]]%lookup_insert_Some; [done|by apply (ok_sub d Hok k)].
Qed.

Lemma ok_CreateSession id now n d r d' : CreateSession id now n d = Ok (r, d') → db_ok d → db_ok d'.
Proof.
  unfold CreateSession. destruct (negb (existsb _ _)), (has id (sessions d)); try done.
  destruct (_ && _) eqn:E; [|done]. intros [= _ <-]. apply andb_true_iff in E as [Ha%has_spec Hp].
  rewrite has_opt_spec in Hp. by apply ok_session_insert.
Qed.

Lemma ok_empty : db_ok empty_db.
Proof. constructor; set_solver. Qed.

Lemma ok_wrote d d' : wrote d d' → db_ok d → db_ok d'.
Proof.
  intros H Hok. destruct H.
  - revert H. unfold CreateApp. destruct (has id (apps d)); [done|]. intros [= _ <-]. by apply ok_apps; [apply grows_insert|].
  - revert H. unfold CreateProxy. destruct (negb _), (has id (proxies d)); try done. intros [= _ <-]. by apply ok_proxies; [apply grows_insert|].
  - by apply ok_apps; [apply grows_alter|].
  - by apply ok_proxies; [apply grows_alter|].
  - by eapply ok_CreateSession.
  - by eapply ok_SetSessionDBDir.
  - by apply ok_sessions_alike; [apply alike_alter|].
  - by apply ok_sessions_alike; [apply alike_update|].
  - by eapply ok_UpdateSessionMeta.
  - unfold DeleteSession. destruct (sessions d !! id); [by apply ok_cascade_session|done].
  - by apply ok_workers.
  - by apply ok_sessions_alike; [apply alike_alter|].
  - by apply ok_ClaimOrphans.
  - by apply ok_sessions_alike; [apply alike_update|].
  - by apply ok_sessions_alike; [apply alike_alter|].
  - by apply ok_workers.
  - by apply ok_workers.
  - by eapply ok_CreateLimit.
  - by eapply ok_UpdateLimit.
  - by apply ok_delete_limits.
  - by eapply ok_TakeCounters.
  - by apply ok_GiveBackCounters.
  - apply ok_counters; [|done]. intros k n [Hn _]%lookup_delete_where. by apply (ok_counter d Hok k n).
  - by eapply ok_SetCooldown.
  - apply ok_cooldowns; [|done]. intros k n [Hn _]%lookup_delete_where. by apply (ok_cooldown d Hok k n).
  - apply ok_cooldowns; [|done]. intros k n [_ Hn]%lookup_delete_Some. by apply (ok_cooldown d Hok k n).
  - by apply ok_sessions_alike; [apply alike_alter|].
  - apply ok_sessions_alike; [|done]. apply alike_alter. by destruct b.
  - by apply ok_sessions_alike; [apply alike_alter|].
  - by eapply ok_RegisterSend.
  - by eapply ok_RecordSendOutcome.
  - apply ok_sends; [|done]. intros k n [Hn _]%lookup_delete_where. by apply (ok_send d Hok k n).
  - by eapply ok_CreateSubscription.
  - by apply ok_delete_subs.
  - by apply ok_subs_alike; [apply alike_update|].
  - by eapply ok_CreateToken.
  - by eapply ok_UpdateToken.
  - unfold DeleteToken. destruct (has id (tokens d)); [by apply ok_cascade_token|done].
  - by eapply ok_EnqueueDeliveries.
  - by apply ok_MarkDelivered.
  - by eapply ok_FailDelivery.
  - apply ok_deliveries; [|done]. intros k n [Hn _]%lookup_delete_where. by apply (ok_delivery d Hok k n).
Qed.

(** ** Column types *)

(** Every row of a table. *)
Definition rows {K A} `{Countable K} (P : A → Prop) (m : gmap K A) : Prop := ∀ k a, m !! k = Some a → P a.

Section Rows.
Context {K A : Type} `{Countable K} (P : A → Prop).
Implicit Types m : gmap K A.

Lemma rows_insert k a m : P a → rows P m → rows P (<[k := a]> m).
Proof using Type. intros Ha Hm k' a' [[_ <-]|[_ Hk]]%lookup_insert_Some; [done|by apply (Hm k')]. Qed.

Lemma rows_delete k m : rows P m → rows P (delete k m).
Proof using Type. intros Hm k' a' [_ Hk]%lookup_delete_Some. by apply (Hm k'). Qed.

Lemma rows_delete_where Q m : rows P m → rows P (delete_where Q m).
Proof using Type. intros Hm k' a' [Hk _]%lookup_delete_where. by apply (Hm k'). Qed.

Lemma rows_alter f k m : (∀ a, P a → P (f a)) → rows P m → rows P (alter f k m).
Proof using Type.
  intros Hf Hm k' a' Hk. apply lookup_alter_Some in Hk as [(_&a&Ha&->)|[_ Hk]]; [by apply Hf, (Hm k')|by apply (Hm k')].
Qed.

Lemma rows_update Q f m : (∀ a, P a → P (f a)) → rows P m → rows P (update_where Q f m).
Proof using Type.
  intros Hf Hm k' a' Hk. rewrite lookup_update_where in Hk. destruct (m !! k') as [a|] eqn:E; [|done].
  injection Hk as <-. case_match; [by apply Hf, (Hm k')|by apply (Hm k')].
Qed.
End Rows.

(** A send's outcome: pending has none, sent no error, failed an error and no
    final id. *)
Definition send_shape (r : sent_row) : Prop :=
  (sm_status r = "pending" ∧ sm_final r = None ∧ sm_error r = None) ∨
  (sm_status r = "sent" ∧ sm_error r = None ∧ sm_final r ≠ Some 0%Z) ∨
  (sm_status r = "failed" ∧ sm_final r = None ∧ is_Some (sm_error r)).

(** A queued update: attempts are counted, and a final verdict took one. *)
Definition delivery_shape (r : delivery_row) : Prop :=
  (d_status r = "pending" ∧ 0 <= d_attempts r ∨
   (d_status r = "delivered" ∨ d_status r = "failed") ∧ 1 <= d_attempts r)%Z.

(** What the CHECK constraints and the statements promise of each row. *)
Record db_typed (d : db) : Prop := mkDbTyped {
  ty_proxy : rows (λ p, existsb (String.eqb (p_type p)) proxy_types = true) (proxies d);
  ty_session : rows (λ s, existsb (String.eqb (s_kind s)) session_kinds = true) (sessions d);
  ty_limit : rows (λ l, limit_checks l = true ∧ in_int32 (l_max l) = true) (limits d);
  ty_send : rows send_shape (sends d);
  ty_delivery : rows delivery_shape (deliveries d);
}.

#[local] Hint Resolve rows_insert rows_delete rows_delete_where rows_alter rows_update : integrity.

(** The statements that leave these tables as they are, or only remove. *)
Ltac typed := intros; match goal with H : db_typed _ |- _ => destruct H end; constructor; simpl; eauto with integrity.

Lemma ty_grant_app tid a d d' : grant_app tid a d = Ok d' → db_typed d → db_typed d'.
Proof. unfold grant_app. destruct (_ && _); [|done]. intros [= <-]. typed. Qed.

Lemma ty_grant_session tid s d d' : grant_session tid s d = Ok d' → db_typed d → db_typed d'.
Proof. unfold grant_session. destruct (_ && _); [|done]. intros [= <-]. typed. Qed.

Lemma ty_CreateToken id now name hash en all appIDs sids d r d' :
  CreateToken id now name hash en all appIDs sids d = Ok (r, d') → db_typed d → db_typed d'.
Proof.
  unfold CreateToken. destruct (_ || _) eqn:E; [done|]. intros (d1&H1&[= _ <-])%res_bind_ok Hok.
  unfold replaceTokenGrants in H1. apply res_bind_ok in H1 as (d2&H2&H3).
  apply (each_keeps db_typed _ _ _ _ (ty_grant_session id) H3), (each_keeps db_typed _ _ _ _ (ty_grant_app id) H2). revert Hok. typed.
Qed.

Lemma ty_patch id a s ra rs d d' : patchTokenGrants id a s ra rs d = Ok d' → db_typed d → db_typed d'.
Proof.
  unfold patchTokenGrants. intros (d1&Ha&Hs)%res_bind_ok Hok.
  assert (db_typed d1).
  { destruct ra; [|by injection Ha as <-]. apply (each_keeps db_typed _ _ _ _ (ty_grant_app id) Ha). revert Hok. typed. }
  destruct rs; [|by injection Hs as <-]. apply (each_keeps db_typed _ _ _ _ (ty_grant_session id) Hs). typed.
Qed.

Lemma ty_UpdateToken id p d r d' : UpdateToken id p d = Ok (r, d') → db_typed d → db_typed d'.
Proof.
  unfold UpdateToken. destruct (negb _); [by intros [= _ <-]|]. intros H Hok.
  assert (db_typed (with_tokens (alter (patch_row p) id) d)) by typed.
  destruct (tp_apps p), (tp_sessions p); try (by injection H as _ <-);
    apply res_bind_ok in H as (d2&H&[= _ <-]); by eapply ty_patch.
Qed.

Lemma ty_limit_rules f d :
  rows (λ l, limit_checks l = true ∧ in_int32 (l_max l) = true) (f (limits d)) → db_typed d → db_typed (with_limits f d).
Proof. typed. Qed.

Lemma ty_sends f d : rows send_shape (f (sends d)) → db_typed d → db_typed (with_sends f d).
Proof. typed. Qed.

Lemma ty_deliveries f d : rows delivery_shape (f (deliveries d)) → db_typed d → db_typed (with_deliveries f d).
Proof. typed. Qed.

Lemma outcome_shape fin e c u :
  send_shape (let '(st, f, er) := outcome_row fin e in mkSent st f er c u).
Proof.
  destruct e as [e|]; simpl; [by right; right|right; left].
  destruct (Z.eqb_spec fin 0); simpl; repeat split; congruence.
Qed.

Lemma ty_RecordSendOutcome now sid chat temp fin e d d' :
  RecordSendOutcome now sid chat temp fin e d = Ok d' → db_typed d → db_typed d'.
Proof.
  unfold RecordSendOutcome. intros H Hty. pose proof (outcome_shape fin e) as Hs.
  destruct (outcome_row fin e) as [[st f] er]. repeat case_match; try done; injection H as <-;
    (apply ty_sends; [apply rows_insert; [done|apply Hty]|done]).
Qed.

Lemma ty_d_delivered r : delivery_shape r → delivery_shape (d_delivered r).
Proof. intros Hs. right. simpl. split; [by left|]. destruct Hs as [[_ ?]|[_ ?]]; lia. Qed.

Lemma ty_d_failed next giveUp r : delivery_shape r → delivery_shape (d_failed next giveUp r).
Proof.
  unfold delivery_shape, d_failed. destruct giveUp; simpl; [intros [[_ ?]|[_ ?]]; right; (split; [by right|lia])|].
  intros [[? ?]|[? ?]]; [left|right]; (split; [done|lia]).
Qed.

Lemma ty_EnqueueDeliveries fresh text now sid ids d d' :
  EnqueueDeliveries fresh text now sid ids d = Ok d' → db_typed d → db_typed d'.
Proof.
  unfold EnqueueDeliveries. destruct text as [payload|]; [|done]. destruct (_ && _); [|done]. intros [= <-] Hty.
  apply ty_deliveries; [|done]. apply (foldl_inv _ (rows delivery_shape)); [|apply Hty].
  intros m kv _ Hm. apply rows_insert; [by left|done].
Qed.

Lemma ty_empty : db_typed empty_db.
Proof. constructor; intros k a; cbn [empty_db proxies sessions limits sends deliveries]; by rewrite lookup_empty. Qed.

Lemma ty_wrote d d' : wrote d d' → db_typed d → db_typed d'.
Proof.
  intros H Hty. destruct H; try by typed.
  - revert H. unfold CreateApp. destruct (has id (apps d)); [done|]. intros [= _ <-]. typed.
  - revert H. unfold CreateProxy. destruct (existsb _ _) eqn:E, (has id (proxies d)); try done. intros [= _ <-]. typed.
  - revert H. unfold CreateSession. destruct (existsb _ _) eqn:E, (has id (sessions d)); try done.
    destruct (_ && _); [|done]. intros [= _ <-]. typed.
  - revert H. unfold SetSessionDBDir. destruct (_ && _); [done|]. intros [= <-]. typed.
  - revert H. unfold UpdateSessionMeta. destruct label, p; repeat case_match; try done; intros [= _ <-]; try done; typed;
      apply rows_alter; by intros.
  - unfold DeleteSession. destruct (sessions d !! id); [|done]. typed.
  - revert H. unfold CreateLimit. destruct (in_int32 _) eqn:E1; [|done]. destruct (limit_checks _) eqn:E2; [|done].
    repeat case_match; try done. intros [= _ <-]. by apply ty_limit_rules; [apply rows_insert; [|apply Hty]|].
  - revert H. unfold UpdateLimit. destruct (limits d !! l_id l); [|done]. destruct (in_int32 _) eqn:E1; [|done].
    destruct (limit_checks _) eqn:E2; [|done]. intros [= _ <-].
    by apply ty_limit_rules; [apply rows_insert; [|apply Hty]|].
  - revert H. unfold TakeCounters. intros ([i|m]&_&[= _ <-])%res_bind_ok; [done|]. typed.
  - revert H. unfold SetCooldown. repeat case_match; try done; intros [= <-]; try done; typed.
  - typed. apply rows_alter; [|done]. intros s. by destruct b.
  - revert H. unfold RegisterSend. repeat case_match; try done; intros [= <-]; [done|].
    apply ty_sends; [apply rows_insert; [by left|apply Hty]|done].
  - by eapply ty_RecordSendOutcome.
  - revert H. unfold CreateSubscription. repeat case_match; try done. intros [= _ <-]. typed.
  - by eapply ty_CreateToken.
  - by eapply ty_UpdateToken.
  - unfold DeleteToken. destruct (has id (tokens d)); [|done]. typed.
  - by eapply ty_EnqueueDeliveries.
  - unfold MarkDelivered. destruct (deliveries d !! id); [|done].
    typed. apply rows_alter; [apply ty_d_delivered|done].
  - revert H. unfold FailDelivery. repeat case_match; try done; intros [= <-]; [|done].
    typed. apply rows_alter; [apply ty_d_failed|done].
Qed.

(** ** The registry over its whole life *)

Lemma wrote_inv (P : db → Prop) :
  P empty_db → (∀ d d', wrote d d' → P d → P d') → ∀ d, rtc wrote empty_db d → P d.
Proof. intros H0 Hs d H. revert d H. apply rtc_ind_r; [done|]. intros d d' _ H IH. by apply (Hs d d'). Qed.

(** Whatever statements the program makes from an empty registry on, in any
    order and interleaving, no row ever refers to one that is gone (sessions to
    applications and proxies, grants to tokens, subscriptions and queued
    updates to sessions, counters to rules), no two sessions share a TDLib
    directory and no two tokens a secret. *)
Theorem registry_integrity d : rtc wrote empty_db d → db_ok d.
Proof. apply wrote_inv; [apply ok_empty|apply ok_wrote]. Qed.

(** C27: And every row keeps its column types: a session is a user or a bot, a
    rule is well-formed and its bound an int4, a settled send has an outcome
    that fits its status, a settled update took an attempt. *)
Theorem rows_well_typed d : rtc wrote empty_db d → db_typed d.
Proof. apply wrote_inv; [apply ty_empty|apply ty_wrote]. Qed.

(** A registry with an application, a session on it, its directory and one
    registered send. *)
Definition ex_wrote : db :=
  match CreateApp "a" 1 17 "enc" "" empty_db with
  | Ok (_, d) => match CreateSession "s" 2 (mkNewSession "user" "a" "" "+7" None None "k") d with
                 | Ok (_, d) => default d (match RegisterSend 3 "s" 5 9 d with Ok d => Some d | Err _ => None end)
                 | Err _ => d
                 end
  | Err _ => empty_db
  end.

Lemma ex_wrote_reached : rtc wrote empty_db ex_wrote.
Proof.
  eapply rtc_l; [by eapply (w_CreateApp empty_db "a" 1 17 "enc" "")|].
    eapply rtc_l; [by eapply (w_CreateSession _ "s" 2 (mkNewSession "user" "a" "" "+7" None None "k"))|].
    eapply rtc_l; [by eapply (w_RegisterSend _ 3 "s" 5 9)|]. apply rtc_refl.
Qed.

Lemma registry_integrity_witness : rtc wrote empty_db ex_wrote ∧ db_ok ex_wrote ∧ size (sends ex_wrote) = 1%nat.
Proof.
  split; [exact ex_wrote_reached|split; [exact (registry_integrity ex_wrote ex_wrote_reached)|by vm_compute]].
Defined.

Lemma rows_well_typed_witness : rtc wrote empty_db ex_wrote ∧ db_typed ex_wrote.
Proof. split; [exact ex_wrote_reached|exact (rows_well_typed ex_wrote ex_wrote_reached)]. Defined.
