(* ===== verification/Updates.v ===== *)
(** What TDLib tells a session between calls (internal/session/manager.go
    updateHandler): one handler on the client's receiver goroutine keeps the
    guard, the pending uploads, the send registry, the login's code info and the
    webhook queue current, and must not block. TDLib's decoding of an update into
    its Go type is given; so is the JSON go-tdlib renders it as ([None] when it
    cannot). *)

From S2P Require Import Prelude GoStr Json Types Tdjson Db Guard Sends Subs UploadStore LocalFiles Login.


(** ** Updates *)

(** The update types the handler looks into, and the rest by constructor. *)
Inductive td_update :=
| UpSendFailed (error : option (Z * string))
| UpFreeze (frozen : bool) (freezing deletion : Z) (appeal : string)
| UpOption (name : string) (value : option_value)
| UpAuth (st : authState)
| UpOther (ctor : string).

Definition ctor_of (u : td_update) : string :=
  match u with
  | UpSendFailed _ => "updateMessageSendFailed"
  | UpFreeze _ _ _ _ => "updateFreezeState"
  | UpOption _ _ => "updateOption"
  | UpAuth _ => "updateAuthorizationState"
  | UpOther c => c
  end.

(** Does the update complete a send. *)
Definition completes_send (u : td_update) : bool :=
  String.eqb (ctor_of u) "updateMessageSendSucceeded" || String.eqb (ctor_of u) "updateMessageSendFailed".

(** ** State *)

(** The part of a held session the handler changes. *)
Record watched := mkWatched { wa_kind : string; wa_guard : guard; wa_live : live }.

(** The worker's side: the sessions held, the uploads a send will free (by the
    temporary id of the message, for all sessions at once), the volume, the queue
    of send outcomes, the webhook queue and the registry writes sent off on
    goroutines of their own. *)
Record hub := mkHub {
  hb_held : gmap string watched;
  hb_pending : gmap Z (list string);
  hb_volume : volume;
  hb_sends : list sendOutcome;
  hb_recv : receiver;
  hb_writes : list (string * gwrite);
}.

Definition h_set_guard (sid : string) (kind : string) (s : live) (r : guard * list gwrite) (h : hub) : hub :=
  mkHub (<[sid := mkWatched kind r.1 s]> (hb_held h)) (hb_pending h) (hb_volume h) (hb_sends h) (hb_recv h)
    (hb_writes h ++ map (pair sid) r.2).

Definition h_set_live (sid : string) (f : live → live) (h : hub) : hub :=
  mkHub (alter (λ w, mkWatched (wa_kind w) (wa_guard w) (f (wa_live w))) sid (hb_held h))
    (hb_pending h) (hb_volume h) (hb_sends h) (hb_recv h) (hb_writes h).

(** The handler's three parts. A completed send frees its uploads and resolves
    its temporary id [internal/session/manager.go:94-100#updateHandler]. *)
Definition note_send (root sid : string) (u : td_update) (payload : option json) (h : hub) : hub :=
  match payload with
  | Some p =>
      if completes_send u then
        let f := finishUpload root p (hb_pending h) (hb_volume h) in
        mkHub (hb_held h) f.1 f.2 (noteSendOutcome sid p (hb_sends h)) (hb_recv h) (hb_writes h)
      else h
  | None => h
  end.

(** The account's state, of a session held; the entry of one that was let go is
    unreachable, so what its last updates do to it is not followed
    [internal/session/manager.go:101-122#updateHandler]. *)
Definition note_account (now : Z) (sid : string) (u : td_update) (h : hub) : hub :=
  match hb_held h !! sid with
  | None => h
  | Some w =>
      let upd r := h_set_guard sid (wa_kind w) (wa_live w) r h in
      match u with
      | UpSendFailed e => upd (observeSendFailed (wa_kind w) e now (wa_guard w))
      | UpFreeze frozen freezing deletion appeal => upd (noteFreeze frozen freezing deletion appeal (wa_guard w))
      | UpOption name v =>
          if String.eqb name "is_premium" then upd (notePremium v (wa_guard w))
          else if String.eqb name "my_id" then upd (noteMyID v (wa_guard w), [])
          else h
      | UpAuth (WaitCode info) => h_set_live sid (setCodeInfo info) h
      | _ => h
      end
  end.

(** The webhook queue [internal/session/manager.go:123-141#updateHandler]. *)
Definition offer (sid : string) (u : td_update) (payload : option json) (h : hub) : hub :=
  match payload with
  | None => h
  | Some p => mkHub (hb_held h) (hb_pending h) (hb_volume h) (hb_sends h)
                (receive sid (ctor_of u) p (hb_recv h)) (hb_writes h)
  end.

(** What the handler does with one result of the client; anything but an update
    is ignored [internal/session/manager.go:89-143#updateHandler]. *)
Definition updateHandler (root : string) (now : Z) (sid : string) (is_update : bool)
    (u : td_update) (payload : option json) (h : hub) : hub :=
  if negb is_update then h
  else offer sid u payload (note_account now sid u (note_send root sid u payload h)).

(** An account's own id and Premium flag, asked for once it is authorized;
    [option_of] is TDLib's answer to getOption, [None] when it fails
    [internal/session/guard.go#readAccount]. *)
Definition readAccount (option_of : string → option option_value) (kind : string) (g : guard)
    : guard * list gwrite :=
  if negb (String.eqb kind "user") then (g, [])
  else
    let g := match option_of "my_id" with Some v => noteMyID v g | None => g end in
    match option_of "is_premium" with Some v => notePremium v g | None => (g, []) end.

(** ** Lemmas *)

Lemma receive_snaps sid ctor p r : rc_snaps (receive sid ctor p r) = rc_snaps r.
Proof. unfold receive. by repeat case_match. Qed.

(** What one update leaves alone. *)
Record confined (sid : string) (h h' : hub) : Prop := mkConfined {
  cf_held : ∀ k, k ≠ sid → hb_held h' !! k = hb_held h !! k;
  cf_dom : ∀ k, is_Some (hb_held h' !! k) ↔ is_Some (hb_held h !! k);
  cf_kind : ∀ k, wa_kind <$> hb_held h' !! k = wa_kind <$> hb_held h !! k;
  cf_dropped : ∀ k, k ≠ sid → rc_dropped (hb_recv h') !! k = rc_dropped (hb_recv h) !! k;
  cf_snaps : rc_snaps (hb_recv h') = rc_snaps (hb_recv h);
  cf_outbox : ∃ l, rc_outbox (hb_recv h') = rc_outbox (hb_recv h) ++ l ∧ Forall (λ it, oi_session it = sid) l;
  cf_sends : ∃ l, hb_sends h' = hb_sends h ++ l ∧ Forall (λ o, so_session o = sid) l;
  cf_writes : ∃ l, hb_writes h' = hb_writes h ++ l ∧ Forall (λ w, w.1 = sid) l;
}.

#[export] Instance confined_refl sid : Reflexive (confined sid).
Proof. intros h. constructor; try done; exists []; by rewrite app_nil_r. Qed.

Lemma extends_trans {A} (P : A → Prop) (l1 l2 l3 : list A) :
  (∃ l, l2 = l1 ++ l ∧ Forall P l) → (∃ l, l3 = l2 ++ l ∧ Forall P l) → ∃ l, l3 = l1 ++ l ∧ Forall P l.
Proof. intros (a&->&Ha) (b&->&Hb). exists (a ++ b). by rewrite app_assoc, Forall_app. Qed.

#[export] Instance confined_trans sid : Transitive (confined sid).
Proof.
  intros h1 h2 h3 [A1 A2 A3 A4 A5 A6 A7 A8] [B1 B2 B3 B4 B5 B6 B7 B8].
  constructor; [..|by eapply extends_trans|by eapply extends_trans|by eapply extends_trans].
  - intros k Hk. by rewrite B1, A1.
  - intros k. by rewrite B2, A2.
  - intros k. by rewrite B3, A3.
  - intros k Hk. by rewrite B4, A4.
  - by rewrite B5.
Qed.

Lemma extends_same {A} (P : A → Prop) (l : list A) : ∃ l', l = l ++ l' ∧ Forall P l'.
Proof. exists []. by rewrite app_nil_r. Qed.

Lemma extends_one {A} (P : A → Prop) (l : list A) (a : A) : P a → ∃ l', l ++ [a] = l ++ l' ∧ Forall P l'.
Proof. intros Ha. exists [a]. by rewrite Forall_singleton. Qed.

#[local] Hint Resolve extends_same extends_one : updates.

Lemma parse_outcome_session sid p o : parse_outcome sid p = Some o → so_session o = sid.
Proof. unfold parse_outcome. repeat case_match; try done; by intros [= <-]. Qed.

Lemma note_send_confined root sid u p h : confined sid h (note_send root sid u p h).
Proof.
  unfold note_send. destruct p as [p|]; [|reflexivity]. destruct (completes_send u); [|reflexivity].
  constructor; simpl; auto with updates. unfold noteSendOutcome.
  destruct (parse_outcome sid p) as [o|] eqn:E; [|auto with updates].
  case_match; eauto using extends_one, parse_outcome_session with updates.
Qed.

Lemma h_set_guard_confined sid w r h :
  hb_held h !! sid = Some w → confined sid h (h_set_guard sid (wa_kind w) (wa_live w) r h).
Proof.
  intros Hw. constructor; simpl; auto with updates.
  - intros k Hk. by rewrite lookup_insert_ne.
  - intros k. rewrite lookup_insert_is_Some. destruct (decide (sid = k)) as [<-|]; [rewrite Hw|]; naive_solver.
  - intros k. destruct (decide (sid = k)) as [<-|]; [by rewrite lookup_insert_eq, Hw|by rewrite lookup_insert_ne].
  - exists (map (pair sid) r.2). split; [done|]. apply Forall_fmap, Forall_true. done.
Qed.

Lemma h_set_live_confined sid f h : confined sid h (h_set_live sid f h).
Proof.
  constructor; simpl; auto with updates.
  - intros k Hk. by rewrite lookup_alter_ne.
  - intros k. apply is_Some_alter.
  - intros k. destruct (decide (sid = k)) as [<-|]; [|by rewrite lookup_alter_ne].
    rewrite lookup_alter_eq. by destruct (hb_held h !! sid).
Qed.

Lemma note_account_confined now sid u h : confined sid h (note_account now sid u h).
Proof.
  unfold note_account. destruct (hb_held h !! sid) as [w|] eqn:Hw; [|reflexivity].
  destruct u as [e|frozen freezing deletion appeal|name v|[]|c]; try reflexivity; try by apply h_set_guard_confined.
  - case_match; [by apply h_set_guard_confined|]. case_match; [by apply h_set_guard_confined|reflexivity].
  - apply h_set_live_confined.
Qed.

Lemma offer_confined sid u p h : confined sid h (offer sid u p h).
Proof.
  destruct p as [p|]; [|reflexivity]. constructor; simpl; auto with updates; unfold receive; repeat case_match; simpl; auto with updates.
  - intros k Hk. unfold bump. by rewrite lookup_insert_ne.
Qed.

Lemma updateHandler_confined root now sid b u p h : confined sid h (updateHandler root now sid b u p h).
Proof.
  unfold updateHandler. destruct b; [|reflexivity]. simpl.
  etrans; [apply note_send_confined|]. etrans; [apply note_account_confined|]. apply offer_confined.
Qed.

(** ** Runs *)

(** One result of some session's client, and the run of many, in any order. *)
Record result := mkResult { re_now : Z; re_sid : string; re_update : bool; re_td : td_update; re_json : option json }.

Definition handle (root : string) (h : hub) (r : result) : hub :=
  updateHandler root (re_now r) (re_sid r) (re_update r) (re_td r) (re_json r) h.

(** An update touches its own session only. Whatever results the clients of
    the other sessions deliver, in whatever order, a session's guard, login and
    snapshot stay as they are, no loss is counted against it, and everything
    queued for the webhooks, the send registry or the registry's account columns
    is queued under the session it came from; no session is added or dropped. *)
Theorem updates_confined root h rs sid :
  Forall (λ r, re_sid r ≠ sid) rs →
  let h' := foldl (handle root) h rs in
  hb_held h' !! sid = hb_held h !! sid ∧
  rc_dropped (hb_recv h') !! sid = rc_dropped (hb_recv h) !! sid ∧
  rc_snaps (hb_recv h') = rc_snaps (hb_recv h) ∧
  dom (hb_held h') = dom (hb_held h) ∧
  (∃ l, rc_outbox (hb_recv h') = rc_outbox (hb_recv h) ++ l ∧ Forall (λ it, oi_session it ≠ sid) l) ∧
  (∃ l, hb_sends h' = hb_sends h ++ l ∧ Forall (λ o, so_session o ≠ sid) l) ∧
  (∃ l, hb_writes h' = hb_writes h ++ l ∧ Forall (λ w, w.1 ≠ sid) l).
Proof.
  intros Hrs h'. subst h'. revert h. induction Hrs as [|r rs Hr _ IH]; intros h; simpl.
  { repeat split; auto with updates. }
  destruct (updateHandler_confined root (re_now r) (re_sid r) (re_update r) (re_td r) (re_json r) h)
    as [A1 A2 _ A4 A5 A6 A7 A8].
  assert (Hother : ∀ {A} (f : A → string) (l1 l2 : list A), (∃ l, l2 = l1 ++ l ∧ Forall (λ a, f a = re_sid r) l) →
    ∃ l, l2 = l1 ++ l ∧ Forall (λ a, f a ≠ sid) l).
  { intros A f l1 l2 (l&->&Hl). exists l. split; [done|]. eapply Forall_impl; [exact Hl|]. simpl. congruence. }
  destruct (IH (handle root h r)) as (B1&B2&B3&B4&B5&B6&B7). clear IH. fold (handle root h r) in *.
  split_and!.
  - by rewrite B1, A1 by congruence.
  - by rewrite B2, A4 by congruence.
  - by rewrite B3.
  - rewrite B4. apply set_eq. intros k. by rewrite !elem_of_dom.
  - eapply extends_trans; [apply (Hother _ oi_session), A6|exact B5].
  - eapply extends_trans; [apply (Hother _ so_session), A7|exact B6].
  - eapply extends_trans; [apply (Hother _ fst), A8|exact B7].
Qed.

(** The lists the handler appends to are bounded, so it never waits. *)
Definition bounded (h : hub) : Prop :=
  (length (rc_outbox (hb_recv h)) <= outbox_cap)%nat ∧ (length (hb_sends h) <= sendQueue)%nat.

Lemma handle_bounded root h r : bounded h → bounded (handle root h r).
Proof.
  intros [Ho Hs]. unfold handle, updateHandler. destruct (re_update r); [|done]. simpl.
  assert (H1 : bounded (note_send root (re_sid r) (re_td r) (re_json r) h)).
  { unfold note_send. destruct (re_json r) as [p|]; [|done]. destruct (completes_send _); [|done].
    split; [done|]. simpl. unfold noteSendOutcome. destruct (parse_outcome _ _); [|done].
    destruct (Nat.ltb_spec (length (hb_sends h)) sendQueue); [|done]. rewrite length_app. simpl. lia. }
  revert H1. generalize (note_send root (re_sid r) (re_td r) (re_json r) h). intros h1 [Ho1 Hs1].
  assert (H2 : bounded (note_account (re_now r) (re_sid r) (re_td r) h1)).
  { unfold note_account. repeat case_match; done. }
  revert H2. generalize (note_account (re_now r) (re_sid r) (re_td r) h1). intros h2 [Ho2 Hs2].
  unfold offer. destruct (re_json r) as [p|]; [|done]. split; [|done]. simpl. unfold receive.
  destruct (negb _); [done|]. destruct (Nat.ltb_spec (length (rc_outbox (hb_recv h2))) outbox_cap); [|done].
  simpl. rewrite length_app. simpl. lia.
Qed.

(** The receiver goroutine never blocks: however many results arrive and
    however slow the writers are, the webhook queue stays within its 1024 places
    and the send queue within its 256; what does not fit is dropped, not waited
    for. *)
Theorem receiver_never_blocks root h rs : bounded h → bounded (foldl (handle root) h rs).
Proof. intros Hh. apply foldl_inv; [|done]. intros h' r _. apply handle_bounded. Qed.

(** ** A failed send *)

(** Both readers of a completed send find the same temporary id. *)
Lemma old_id_agrees kvs u b :
  (foldl (λ r kv, let r' := set_ou kv.1 r.1 kv.2 in (r'.1, r.2 && r'.2)) (u, b) kvs).2 = true →
  foldl (λ r kv, let r' := set_old_id kv.1 r.1 kv.2 in (r'.1, r.2 && r'.2)) (ou_old u, b) kvs =
  (ou_old (foldl (λ r kv, let r' := set_ou kv.1 r.1 kv.2 in (r'.1, r.2 && r'.2)) (u, b) kvs).1, true).
Proof.
  cbv zeta. induction kvs as [|[k v] kvs IH] using rev_ind; [by intros [= ->]|].
  rewrite !foldl_snoc. cbn [fst snd]. intros [H1 H2]%andb_true_iff. rewrite IH by done. cbn [fst snd].
  unfold set_ou, set_old_id in *. destruct (names k "old_message_id"); cbn [fst snd ou_old] in *; [by rewrite H2|].
  destruct (names k "message"); [done|]. by destruct (names k "error").
Qed.

Lemma finish_resolves root sid p o pending v :
  parse_outcome sid p = Some o →
  finishUpload root p pending v =
  (delete (so_temp o) pending, foldl (λ v d, remove_all root d v) v (default [] (pending !! so_temp o))).
Proof.
  unfold parse_outcome, finishUpload, unmarshal_ok, unmarshal.
  destruct (dec_struct set_ou (mkOU 0 0 0 None) p) as [u ok] eqn:E. destruct ok; [|done]. cbn [fst snd].
  destruct (_ || _) eqn:Ez; [done|]. intros [= <-]. apply orb_false_iff in Ez as [Ez _]. cbn [so_temp].
  assert (Ho : dec_struct set_old_id 0%Z p = (ou_old u, true)).
  { destruct p as [| | | | | |kvs]; try (by simplify_eq/=). simpl in E |- *.
    pose proof (old_id_agrees kvs (mkOU 0 0 0 None) true) as Ha. cbv zeta in Ha, E. rewrite E in Ha. by apply Ha. }
  rewrite Ho. cbn [fst snd]. by rewrite Ez.
Qed.

Lemma removed_gone root ds v id d :
  d ∈ ds → Within (path_join root id) d = true → foldl (λ v d, remove_all root d v) v ds !! id = None.
Proof.
  intros Hd Hw.
  assert (Hks : ∀ l v, v !! id = None → foldl (λ v d, remove_all root d v) v l !! id = None).
  { intros l w Hn. apply (foldl_inv _ (λ w, w !! id = None)); [|done].
    intros w' e _ Hn'. apply map_lookup_filter_None. by left. }
  revert v. induction ds as [|e ds IH]; intros v; [by apply not_elem_of_nil in Hd|].
  cbn [foldl]. apply elem_of_cons in Hd as [<-|Hd]; [|by apply IH].
  apply Hks, map_lookup_filter_None. right. intros x _. cbn [fst]. by rewrite Hw, orb_true_r.
Qed.

Lemma receive_offered sid ctor p r :
  wants (default None (rc_snaps r !! sid)) ctor = true →
  let r' := receive sid ctor p r in
  rc_outbox r' = rc_outbox r ++ [mkItem sid ctor p (default None (rc_snaps r !! sid))] ∨
  rc_dropped r' !! sid = Some (default 0 (rc_dropped r !! sid) + 1)%Z.
Proof.
  intros Hw. unfold receive. rewrite Hw. simpl. destruct (_ <? _)%nat; [by left|right].
  simpl. unfold bump. by rewrite lookup_insert_eq.
Qed.

(** C37: A message that fails after its call returned is acted on everywhere. When
    TDLib reports the failure of a send of a user account with a flood wait, and
    the queue of outcomes has room (a full one drops the outcome), then from this
    one update on: the account's sends are refused until the instant the guard
    computes from the wait, whatever else it held (that is the end of the wait
    unless the wait is so long, 292 years, that it overflows a time.Duration); the
    failure is queued for the registry under the temporary id the caller was
    given; the uploads the send referenced
    are gone from the volume and from the pending map; and if a subscription may
    want it, the update is queued for it or counted as lost. *)
Theorem failed_send_noted root now sid code msg secs p o h w :
  hb_held h !! sid = Some w → wa_kind w = "user" →
  RetryAfter (mkTdError code msg) = Some secs →
  parse_outcome sid p = Some o → (length (hb_sends h) < sendQueue)%nat →
  let snap := default None (rc_snaps (hb_recv h) !! sid) in
  let h' := updateHandler root now sid true (UpSendFailed (Some (code, msg))) (Some p) h in
  (∃ w', hb_held h' !! sid = Some w' ∧
     ∀ t, (t < flood_until now secs)%Z → active (wa_guard w') "@send" t ≠ None) ∧
  hb_sends h' = hb_sends h ++ [o] ∧
  hb_pending h' !! so_temp o = None ∧
  (∀ id d, d ∈ default [] (hb_pending h !! so_temp o) → Within (path_join root id) d = true →
     hb_volume h' !! id = None) ∧
  (wants snap "updateMessageSendFailed" = true →
     rc_outbox (hb_recv h') = rc_outbox (hb_recv h) ++ [mkItem sid "updateMessageSendFailed" p snap] ∨
     rc_dropped (hb_recv h') !! sid = Some (default 0 (rc_dropped (hb_recv h) !! sid) + 1)%Z).
Proof.
  intros Hw Hk Hr Hp Hroom snap h'. subst h' snap. unfold updateHandler. cbn [negb offer].
  unfold note_send. change (completes_send _) with true. cbn match zeta beta.
  rewrite (finish_resolves root sid p o) by done. unfold note_account. cbn [hb_held]. rewrite Hw, Hk.
  unfold noteSendOutcome. rewrite Hp, (proj2 (Nat.ltb_lt _ _) Hroom).
  cbn [h_set_guard hb_held hb_pending hb_volume hb_sends hb_recv hb_writes fst snd].
  split; [|split; [done|split; [apply lookup_delete_eq|split; [intros id d Hd Hin; by eapply removed_gone|]]]].
  - rewrite lookup_insert_eq. eexists; split; [done|]. intros t Ht. cbn [wa_guard].
    set (g' := (observeSendFailed _ _ _ _).1).
    assert (Hl : later (Some (flood_until now secs)) (until_of g' "@send")).
    { unfold g', observeSendFailed. rewrite observe_until. simpl negb. cbn match.
      apply (coolDowns_reached _ _ (mkCooldown "@send" (flood_until now secs) msg)).
      unfold signals. cbn [as_td]. rewrite Hr. by left. }
    apply active_until. destruct (until_of g' "@send") as [u|]; [|done]. exists u. simpl in Hl. split; [done|lia].
  - intros Hwants. by apply receive_offered.
Qed.

(** A session with one pending upload whose send fails with a flood wait. *)
Definition ex_failed : json :=
  JObj [("@type", JStr "updateMessageSendFailed");
        ("message", JObj [("@type", JStr "message"); ("id", JNum 9); ("chat_id", JNum 7)]);
        ("old_message_id", JNum 3);
        ("error", JObj [("code", JNum 429); ("message", JStr "Too Many Requests: retry after 30")])].

Definition ex_hub : hub :=
  mkHub {["s" := mkWatched "user" new_guard (newLiveSession false)]}
    {[3%Z := [path_join "/uploads" ex_id]]} {[ex_id := mkDir 0 {["a.txt" := FData "hello"]}]} []
    (mkReceiver [] {["s" := newSnapshot [mkSubFilter "u" "s" None]]} ∅) [].

Lemma failed_send_noted_witness :
  let h' := updateHandler "/uploads" 100 "s" true
              (UpSendFailed (Some (429%Z, "Too Many Requests: retry after 30"))) (Some ex_failed) ex_hub in
  (∃ w', hb_held h' !! "s" = Some w' ∧
     ∀ t, (t < flood_until 100 30)%Z → active (wa_guard w') "@send" t ≠ None) ∧
  hb_volume h' = ∅ ∧ length (hb_sends h') = 1%nat ∧ length (rc_outbox (hb_recv h')) = 1%nat.
Proof.
  intros h'.
  destruct (parse_outcome "s" ex_failed) as [o|] eqn:Ep; [|by vm_compute in Ep].
  destruct (failed_send_noted "/uploads" 100 "s" 429 "Too Many Requests: retry after 30" 30 ex_failed o ex_hub
    (mkWatched "user" new_guard (newLiveSession false)) eq_refl eq_refl ltac:(by vm_compute) Ep
    ltac:(simpl; unfold sendQueue; lia)) as (H1&_&_&_&_).
  split; [exact H1|]. by vm_compute.
Defined.

Lemma updates_confined_witness :
  let h' := handle "/uploads" ex_hub (mkResult 100 "t" true (UpOption "my_id" (OptInteger 5)) (Some ex_failed)) in
  hb_held h' !! "s" = hb_held ex_hub !! "s".
Proof.
  intros h'. destruct (updates_confined "/uploads" ex_hub
    [mkResult 100 "t" true (UpOption "my_id" (OptInteger 5)) (Some ex_failed)] "s") as [H _]; [|exact H].
  by repeat constructor.
Defined.

Lemma receiver_never_blocks_witness :
  bounded ex_hub ∧ bounded (foldl (handle "/uploads") ex_hub
    (replicate 300 (mkResult 100 "s" true (UpSendFailed (Some (429%Z, "retry after 30"))) (Some ex_failed)))).
Proof.
  assert (H : bounded ex_hub) by (unfold bounded, outbox_cap, sendQueue; simpl; lia).
  split; [exact H|]. exact (receiver_never_blocks "/uploads" ex_hub _ H).
Defined.
