(* ===== verification/Retention.v ===== *)
(** Retention (internal/session/deliver.go): what a worker deletes every ten
    minutes, and that none of it was still needed. *)

From S2P Require Import Prelude GoStr Json Types Tdjson Quota Db Registry Counters Guard Admit UploadStore Sends LocalFiles Delivery Worker.


(** ** The sweep *)

(** An owner unseen this long is dropped from the registry
    [internal/session/deliver.go:52-52#deadWorkerAge]. *)
Definition deadWorkerAge : Z := hour.

(** One statement of the sweep at its own reading of the clock; a failed one is
    only logged. *)
Definition purge (up : bool) (f : db → nat * db) (d : db) : db := if up then (f d).2 else d.

(** One sweep. The [i]th statement reads the clock as [clock i] and goes through
    when [up i]. [AddDate] counts eight calendar days, of 24 hours in the UTC the
    workers run in [internal/session/deliver.go#Manager.purgeOnce]. *)
Definition purgeOnce (clock : nat → Z) (up : nat → bool) (sendTTL uploadTTL : Z) (root : string)
    (s : db * volume) : db * volume :=
  let d := purge (up 0%nat) (PurgeDeliveries (clock 0%nat - retentionAge)) s.1 in
  let d := purge (up 1%nat) (PurgeWorkers (clock 1%nat - deadWorkerAge)) d in
  let d := purge (up 2%nat) (PurgeSends (clock 2%nat - sendTTL)) d in
  let d := purge (up 3%nat) (PurgeCooldowns (clock 3%nat)) d in
  let d := purge (up 4%nat) (PurgeCounters (clock 4%nat - 8 * day)) d in
  (d, sweepUploads root (clock 5%nat) uploadTTL s.2).

(** The sweep's loop: once at the start, then at every tick
    [internal/session/deliver.go#Manager.runRetention]. *)
Definition runRetention (sendTTL uploadTTL : Z) (root : string) (rounds : list ((nat → Z) * (nat → bool)))
    (s : db * volume) : db * volume :=
  foldl (λ s r, purgeOnce r.1 r.2 sendTTL uploadTTL root s) s rounds.

(** ** What a sweep keeps *)

Lemma purge_tables (P : db → db → Prop) up f d : P d d → P d (f d).2 → P d (purge up f d).
Proof. by destruct up. Qed.

(** A table after a sweep: the rows [keep] admits, or, where the statement
    failed, all of them. *)
Definition swept {K A} `{Countable K} (up : bool) (old : K → A → bool) (m m' : gmap K A) : Prop :=
  m' = if up then delete_where old m else m.

Lemma swept_keeps {K A} `{Countable K} up (old : K → A → bool) m m' k a :
  swept up old m m' → m !! k = Some a → old k a = false → m' !! k = Some a.
Proof. intros ->. destruct up; [|done]. intros Hk Ho. by apply lookup_delete_where. Qed.

Lemma swept_sub {K A} `{Countable K} up (old : K → A → bool) m m' k a :
  swept up old m m' → m' !! k = Some a → m !! k = Some a.
Proof. intros ->. destruct up; [|done]. by intros [? _]%lookup_delete_where. Qed.

Lemma swept_lookup {K A} `{Countable K} up (old : K → A → bool) m m' k :
  swept up old m m' → (∀ a, m !! k = Some a → old k a = false) → m' !! k = m !! k.
Proof.
  intros Hs Hk. apply option_eq. intros a. split; [by apply (swept_sub up old m)|].
  intros Ha. apply (swept_keeps up old m m'); auto.
Qed.

Lemma swept_gone {K A} `{Countable K} (old : K → A → bool) m m' k a :
  swept true old m m' → m' !! k = Some a → old k a = false.
Proof. intros ->. by intros [_ ?]%lookup_delete_where. Qed.

Record sweep_of (clock : nat → Z) (up : nat → bool) (sendTTL uploadTTL : Z) (root : string)
    (s s' : db * volume) : Prop := mkSweepOf {
  so_deliveries : swept (up 0%nat) (λ _ r, (d_created r <? clock 0%nat - retentionAge)%Z) (deliveries s.1) (deliveries s'.1);
  so_workers : swept (up 1%nat) (λ _ w, (w_seen w <? clock 1%nat - deadWorkerAge)%Z) (workers s.1) (workers s'.1);
  so_sends : swept (up 2%nat) (λ _ r, (sm_created r <? clock 2%nat - sendTTL)%Z) (sends s.1) (sends s'.1);
  so_cooldowns : swept (up 3%nat) (λ _ r, (cd_until r <? clock 3%nat)%Z) (cooldowns s.1) (cooldowns s'.1);
  so_counters : swept (up 4%nat) (λ k _, (ck_start k <? clock 4%nat - 8 * day)%Z) (counters s.1) (counters s'.1);
  so_sessions : sessions s'.1 = sessions s.1;
  so_rest : (apps s'.1, proxies s'.1, tokens s'.1, token_apps s'.1, token_sessions s'.1, subs s'.1, limits s'.1) =
            (apps s.1, proxies s.1, tokens s.1, token_apps s.1, token_sessions s.1, subs s.1, limits s.1);
  so_volume : s'.2 = sweepUploads root (clock 5%nat) uploadTTL s.2;
}.

Lemma purgeOnce_sweeps clock up sendTTL uploadTTL root s :
  sweep_of clock up sendTTL uploadTTL root s (purgeOnce clock up sendTTL uploadTTL root s).
Proof.
  constructor; unfold swept, purgeOnce, purge; destruct (up 0%nat), (up 1%nat), (up 2%nat), (up 3%nat), (up 4%nat); reflexivity.
Qed.

(** ** What the rest of the program sees *)

(** A verdict on uses depends only on the counters they name. *)
Definition agree_on (P : CounterKey → Prop) (m m' : gmap CounterKey Z) : Prop := ∀ k, P k → m' !! k = m !! k.

Definition same_verdict (P : CounterKey → Prop) (x y : res dberr (nat + gmap CounterKey Z)) : Prop :=
  match x, y with
  | Ok (inl i), Ok (inl j) => i = j
  | Ok (inr m), Ok (inr m') => agree_on P m m'
  | Err e, Err e' => e = e'
  | _, _ => False
  end.

Lemma take_loop_agrees P rules uses m m' i :
  agree_on P m m' → Forall (λ u, P (cu_key u)) uses →
  same_verdict P (take_loop rules i uses m) (take_loop rules i uses m').
Proof.
  intros Hag Hu. revert i m m' Hag. induction Hu as [|u uses Hk _ IH]; intros i m m' Hag; [done|].
  assert (Hput : ∀ n, agree_on P (<[cu_key u := n]> m) (<[cu_key u := n]> m')).
  { intros n k HP. destruct (decide (cu_key u = k)) as [<-|]; [by rewrite !lookup_insert_eq|].
    rewrite !lookup_insert_ne by done. by apply Hag. }
  cbn [take_loop]. unfold take_one. rewrite (Hag _ Hk). repeat (case_match; simpl; try done); by apply IH, Hput.
Qed.

Definition verdict {A} (r : res dberr (Z * A)) : res dberr Z :=
  match r with Ok x => Ok x.1 | Err e => Err e end.

Lemma TakeCounters_agrees P uses d d' :
  limits d' = limits d → agree_on P (counters d) (counters d') → Forall (λ u, P (cu_key u)) uses →
  verdict (TakeCounters uses d') = verdict (TakeCounters uses d).
Proof.
  intros Hl Hag Hu. unfold TakeCounters. rewrite Hl.
  pose proof (take_loop_agrees P (limits d) uses _ _ 0 Hag Hu) as Hs. unfold same_verdict in Hs.
  destruct (take_loop _ 0 uses (counters d)) as [[]|], (take_loop _ 0 uses (counters d')) as [[]|]; try done; simpl; congruence.
Qed.

(** A window lasts a week at most, so one that holds [t] starts in the week
    before. *)
Lemma Window_recent per t : (t - 7 * day < (Window per t).1)%Z.
Proof.
  rewrite Window_floor. simpl. pose proof (win_size_pos per) as Hp.
  pose proof (Z.mod_pos_bound (t + win_off per) (win_size per) Hp). pose proof (Z.div_mod (t + win_off per) (win_size per)).
  assert (win_size per <= 7 * day)%Z by (unfold win_size; repeat case_match; by vm_compute). nia.
Qed.

Lemma uses_start sid kind tok rules method params t :
  Forall (λ u, (t - 7 * day < ck_start (cu_key u))%Z) (map fst (quota_uses sid kind tok rules method params t)).
Proof.
  unfold quota_uses. induction (Applicable rules sid kind tok) as [|a l IH]; simpl; [constructor|].
  destruct (negb _); simpl; [done|]. destruct (Nat.eqb _ 0); simpl; [done|].
  constructor; [apply Window_recent|done].
Qed.

Lemma loadGuard_same now sid up d d' g :
  sessions d' = sessions d →
  (∀ scope, g_cool (loadGuard now sid true d' g) !! scope = g_cool (loadGuard now sid true d g) !! scope) →
  loadGuard now sid up d' g = loadGuard now sid up d g.
Proof.
  intros Hs Hc. destruct up; [|done]. apply map_eq in Hc. revert Hc.
  unfold loadGuard, SessionLimits, load. rewrite Hs. destruct (sessions d !! sid) as [s|]; [|done].
  cbn [negb default ls_cooldowns ls_premium ls_frozen g_cool]. by intros ->.
Qed.

Section sweep.
Context (clock : nat → Z) (up : nat → bool) (sendTTL uploadTTL : Z) (root : string) (d : db) (v : volume).
Let s' := purgeOnce clock up sendTTL uploadTTL root (d, v).
Let Hsw : sweep_of clock up sendTTL uploadTTL root (d, v) s' := purgeOnce_sweeps clock up sendTTL uploadTTL root (d, v).

Lemma sweep_guard now sid u g : (clock 3%nat <= now)%Z → loadGuard now sid u s'.1 g = loadGuard now sid u d g.
Proof.
  intros Hc. pose proof (so_sessions _ _ _ _ _ _ _ Hsw) as Hs. cbn [fst] in Hs. apply loadGuard_same; [done|]. intros scope.
  destruct (sessions d !! sid) as [x|] eqn:Ex; [|unfold loadGuard, SessionLimits; by rewrite Hs, Ex].
  assert (has sid (sessions d) = true) by (apply has_spec; by eexists).
  rewrite !restored_cool by (rewrite ?Hs; done).
  pose proof (so_cooldowns _ _ _ _ _ _ _ Hsw) as Hcd. cbn [fst] in Hcd.
  destruct (cooldowns d !! (sid, scope)) as [r|] eqn:Er.
  - destruct (Z.ltb_spec now (cd_until r)).
    + rewrite (swept_keeps _ _ _ _ (sid, scope) r Hcd Er) by (simpl; apply Z.ltb_ge; lia).
      by rewrite (proj2 (Z.ltb_lt _ _)).
    + destruct (cooldowns s'.1 !! (sid, scope)) as [r'|] eqn:Er'; [|done].
      apply (swept_sub _ _ _ _ _ _ Hcd) in Er'. simplify_eq. by rewrite (proj2 (Z.ltb_ge _ _)).
  - destruct (cooldowns s'.1 !! (sid, scope)) as [r'|] eqn:Er'; [|done].
    apply (swept_sub _ _ _ _ _ _ Hcd) in Er'. congruence.
Qed.

Lemma sweep_route cutoff sid :
  (clock 1%nat - deadWorkerAge <= cutoff)%Z → SessionRoute sid cutoff s'.1 = SessionRoute sid cutoff d.
Proof.
  intros Hc. unfold SessionRoute. rewrite (so_sessions _ _ _ _ _ _ _ Hsw). cbn [fst].
  destruct (sessions d !! sid) as [x|]; [|done]. destruct (s_worker x) as [w|]; [|done].
  pose proof (so_workers _ _ _ _ _ _ _ Hsw) as Hw. cbn [fst] in Hw.
  destruct (workers d !! w) as [r|] eqn:Er.
  - destruct (Z.ltb_spec cutoff (w_seen r)).
    + rewrite (swept_keeps _ _ _ _ w r Hw Er) by (simpl; apply Z.ltb_ge; lia). by rewrite (proj2 (Z.ltb_lt _ _)).
    + destruct (workers s'.1 !! w) as [r'|] eqn:Er'; [|done].
      apply (swept_sub _ _ _ _ _ _ Hw) in Er'. simplify_eq. by rewrite (proj2 (Z.ltb_ge _ _)).
  - destruct (workers s'.1 !! w) as [r'|] eqn:Er'; [|done].
    apply (swept_sub _ _ _ _ _ _ Hw) in Er'. congruence.
Qed.

Lemma sweep_quota sid kind tok rules method params t :
  (clock 4%nat - day <= t)%Z →
  let uses := map fst (quota_uses sid kind tok rules method params t) in
  verdict (TakeCounters uses s'.1) = verdict (TakeCounters uses d).
Proof.
  intros Ht uses. apply (TakeCounters_agrees (λ k, (t - 7 * day < ck_start k)%Z)); [|..|apply uses_start].
  - pose proof (so_rest _ _ _ _ _ _ _ Hsw) as Hr. by injection Hr.
  - intros k Hk. apply (swept_lookup _ _ _ _ _ (so_counters _ _ _ _ _ _ _ Hsw)). intros a _. simpl. apply Z.ltb_ge. lia.
Qed.
End sweep.

(** C38: Nothing a sweep deletes was still needed. Whichever of its statements go
    through, a sweep that is over by [now] changes no guard restored from the
    registry, no session's route, no verdict on a call counted in a window of the
    last day, no answer about a send inside its retention, no queued update of
    the last 24 hours and no upload touched within its lifetime. *)
Theorem retention_invisible clock up sendTTL uploadTTL root d v now :
  (∀ i, clock i <= now)%Z →
  let s' := purgeOnce clock up sendTTL uploadTTL root (d, v) in
  (∀ sid u g, loadGuard now sid u s'.1 g = loadGuard now sid u d g) ∧
  (∀ sid cutoff, (now - workerStale <= cutoff)%Z → SessionRoute sid cutoff s'.1 = SessionRoute sid cutoff d) ∧
  (∀ sid kind tok rules method params t, (now - day <= t)%Z →
     let uses := map fst (quota_uses sid kind tok rules method params t) in
     verdict (TakeCounters uses s'.1) = verdict (TakeCounters uses d)) ∧
  (∀ sid chat temp r, sends d !! (sid, chat, temp) = Some r → (now - sendTTL <= sm_created r)%Z →
     GetSend sid chat temp s'.1 = GetSend sid chat temp d) ∧
  (∀ k r, deliveries d !! k = Some r → (now - retentionAge <= d_created r)%Z → deliveries s'.1 !! k = Some r) ∧
  (∀ id x, v !! id = Some x → (now - uploadTTL <= ud_mtime x)%Z → s'.2 !! id = Some x).
Proof.
  intros Hc s'. pose proof (purgeOnce_sweeps clock up sendTTL uploadTTL root (d, v)) as Hsw. fold s' in Hsw.
  split; [|split; [|split; [|split; [|split]]]].
  - intros sid u g. by apply sweep_guard.
  - intros sid cutoff Hcut. apply sweep_route. pose proof (Hc 1%nat). unfold workerStale, deadWorkerAge in *.
    assert (30 * second < hour)%Z by done. lia.
  - intros sid kind tok rules method params t Ht. apply sweep_quota. pose proof (Hc 4%nat). lia.
  - intros sid chat temp r Hr Hage. unfold GetSend.
    rewrite (swept_keeps _ _ _ _ _ r (so_sends _ _ _ _ _ _ _ Hsw) Hr), Hr; [done|].
    simpl. apply Z.ltb_ge. pose proof (Hc 2%nat). lia.
  - intros k r Hr Hage. apply (swept_keeps _ _ _ _ _ r (so_deliveries _ _ _ _ _ _ _ Hsw) Hr).
    simpl. apply Z.ltb_ge. pose proof (Hc 0%nat). lia.
  - intros id x Hx Hage. rewrite (so_volume _ _ _ _ _ _ _ Hsw). unfold sweepUploads, Sweep. cbn [snd].
    destruct (String.eqb root ""); [done|]. apply map_lookup_filter_Some. split; [done|]. cbn [fst snd].
    rewrite andb_true_iff, Z.ltb_lt. pose proof (Hc 5%nat). lia.
Qed.

(** And the registry stays bounded: once every statement of a sweep has gone
    through, no queued update is older than 24 hours, no worker's row has been
    silent for over an hour, no cooldown has ended, no counter is older than
    eight days and no send older than its retention. *)
Theorem retention_bounds clock sendTTL uploadTTL root s :
  let d' := (purgeOnce clock (λ _, true) sendTTL uploadTTL root s).1 in
  (∀ k r, deliveries d' !! k = Some r → (clock 0%nat - retentionAge <= d_created r)%Z) ∧
  (∀ k w, workers d' !! k = Some w → (clock 1%nat - deadWorkerAge <= w_seen w)%Z) ∧
  (∀ k r, sends d' !! k = Some r → (clock 2%nat - sendTTL <= sm_created r)%Z) ∧
  (∀ k r, cooldowns d' !! k = Some r → (clock 3%nat <= cd_until r)%Z) ∧
  (∀ k n, counters d' !! k = Some n → (clock 4%nat - 8 * day <= ck_start k)%Z).
Proof.
  intros d'. destruct (purgeOnce_sweeps clock (λ _, true) sendTTL uploadTTL root s) as [H0 H1 H2 H3 H4 _ _ _].
  split_and!; intros k r Hk; [apply (swept_gone _ _ _ _ _ H0) in Hk|apply (swept_gone _ _ _ _ _ H1) in Hk
    |apply (swept_gone _ _ _ _ _ H2) in Hk|apply (swept_gone _ _ _ _ _ H3) in Hk|apply (swept_gone _ _ _ _ _ H4) in Hk];
    by apply Z.ltb_ge in Hk.
Qed.

(** A registry with a worker long gone and one alive. *)
Definition ex_old : db := with_workers (λ _, {["gone" := mkWorker "a" 0; "here" := mkWorker "b" (3 * day)]}) empty_db.

Lemma retention_invisible_witness :
  let s' := purgeOnce (λ _, 3 * day)%Z (λ _, true) day day "/uploads" (ex_old, ∅) in
  (∀ sid cutoff, (3 * day - workerStale <= cutoff)%Z → SessionRoute sid cutoff s'.1 = SessionRoute sid cutoff ex_old) ∧
  workers s'.1 = {["here" := mkWorker "b" (3 * day)]}.
Proof.
  intros s'. destruct (retention_invisible (λ _, 3 * day)%Z (λ _, true) day day "/uploads" ex_old ∅ (3 * day)%Z)
    as (_&H&_); [done|]. split; [exact H|by vm_compute].
Defined.
