(* ===== verification/Migrations.v ===== *)
(** Schema migrations (internal/store/migrations.go, store.go New): every process
    brings the schema up to date when it starts, in one transaction under an
    advisory lock, so starts run one after the other. [exec n] runs the SQL of
    version [n] on the rest of the database, or fails; Schema gives it. *)

From S2P Require Import Prelude Types.


Section migrations.
Context {S : Type} (exec : nat → S → option S).

(** The database as a start sees it: the versions recorded, in the order they
    were inserted ([None] while the table does not exist), and the rest. *)
Record schema_db := mkSchemaDb { sc_versions : option (list nat); sc_schema : S }.

(** The versions of the released history
    [internal/store/migrations.go#migrations]. *)
Definition migrations : list nat := [1; 2; 3; 4; 5; 6]%nat.

(** [COALESCE(MAX(version), 0)]. *)
Definition current_version (vs : list nat) : nat := foldr Nat.max 0%nat vs.

(** Runs and records the migrations newer than [current]. [up] says whether the
    next statement gets through; a failure aborts the transaction
    [internal/store/migrations.go:242-252#applyMigrations]. *)
Fixpoint apply_newer (up : nat → bool) (current : nat) (ms : list nat) (i : nat) (vs : list nat) (s : S)
    : option (list nat * S) :=
  match ms with
  | [] => Some (vs, s)
  | n :: ms =>
      if (n <=? current)%nat then apply_newer up current ms i vs s
      else match (if up i then exec n s else None) with
           | None => None
           | Some s =>
               if up (i + 1)%nat && negb (bool_decide (n ∈ vs))
               then apply_newer up current ms (i + 2) (vs ++ [n]) s
               else None
           end
  end.

(** [internal/store/migrations.go#applyMigrations] *)
Definition applyMigrations (up : nat → bool) (m : schema_db) : option schema_db :=
  if negb (up 2%nat) then None                 (* CREATE TABLE IF NOT EXISTS *)
  else
    let vs := default [] (sc_versions m) in
    if negb (up 3%nat) then None               (* SELECT MAX(version) *)
    else match apply_newer up (current_version vs) migrations 4 vs (sc_schema m) with
         | None => None
         | Some (vs, s) => Some (mkSchemaDb (Some vs) s)
         end.

(** A process's start: connected, locked, migrated and committed, or rolled back
    as a whole; whether it got its store [internal/store/store.go#New]. *)
Definition New (up : nat → bool) (m : schema_db) : bool * schema_db :=
  if negb (up 0%nat && up 1%nat) then (false, m)
  else match applyMigrations up m with
       | None => (false, m)
       | Some m' => if up 16%nat then (true, m') else (false, m)
       end.

(** ** Lemmas *)

(** A database at version [k]: exactly the versions up to [k] are recorded. *)
Definition at_version (k : nat) (s : S) (m : schema_db) : Prop :=
  default [] (sc_versions m) = seq 1 k ∧ sc_schema m = s.

(** The versions above [k] run in order. *)
Definition upgrade (k : nat) (s : S) : option S :=
  foldl (λ o n, o ≫= exec n) (Some s) (seq (k + 1) (6 - k)).

Lemma current_seq k : current_version (seq 1 k) = k.
Proof.
  induction k as [|k IH]; [done|]. rewrite seq_S. unfold current_version in *. rewrite foldr_app. simpl.
  assert (Hm : ∀ l a, foldr Nat.max a l = Nat.max (foldr Nat.max 0%nat l) a).
  { induction l as [|x l IHl]; intros a; simpl; [lia|]. rewrite IHl. lia. }
  rewrite Hm, IH. lia.
Qed.

Lemma exec_none l : foldl (λ (o : option S) n, o ≫= exec n) None l = None.
Proof. by induction l. Qed.

(** Old versions are passed over; the rest run in order and are recorded. *)
Lemma apply_newer_spec up k len i s vs' s' :
  apply_newer up k (seq (k + 1) len) i (seq 1 k) s = Some (vs', s') →
  vs' = seq 1 (k + len) ∧ foldl (λ o n, o ≫= exec n) (Some s) (seq (k + 1) len) = Some s'.
Proof.
  assert (Hgen : ∀ len j i s, (k <= j)%nat → apply_newer up k (seq (j + 1) len) i (seq 1 j) s = Some (vs', s') →
    vs' = seq 1 (j + len) ∧ foldl (λ o n, o ≫= exec n) (Some s) (seq (j + 1) len) = Some s').
  { clear. induction len as [|len IH]; intros j i s Hj; simpl; [intros [= <- <-]; by rewrite Nat.add_0_r|].
    rewrite (proj2 (Nat.leb_gt _ _)) by lia. destruct (up i); [|done]. destruct (exec (j + 1) s) as [s1|]; [|done].
    destruct (_ && _); [|done]. intros H.
    replace (seq 1 j ++ [(j + 1)%nat]) with (seq 1 (j + 1)) in H by (rewrite seq_app; simpl; by rewrite Nat.add_comm).
    replace (Datatypes.S (j + 1)) with (j + 1 + 1)%nat in * by lia.
    apply IH in H as [-> H]; [|lia]. split; [f_equal; lia|done]. }
  by apply Hgen.
Qed.

Lemma apply_old up k a i vs s ms :
  Forall (λ n, n <= k)%nat a → apply_newer up k (a ++ ms) i vs s = apply_newer up k ms i vs s.
Proof. induction 1 as [|n a Hn _ IH]; [done|]. simpl. by rewrite (proj2 (Nat.leb_le _ _) Hn). Qed.

Lemma New_cases up k s m :
  (k <= 6)%nat → at_version k s m →
  New up m = (false, m) ∨ ∃ s' m', New up m = (true, m') ∧ upgrade k s = Some s' ∧ at_version 6 s' m'.
Proof.
  intros Hk [Hv Hs]. unfold New. destruct (negb _); [by left|].
  unfold applyMigrations. rewrite Hv, Hs, current_seq. destruct (negb _); [by left|]. destruct (negb _); [by left|].
  change migrations with (seq 1 6). replace (seq 1 6) with (seq 1 k ++ seq (k + 1) (6 - k))
    by (rewrite (Nat.add_comm k 1), <- seq_app; f_equal; lia).
  rewrite apply_old by (apply Forall_forall; intros n Hn%elem_of_seq; lia).
  destruct (apply_newer _ _ _ _ _ _) as [[vs s']|] eqn:E; [|by left].
  apply apply_newer_spec in E as [-> Hup]. destruct (up 16%nat); [right|by left].
  exists s', (mkSchemaDb (Some (seq 1 (k + (6 - k)))) s'). split; [done|]. split; [done|].
  split; [|done]. cbn [sc_versions default]. by replace (k + (6 - k))%nat with 6%nat by lia.
Qed.

Lemma upgrade_step k s : (k < 6)%nat → upgrade k s = exec (k + 1)%nat s ≫= upgrade (k + 1)%nat.
Proof.
  intros Hk. unfold upgrade. replace (6 - k)%nat with (Datatypes.S (6 - (k + 1))) by lia. simpl.
  replace (Datatypes.S (k + 1)) with (k + 1 + 1)%nat by lia. destruct (exec _ s); [done|]. apply exec_none.
Qed.

(** With nothing in the way, the newer versions run if their SQL does. *)
Lemma apply_newer_runs k len j i s s' :
  (k <= j)%nat → foldl (λ o n, o ≫= exec n) (Some s) (seq (j + 1) len) = Some s' →
  apply_newer (λ _, true) k (seq (j + 1) len) i (seq 1 j) s = Some (seq 1 (j + len), s').
Proof.
  revert j i s. induction len as [|len IH]; intros j i s Hj; simpl; [intros [= <-]; by rewrite Nat.add_0_r|].
  rewrite (proj2 (Nat.leb_gt _ _)) by lia. destruct (exec (j + 1) s) as [s1|]; [|by rewrite exec_none].
  simpl. intros H. rewrite bool_decide_eq_false_2 by (rewrite elem_of_seq; lia). simpl.
  replace (seq 1 j ++ [(j + 1)%nat]) with (seq 1 (j + 1)) by (rewrite seq_app; simpl; by rewrite Nat.add_comm).
  replace (Datatypes.S (j + 1)) with (j + 1 + 1)%nat in * by lia.
  rewrite (IH (j + 1)%nat _ s1); [|lia|done]. do 3 f_equal. lia.
Qed.

Lemma New_runs k s s' m :
  (k <= 6)%nat → at_version k s m → upgrade k s = Some s' →
  New (λ _, true) m = (true, mkSchemaDb (Some (seq 1 6)) s').
Proof.
  intros Hk [Hv Hs] Hup. unfold New, applyMigrations. simpl negb. cbv iota. rewrite Hv, Hs, current_seq.
  change migrations with (seq 1 6). replace (seq 1 6) with (seq 1 k ++ seq (k + 1) (6 - k)) at 1
    by (rewrite (Nat.add_comm k 1), <- seq_app; f_equal; lia).
  rewrite apply_old by (apply Forall_forall; intros n Hn%elem_of_seq; lia).
  rewrite (apply_newer_runs _ _ _ _ _ s'); [|lia|done]. by replace (k + (6 - k))%nat with 6%nat by lia.
Qed.

Lemma New_up up k s s' m :
  (∀ i, up i = true) → (k <= 6)%nat → at_version k s m → upgrade k s = Some s' →
  New up m = (true, mkSchemaDb (Some (seq 1 6)) s').
Proof.
  intros Hup Hk Hm Hu. rewrite <- (New_runs k s s' m Hk Hm Hu).
  assert (Ha : ∀ ms c i vs t, apply_newer up c ms i vs t = apply_newer (λ _, true) c ms i vs t).
  { induction ms as [|n ms IH]; intros c i vs t; [done|]. simpl. rewrite !Hup, IH. repeat case_match; try done; apply IH. }
  unfold New, applyMigrations. by rewrite !Hup, Ha.
Qed.

(** C39: Each migration runs exactly once, in order, whatever processes start and
    fail. From a database at version [k], any sequence of starts (each failing
    where it may) leaves it either as it was, or upgraded: every version recorded
    once and the schema what running versions k+1 to 6 in order makes of it,
    never something in between. A start that got its store left the upgraded
    schema, and starting again on that changes nothing more. *)
Theorem migrations_exactly_once k s m ups :
  (k <= 6)%nat → at_version k s m →
  let m' := foldl (λ m up, (New up m).2) m ups in
  (m' = m ∨ ∃ s', upgrade k s = Some s' ∧ at_version 6 s' m') ∧
  ∀ up, (New up m').1 = true → ∃ s', upgrade k s = Some s' ∧ at_version 6 s' (New up m').2.
Proof.
  intros Hk Hm m'. subst m'.
  assert (Hinv : ∀ m1, (m1 = m ∨ ∃ s', upgrade k s = Some s' ∧ at_version 6 s' m1) → ∀ up,
    (New up m1).2 = m1 ∧ (New up m1).1 = false ∨ ∃ s', upgrade k s = Some s' ∧ at_version 6 s' (New up m1).2).
  { intros m1 [->|(s'&Hu&Hv)] up.
    - destruct (New_cases up k s m Hk Hm) as [->|(s'&m'&->&Hu&Hv)]; [by left|right; by exists s'].
    - destruct (New_cases up 6 s' m1 (le_n 6) Hv) as [->|(s''&m'&->&[= <-]&Hv')]; [by left|right; by exists s']. }
  assert (Hrun : let m' := foldl (λ m up, (New up m).2) m ups in
    m' = m ∨ ∃ s', upgrade k s = Some s' ∧ at_version 6 s' m').
  { apply (foldl_inv _ (λ m', m' = m ∨ ∃ s', upgrade k s = Some s' ∧ at_version 6 s' m')); [|by left].
    intros m1 up _ H1. destruct (Hinv m1 H1 up) as [[-> _]|H2]; [done|by right]. }
  split; [done|]. intros up Hup. destruct (Hinv _ Hrun up) as [[_ Hf]|H]; [congruence|done].
Qed.
End migrations.

(** Schemas as the list of versions run, so a migration run twice would show. *)
Definition ex_exec : nat → list nat → option (list nat) := λ n s, Some (s ++ [n]).

(** Version 4 fails on the first start, the second goes through, the third finds
    nothing to do. *)
Definition ex_ups : list (nat → bool) :=
  [(λ i, negb (Nat.eqb i 6)); (λ _, true); (λ _, true)].

Lemma migrations_exactly_once_witness :
  let m := mkSchemaDb (Some [1; 2]%nat) [1; 2]%nat in
  let m' := foldl (λ m up, (New ex_exec up m).2) m ex_ups in
  at_version 2 [1; 2]%nat m ∧ sc_schema m' = [1; 2; 3; 4; 5; 6]%nat ∧
  (m' = m ∨ ∃ s', upgrade ex_exec 2 [1; 2]%nat = Some s' ∧ at_version 6 s' m').
Proof.
  intros m m'. assert (Hm : at_version 2 [1; 2]%nat m) by done. split; [done|]. split; [by vm_compute|].
  exact (proj1 (migrations_exactly_once ex_exec 2 [1; 2]%nat m ex_ups ltac:(lia) Hm)).
Defined.
