(* ===== verification/Schema.v ===== *)
(** The SQL of the migrations (internal/store/migrations.go) as data, and what
    PostgreSQL makes of it: tables with their columns and named constraints, the
    statements the history uses, executed on a schema and on the rows in it. A
    statement whose result would break a constraint fails, as in PostgreSQL. *)

From S2P Require Import Prelude Types Migrations.


(** ** Values and rows *)

Inductive val :=
| VS (s : string)          (* text, uuid, bytea, jsonb *)
| VI (z : Z)               (* integer, bigint, timestamptz *)
| VB (b : bool)
| VL (l : list string).    (* text[] *)

#[export] Instance val_eq_dec : EqDecision val.
Proof. solve_decision. Defined.

Inductive sqltype := uuid | text | bytea | jsonb | integer | bigint | boolean | timestamptz | text_array.

#[export] Instance sqltype_eq_dec : EqDecision sqltype.
Proof. solve_decision. Defined.

(** The kind of a value. The range of an integer is not part of the schema's
    constraints; Db refuses those out of range. *)
Definition has_type (ty : sqltype) (v : val) : bool :=
  match ty, v with
  | (uuid | text | bytea | jsonb), VS _ => true
  | (integer | bigint | timestamptz), VI _ => true
  | boolean, VB _ => true
  | text_array, VL _ => true
  | _, _ => false
  end.

(** A row by column name, the latest assignment in front; no entry, or one of
    [None], is NULL. *)
Notation row := (list (string * option val)).

Fixpoint get (c : string) (r : row) : option val :=
  match r with
  | [] => None
  | (c', v) :: r => if String.eqb c' c then v else get c r
  end.

(** The rows of each table. *)
Notation data := (gmap string (list row)).

Definition rows_of (d : data) (t : string) : list row := default [] (d !! t).

(** ** The language of the migrations *)

Inductive attr :=
| PrimaryKey
| NotNull
| Unique
| Default (v : val)                          (* a constant *)
| DefaultExpr (e : string)                   (* now(), gen_random_uuid() *)
| References (t c : string) (cascade : bool)
| CheckIn (l : list string)                  (* CHECK (c IN (...)) *)
| CheckPositive.                             (* CHECK (c > 0) *)

Record column := mkColumn { c_name : string; c_type : sqltype; c_attrs : list attr }.

Inductive tattr :=
| TPrimary (cols : list string)
| TUnique (cols : list string).

Inductive stmt :=
| CreateTable (if_not_exists : bool) (t : string) (cols : list column) (tattrs : list tattr)
| CreateIndex (name t : string) (cols : list string)       (* IF NOT EXISTS *)
| AddColumn (t : string) (c : column)
| DropConstraint (t name : string)                         (* IF EXISTS *)
| SetNotNull (t c : string)
| SetFrom (t c t' c' on on' : string)  (* UPDATE t SET c = t'.c' FROM t' WHERE t'.on' = t.on *)
| DeleteNull (t c : string).           (* DELETE FROM t WHERE c IS NULL *)

(** One ALTER TABLE with several ADD COLUMN. *)
Definition add_columns (t : string) (cs : list column) : list stmt := AddColumn t <$> cs.

(** ** Schemas *)

Inductive constr :=
| Key (cols : list string)                  (* PRIMARY KEY or UNIQUE *)
| Ref (c t' c' : string) (cascade : bool)
| OneOf (c : string) (l : list string)
| Positive (c : string).

#[export] Instance constr_eq_dec : EqDecision constr.
Proof. solve_decision. Defined.

Record coldef := mkColdef {
  cd_name : string;
  cd_type : sqltype;
  cd_notnull : bool;
  cd_default : bool;          (* an INSERT may leave it out *)
}.

Record tdef := mkTdef { td_cols : list coldef; td_cons : list (string * constr) }.

Record schema := mkSchema {
  sc_tables : gmap string tdef;
  sc_indexes : gmap string (string * list string);
}.

#[export] Instance coldef_eq_dec : EqDecision coldef.
Proof. solve_decision. Defined.
#[export] Instance tdef_eq_dec : EqDecision tdef.
Proof. solve_decision. Defined.
#[export] Instance schema_eq_dec : EqDecision schema.
Proof. solve_decision. Defined.

Definition empty_schema : schema := mkSchema ∅ ∅.

(** The names PostgreSQL gives to unnamed constraints. *)
Definition key_name (t : string) (cols : list string) : string :=
  t +:+ "_" +:+ String.concat "_" cols +:+ "_key".

Definition attr_constrs (t c : string) (a : attr) : list (string * constr) :=
  match a with
  | PrimaryKey => [(t +:+ "_pkey", Key [c])]
  | Unique => [(key_name t [c], Key [c])]
  | References t' c' cascade => [(t +:+ "_" +:+ c +:+ "_fkey", Ref c t' c' cascade)]
  | CheckIn l => [(t +:+ "_" +:+ c +:+ "_check", OneOf c l)]
  | CheckPositive => [(t +:+ "_" +:+ c +:+ "_check", Positive c)]
  | NotNull | Default _ | DefaultExpr _ => []
  end.

Definition column_constrs (t : string) (c : column) : list (string * constr) :=
  mjoin (attr_constrs t (c_name c) <$> c_attrs c).

Definition is_notnull (a : attr) : bool := match a with PrimaryKey | NotNull => true | _ => false end.
Definition is_default (a : attr) : bool := match a with Default _ | DefaultExpr _ => true | _ => false end.

Definition column_def (c : column) : coldef :=
  mkColdef (c_name c) (c_type c) (existsb is_notnull (c_attrs c)) (existsb is_default (c_attrs c)).

Definition has_column (td : tdef) (c : string) : bool := existsb (λ cd, String.eqb (cd_name cd) c) (td_cols td).

Definition add_column (t : string) (c : column) (td : tdef) : option tdef :=
  if has_column td (c_name c) then None
  else Some (mkTdef (td_cols td ++ [column_def c]) (td_cons td ++ column_constrs t c)).

Definition set_notnull (c : string) (cd : coldef) : coldef :=
  if String.eqb (cd_name cd) c then mkColdef (cd_name cd) (cd_type cd) true (cd_default cd) else cd.

Definition add_tattr (t : string) (td : tdef) (a : tattr) : tdef :=
  match a with
  | TPrimary cols =>
      mkTdef (foldr (λ c l, set_notnull c <$> l) (td_cols td) cols) (td_cons td ++ [(t +:+ "_pkey", Key cols)])
  | TUnique cols => mkTdef (td_cols td) (td_cons td ++ [(key_name t cols, Key cols)])
  end.

Definition new_table (t : string) (cols : list column) (tattrs : list tattr) : option tdef :=
  td ← foldl (λ o c, o ≫= add_column t c) (Some (mkTdef [] [])) cols; Some (foldl (add_tattr t) td tattrs).

(** Every constraint is on columns of its table, and every reference is to a
    column that is a key. *)
Definition constr_ok (s : gmap string tdef) (td : tdef) (k : constr) : bool :=
  match k with
  | Key cols => forallb (has_column td) cols
  | Ref c t' c' _ =>
      has_column td c &&
      match s !! t' with
      | Some td' => has_column td' c' && existsb (λ nc, bool_decide (nc.2 = Key [c'])) (td_cons td')
      | None => false
      end
  | OneOf c _ | Positive c => has_column td c
  end.

Definition schema_ok (s : gmap string tdef) : bool :=
  forallb (λ e, forallb (λ nc, constr_ok s e.2 nc.2) (td_cons e.2)) (map_to_list s).

(** The statement on the schema alone; [None] where PostgreSQL reports an
    error. A column added later with a default that is computed for each row is
    not in the fragment. *)
Definition sstep_raw (st : stmt) (s : schema) : option schema :=
  let in_table t (f : tdef → option tdef) :=
    td ← sc_tables s !! t; td' ← f td; Some (mkSchema (<[t := td']> (sc_tables s)) (sc_indexes s)) in
  match st with
  | CreateTable ine t cols tattrs =>
      match sc_tables s !! t with
      | Some _ => if ine then Some s else None
      | None => td ← new_table t cols tattrs; Some (mkSchema (<[t := td]> (sc_tables s)) (sc_indexes s))
      end
  | CreateIndex name t cols =>
      match sc_indexes s !! name with
      | Some _ => Some s
      | None =>
          td ← sc_tables s !! t;
          if forallb (has_column td) cols then Some (mkSchema (sc_tables s) (<[name := (t, cols)]> (sc_indexes s)))
          else None
      end
  | AddColumn t c =>
      in_table t (λ td, if existsb (λ a, match a with DefaultExpr _ => true | _ => false end) (c_attrs c) then None
                        else add_column t c td)
  | DropConstraint t name =>
      in_table t (λ td, Some (mkTdef (td_cols td) (filter (λ nc, nc.1 ≠ name) (td_cons td))))
  | SetNotNull t c =>
      in_table t (λ td, if has_column td c then Some (mkTdef (set_notnull c <$> td_cols td) (td_cons td)) else None)
  | SetFrom t c t' c' on on' =>
      td ← sc_tables s !! t; td' ← sc_tables s !! t';
      if has_column td c && has_column td on && has_column td' c' && has_column td' on' then Some s else None
  | DeleteNull t c =>
      td ← sc_tables s !! t; if has_column td c then Some s else None
  end.

Definition sstep (st : stmt) (s : schema) : option schema :=
  s' ← sstep_raw st s; if schema_ok (sc_tables s') then Some s' else None.

(** ** Rows under a schema *)

Definition const_default (c : column) : option val :=
  foldr (λ a o, match a with Default v => Some v | _ => o end) None (c_attrs c).

(** The first row of [l] joined by [on' = v]. *)
Definition joined (on' : string) (v : val) (l : list row) : option row :=
  find (λ r, bool_decide (get on' r = Some v)) l.

Definition set_from (c c' on on' : string) (l : list row) (r : row) : row :=
  match get on r ≫= λ v, joined on' v l with
  | Some s => (c, get c' s) :: r
  | None => r
  end.

(** The statement on the rows. *)
Definition dstep (st : stmt) (d : data) : data :=
  match st with
  | AddColumn t c =>
      match const_default c with
      | Some v => <[t := (λ r, (c_name c, Some v) :: r) <$> rows_of d t]> d
      | None => d
      end
  | SetFrom t c t' c' on on' => <[t := set_from c c' on on' (rows_of d t') <$> rows_of d t]> d
  | DeleteNull t c => <[t := filter (λ r, get c r ≠ None) (rows_of d t)]> d
  | _ => d
  end.

Definition key_of (cols : list string) (r : row) : option (list val) := mapM (λ c, get c r) cols.

(** A constraint on the rows [l] of its table; NULLs satisfy each of them. *)
Definition holds (d : data) (l : list row) (k : constr) : Prop :=
  match k with
  | Key cols => NoDup (omap (key_of cols) l)
  | Ref c t' c' _ => ∀ v, v ∈ omap (get c) l → v ∈ omap (get c') (rows_of d t')
  | OneOf c vs => ∀ v, v ∈ omap (get c) l → v ∈ VS <$> vs
  | Positive c => ∀ v, v ∈ omap (get c) l → match v with VI z => (0 < z)%Z | _ => False end
  end.

Definition cell_ok (cd : coldef) (r : row) : Prop :=
  match get (cd_name cd) r with
  | Some v => has_type (cd_type cd) v = true
  | None => cd_notnull cd = false
  end.

Definition row_ok (td : tdef) (r : row) : Prop :=
  Forall (λ cv, has_column td cv.1 = true) r ∧ Forall (λ cd, cell_ok cd r) (td_cols td).

(** The rows of every table satisfy its definition. *)
Definition valid (s : gmap string tdef) (d : data) : Prop :=
  map_Forall (λ t td, Forall (row_ok td) (rows_of d t) ∧
                      Forall (λ nc, holds d (rows_of d t) nc.2) (td_cons td)) s ∧
  map_Forall (λ t _, is_Some (s !! t)) d.

#[export] Instance positive_dec v : Decision (match v with VI z => (0 < z)%Z | _ => False end).
Proof. destruct v; apply _. Defined.

#[export] Instance forall_elem_dec {A} (P : A → Prop) `{!∀ x, Decision (P x)} (l : list A) :
  Decision (∀ x, x ∈ l → P x).
Proof. refine (cast_if (decide (Forall P l))); by rewrite <- Forall_forall. Defined.

#[export] Instance holds_dec d l k : Decision (holds d l k).
Proof. destruct k; apply _. Defined.

#[export] Instance cell_ok_dec cd r : Decision (cell_ok cd r).
Proof. unfold cell_ok. destruct (get _ _); apply _. Defined.

#[export] Instance valid_dec s d : Decision (valid s d).
Proof. unfold valid, row_ok. apply _. Defined.

(** A database: its schema and its rows. *)
Record pgdb := mkPg { pg_schema : schema; pg_data : data }.

Definition exec (st : stmt) (x : pgdb) : option pgdb :=
  s ← sstep st (pg_schema x);
  let d := dstep st (pg_data x) in
  if decide (valid (sc_tables s) d) then Some (mkPg s d) else None.

Definition run (sts : list stmt) (x : pgdb) : option pgdb := foldl (λ o st, o ≫= exec st) (Some x) sts.

(** ** The history *)

Definition uuid_key : column := mkColumn "id" uuid [PrimaryKey; DefaultExpr "gen_random_uuid()"].
Definition stamped (c : string) : column := mkColumn c timestamptz [NotNull; DefaultExpr "now()"].

(** [internal/store/migrations.go:36-128#schemaV1] *)
Definition schemaV1 : list stmt := [
  CreateTable true "tg_app" [
    uuid_key;
    mkColumn "api_id" integer [NotNull];
    mkColumn "api_hash_enc" bytea [NotNull];
    mkColumn "label" text [];
    stamped "created_at"] [];
  CreateTable true "proxy" [
    uuid_key;
    mkColumn "type" text [NotNull; CheckIn ["socks5"; "http"; "mtproto"]];
    mkColumn "host" text [NotNull];
    mkColumn "port" integer [NotNull];
    mkColumn "username" text [];
    mkColumn "secret_enc" bytea [];
    mkColumn "label" text [];
    stamped "created_at"] [];
  CreateTable true "session" [
    uuid_key;
    mkColumn "kind" text [NotNull; CheckIn ["user"; "bot"]];
    mkColumn "app_id" uuid [NotNull; References "tg_app" "id" false];
    mkColumn "proxy_id" uuid [References "proxy" "id" false];
    mkColumn "phone" text [];
    mkColumn "bot_token_enc" bytea [];
    mkColumn "label" text [];
    mkColumn "status" text [NotNull; Default (VS "new")];
    mkColumn "db_dir" text [Unique];
    mkColumn "db_key_enc" bytea [];
    mkColumn "worker_id" text [];
    mkColumn "last_seen_at" timestamptz [];
    stamped "created_at";
    stamped "updated_at"] [];
  CreateIndex "session_status_idx" "session" ["status"];
  CreateIndex "session_kind_idx" "session" ["kind"];
  CreateTable true "update_subscription" [
    uuid_key;
    mkColumn "session_id" uuid [NotNull; References "session" "id" true];
    mkColumn "kind" text [NotNull; Default (VS "webhook"); CheckIn ["webhook"]];
    mkColumn "url" text [NotNull];
    mkColumn "secret_enc" bytea [];
    mkColumn "filters" jsonb [];
    stamped "created_at"] [TUnique ["session_id"; "kind"]];
  CreateTable true "webhook_delivery" [
    uuid_key;
    mkColumn "session_id" uuid [NotNull; References "session" "id" true];
    mkColumn "payload" jsonb [NotNull];
    mkColumn "status" text [NotNull; Default (VS "pending"); CheckIn ["pending"; "delivered"; "failed"]];
    mkColumn "attempts" integer [NotNull; Default (VI 0)];
    stamped "next_try_at";
    stamped "created_at"] [];
  CreateIndex "webhook_delivery_due_idx" "webhook_delivery" ["status"; "next_try_at"];
  CreateTable true "worker" [
    mkColumn "id" text [PrimaryKey];
    mkColumn "addr" text [NotNull];
    stamped "last_seen_at"] [];
  CreateTable true "api_token" [
    uuid_key;
    mkColumn "name" text [];
    mkColumn "secret_hash" bytea [NotNull; Unique];
    mkColumn "enabled" boolean [NotNull; Default (VB true)];
    mkColumn "all_sessions" boolean [NotNull; Default (VB false)];
    stamped "created_at"] [];
  CreateTable true "api_token_app" [
    mkColumn "token_id" uuid [NotNull; References "api_token" "id" true];
    mkColumn "app_id" uuid [NotNull; References "tg_app" "id" true]] [TPrimary ["token_id"; "app_id"]];
  CreateTable true "api_token_session" [
    mkColumn "token_id" uuid [NotNull; References "api_token" "id" true];
    mkColumn "session_id" uuid [NotNull; References "session" "id" true]] [TPrimary ["token_id"; "session_id"]]
].

(** [internal/store/migrations.go:130-143#schemaV2] *)
Definition schemaV2 : list stmt := [
  CreateTable true "sent_message" [
    mkColumn "session_id" uuid [NotNull; References "session" "id" true];
    mkColumn "chat_id" bigint [NotNull];
    mkColumn "temp_id" bigint [NotNull];
    mkColumn "status" text [NotNull; CheckIn ["pending"; "sent"; "failed"]];
    mkColumn "final_id" bigint [];
    mkColumn "error" jsonb [];
    stamped "created_at";
    stamped "updated_at"] [TPrimary ["session_id"; "chat_id"; "temp_id"]];
  CreateIndex "sent_message_created_idx" "sent_message" ["created_at"]
].

(** The new columns of a subscription, and the one of a queued delivery that
    every row has to get [internal/store/migrations.go:152-163#schemaV3]. *)
Definition schemaV3_columns : list stmt :=
  [DropConstraint "update_subscription" "update_subscription_session_id_kind_key"] ++
  add_columns "update_subscription" [
    mkColumn "token_id" uuid [References "api_token" "id" true];
    mkColumn "dropped" bigint [NotNull; Default (VI 0)];
    mkColumn "last_delivered_at" timestamptz [];
    mkColumn "last_error" text [];
    mkColumn "last_error_at" timestamptz []] ++
  [CreateIndex "update_subscription_session_idx" "update_subscription" ["session_id"];
   AddColumn "webhook_delivery"
     (mkColumn "subscription_id" uuid [References "update_subscription" "id" true])].

(** [internal/store/migrations.go:164-167#schemaV3] *)
Definition schemaV3_backfill : list stmt := [
  SetFrom "webhook_delivery" "subscription_id" "update_subscription" "id" "session_id" "session_id";
  DeleteNull "webhook_delivery" "subscription_id";
  SetNotNull "webhook_delivery" "subscription_id"
].

(** [internal/store/migrations.go:152-169#schemaV3] *)
Definition schemaV3 : list stmt :=
  schemaV3_columns ++ schemaV3_backfill ++
  [CreateIndex "webhook_delivery_sub_idx" "webhook_delivery" ["subscription_id"; "status"]].

(** [internal/store/migrations.go:175-187#schemaV4] *)
Definition schemaV4 : list stmt :=
  add_columns "session" [mkColumn "is_premium" boolean []; mkColumn "frozen_at" timestamptz []] ++
  [CreateTable false "cooldown" [
     mkColumn "session_id" uuid [NotNull; References "session" "id" true];
     mkColumn "scope" text [NotNull];
     mkColumn "ends_at" timestamptz [NotNull];
     mkColumn "reason" text [NotNull];
     stamped "created_at"] [TPrimary ["session_id"; "scope"]]].

(** [internal/store/migrations.go:193-214#schemaV5] *)
Definition schemaV5 : list stmt := [
  CreateTable false "rate_limit" [
    uuid_key;
    mkColumn "level" text [NotNull; CheckIn ["session"; "token"]];
    mkColumn "kind" text [CheckIn ["user"; "bot"]];
    mkColumn "session_id" uuid [References "session" "id" true];
    mkColumn "token_id" uuid [References "api_token" "id" true];
    mkColumn "methods" text_array [NotNull];
    mkColumn "max_calls" integer [NotNull; CheckPositive];
    mkColumn "per" text [NotNull; CheckIn ["minute"; "hour"; "day"; "week"]];
    mkColumn "label" text [];
    mkColumn "enabled" boolean [NotNull; Default (VB true)];
    stamped "created_at"] [];
  CreateTable false "rate_counter" [
    mkColumn "limit_id" uuid [NotNull; References "rate_limit" "id" true];
    mkColumn "bucket" text [NotNull];
    mkColumn "window_start" timestamptz [NotNull];
    mkColumn "calls" integer [NotNull]] [TPrimary ["limit_id"; "bucket"; "window_start"]]
].

(** [internal/store/migrations.go:218-222#schemaV6] *)
Definition schemaV6 : list stmt :=
  add_columns "session" [mkColumn "freeze_deletion_at" timestamptz []; mkColumn "freeze_appeal_link" text []].

(** The SQL of each version [internal/store/migrations.go#migrations]. *)
Definition version_sql (n : nat) : list stmt :=
  match n with
  | 1 => schemaV1
  | 2 => schemaV2
  | 3 => schemaV3
  | 4 => schemaV4
  | 5 => schemaV5
  | 6 => schemaV6
  | _ => []
  end%nat.

(** Running version [n]'s SQL [internal/store/migrations.go:242-246#applyMigrations]. *)
Definition version_exec (n : nat) (x : pgdb) : option pgdb := run (version_sql n) x.

(** The schema alone, after the versions up to [k] on an empty database. *)
Definition srun (sts : list stmt) (s : schema) : option schema := foldl (λ o st, o ≫= sstep st) (Some s) sts.

Definition schema_at (k : nat) : schema :=
  default empty_schema (foldl (λ o n, o ≫= srun (version_sql n)) (Some empty_schema) (seq 1 k)).

(** ** Lemmas: rows and constraints *)

Lemma get_in c r v : get c r = Some v → (c, Some v) ∈ r.
Proof.
  induction r as [|[c' v'] r IH]; [done|]. simpl. destruct (String.eqb_spec c' c) as [->|]; [intros ->; left|right; by apply IH].
Qed.

Lemma row_ok_absent td r c : row_ok td r → has_column td c = false → get c r = None.
Proof.
  intros [Hn _] Hc. destruct (get c r) as [v|] eqn:E; [|done]. apply get_in in E.
  rewrite Forall_forall in Hn. specialize (Hn _ E). simpl in Hn. congruence.
Qed.

Lemma has_column_spec td c : has_column td c = true ↔ ∃ cd, cd ∈ td_cols td ∧ cd_name cd = c.
Proof.
  unfold has_column. rewrite existsb_exists. split.
  - intros (cd&Hin&Heq%String.eqb_eq). exists cd. by rewrite list_elem_of_In.
  - intros (cd&Hin&<-). exists cd. rewrite <- list_elem_of_In, String.eqb_refl. done.
Qed.

Lemma rows_of_insert d t l : rows_of (<[t := l]> d) t = l.
Proof. unfold rows_of. by rewrite lookup_insert_eq. Qed.

Lemma rows_of_insert_ne d t t' l : t ≠ t' → rows_of (<[t := l]> d) t' = rows_of d t'.
Proof. intros H. unfold rows_of. by rewrite lookup_insert_ne. Qed.

Lemma valid_rows s d t td : valid s d → s !! t = Some td → Forall (row_ok td) (rows_of d t).
Proof. intros [H _] Ht. by apply H in Ht as [? _]. Qed.

Lemma valid_holds s d t td k : valid s d → s !! t = Some td → k ∈ td_cons td → holds d (rows_of d t) k.2.
Proof. intros [H _] Ht Hk. apply H in Ht as [_ Hc]. rewrite Forall_forall in Hc. by apply Hc. Qed.

Lemma valid_no_rows s d t : valid s d → s !! t = None → rows_of d t = [].
Proof.
  intros [_ H] Ht. unfold rows_of. destruct (d !! t) eqn:E; [|done]. apply H in E. rewrite Ht in E. by destruct E.
Qed.

Lemma schema_ok_spec s t td k : schema_ok s = true → s !! t = Some td → k ∈ td_cons td → constr_ok s td k.2 = true.
Proof.
  unfold schema_ok. rewrite forallb_forall. intros H Ht Hk.
  specialize (H (t, td)). rewrite <- list_elem_of_In, elem_of_map_to_list in H. specialize (H Ht).
  rewrite forallb_forall in H. apply H. by rewrite <- list_elem_of_In.
Qed.

(** The columns a constraint speaks of. *)
Definition constr_cols (k : constr) : list string :=
  match k with Key cols => cols | Ref c _ _ _ | OneOf c _ | Positive c => [c] end.

Lemma constr_ok_cols s td k c : constr_ok s td k = true → c ∈ constr_cols k → has_column td c = true.
Proof.
  destruct k; simpl; intros H Hc; try (apply list_elem_of_singleton in Hc as ->); bool_props; try done; [|by destruct H].
  rewrite forallb_forall in H. apply H. by rewrite <- list_elem_of_In.
Qed.

Lemma omap_fmap_same {A B} (g : A → option B) (f : A → A) (l : list A) : (∀ r, r ∈ l → g (f r) = g r) → omap g (f <$> l) = omap g l.
Proof.
  induction l as [|r l IH]; intros H; [done|]. csimpl. rewrite H by left. rewrite IH; [done|]. intros. apply H. by right.
Qed.

Lemma key_of_same cols r r' : (∀ c, c ∈ cols → get c r' = get c r) → key_of cols r' = key_of cols r.
Proof.
  unfold key_of. induction cols as [|c cols IH]; intros H; [done|]. simpl. rewrite (H c) by left.
  rewrite IH; [done|]. intros. apply H. by right.
Qed.

(** The targets of the references of [k] are still there. *)
Definition targets_kept (d d' : data) (k : constr) : Prop :=
  match k with
  | Ref _ t' c' _ => ∀ v, v ∈ omap (get c') (rows_of d t') → v ∈ omap (get c') (rows_of d' t')
  | _ => True
  end.

(** Rows changed in columns a constraint does not mention satisfy it still. *)
Lemma holds_map d d' l f k :
  (∀ c r, c ∈ constr_cols k → r ∈ l → get c (f r) = get c r) → targets_kept d d' k → holds d l k → holds d' (f <$> l) k.
Proof.
  intros Hf Ht. destruct k as [cols|c t' c' b|c vs|c]; simpl in *.
  - rewrite (omap_fmap_same (key_of cols)); [done|]. intros r Hr. apply key_of_same. naive_solver.
  - rewrite omap_fmap_same; [eauto|]. intros r Hr. apply Hf; [left|done].
  - rewrite omap_fmap_same; [eauto|]. intros r Hr. apply Hf; [left|done].
  - rewrite omap_fmap_same; [eauto|]. intros r Hr. apply Hf; [left|done].
Qed.

Lemma holds_targets d d' l k : targets_kept d d' k → holds d l k → holds d' l k.
Proof. intros. rewrite <- (list_fmap_id l). by apply (holds_map d d' l id). Qed.

(** ... and so do fewer rows. *)
Lemma holds_filter d d' l (P : row → Prop) `{!∀ r, Decision (P r)} k :
  targets_kept d d' k → holds d l k → holds d' (filter P l) k.
Proof.
  assert (Hin : ∀ B (g : row → option B) v, v ∈ omap g (filter P l) → v ∈ omap g l).
  { intros B g v (r&[_ Hr]%list_elem_of_filter&Hg)%list_elem_of_omap. apply list_elem_of_omap. eauto. }
  intros Ht. destruct k as [cols|c t' c' b|c vs|c]; simpl in *; [|intros Hl v Hv%Hin; exact (Ht v (Hl v Hv)) || exact (Hl v Hv)..].
  intros Hnd. clear Hin. induction l as [|r l IH]; [done|]. simpl in Hnd. rewrite filter_cons.
  destruct (key_of cols r) as [x|] eqn:E; [apply NoDup_cons in Hnd as [Hx Hnd]|];
    (destruct (decide (P r)); [simpl; rewrite E|]); try by apply IH.
  constructor; [|by apply IH]. intros (r'&[_ Hr]%list_elem_of_filter&Hg)%list_elem_of_omap.
  apply Hx, list_elem_of_omap. eauto.
Qed.

Lemma holds_none d k : holds d [] k.
Proof. destruct k; simpl; [constructor|..]; by intros v ?%not_elem_of_nil. Qed.

(** A column no row has a value for satisfies whatever its definition says. *)
Lemma holds_absent d l t c a nc :
  nc ∈ attr_constrs t c a → (∀ r, r ∈ l → get c r = None) → holds d l nc.2.
Proof.
  intros Hnc Hl.
  assert (H0 : omap (get c) l = []).
  { clear Hnc. induction l as [|r l IH]; [done|]. simpl. rewrite Hl by left. apply IH. intros. apply Hl. by right. }
  assert (H1 : omap (key_of [c]) l = []).
  { clear Hnc H0. induction l as [|r l IH]; [done|]. simpl. unfold key_of at 1. simpl. rewrite Hl by left.
    apply IH. intros. apply Hl. by right. }
  destruct a; simpl in Hnc; try (by apply not_elem_of_nil in Hnc); apply list_elem_of_singleton in Hnc as ->; simpl;
    rewrite ?H0, ?H1; try constructor; by intros v ?%not_elem_of_nil.
Qed.

(** ** Lemmas: one statement *)

(** A table redefined, its rows changed: what remains to be shown. *)
Lemma valid_change s d d' t td td' :
  valid s d → s !! t = Some td →
  (∀ t2, t2 ≠ t → rows_of d' t2 = rows_of d t2) →
  (∀ t2, is_Some (d' !! t2) → t2 = t ∨ is_Some (d !! t2)) →
  Forall (row_ok td') (rows_of d' t) →
  Forall (λ nc, holds d' (rows_of d' t) nc.2) (td_cons td') →
  (∀ t2 td2 nc, t2 ≠ t → s !! t2 = Some td2 → nc ∈ td_cons td2 → targets_kept d d' nc.2) →
  valid (<[t := td']> s) d'.
Proof.
  intros [Hv Hd] Ht Hsame Hdom Hrows Hholds Hrefs. split.
  - intros t2 td2. destruct (decide (t = t2)) as [<-|Hne]; [rewrite lookup_insert_eq; by intros [= <-]|].
    rewrite lookup_insert_ne by done. intros H2. destruct (Hv _ _ H2) as [Hr Hc]. rewrite Hsame by done. split; [done|].
    rewrite Forall_forall in Hc |- *. intros nc Hnc. apply (holds_targets d); [by eapply Hrefs|by apply Hc].
  - intros t2 l Hl. cbn beta. destruct (decide (t = t2)) as [<-|Hne]; [rewrite lookup_insert_eq; eauto|].
    rewrite lookup_insert_ne by done. destruct (Hdom t2) as [->|[l' Hl']]; [eauto|done|by eapply Hd].
Qed.

Lemma valid_create s d t td : valid s d → s !! t = None → valid (<[t := td]> s) d.
Proof.
  intros Hv Ht. pose proof (valid_no_rows _ _ _ Hv Ht) as Hr. destruct Hv as [Hv Hd]. split.
  - intros t2 td2. destruct (decide (t = t2)) as [<-|Hne].
    + rewrite lookup_insert_eq. intros [= <-]. rewrite Hr. split; [constructor|].
      apply Forall_forall. intros nc _. apply holds_none.
    + rewrite lookup_insert_ne by done. apply Hv.
  - intros t2 l Hl. cbn beta. destruct (decide (t = t2)) as [<-|Hne]; [rewrite lookup_insert_eq; eauto|].
    rewrite lookup_insert_ne by done. by eapply Hd.
Qed.

(** A table redefined, the rows as they were. *)
Lemma valid_redefine s d t td td' :
  valid s d → s !! t = Some td →
  Forall (row_ok td') (rows_of d t) → Forall (λ nc, holds d (rows_of d t) nc.2) (td_cons td') →
  valid (<[t := td']> s) d.
Proof.
  intros Hv Ht Hr Hc. eapply valid_change; eauto. intros t2 td2 nc _ _ _. by destruct nc.2; simpl.
Qed.

Lemma row_ok_extend td td' c f r :
  td_cols td' = td_cols td ++ [column_def c] → row_ok td r → has_column td (c_name c) = false →
  (∀ c', c' ≠ c_name c → get c' (f r) = get c' r) →
  Forall (λ cv, has_column td cv.1 = true ∨ cv.1 = c_name c) (f r) →
  cell_ok (column_def c) (f r) →
  row_ok td' (f r).
Proof.
  intros Htd [Hn Hc] Hnew Hf Hnames Hcell. split.
  - eapply Forall_impl; [exact Hnames|]. intros cv H. apply has_column_spec. rewrite Htd.
    destruct H as [(cd&Hin&<-)%has_column_spec| ->]; [exists cd|exists (column_def c)]; rewrite elem_of_app; split; try done;
      [by left|right; by apply list_elem_of_singleton].
  - rewrite Htd. apply Forall_app. split; [|by constructor]. rewrite Forall_forall in Hc |- *. intros cd Hcd.
    specialize (Hc cd Hcd). unfold cell_ok in *. rewrite Hf; [done|]. intros Heq.
    apply not_true_iff_false in Hnew. apply Hnew, has_column_spec. by exists cd.
Qed.

(** What a row said it still says. *)
Definition row_ext (r r' : row) : Prop := ∀ c v, get c r = Some v → get c r' = Some v.

Definition kept (d d' : data) (t : string) : Prop := Forall2 row_ext (rows_of d t) (rows_of d' t).

Lemma kept_refl d t : kept d d t.
Proof. unfold kept. induction (rows_of d t); constructor; [by intros ??|done]. Qed.

Lemma kept_trans d1 d2 d3 t : kept d1 d2 t → kept d2 d3 t → kept d1 d3 t.
Proof.
  unfold kept. intros H. revert H. generalize (rows_of d1 t) (rows_of d2 t) (rows_of d3 t).
  intros l1 l2 l3 H. revert l3. induction H as [|r1 r2 l1 l2 H12 _ IH]; intros l3 H3; inversion H3; simplify_eq; constructor.
  - intros c v Hv. auto.
  - by apply IH.
Qed.

(** The statements that cannot fail on the rows of a valid database, by their
    form alone. *)
Definition plain (st : stmt) : bool :=
  match st with
  | AddColumn t c =>
      match const_default c with
      | Some v => has_type (c_type c) v && bool_decide (column_constrs t c = [])
      | None => negb (existsb is_notnull (c_attrs c))
      end
  | SetNotNull _ _ | SetFrom _ _ _ _ _ _ | DeleteNull _ _ => false
  | CreateTable _ _ _ _ | CreateIndex _ _ _ | DropConstraint _ _ => true
  end.

Lemma column_constrs_absent d l t c nc :
  nc ∈ column_constrs t c → (∀ r, r ∈ l → get (c_name c) r = None) → holds d l nc.2.
Proof.
  unfold column_constrs. intros (x&Hnc&(a&->&_)%list_elem_of_fmap)%list_elem_of_join Hl. by eapply holds_absent.
Qed.

(** A nullable column without a default. *)
Lemma valid_add_null s d t td c :
  valid s d → s !! t = Some td → has_column td (c_name c) = false → existsb is_notnull (c_attrs c) = false →
  valid (<[t := mkTdef (td_cols td ++ [column_def c]) (td_cons td ++ column_constrs t c)]> s) d.
Proof.
  intros Hv Ht Hnew Hnn.
  assert (Habs : ∀ r, r ∈ rows_of d t → get (c_name c) r = None).
  { intros r Hr. eapply row_ok_absent; [|exact Hnew]. pose proof (valid_rows _ _ _ _ Hv Ht) as H.
    rewrite Forall_forall in H. by apply H. }
  eapply valid_redefine; [done..|apply Forall_forall|apply Forall_forall].
  - intros r Hr. pose proof (valid_rows _ _ _ _ Hv Ht) as H. rewrite Forall_forall in H. specialize (H r Hr).
    apply (row_ok_extend td _ c id r); [done..| |].
    + eapply Forall_impl; [apply H|]. by left.
    + unfold cell_ok. simpl. by rewrite Habs.
  - intros nc [Hnc|Hnc]%elem_of_app; [by eapply valid_holds|]. by eapply column_constrs_absent.
Qed.

(** A column with a constant default and no constraint. *)
Lemma valid_add_default s d t td c v :
  valid s d → schema_ok s = true → s !! t = Some td → has_column td (c_name c) = false →
  has_type (c_type c) v = true →
  valid (<[t := mkTdef (td_cols td ++ [column_def c]) (td_cons td)]> s)
        (<[t := (λ r, (c_name c, Some v) :: r) <$> rows_of d t]> d).
Proof.
  intros Hv Hok Ht Hnew Hty. set (f := λ r : row, (c_name c, Some v) :: r).
  assert (Hget : ∀ c' r, c' ≠ c_name c → get c' (f r) = get c' r).
  { intros c' r Hne. simpl. by rewrite (proj2 (String.eqb_neq _ _)) by done. }
  assert (Hcol : ∀ c', has_column td c' = true → c' ≠ c_name c) by (intros c' H ->; congruence).
  assert (Hkept : ∀ t2 td2 nc, s !! t2 = Some td2 → nc ∈ td_cons td2 → targets_kept d (<[t := f <$> rows_of d t]> d) nc.2).
  { intros t2 td2 nc H2 Hnc. pose proof (schema_ok_spec _ _ _ _ Hok H2 Hnc) as Hc. destruct nc.2 as [|x t' c' b| |]; simpl; try done.
    intros w. destruct (decide (t = t')) as [<-|]; [|by rewrite rows_of_insert_ne]. rewrite rows_of_insert.
    simpl in Hc. rewrite Ht in Hc. bool_props. rewrite omap_fmap_same; [done|]. intros. apply Hget, Hcol. tauto. }
  eapply (valid_change s d _ t td); [done..| | | | |].
  - intros t2 Hne. by rewrite rows_of_insert_ne.
  - intros t2. destruct (decide (t = t2)) as [<-|]; [by left|]. rewrite lookup_insert_ne by done. by right.
  - rewrite rows_of_insert. apply Forall_forall. intros r' (r&->&Hr)%list_elem_of_fmap.
    pose proof (valid_rows _ _ _ _ Hv Ht) as H. rewrite Forall_forall in H. specialize (H r Hr).
    apply (row_ok_extend td _ c f r); [done..|by intros; apply Hget| |].
    + constructor; [by right|]. eapply Forall_impl; [apply H|]. by left.
    + unfold cell_ok. simpl. by rewrite String.eqb_refl.
  - rewrite rows_of_insert. apply Forall_forall. intros nc Hnc. apply (holds_map d).
    + intros c' r Hc' _. apply Hget, Hcol. eapply constr_ok_cols; [|done]. by eapply schema_ok_spec.
    + by eapply Hkept.
    + by eapply valid_holds.
  - intros t2 td2 nc _ H2 Hnc. by eapply Hkept.
Qed.

Lemma add_column_spec t c td td' :
  add_column t c td = Some td' →
  has_column td (c_name c) = false ∧ td' = mkTdef (td_cols td ++ [column_def c]) (td_cons td ++ column_constrs t c).
Proof. unfold add_column. destruct (has_column _ _); [done|]. by intros [= <-]. Qed.

Lemma kept_cons d t (f : row → row) :
  (∀ r, r ∈ rows_of d t → row_ext r (f r)) → ∀ t2, kept d (<[t := f <$> rows_of d t]> d) t2.
Proof.
  intros Hf t2. unfold kept. destruct (decide (t = t2)) as [<-|]; [|rewrite rows_of_insert_ne by done; apply kept_refl].
  rewrite rows_of_insert. revert Hf. generalize (rows_of d t). induction l as [|r l IH]; intros Hf; constructor.
  - apply Hf. by left.
  - apply IH. intros. apply Hf. by right.
Qed.

Lemma plain_valid st s s' d :
  sstep_raw st s = Some s' → plain st = true → schema_ok (sc_tables s) = true → valid (sc_tables s) d →
  valid (sc_tables s') (dstep st d) ∧ ∀ t, kept d (dstep st d) t.
Proof.
  destruct st as [ine t cols ta|name t cols|t c|t name| | |]; simpl; intros Hs Hp Hok Hv; try done.
  - split; [|intros; apply kept_refl]. destruct (sc_tables s !! t) eqn:Et; [by destruct ine; simplify_eq|].
    apply bind_Some in Hs as (td&_&[= <-]). by apply valid_create.
  - split; [|intros; apply kept_refl]. destruct (sc_indexes s !! name); [by simplify_eq|].
    apply bind_Some in Hs as (td&_&Hs). destruct (forallb _ _); by simplify_eq.
  - apply bind_Some in Hs as (td&Ht&(td'&Ha&[= <-])%bind_Some). destruct (existsb _ _); [done|].
    apply add_column_spec in Ha as [Hnew ->]. destruct (const_default c) as [v|]; simpl.
    + apply andb_true_iff in Hp as [Hty Hcc%bool_decide_eq_true]. rewrite Hcc, app_nil_r.
      split; [by apply valid_add_default|]. apply kept_cons. intros r Hr c' w Hg. simpl.
      destruct (String.eqb_spec (c_name c) c') as [<-|]; [|done].
      pose proof (valid_rows _ _ _ _ Hv Ht) as H. rewrite Forall_forall in H.
      by rewrite (row_ok_absent td r _ (H r Hr) Hnew) in Hg.
    + apply negb_true_iff in Hp. split; [by apply valid_add_null|intros; apply kept_refl].
  - split; [|intros; apply kept_refl]. apply bind_Some in Hs as (td&Ht&[= <-]). simpl.
    eapply valid_redefine; [done..|exact (valid_rows _ _ _ _ Hv Ht)|]. apply Forall_forall.
    intros nc [_ Hnc]%list_elem_of_filter. exact (valid_holds _ _ _ _ _ Hv Ht Hnc).
Qed.

Lemma sstep_some st s s' : sstep st s = Some s' → sstep_raw st s = Some s' ∧ schema_ok (sc_tables s') = true.
Proof. unfold sstep. intros (s1&H&Hs)%bind_Some. destruct (schema_ok _) eqn:E; [|done]. by injection Hs as <-. Qed.

Lemma exec_some st x s' :
  sstep st (pg_schema x) = Some s' → valid (sc_tables s') (dstep st (pg_data x)) →
  exec st x = Some (mkPg s' (dstep st (pg_data x))).
Proof. intros H Hv. unfold exec. rewrite H. simpl. by rewrite decide_True. Qed.

(** A database with a well-formed schema and rows that satisfy it. *)
Definition sound (x : pgdb) : Prop := schema_ok (sc_tables (pg_schema x)) = true ∧ valid (sc_tables (pg_schema x)) (pg_data x).

Lemma srun_none sts : foldl (λ o st, o ≫= sstep st) None sts = None.
Proof. by induction sts. Qed.

Lemma srun_cons st sts s : srun (st :: sts) s = sstep st s ≫= srun sts.
Proof. unfold srun. simpl. destruct (sstep st s); [done|]. apply srun_none. Qed.

Lemma run_cons st sts x : run (st :: sts) x = exec st x ≫= run sts.
Proof. unfold run. simpl. destruct (exec st x); [done|]. simpl. by induction sts. Qed.

Lemma run_app sts1 sts2 x : run (sts1 ++ sts2) x = run sts1 x ≫= run sts2.
Proof.
  revert x. induction sts1 as [|st sts IH]; intros x; [done|]. simpl app. rewrite !run_cons.
  destruct (exec st x); simpl; [apply IH|done].
Qed.

(** Statements of plain form run on any sound database as they run on its schema
    alone, and keep what its rows say. *)
Lemma run_plain sts x s' :
  forallb plain sts = true → srun sts (pg_schema x) = Some s' → sound x →
  let d' := foldl (λ d st, dstep st d) (pg_data x) sts in
  run sts x = Some (mkPg s' d') ∧ sound (mkPg s' d') ∧ ∀ t, kept (pg_data x) d' t.
Proof.
  revert x. induction sts as [|st sts IH]; intros [s d] Hp Hs Hx.
  - injection Hs as <-. split; [done|]. split; [done|]. intros. apply kept_refl.
  - simpl in Hp. apply andb_true_iff in Hp as [Hst Hp]. rewrite srun_cons in Hs. apply bind_Some in Hs as (s1&H1&Hs).
    destruct (sstep_some _ _ _ H1) as [Hraw Hok]. destruct Hx as [Hok0 Hv0]. cbn [pg_schema pg_data foldl] in *.
    destruct (plain_valid st s s1 d Hraw Hst Hok0 Hv0) as [Hv1 Hk1].
    rewrite run_cons, (exec_some st (mkPg s d) s1 H1 Hv1). cbn [mbind option_bind pg_data].
    destruct (IH (mkPg s1 (dstep st d)) Hp Hs (conj Hok Hv1)) as (Hr&Hx'&Hk). split; [done|]. split; [done|].
    intros t. eapply kept_trans; [apply Hk1|apply Hk].
Qed.

(** ** Lemmas: the backfill *)

Lemma joined_some on' v l s : joined on' v l = Some s → s ∈ l ∧ get on' s = Some v.
Proof. unfold joined. intros [H1 H2%bool_decide_eq_true]%find_some. by rewrite list_elem_of_In. Qed.

Lemma joined_is_Some on' v l s : s ∈ l → get on' s = Some v → is_Some (joined on' v l).
Proof.
  unfold joined. intros Hs Hg. destruct (find _ l) eqn:E; [eauto|]. rewrite list_elem_of_In in Hs. apply (find_none _ _ E) in Hs. by rewrite bool_decide_eq_false in Hs.
Qed.

Lemma joined_fmap on' v l (f : row → row) : (∀ r, get on' (f r) = get on' r) → joined on' v (f <$> l) = f <$> joined on' v l.
Proof.
  intros Hf. unfold joined. induction l as [|r l IH]; [done|]. simpl. rewrite Hf. by destruct (bool_decide _).
Qed.

Definition refers_to (t : string) (k : constr) : bool :=
  match k with Ref _ t' _ _ => String.eqb t' t | _ => false end.

Definition unreferenced (s : gmap string tdef) (t : string) : bool :=
  forallb (λ e, forallb (λ nc, negb (refers_to t nc.2)) (td_cons e.2)) (map_to_list s).

Lemma unreferenced_kept s t td2 t2 d d' nc :
  unreferenced s t = true → s !! t2 = Some td2 → nc ∈ td_cons td2 →
  (∀ t', t' ≠ t → rows_of d' t' = rows_of d t') → targets_kept d d' nc.2.
Proof.
  unfold unreferenced. rewrite forallb_forall. intros H H2 Hnc Hsame.
  specialize (H (t2, td2)). rewrite <- list_elem_of_In, elem_of_map_to_list in H. specialize (H H2).
  rewrite forallb_forall in H. specialize (H nc). rewrite <- list_elem_of_In in H. specialize (H Hnc).
  destruct nc.2 as [|x t' c' b| |]; simpl in *; try done. bool_props. intros v. by rewrite Hsame.
Qed.

(** Rows of a table nothing refers to, replaced. *)
Lemma valid_replace s d t td td' l :
  valid s d → s !! t = Some td → unreferenced s t = true →
  Forall (row_ok td') l → Forall (λ nc, holds (<[t := l]> d) l nc.2) (td_cons td') →
  valid (<[t := td']> s) (<[t := l]> d).
Proof.
  intros Hv Ht Hu Hr Hc. eapply valid_change; [done..| | | | |].
  - intros t2 Hne. by rewrite rows_of_insert_ne.
  - intros t2. destruct (decide (t = t2)) as [<-|]; [by left|]. rewrite lookup_insert_ne by done. by right.
  - by rewrite rows_of_insert.
  - by rewrite rows_of_insert.
  - intros t2 td2 nc _ H2 Hnc. eapply unreferenced_kept; [done..|]. intros t' Hne. by rewrite rows_of_insert_ne.
Qed.

Lemma valid_delete_null s d t td c :
  valid s d → s !! t = Some td → unreferenced s t = true →
  valid s (<[t := filter (λ r, get c r ≠ None) (rows_of d t)]> d).
Proof.
  intros Hv Ht Hu. rewrite <- (insert_id s t td) by done. eapply valid_replace; [done..| |].
  - apply Forall_forall. intros r [_ Hr]%list_elem_of_filter. pose proof (valid_rows _ _ _ _ Hv Ht) as H.
    rewrite Forall_forall in H. by apply H.
  - apply Forall_forall. intros nc Hnc. apply (holds_filter d).
    + eapply unreferenced_kept; [done..|]. intros t' Hne. by rewrite rows_of_insert_ne.
    + by eapply valid_holds.
Qed.

Lemma valid_set_notnull s d t td c :
  valid s d → s !! t = Some td → (∀ r, r ∈ rows_of d t → get c r ≠ None) →
  valid (<[t := mkTdef (set_notnull c <$> td_cols td) (td_cons td)]> s) d.
Proof.
  intros Hv Ht Hc. eapply valid_redefine; [done..| |].
  - apply Forall_forall. intros r Hr. pose proof (valid_rows _ _ _ _ Hv Ht) as H. rewrite Forall_forall in H.
    destruct (H r Hr) as [Hn Hcell]. split.
    + eapply Forall_impl; [done|]. intros cv (cd&Hin&<-)%has_column_spec. apply has_column_spec.
      exists (set_notnull c cd). split; [by apply list_elem_of_fmap_2|]. unfold set_notnull. by destruct (String.eqb _ _).
    + simpl. apply Forall_fmap. eapply Forall_impl; [done|]. intros cd Hcd. unfold cell_ok, set_notnull in *. simpl.
      destruct (String.eqb_spec (cd_name cd) c) as [<-|]; [|done]. simpl. specialize (Hc r Hr).
      by destruct (get (cd_name cd) r).
  - apply Forall_forall. simpl. intros nc Hnc. exact (valid_holds _ _ _ _ _ Hv Ht Hnc).
Qed.

(** Filling a column from another table's is fine: it is nullable, of the same
    type, and constrained, if at all, to refer to the column it is filled from. *)
Definition fillable (td td' : tdef) (c t' c' : string) : bool :=
  has_column td c && has_column td' c' &&
  forallb (λ cd, negb (String.eqb (cd_name cd) c) ||
                 negb (cd_notnull cd) &&
                 forallb (λ cd', negb (String.eqb (cd_name cd') c') || bool_decide (cd_type cd = cd_type cd')) (td_cols td'))
          (td_cols td) &&
  forallb (λ nc, match nc.2 with
                 | Ref x t1 c1 _ => negb (String.eqb x c) || String.eqb t1 t' && String.eqb c1 c'
                 | k => negb (existsb (String.eqb c) (constr_cols k))
                 end) (td_cons td).

Lemma fillable_cell td td' c t' c' cd r :
  fillable td td' c t' c' = true → cd ∈ td_cols td → cd_name cd = c → row_ok td' r →
  match get c' r with Some v => has_type (cd_type cd) v = true | None => cd_notnull cd = false end.
Proof.
  unfold fillable. rewrite !andb_true_iff. intros [[[_ (cd'&Hcd'&Hname')%has_column_spec] Hcols] _] Hcd Hname [_ Hcell].
  rewrite forallb_forall in Hcols. specialize (Hcols cd). rewrite <- list_elem_of_In in Hcols. specialize (Hcols Hcd).
  rewrite Hname, String.eqb_refl in Hcols. simpl in Hcols. apply andb_true_iff in Hcols as [Hnn Hty].
  apply negb_true_iff in Hnn. destruct (get c' r) as [v|] eqn:E; [|done].
  rewrite forallb_forall in Hty. specialize (Hty cd'). rewrite <- list_elem_of_In in Hty. specialize (Hty Hcd').
  rewrite Hname', String.eqb_refl in Hty. simpl in Hty. apply bool_decide_eq_true in Hty. rewrite Hty.
  rewrite Forall_forall in Hcell. specialize (Hcell cd' Hcd'). unfold cell_ok in Hcell. by rewrite Hname', E in Hcell.
Qed.

Lemma fillable_constr td td' c t' c' k :
  fillable td td' c t' c' = true → k ∈ td_cons td → c ∈ constr_cols k.2 → ∃ b, k.2 = Ref c t' c' b.
Proof.
  unfold fillable. rewrite !andb_true_iff. intros [_ Hk] Hin Hc. rewrite forallb_forall in Hk. specialize (Hk k).
  rewrite <- list_elem_of_In in Hk. specialize (Hk Hin).
  assert (Hex : ∀ cols, c ∈ cols → existsb (String.eqb c) cols = true).
  { intros cols H. apply existsb_exists. exists c. by rewrite <- list_elem_of_In, String.eqb_refl. }
  destruct k.2 as [cols|x t1 c1 b|x vs|x]; simpl constr_cols in *.
  - by rewrite Hex in Hk.
  - apply list_elem_of_singleton in Hc as <-. rewrite String.eqb_refl in Hk. simpl in Hk. bool_props.
    destruct Hk as [-> ->]. by exists b.
  - by rewrite Hex in Hk.
  - by rewrite Hex in Hk.
Qed.

Lemma set_from_cases c c' on on' l r :
  set_from c c' on on' l r = r ∨ ∃ s, s ∈ l ∧ set_from c c' on on' l r = (c, get c' s) :: r.
Proof.
  unfold set_from. destruct (get on r) as [v|]; simpl; [|by left].
  destruct (joined on' v l) as [s|] eqn:E; [right|by left]. exists s. by apply joined_some in E as [? _].
Qed.

Lemma set_from_other c c' on on' l r x : x ≠ c → get x (set_from c c' on on' l r) = get x r.
Proof.
  intros Hx. destruct (set_from_cases c c' on on' l r) as [->|(s&_&->)]; [done|]. simpl.
  by rewrite (proj2 (String.eqb_neq _ _)) by done.
Qed.

Lemma valid_set_from s d t td c t' td' c' on on' :
  valid s d → s !! t = Some td → s !! t' = Some td' → t ≠ t' → unreferenced s t = true →
  fillable td td' c t' c' = true →
  valid s (<[t := set_from c c' on on' (rows_of d t') <$> rows_of d t]> d).
Proof.
  intros Hv Ht Ht' Hne Hu Hf. rewrite <- (insert_id s t td) by done.
  pose proof (valid_rows _ _ _ _ Hv Ht) as Hr. pose proof (valid_rows _ _ _ _ Hv Ht') as Hr'. rewrite Forall_forall in Hr, Hr'.
  set (l' := rows_of d t') in *. eapply valid_replace; [done..| |].
  - apply Forall_forall. intros r' (r&->&Hin)%list_elem_of_fmap. specialize (Hr r Hin).
    destruct (set_from_cases c c' on on' l' r) as [->|(x&Hx&->)]; [done|]. destruct Hr as [Hn Hcell]. split.
    + constructor; [|done]. simpl. unfold fillable in Hf. rewrite !andb_true_iff in Hf. tauto.
    + rewrite Forall_forall in Hcell |- *. intros cd Hcd. unfold cell_ok. simpl.
      destruct (String.eqb_spec c (cd_name cd)) as [Heq|]; [|by apply Hcell].
      apply (fillable_cell td td' c t' c' cd x); [done..|by apply Hr'].
  - apply Forall_forall. intros nc Hnc. pose proof (valid_holds _ _ _ _ _ Hv Ht Hnc) as Hold.
    destruct (decide (c ∈ constr_cols nc.2)) as [Hc|Hc].
    + destruct (fillable_constr _ _ _ _ _ _ Hf Hnc Hc) as [b Hb]. rewrite Hb in *. simpl in *.
      rewrite rows_of_insert_ne by done. intros v (r'&(r&->&Hin)%list_elem_of_fmap&Hg)%list_elem_of_omap.
      destruct (set_from_cases c c' on on' l' r) as [E|(x&Hx&E)]; rewrite E in Hg.
      * apply Hold, list_elem_of_omap. eauto.
      * simpl in Hg. rewrite String.eqb_refl in Hg. apply list_elem_of_omap. eauto.
    + apply (holds_map d); [|apply (unreferenced_kept s t td t); try done; intros; by rewrite rows_of_insert_ne|done].
      intros x r Hx _. apply set_from_other. by intros ->.
Qed.

(** ** Lemmas: the history *)

Lemma srun_app a b s : srun (a ++ b) s = srun a s ≫= srun b.
Proof.
  revert s. induction a as [|st a IH]; intros s; [done|]. simpl app. rewrite !srun_cons.
  destruct (sstep st s); simpl; [apply IH|done].
Qed.

(** Closed facts about schemas, by running the decision. *)
Ltac decided := match goal with |- ?P => refine (bool_decide_unpack P _); vm_compute; exact I end.

(** Every version but the third is plain; each takes its predecessor's schema to
    its own, and the first finds nothing to do on a database that has it. *)
Lemma versions_plain n : n ≠ 3%nat → forallb plain (version_sql n) = true.
Proof. intros Hn. do 7 (destruct n as [|n]; [by vm_compute|]). done. Qed.

Lemma versions_schema n : (1 <= n <= 6)%nat → srun (version_sql n) (schema_at (n - 1)) = Some (schema_at n).
Proof. intros Hn. destruct n as [|n]; [lia|]. do 6 (destruct n as [|n]; [decided|]). lia. Qed.

Lemma first_adopted : srun schemaV1 (schema_at 1) = Some (schema_at 1).
Proof. decided. Qed.

(** The schema between the parts of version 3. *)
Definition widened : schema := default empty_schema (srun schemaV3_columns (schema_at 2)).

Lemma widened_schema : srun schemaV3_columns (schema_at 2) = Some widened.
Proof. decided. Qed.

Lemma widened_steps :
  schema_ok (sc_tables widened) = true ∧ unreferenced (sc_tables widened) "webhook_delivery" = true ∧
  is_Some (sc_tables widened !! "webhook_delivery") ∧ is_Some (sc_tables widened !! "update_subscription") ∧
  (∀ td td', sc_tables widened !! "webhook_delivery" = Some td → sc_tables widened !! "update_subscription" = Some td' →
     fillable td td' "subscription_id" "update_subscription" "id" = true) ∧
  (∀ st, st ∈ [SetFrom "webhook_delivery" "subscription_id" "update_subscription" "id" "session_id" "session_id";
               DeleteNull "webhook_delivery" "subscription_id"] → sstep st widened = Some widened).
Proof.
  split; [by vm_compute|]. split; [by vm_compute|]. split; [by eexists; vm_compute|]. split; [by eexists; vm_compute|].
  split.
  - intros td td' H H'. vm_compute in H, H'. injection H as <-. injection H' as <-. by vm_compute.
  - intros st Hst. repeat (apply elem_of_cons in Hst as [->|Hst]; [decided|]). by apply not_elem_of_nil in Hst.
Qed.

(** A queued delivery with its session's subscription. *)
Definition addressed (subs : list row) (r : row) : option row :=
  s ← get "session_id" r ≫= λ v, joined "session_id" v subs; Some (("subscription_id", get "id" s) :: r).

(** The backfill alone, on a database of the widened schema whose deliveries
    have no subscription yet. *)
Definition backfilled (d : data) : data :=
  <["webhook_delivery" := omap (addressed (rows_of d "update_subscription")) (rows_of d "webhook_delivery")]> d.

Lemma filter_addressed (subs l : list row) :
  (∀ r, r ∈ l → get "subscription_id" r = None) → (∀ s, s ∈ subs → get "id" s ≠ None) →
  filter (λ r, get "subscription_id" r ≠ None)
         (set_from "subscription_id" "id" "session_id" "session_id" subs <$> l) = omap (addressed subs) l.
Proof.
  intros Hl Hs. induction l as [|r l IH]; [done|]. csimpl.
  assert (IH' := IH (λ r Hr, Hl r (list_elem_of_further _ _ _ Hr))). clear IH.
  unfold addressed at 1, set_from at 1. destruct (get "session_id" r) as [v|] eqn:Ev; cbn [mbind option_bind].
  - destruct (joined "session_id" v subs) as [s|] eqn:Ej; cbn [mbind option_bind].
    + rewrite filter_cons_True by (simpl; apply Hs; by apply joined_some in Ej as [? _]). by f_equal.
    + rewrite filter_cons_False by (rewrite Hl by left; auto). done.
  - rewrite filter_cons_False by (rewrite Hl by left; auto). done.
Qed.

Lemma sstep_set_notnull s s' t c d :
  sstep (SetNotNull t c) s = Some s' → valid (sc_tables s) d → (∀ r, r ∈ rows_of d t → get c r ≠ None) →
  valid (sc_tables s') d.
Proof.
  intros [H _]%sstep_some Hv Hc. simpl in H. apply bind_Some in H as (td&Ht&(td'&Ha&[= <-])%bind_Some).
  destruct (has_column _ _); [|done]. injection Ha as <-. by eapply valid_set_notnull.
Qed.

Lemma id_notnull s d t td r :
  valid s d → s !! t = Some td → existsb (λ cd, String.eqb (cd_name cd) "id" && cd_notnull cd) (td_cols td) = true →
  r ∈ rows_of d t → get "id" r ≠ None.
Proof.
  intros Hv Ht (cd&Hcd&Hb)%existsb_exists Hr. apply andb_true_iff in Hb as [Hn%String.eqb_eq Hnn].
  pose proof (valid_rows _ _ _ _ Hv Ht) as H. rewrite Forall_forall in H. destruct (H r Hr) as [_ Hcell].
  rewrite Forall_forall in Hcell. specialize (Hcell cd). rewrite list_elem_of_In in Hcell. specialize (Hcell Hcd).
  unfold cell_ok in Hcell. rewrite Hn in Hcell. destruct (get "id" r); [done|congruence].
Qed.

Definition filled : schema := default empty_schema (srun schemaV3_backfill widened).

Lemma widened_ids td :
  sc_tables widened !! "update_subscription" = Some td →
  existsb (λ cd, String.eqb (cd_name cd) "id" && cd_notnull cd) (td_cols td) = true.
Proof. intros H. vm_compute in H. injection H as <-. by vm_compute. Qed.

Lemma filled_schema : sstep (SetNotNull "webhook_delivery" "subscription_id") widened = Some filled.
Proof. decided. Qed.

Lemma run_backfill d :
  valid (sc_tables widened) d → (∀ r, r ∈ rows_of d "webhook_delivery" → get "subscription_id" r = None) →
  run schemaV3_backfill (mkPg widened d) = Some (mkPg filled (backfilled d)) ∧ valid (sc_tables filled) (backfilled d).
Proof.
  intros Hv Hnone. destruct widened_steps as (_&Hu&[td Ht]&[td' Ht']&Hf&Hss). specialize (Hf td td' Ht Ht').
  unfold schemaV3_backfill. set (st1 := SetFrom _ _ _ _ _ _) in *. set (st2 := DeleteNull _ _) in *.
  assert (Hv1 : valid (sc_tables widened) (dstep st1 d)).
  { by apply (valid_set_from _ d "webhook_delivery" td "subscription_id" "update_subscription" td' "id"). }
  assert (Hv2 : valid (sc_tables widened) (dstep st2 (dstep st1 d))).
  { by apply (valid_delete_null _ (dstep st1 d) "webhook_delivery" td). }
  assert (Hd : dstep st2 (dstep st1 d) = backfilled d).
  { unfold st1, st2, dstep, backfilled. rewrite rows_of_insert, insert_insert_eq. f_equal.
    apply filter_addressed; [done|]. intros s Hs. by eapply (id_notnull _ d _ td'); [..|apply widened_ids|]. }
  rewrite Hd in Hv2.
  assert (Hv3 : valid (sc_tables filled) (backfilled d)).
  { eapply sstep_set_notnull; [apply filled_schema|done|]. intros r. unfold backfilled. rewrite rows_of_insert.
    intros (r0&_&Hr)%list_elem_of_omap. unfold addressed in Hr. apply bind_Some in Hr as (s&Hs&[= <-]).
    apply bind_Some in Hs as (v&_&[Hs _]%joined_some). simpl.
    by eapply (id_notnull _ d _ td'); [..|apply widened_ids|]. }
  split; [|done].
  assert (Hr1 : exec st1 (mkPg widened d) = Some (mkPg widened (dstep st1 d))) by (apply exec_some; [apply Hss; left|done]).
  assert (Hr2 : exec st2 (mkPg widened (dstep st1 d)) = Some (mkPg widened (backfilled d))).
  { rewrite <- Hd. apply exec_some; [apply Hss; by right; left|]. change (valid (sc_tables widened) (dstep st2 (dstep st1 d))). by rewrite Hd. }
  rewrite run_cons, Hr1. cbn [mbind option_bind]. rewrite run_cons, Hr2. cbn [mbind option_bind].
  rewrite run_cons, (exec_some _ (mkPg widened (backfilled d)) filled); [done|apply filled_schema|done].
Qed.

(** A subscription's new counter changes nothing about which one it is. *)
Lemma omap_addressed (subs l : list row) :
  omap (addressed ((λ r, ("dropped", Some (VI 0)) :: r) <$> subs)) l = omap (addressed subs) l.
Proof.
  induction l as [|r l IH]; [done|]. csimpl. rewrite IH.
  replace (addressed (_ <$> subs) r) with (addressed subs r); [done|]. unfold addressed.
  destruct (get "session_id" r) as [v|]; [|done]. cbn [mbind option_bind]. rewrite joined_fmap by done.
  by destruct (joined "session_id" v subs).
Qed.

(** Version 3 on a database at version 2. *)
Lemma run_v3 x :
  sound x → pg_schema x = schema_at 2 →
  ∃ d', version_exec 3 x = Some (mkPg (schema_at 3) d') ∧ sound (mkPg (schema_at 3) d') ∧
    (∀ t, t ≠ "webhook_delivery" → kept (pg_data x) d' t) ∧
    rows_of d' "webhook_delivery" = omap (addressed (rows_of (pg_data x) "update_subscription")) (rows_of (pg_data x) "webhook_delivery").
Proof.
  intros Hx Hs. destruct x as [s d]. simpl in Hs. subst s. cbn [pg_data] in *.
  destruct (run_plain schemaV3_columns (mkPg (schema_at 2) d) widened) as (Hr1&[Hok1 Hv1]&Hk1);
    [by vm_compute|exact widened_schema|done|]. cbn [pg_data] in *.
  set (d1 := foldl (λ d st, dstep st d) d schemaV3_columns) in *. cbn [pg_schema pg_data] in *.
  assert (Hd1 : d1 = <["update_subscription" := (λ r, ("dropped", Some (VI 0)) :: r) <$> rows_of d "update_subscription"]> d) by done.
  assert (Hnone : ∀ r, r ∈ rows_of d1 "webhook_delivery" → get "subscription_id" r = None).
  { rewrite Hd1, rows_of_insert_ne by done. intros r Hr.
    assert (Htd : ∃ td, sc_tables (schema_at 2) !! "webhook_delivery" = Some td ∧ has_column td "subscription_id" = false)
      by (eexists; split; vm_compute; reflexivity).
    destruct Htd as (td&Htd&Hc). pose proof (valid_rows _ _ _ _ (proj2 Hx) Htd) as H. rewrite Forall_forall in H.
    exact (row_ok_absent td r _ (H r Hr) Hc). }
  destruct (run_backfill d1 Hv1 Hnone) as [Hr2 Hv2].
  assert (Hok2 : schema_ok (sc_tables filled) = true) by (by vm_compute).
  destruct (run_plain [CreateIndex "webhook_delivery_sub_idx" "webhook_delivery" ["subscription_id"; "status"]]
              (mkPg filled (backfilled d1)) (schema_at 3)) as (Hr3&Hx3&_);
    [done|vm_compute; reflexivity|exact (conj Hok2 Hv2)|].
  exists (backfilled d1). split; [|split; [exact Hx3|split]].
  - unfold version_exec, version_sql, schemaV3. rewrite run_app, Hr1. cbn [mbind option_bind]. rewrite run_app, Hr2. exact Hr3.
  - intros t Ht. unfold backfilled, kept. rewrite rows_of_insert_ne by done. apply Hk1.
  - unfold backfilled. rewrite rows_of_insert, Hd1, rows_of_insert, rows_of_insert_ne by done.
    apply omap_addressed.
Qed.

(** One version, on the schema its predecessor left. *)
Lemma run_version n x :
  (1 <= n <= 6)%nat → sound x → pg_schema x = schema_at (n - 1) →
  ∃ d', version_exec n x = Some (mkPg (schema_at n) d') ∧ sound (mkPg (schema_at n) d') ∧
    (∀ t, t ≠ "webhook_delivery" → kept (pg_data x) d' t) ∧
    ((n < 3)%nat → d' = pg_data x) ∧ ((3 < n)%nat → kept (pg_data x) d' "webhook_delivery") ∧
    (n = 3%nat → rows_of d' "webhook_delivery" =
       omap (addressed (rows_of (pg_data x) "update_subscription")) (rows_of (pg_data x) "webhook_delivery")).
Proof.
  intros Hn Hx Hs. destruct (decide (n = 3%nat)) as [->|Hne].
  - destruct (run_v3 x Hx Hs) as (d'&Hr&Hx'&Hk&Hw). exists d'. split; [exact Hr|]. split; [exact Hx'|].
    split; [exact Hk|]. split; [intros; lia|]. split; [intros; lia|]. by intros _.
  - destruct (run_plain (version_sql n) x (schema_at n)) as (Hr&Hx'&Hk);
      [by apply versions_plain|rewrite Hs; by apply versions_schema|done|].
    eexists. split; [exact Hr|]. split; [exact Hx'|]. split; [by intros; apply Hk|]. split; [|split; [by intros; apply Hk|done]].
    intros H3. destruct n as [|[|[|n]]]; [lia|reflexivity|reflexivity|lia].
Qed.

(** A database as some deployment has it: the versions up to [k] recorded and
    their schema in place, or, from before there were versions, none recorded
    and the tables of the first in place. *)
Definition deployed (k : nat) (x : pgdb) : Prop :=
  sound x ∧ (pg_schema x = schema_at k ∨ k = 0%nat ∧ pg_schema x = schema_at 1).

(** What becomes of the queued deliveries: before version 3 they get their
    session's subscription, and those without one go. *)
Definition deliveries_after (k : nat) (d : data) : list row :=
  let l := rows_of d "webhook_delivery" in
  if (k <? 3)%nat then omap (addressed (rows_of d "update_subscription")) l else l.

Lemma upgrade_sound k x :
  (k <= 6)%nat → sound x → pg_schema x = schema_at k →
  ∃ d', upgrade version_exec k x = Some (mkPg (schema_at 6) d') ∧ sound (mkPg (schema_at 6) d') ∧
    (∀ t, t ≠ "webhook_delivery" → kept (pg_data x) d' t) ∧
    Forall2 row_ext (deliveries_after k (pg_data x)) (rows_of d' "webhook_delivery").
Proof.
  remember (6 - k)%nat as m eqn:Hm. revert k x Hm. induction m as [|m IH]; intros k x Hm Hk Hx Hs.
  - assert (k = 6%nat) as -> by lia. destruct x as [s d]. simpl in Hs. subst s. exists d. split; [reflexivity|].
    split; [exact Hx|]. split; [intros; apply kept_refl|apply kept_refl].
  - assert (Hs' : pg_schema x = schema_at (k + 1 - 1)) by (by rewrite Nat.add_sub).
    destruct (run_version (k + 1) x ltac:(lia) Hx Hs') as (d1&Hr&Hx1&Hk1&Hlo&Hhi&H3).
    destruct (IH (k + 1)%nat (mkPg (schema_at (k + 1)) d1) ltac:(lia) ltac:(lia) Hx1 eq_refl) as (d'&Hr'&Hx'&Hk'&Hd').
    exists d'. rewrite upgrade_step by lia. rewrite Hr. split; [exact Hr'|]. split; [exact Hx'|]. cbn [pg_data] in *.
    split; [intros t Ht; eapply kept_trans; [by apply Hk1|by apply Hk']|].
    unfold deliveries_after in *. destruct (Nat.ltb_spec k 3) as [Hlt|Hge].
    + destruct (Nat.ltb_spec (k + 1) 3); [by rewrite Hlo in Hd' by lia|].
      rewrite H3 in Hd' by lia. exact Hd'.
    + destruct (Nat.ltb_spec (k + 1) 3); [lia|].
      apply (kept_trans (pg_data x) d1 d' "webhook_delivery"); [apply Hhi; lia|exact Hd'].
Qed.

(** Tables from before there were versions are adopted as they are. *)
Lemma legacy_adopted x : sound x → pg_schema x = schema_at 1 → version_exec 1 x = Some x.
Proof.
  intros Hx Hs. destruct x as [s d]. simpl in Hs. subst s.
  destruct (run_plain schemaV1 (mkPg (schema_at 1) d) (schema_at 1)) as (Hr&_&_); [reflexivity|exact first_adopted|exact Hx|exact Hr].
Qed.

Lemma omap_key_inj {A B} (g : A → option B) (l : list A) r1 r2 v :
  NoDup (omap g l) → r1 ∈ l → r2 ∈ l → g r1 = Some v → g r2 = Some v → r1 = r2.
Proof.
  induction l as [|r l IH]; [by intros _ ?%not_elem_of_nil|]. intros Hnd H1 H2 E1 E2. csimpl in Hnd.
  assert (Hin : ∀ r', r' ∈ l → g r' = Some v → g r = Some v → False).
  { intros r' Hr' E' E. rewrite E in Hnd. apply NoDup_cons in Hnd as [Hn _]. apply Hn, list_elem_of_omap. eauto. }
  apply elem_of_cons in H1 as [->|H1], H2 as [->|H2]; try done; [by destruct (Hin r2)|by destruct (Hin r1)|].
  destruct (g r); [apply NoDup_cons in Hnd as [_ Hnd]|]; by apply IH.
Qed.

Definition single_kind (td : tdef) : bool :=
  existsb (λ nc, bool_decide (nc.2 = Key ["session_id"; "kind"])) (td_cons td) &&
  existsb (λ nc, bool_decide (nc.2 = OneOf "kind" ["webhook"])) (td_cons td) &&
  existsb (λ cd, String.eqb (cd_name cd) "kind" && cd_notnull cd) (td_cols td).

Lemma single_kind_key s d t td r :
  valid s d → s !! t = Some td → single_kind td = true → r ∈ rows_of d t → get "kind" r = Some (VS "webhook").
Proof.
  intros Hv Ht Hs Hr. unfold single_kind in Hs. rewrite !andb_true_iff, !existsb_exists in Hs.
  destruct Hs as [[_ (nc&Hnc&Hin%bool_decide_eq_true)] (cd&Hcd&Hb)]. apply andb_true_iff in Hb as [Hn%String.eqb_eq Hnn].
  apply list_elem_of_In in Hnc, Hcd. pose proof (valid_holds _ _ _ _ _ Hv Ht Hnc) as Hh. rewrite Hin in Hh. simpl in Hh.
  pose proof (valid_rows _ _ _ _ Hv Ht) as H. rewrite Forall_forall in H. destruct (H r Hr) as [_ Hcell].
  rewrite Forall_forall in Hcell. specialize (Hcell cd Hcd). unfold cell_ok in Hcell. rewrite Hn in Hcell.
  destruct (get "kind" r) as [v|] eqn:E; [|congruence].
  specialize (Hh v (proj2 (list_elem_of_omap _ _ _) (ex_intro _ r (conj Hr E)))). by apply list_elem_of_singleton in Hh as ->.
Qed.

Lemma single_kind_unique s d t td s1 s2 v :
  valid s d → s !! t = Some td → single_kind td = true → s1 ∈ rows_of d t → s2 ∈ rows_of d t →
  get "session_id" s1 = Some v → get "session_id" s2 = Some v → s1 = s2.
Proof.
  intros Hv Ht Hs H1 H2 E1 E2. pose proof (single_kind_key _ _ _ _ _ Hv Ht Hs H1) as K1.
  pose proof (single_kind_key _ _ _ _ _ Hv Ht Hs H2) as K2.
  unfold single_kind in Hs. rewrite !andb_true_iff, !existsb_exists in Hs.
  destruct Hs as [[(nc&Hnc&Hin%bool_decide_eq_true) _] _]. rewrite <- list_elem_of_In in Hnc.
  pose proof (valid_holds _ _ _ _ _ Hv Ht Hnc) as Hh. rewrite Hin in Hh. simpl in Hh.
  apply (omap_key_inj _ _ s1 s2 [v; VS "webhook"] Hh H1 H2); unfold key_of; simpl; [by rewrite E1, K1|by rewrite E2, K2].
Qed.

Lemma early_single_kind k : k = 1%nat ∨ k = 2%nat →
  ∃ td, sc_tables (schema_at k) !! "update_subscription" = Some td ∧ single_kind td = true.
Proof. intros [->| ->]; (eexists; split; vm_compute; reflexivity). Qed.

(** Before version 3 a session has at most one subscription, so a queued
    delivery gets that one. *)
Lemma addressed_exact k x r s v :
  (k < 3)%nat → deployed k x → s ∈ rows_of (pg_data x) "update_subscription" →
  get "session_id" r = Some v → get "session_id" s = Some v →
  addressed (rows_of (pg_data x) "update_subscription") r = Some (("subscription_id", get "id" s) :: r).
Proof.
  intros Hk [[_ Hv] Hs] Hin Er Es. unfold addressed. rewrite Er. cbn [mbind option_bind].
  destruct (joined_is_Some "session_id" v _ s Hin Es) as [s' Hj]. rewrite Hj. cbn [mbind option_bind].
  apply joined_some in Hj as [Hin' Es'].
  assert (Hsch : pg_schema x = schema_at 0 ∨ ∃ j, (j = 1%nat ∨ j = 2%nat) ∧ pg_schema x = schema_at j).
  { destruct Hs as [Hs|[_ Hs]]; [|by right; exists 1%nat; auto].
    destruct k as [|[|[|k]]]; [by left|right; exists 1%nat; auto|right; exists 2%nat; auto|lia]. }
  destruct Hsch as [H0|(j&Hj&H0)].
  - rewrite H0 in Hv. rewrite (valid_no_rows _ _ _ Hv) in Hin by (vm_compute; reflexivity). by apply not_elem_of_nil in Hin.
  - rewrite H0 in Hv. destruct (early_single_kind j Hj) as (td&Htd&Hsk).
    by rewrite (single_kind_unique _ _ _ td s' s v Hv Htd Hsk Hin' Hin Es' Es).
Qed.

Lemma deployed_sound k x :
  (k <= 6)%nat → deployed k x →
  ∃ d', upgrade version_exec k x = Some (mkPg (schema_at 6) d') ∧ sound (mkPg (schema_at 6) d') ∧
    (∀ t, t ≠ "webhook_delivery" → kept (pg_data x) d' t) ∧
    Forall2 row_ext (deliveries_after k (pg_data x)) (rows_of d' "webhook_delivery").
Proof.
  intros Hk [Hx [Hs|[-> Hs]]]; [by apply upgrade_sound|].
  rewrite upgrade_step by lia. rewrite legacy_adopted by done. exact (upgrade_sound 1 x ltac:(lia) Hx Hs).
Qed.

(** C9: Whatever version a deployment is at, or from before there were versions,
    and whatever its tables hold, a start that reaches the database upgrades it:
    no migration fails, the schema is that of version 6 and the rows satisfy it.
    Every row of every table is kept with all it said. The one exception is the
    queue of deliveries, which before version 3 had no subscription: each queued
    delivery gets the one subscription its session has, and those of sessions
    without one go. *)
Theorem deployed_upgrades k x m :
  (k <= 6)%nat → deployed k x → at_version k x m →
  ∃ d', let x' := mkPg (schema_at 6) d' in
    New version_exec (λ _, true) m = (true, mkSchemaDb (Some (seq 1 6)) x') ∧ sound x' ∧
    (∀ t, t ≠ "webhook_delivery" → kept (pg_data x) d' t) ∧
    Forall2 row_ext (deliveries_after k (pg_data x)) (rows_of d' "webhook_delivery") ∧
    ((k < 3)%nat → ∀ r s v, s ∈ rows_of (pg_data x) "update_subscription" →
       get "session_id" r = Some v → get "session_id" s = Some v →
       addressed (rows_of (pg_data x) "update_subscription") r = Some (("subscription_id", get "id" s) :: r)).
Proof.
  intros Hk Hdep Hm. pose proof (λ r s v Hlt, addressed_exact k x r s v Hlt Hdep) as Hexact.
  destruct (deployed_sound k x Hk Hdep) as (d'&Hup&Hx'&Hk'&Hd').
  exists d'. split; [by apply (New_runs version_exec k x)|]. repeat (split; [done|]).
  intros Hlt r s v. by apply Hexact.
Qed.

(** A deployment from before there were versions: two accounts, one subscribed,
    an update queued for each. *)
Definition ex_legacy : pgdb := mkPg (schema_at 1) (list_to_map [
  ("tg_app", [[("id", Some (VS "a")); ("api_id", Some (VI 17)); ("api_hash_enc", Some (VS "h")); ("created_at", Some (VI 1))]]);
  ("session", (λ k, [("id", Some (VS k)); ("kind", Some (VS "bot")); ("app_id", Some (VS "a")); ("status", Some (VS "authorized"));
                     ("created_at", Some (VI 2)); ("updated_at", Some (VI 2))]) <$> ["s"; "t"]);
  ("update_subscription", [[("id", Some (VS "u")); ("session_id", Some (VS "s")); ("kind", Some (VS "webhook"));
                            ("url", Some (VS "https://x")); ("created_at", Some (VI 3))]]);
  ("webhook_delivery", (λ kv : string * string, [("id", Some (VS kv.1)); ("session_id", Some (VS kv.2)); ("payload", Some (VS "{}"));
                     ("status", Some (VS "pending")); ("attempts", Some (VI 0)); ("next_try_at", Some (VI 4)); ("created_at", Some (VI 4))])
     <$> [("d1", "s"); ("d2", "t")])]).

Lemma ex_legacy_deployed : deployed 0 ex_legacy.
Proof. split; [split; [by vm_compute|decided]|by right]. Qed.

Lemma deployed_upgrades_witness :
  let m := mkSchemaDb None ex_legacy in
  deployed 0 ex_legacy ∧ get "subscription_id" <$> deliveries_after 0 (pg_data ex_legacy) = [Some (VS "u")] ∧
  ∃ d', New version_exec (λ _, true) m = (true, mkSchemaDb (Some (seq 1 6)) (mkPg (schema_at 6) d')).
Proof.
  intros m. split; [exact ex_legacy_deployed|]. split; [vm_compute; reflexivity|].
  assert (Hm : at_version 0 ex_legacy m) by done.
  destruct (deployed_upgrades 0 ex_legacy m ltac:(lia) ex_legacy_deployed Hm) as (d'&Hn&_). exists d'. exact Hn.
Defined.
