(* ===== verification/SchemaDb.v ===== *)
(** The registry as rows of the schema the migrations end in: [Db.db]'s tables
    written out by column name. What [db_ok] and [db_typed] promise is what the
    SQL's keys, references, checks and NOT NULLs demand, no less and no more. *)

From S2P Require Import Prelude GoStr Json Types Db Registry Counters Integrity Migrations Schema.


(** ** Rows of each table *)

Section encode.
Context (jtext : json → string).   (* the text of a jsonb value *)

Definition str (c s : string) : string * option val := (c, Some (VS s)).
Definition ostr (c : string) (s : option string) : string * option val := (c, VS <$> s).
Definition num (c : string) (z : Z) : string * option val := (c, Some (VI z)).
Definition onum (c : string) (z : option Z) : string * option val := (c, VI <$> z).
Definition bit (c : string) (b : bool) : string * option val := (c, Some (VB b)).
Definition ojson (c : string) (r : raw) : string * option val := (c, VS ∘ jtext <$> r).

Definition enc_app (x : string * app_row) : row := let (k, a) := x in
  [str "id" k; num "api_id" (a_api_id a); str "api_hash_enc" (a_hash_enc a); ostr "label" (a_label a);
   num "created_at" (a_created a)].

Definition enc_proxy (x : string * proxy_row) : row := let (k, p) := x in
  [str "id" k; str "type" (p_type p); str "host" (p_host p); num "port" (p_port p); ostr "username" (p_username p);
   ostr "secret_enc" (p_secret_enc p); ostr "label" (p_label p); num "created_at" (p_created p)].

(** No statement writes [last_seen_at]: it is NULL. *)
Definition enc_session (x : string * session_row) : row := let (k, s) := x in
  [str "id" k; str "kind" (s_kind s); str "app_id" (s_app s); ostr "proxy_id" (s_proxy s); ostr "phone" (s_phone s);
   ostr "bot_token_enc" (s_bot_token_enc s); ostr "label" (s_label s); str "status" (s_status s);
   ostr "db_dir" (s_db_dir s); ostr "db_key_enc" (s_db_key_enc s); ostr "worker_id" (s_worker s);
   num "created_at" (s_created s); num "updated_at" (s_updated s);
   ("is_premium", VB <$> s_premium s); onum "frozen_at" (s_frozen_at s);
   onum "freeze_deletion_at" (s_deletion_at s); ostr "freeze_appeal_link" (s_appeal s)].

Definition enc_worker (x : string * worker_row) : row := let (k, w) := x in
  [str "id" k; str "addr" (w_addr w); num "last_seen_at" (w_seen w)].

Definition enc_token (x : string * token_row) : row := let (k, t) := x in
  [str "id" k; ostr "name" (t_name t); str "secret_hash" (t_hash t); bit "enabled" (t_enabled t);
   bit "all_sessions" (t_all t); num "created_at" (t_created t)].

Definition enc_token_app (x : string * string) : row := [str "token_id" x.1; str "app_id" x.2].
Definition enc_token_session (x : string * string) : row := [str "token_id" x.1; str "session_id" x.2].

Definition enc_sub (x : string * sub_row) : row := let (k, s) := x in
  [str "id" k; str "session_id" (sb_session s); str "kind" "webhook"; str "url" (sb_url s);
   ostr "secret_enc" (sb_secret_enc s); ojson "filters" (sb_filters s); num "created_at" (sb_created s);
   ostr "token_id" (sb_token s); num "dropped" (sb_dropped s); onum "last_delivered_at" (sb_last_delivered s);
   ostr "last_error" (sb_last_error s); onum "last_error_at" (sb_last_error_at s)].

Definition enc_delivery (x : string * delivery_row) : row := let (k, r) := x in
  [str "id" k; str "session_id" (d_session r); str "payload" (d_payload r); str "status" (d_status r);
   num "attempts" (d_attempts r); num "next_try_at" (d_next r); num "created_at" (d_created r);
   str "subscription_id" (d_sub r)].

Definition enc_sent (x : string * Z * Z * sent_row) : row := let '(sid, chat, temp, r) := x in
  [str "session_id" sid; num "chat_id" chat; num "temp_id" temp; str "status" (sm_status r);
   onum "final_id" (sm_final r); ojson "error" (sm_error r); num "created_at" (sm_created r);
   num "updated_at" (sm_updated r)].

Definition enc_cooldown (x : string * string * cooldown_row) : row := let '(sid, scope, r) := x in
  [str "session_id" sid; str "scope" scope; num "ends_at" (cd_until r); str "reason" (cd_reason r);
   num "created_at" (cd_created r)].

Definition enc_limit (x : string * Limit) : row := let (k, l) := x in
  [str "id" k; str "level" (l_level l); ostr "kind" (l_kind l); ostr "session_id" (l_session l);
   ostr "token_id" (l_token l); ("methods", Some (VL (l_methods l))); num "max_calls" (l_max l);
   str "per" (l_per l); ostr "label" (l_label l); bit "enabled" (l_enabled l); num "created_at" (l_created l)].

Definition enc_counter (x : CounterKey * Z) : row := let (k, n) := x in
  [str "limit_id" (ck_limit k); str "bucket" (ck_bucket k); num "window_start" (ck_start k); num "calls" n].

(** The registry's tables by name. *)
Definition encoded (d : db) : list (string * list row) := [
  ("tg_app", enc_app <$> map_to_list (apps d));
  ("proxy", enc_proxy <$> map_to_list (proxies d));
  ("session", enc_session <$> map_to_list (sessions d));
  ("worker", enc_worker <$> map_to_list (workers d));
  ("api_token", enc_token <$> map_to_list (tokens d));
  ("api_token_app", enc_token_app <$> elements (token_apps d));
  ("api_token_session", enc_token_session <$> elements (token_sessions d));
  ("update_subscription", enc_sub <$> map_to_list (subs d));
  ("webhook_delivery", enc_delivery <$> map_to_list (deliveries d));
  ("sent_message", enc_sent <$> map_to_list (sends d));
  ("cooldown", enc_cooldown <$> map_to_list (cooldowns d));
  ("rate_limit", enc_limit <$> map_to_list (limits d));
  ("rate_counter", enc_counter <$> map_to_list (counters d))].

Definition encode (d : db) : data := list_to_map (encoded d).

(** ** Lemmas: constraints on encoded rows *)

Lemma elem_omap {A} (f : A → row) (g : row → option val) (l : list A) v :
  v ∈ omap g (f <$> l) ↔ ∃ x, x ∈ l ∧ g (f x) = Some v.
Proof.
  rewrite list_elem_of_omap. split.
  - intros (r&(x&->&Hx)%list_elem_of_fmap&Hg). eauto.
  - intros (x&Hx&Hg). exists (f x). split; [by apply list_elem_of_fmap_2|done].
Qed.

Lemma NoDup_keys {A} (f : A → row) (g : row → option (list val)) (l : list A) :
  NoDup l → (∀ x y v, x ∈ l → y ∈ l → g (f x) = Some v → g (f y) = Some v → x = y) → NoDup (omap g (f <$> l)).
Proof.
  induction 1 as [|x l Hx Hnd IH]; intros Hinj; [constructor|]. csimpl.
  assert (IH' : NoDup (omap g (f <$> l))) by (apply IH; intros y z v Hy Hz; apply Hinj; by right).
  destruct (g (f x)) as [v|] eqn:E; [|done]. constructor; [|done].
  intros (r&(y&->&Hy)%list_elem_of_fmap&Hg)%list_elem_of_omap.
  by rewrite (Hinj x y v (list_elem_of_here _ _) (list_elem_of_further _ _ _ Hy) E Hg) in Hx.
Qed.

Lemma keys_unique {A} (f : A → row) (g : row → option (list val)) (l : list A) x y v :
  NoDup (omap g (f <$> l)) → NoDup l → x ∈ l → y ∈ l → g (f x) = Some v → g (f y) = Some v → x = y.
Proof.
  induction l as [|z l IH]; [by intros _ _ ?%not_elem_of_nil|]. intros Hnd Hl Hx Hy Ex Ey. csimpl in Hnd.
  apply NoDup_cons in Hl as [Hz Hl].
  assert (Hin : ∀ w, w ∈ l → g (f w) = Some v → g (f z) = Some v → False).
  { intros w Hw Ew Ez. rewrite Ez in Hnd. apply NoDup_cons in Hnd as [Hn _]. apply Hn, list_elem_of_omap.
    exists (f w). split; [by apply list_elem_of_fmap_2|done]. }
  apply elem_of_cons in Hx as [->|Hx], Hy as [->|Hy]; try done; [by destruct (Hin y)|by destruct (Hin x)|].
  destruct (g (f z)); [apply NoDup_cons in Hnd as [_ Hnd]|]; by apply IH.
Qed.

Lemma rows_encode d t l : List.In (t, l) (encoded d) → rows_of (encode d) t = l.
Proof.
  intros Hin. unfold rows_of, encode. erewrite elem_of_list_to_map_1; [reflexivity| |by apply list_elem_of_In].
  change (encoded d).*1 with (map fst (encoded empty_db)). apply (bool_decide_unpack _). vm_compute. exact I.
Qed.

(** The definitions of the tables at version 6. *)
Definition tables6 : list (string * tdef) := Eval vm_compute in map_to_list (sc_tables (schema_at 6)).

Lemma tables6_eq : map_to_list (sc_tables (schema_at 6)) = tables6.
Proof. by vm_compute. Qed.

(** One table's rows satisfy its definition. *)
Definition table_ok (d : data) (t : string) (td : tdef) : Prop :=
  Forall (row_ok td) (rows_of d t) ∧ Forall (λ nc, holds d (rows_of d t) nc.2) (td_cons td).

Lemma valid_tables d :
  valid (sc_tables (schema_at 6)) d ↔
  Forall (λ e, table_ok d e.1 e.2) tables6 ∧ map_Forall (λ t _, is_Some (sc_tables (schema_at 6) !! t)) d.
Proof.
  unfold valid. rewrite map_Forall_to_list, tables6_eq, !Forall_forall.
  split; (intros [H ?]; split; [|done]); intros [t td] Hin; exact (H _ Hin).
Qed.

(** The CHECK constraints that [db_ok] leaves out. *)
Definition one_of (l : list string) (s : string) : Prop := existsb (String.eqb s) l = true.

Record sql_checks (d : db) : Prop := mkSqlChecks {
  chk_proxy : Integrity.rows (λ p, one_of proxy_types (p_type p)) (proxies d);
  chk_session : Integrity.rows (λ s, one_of session_kinds (s_kind s)) (sessions d);
  chk_limit : Integrity.rows (λ l, limit_checks l = true) (limits d);
  chk_sent : Integrity.rows (λ r, one_of ["pending"; "sent"; "failed"] (sm_status r)) (sends d);
  chk_delivery : Integrity.rows (λ r, one_of ["pending"; "delivered"; "failed"] (d_status r)) (deliveries d);
}.

(** Rows encoded, looked up by table. *)
Ltac enc_rows := repeat match goal with
  | |- context [rows_of (encode ?j ?d) ?t] =>
      rewrite (rows_encode j d t _ ltac:(unfold encoded; repeat first [left; reflexivity | right]))
  end.

(** Every column of an encoded row is one of its table's, has a value of its
    type and is not NULL where it may not be. *)
Ltac enc_row_ok :=
  apply Forall_forall; intros r (x&->&_)%list_elem_of_fmap; destruct_and?; repeat destruct x as [x ?] || idtac;
  split; [repeat (apply Forall_cons; split; [reflexivity|]); apply Forall_nil_2|];
  repeat (apply Forall_cons; split; [unfold cell_ok; simpl; repeat case_match; simplify_option_eq; done|]); apply Forall_nil_2.

Definition td6 (t : string) : tdef := default (mkTdef [] []) (snd <$> find (λ e, String.eqb e.1 t) tables6).

Lemma refs_hold {A B} (f : A → row) (l : list A) c (f' : string * B → row) (m : gmap string B) c' :
  (∀ k b, get c' (f' (k, b)) = Some (VS k)) →
  (∀ v, v ∈ omap (get c) (f <$> l) → v ∈ omap (get c') (f' <$> map_to_list m)) ↔
  (∀ x v, x ∈ l → get c (f x) = Some v → ∃ k, v = VS k ∧ is_Some (m !! k)).
Proof.
  intros Hid. split.
  - intros H x v Hx Hg. destruct (proj1 (elem_omap _ _ _ _) (H v (proj2 (elem_omap _ _ _ _) (ex_intro _ x (conj Hx Hg)))))
      as ([k b]&Hk&Hv). rewrite Hid in Hv. injection Hv as <-. exists k. split; [done|].
    apply elem_of_map_to_list in Hk. by exists b.
  - intros H v (x&Hx&Hg)%elem_omap. destruct (H x v Hx Hg) as (k&->&[b Hb]). apply elem_omap. exists (k, b).
    split; [by apply elem_of_map_to_list|apply Hid].
Qed.

(** Keys of encoded rows: the map's, or a column no two rows agree in. *)
Ltac enc_pairs := repeat match goal with y : (_ * _)%type |- _ => destruct y as [? ?] end.
Ltac enc_in := repeat match goal with
  | H : _ ∈ map_to_list _ |- _ => apply elem_of_map_to_list in H
  | H : _ ∈ elements _ |- _ => apply elem_of_elements in H
  end.

Ltac enc_key :=
  cbn [holds]; enc_rows; apply NoDup_keys; [apply NoDup_map_to_list || apply NoDup_elements|];
  intros x y v Hx Hy; enc_pairs; enc_in;
  unfold key_of; simpl; intros; simplify_option_eq.

(** A reference: from the row to a row of the other table. *)
Ltac enc_ref :=
  cbn [holds]; enc_rows; apply refs_hold; [done|]; intros x v Hx; enc_pairs; enc_in; simpl; intros; simplify_option_eq.

(** A check of one column. *)
Ltac enc_check :=
  cbn [holds]; enc_rows; intros v (x&Hx&Hg)%elem_omap; enc_pairs; enc_in; simpl in Hg; simplify_option_eq.

Ltac table :=
  split; [enc_rows; enc_row_ok|]; repeat (apply Forall_cons; split); [..|apply Forall_nil_2]; cbn [snd];
  lazymatch goal with
  | |- holds _ _ (Key _) => enc_key
  | |- holds _ _ (Ref _ _ _ _) => enc_ref
  | |- holds _ _ _ => enc_check
  end; try done.

Lemma one_of_elem l s : one_of l s → VS s ∈ VS <$> l.
Proof. intros (x&Hx&->%String.eqb_eq)%existsb_exists. apply list_elem_of_fmap_2. by apply list_elem_of_In. Qed.

Lemma table_app d : table_ok (encode d) "tg_app" (td6 "tg_app").
Proof. table. Qed.

Lemma table_worker d : table_ok (encode d) "worker" (td6 "worker").
Proof. table. Qed.

Lemma table_proxy d : sql_checks d → table_ok (encode d) "proxy" (td6 "proxy").
Proof. intros H. table. by apply (one_of_elem proxy_types), (chk_proxy d H s). Qed.

Lemma ref_to {B} (m : gmap string B) s : is_Some (m !! s) → ∃ k, VS s = VS k ∧ is_Some (m !! k).
Proof. eauto. Qed.

Lemma table_session d : db_ok d → sql_checks d → table_ok (encode d) "session" (td6 "session").
Proof.
  intros Hok H. table.
  - apply (one_of_elem session_kinds), (chk_session d H s), Hx.
  - by apply ref_to, (ok_session d Hok s s0).
  - by apply ref_to, (ok_session d Hok s s0).
  - assert (s1 = s) as -> by (by eapply (ok_db_dir d Hok)). by simplify_eq.
Qed.

Lemma table_token d : db_ok d → table_ok (encode d) "api_token" (td6 "api_token").
Proof. intros Hok. table. assert (s0 = s) as -> by (by eapply (ok_hash d Hok)). by simplify_eq. Qed.

Lemma table_token_app d : db_ok d → table_ok (encode d) "api_token_app" (td6 "api_token_app").
Proof. intros Hok. table; by apply ref_to, (ok_token_app d Hok s s0). Qed.

Lemma table_token_session d : db_ok d → table_ok (encode d) "api_token_session" (td6 "api_token_session").
Proof. intros Hok. table; by apply ref_to, (ok_token_session d Hok s s0). Qed.

Lemma table_sub d : db_ok d → table_ok (encode d) "update_subscription" (td6 "update_subscription").
Proof. intros Hok. table; [|by left|]; by apply ref_to, (ok_sub d Hok s s0). Qed.

Lemma table_delivery d : db_ok d → sql_checks d → table_ok (encode d) "webhook_delivery" (td6 "webhook_delivery").
Proof.
  intros Hok H. table; [by apply ref_to, (ok_delivery d Hok s d0)| |by apply ref_to, (ok_delivery d Hok s d0)].
  apply (one_of_elem ["pending"; "delivered"; "failed"]), (chk_delivery d H s), Hx.
Qed.

Lemma table_sent d : db_ok d → sql_checks d → table_ok (encode d) "sent_message" (td6 "sent_message").
Proof.
  intros Hok H. table; [by apply ref_to, (ok_send d Hok (s0, z0, z) s)|].
  apply (one_of_elem ["pending"; "sent"; "failed"]), (chk_sent d H (s0, z0, z)), Hx.
Qed.

Lemma table_cooldown d : db_ok d → table_ok (encode d) "cooldown" (td6 "cooldown").
Proof. intros Hok. table. by apply ref_to, (ok_cooldown d Hok (s, s0) c). Qed.

Lemma limit_checks_spec l :
  limit_checks l = true ↔
  one_of limit_levels (l_level l) ∧ (∀ k, l_kind l = Some k → one_of ["user"; "bot"] k) ∧
  (0 < l_max l)%Z ∧ one_of limit_pers (l_per l).
Proof.
  unfold limit_checks, one_of. rewrite !andb_true_iff, Z.ltb_lt. destruct (l_kind l); naive_solver.
Qed.

Lemma table_limit d : db_ok d → sql_checks d → table_ok (encode d) "rate_limit" (td6 "rate_limit").
Proof.
  intros Hok H. table; pose proof (proj1 (limit_checks_spec _) (chk_limit d H s l Hx)) as (?&Hk&?&?).
  - by apply (one_of_elem limit_levels).
  - apply (one_of_elem ["user"; "bot"]). by apply Hk.
  - by apply ref_to, (ok_limit d Hok s l).
  - by apply ref_to, (ok_limit d Hok s l).
  - done.
  - by apply (one_of_elem limit_pers).
Qed.

Lemma table_counter d : db_ok d → table_ok (encode d) "rate_counter" (td6 "rate_counter").
Proof.
  intros Hok. table; [by apply ref_to, (ok_counter d Hok c z)|].
  assert (c0 = c) as -> by (destruct c0, c; simpl in *; congruence). by simplify_eq.
Qed.

Lemma valid_constr d t k :
  valid (sc_tables (schema_at 6)) (encode d) → existsb (λ nc, bool_decide (nc.2 = k)) (td_cons (td6 t)) = true →
  holds (encode d) (rows_of (encode d) t) k.
Proof.
  intros [Ht _]%valid_tables (nc&Hin&<-%bool_decide_eq_true)%existsb_exists. unfold td6 in Hin.
  destruct (find _ tables6) as [[t' td]|] eqn:E; [|done]. apply find_some in E as [Htd Hname%String.eqb_eq].
  simpl in *. subst t'. rewrite Forall_forall in Ht. destruct (Ht (t, td)) as [_ H]; [by apply list_elem_of_In|].
  rewrite Forall_forall in H. apply H. by apply list_elem_of_In.
Qed.

(** What a constraint of the schema says of the registry's tables. *)
Lemma valid_ref {A B} (f : A → row) (l : list A) (f' : string * B → row) (m : gmap string B) t c t' b d :
  valid (sc_tables (schema_at 6)) (encode d) → rows_of (encode d) t = f <$> l → rows_of (encode d) t' = f' <$> map_to_list m →
  existsb (λ nc, bool_decide (nc.2 = Ref c t' "id" b)) (td_cons (td6 t)) = true →
  (∀ k a, get "id" (f' (k, a)) = Some (VS k)) →
  ∀ x k, x ∈ l → get c (f x) = Some (VS k) → is_Some (m !! k).
Proof.
  intros Hv Hl Hm Hc Hid x k Hx Hg. pose proof (valid_constr d t _ Hv Hc) as H. cbn [holds] in H. rewrite Hl, Hm in H.
  destruct (proj1 (refs_hold f l c f' m "id" Hid) H x _ Hx Hg) as (k'&[= <-]&Hk). done.
Qed.

Lemma valid_check {A} (f : A → row) (l : list A) t c vs d :
  valid (sc_tables (schema_at 6)) (encode d) → rows_of (encode d) t = f <$> l →
  existsb (λ nc, bool_decide (nc.2 = OneOf c vs)) (td_cons (td6 t)) = true →
  ∀ x s, x ∈ l → get c (f x) = Some (VS s) → one_of vs s.
Proof.
  intros Hv Hl Hc x s Hx Hg. pose proof (valid_constr d t _ Hv Hc) as H. cbn [holds] in H. rewrite Hl in H.
  specialize (H (VS s) (proj2 (elem_omap _ _ _ _) (ex_intro _ x (conj Hx Hg)))).
  apply list_elem_of_fmap in H as (s'&[= <-]&Hs). apply existsb_exists. exists s.
  by rewrite <- list_elem_of_In, String.eqb_refl.
Qed.

Lemma valid_unique {A} (f : A → row) (l : list A) t c d :
  valid (sc_tables (schema_at 6)) (encode d) → rows_of (encode d) t = f <$> l → NoDup l →
  existsb (λ nc, bool_decide (nc.2 = Key [c])) (td_cons (td6 t)) = true →
  ∀ x y v, x ∈ l → y ∈ l → get c (f x) = Some v → get c (f y) = Some v → x = y.
Proof.
  intros Hv Hl Hnd Hc x y v Hx Hy Ex Ey. pose proof (valid_constr d t _ Hv Hc) as H. cbn [holds] in H. rewrite Hl in H.
  apply (keys_unique f (key_of [c]) l x y [v] H Hnd Hx Hy); unfold key_of; simpl; [by rewrite Ex|by rewrite Ey].
Qed.

(** Reads a constraint of table [t] off a valid registry: [l] its rows before
    encoding, [x] the row. *)
Ltac by_ref Hv t t' c x :=
  first [eapply (valid_ref _ _ _ _ t c t' true _ Hv); [by enc_rows|by enc_rows|reflexivity|done| |]
        |eapply (valid_ref _ _ _ _ t c t' false _ Hv); [by enc_rows|by enc_rows|reflexivity|done| |]];
  [apply elem_of_map_to_list || apply elem_of_elements; exact x|]; simpl; try done.

Lemma valid_db_ok d : valid (sc_tables (schema_at 6)) (encode d) → db_ok d.
Proof.
  intros Hv. constructor.
  - intros k s Hs. split; [by_ref Hv "session" "tg_app" "app_id" Hs|]. intros p Hp.
    by_ref Hv "session" "proxy" "proxy_id" Hs. by rewrite Hp.
  - intros t a H. split; [by_ref Hv "api_token_app" "api_token" "token_id" H|by_ref Hv "api_token_app" "tg_app" "app_id" H].
  - intros t a H. split; [by_ref Hv "api_token_session" "api_token" "token_id" H|by_ref Hv "api_token_session" "session" "session_id" H].
  - intros k s Hs. split; [by_ref Hv "update_subscription" "session" "session_id" Hs|]. intros p Hp.
    by_ref Hv "update_subscription" "api_token" "token_id" Hs. by rewrite Hp.
  - intros k r Hr. split; [by_ref Hv "webhook_delivery" "session" "session_id" Hr|].
    by_ref Hv "webhook_delivery" "update_subscription" "subscription_id" Hr.
  - intros [[sid chat] temp] r Hr. by_ref Hv "sent_message" "session" "session_id" Hr.
  - intros [sid scope] r Hr. by_ref Hv "cooldown" "session" "session_id" Hr.
  - intros k l Hl. split; intros p Hp.
    + by_ref Hv "rate_limit" "session" "session_id" Hl. by rewrite Hp.
    + by_ref Hv "rate_limit" "api_token" "token_id" Hl. by rewrite Hp.
  - intros k n Hn. by_ref Hv "rate_counter" "rate_limit" "limit_id" Hn.
  - intros i j s t dir Hs Ht Es Et.
    assert (H : (i, s) = (j, t)); [|by injection H].
    assert (Hl : rows_of (encode d) "session" = enc_session <$> map_to_list (sessions d)) by (by enc_rows).
    apply (valid_unique enc_session (map_to_list (sessions d)) "session" "db_dir" d Hv Hl
             (NoDup_map_to_list _) eq_refl (i, s) (j, t) (VS dir)); try (by apply elem_of_map_to_list); simpl; by rewrite ?Es, ?Et.
  - intros i j s t Hs Ht E.
    assert (H : (i, s) = (j, t)); [|by injection H].
    assert (Hl : rows_of (encode d) "api_token" = enc_token <$> map_to_list (tokens d)) by (by enc_rows).
    apply (valid_unique enc_token (map_to_list (tokens d)) "api_token" "secret_hash" d Hv Hl
             (NoDup_map_to_list _) eq_refl (i, s) (j, t) (VS (t_hash t))); try (by apply elem_of_map_to_list); simpl; by rewrite ?E.
Qed.

Ltac by_check Hv t c vs x :=
  eapply (valid_check _ _ t c vs _ Hv); [by enc_rows|reflexivity|apply elem_of_map_to_list; exact x|]; simpl; try done.

Lemma valid_sql_checks d : valid (sc_tables (schema_at 6)) (encode d) → sql_checks d.
Proof.
  intros Hv. constructor.
  - intros k p Hp. by_check Hv "proxy" "type" proxy_types Hp.
  - intros k s Hs. by_check Hv "session" "kind" session_kinds Hs.
  - intros k l Hl. apply limit_checks_spec. split; [|split; [|split]].
    + by_check Hv "rate_limit" "level" limit_levels Hl.
    + intros s Hs. by_check Hv "rate_limit" "kind" ["user"; "bot"] Hl. by rewrite Hs.
    + assert (H : holds (encode d) (rows_of (encode d) "rate_limit") (Positive "max_calls")) by by apply valid_constr.
      revert H. cbn [holds]. enc_rows. intros H. apply (H (VI (l_max l))), elem_omap. exists (k, l).
      split; [by apply elem_of_map_to_list|done].
    + by_check Hv "rate_limit" "per" limit_pers Hl.
  - intros [[sid chat] temp] r Hr. by_check Hv "sent_message" "status" ["pending"; "sent"; "failed"] Hr.
  - intros k r Hr. by_check Hv "webhook_delivery" "status" ["pending"; "delivered"; "failed"] Hr.
Qed.

Lemma encode_valid d : db_ok d → sql_checks d → valid (sc_tables (schema_at 6)) (encode d).
Proof.
  intros Hok Hc. apply valid_tables. split.
  - apply Forall_forall. intros e He.
    repeat (apply elem_of_cons in He as [->|He];
      [first [by apply table_app|by apply table_worker|by apply table_proxy|by apply table_session|by apply table_token
             |by apply table_token_app|by apply table_token_session|by apply table_sub|by apply table_delivery
             |by apply table_sent|by apply table_cooldown|by apply table_limit|by apply table_counter]|]).
    by apply not_elem_of_nil in He.
  - intros t l Hl. unfold encode in Hl. apply elem_of_list_to_map_2 in Hl.
    assert (Ht : t ∈ (encoded d).*1) by (apply list_elem_of_fmap; by exists (t, l)).
    change ((encoded d).*1) with ((encoded empty_db).*1) in Ht. clear Hl. revert t Ht. apply Forall_forall.
    repeat (apply Forall_cons; split; [eexists; vm_compute; reflexivity|]). apply Forall_nil_2.
Qed.

Lemma typed_checks d : db_typed d → sql_checks d.
Proof.
  intros []. constructor; try done.
  - intros k l Hl. by apply ty_limit in Hl as [? _].
  - intros k r Hr. unfold one_of. destruct (ty_send k r Hr) as [(->&_)|[(->&_)|(->&_)]]; reflexivity.
  - intros k r Hr. unfold one_of. destruct (ty_delivery k r Hr) as [[-> _]|[[->| ->] _]]; reflexivity.
Qed.

(** C8: The constraints of the SQL that the migrations leave, on the registry's
    tables written out as rows, hold exactly when [db_ok] does and the checked
    columns have their values: the model's tables promise neither less nor more
    than the schema. And they hold in every registry the store's statements can
    reach. *)
Theorem schema_enforced d :
  (valid (sc_tables (schema_at 6)) (encode d) ↔ db_ok d ∧ sql_checks d) ∧
  (rtc wrote empty_db d → valid (sc_tables (schema_at 6)) (encode d)).
Proof.
  split.
  - split; [intros H; split; [by apply valid_db_ok|by apply valid_sql_checks]|intros [? ?]; by apply encode_valid].
  - intros H. apply encode_valid; [|apply typed_checks]; revert d H; apply wrote_inv.
    + apply ok_empty.
    + apply ok_wrote.
    + apply ty_empty.
    + apply ty_wrote.
Qed.
End encode.

(** The registry of [ex_wrote], row by row. *)
Lemma schema_enforced_witness :
  rtc wrote empty_db ex_wrote ∧ valid (sc_tables (schema_at 6)) (encode (λ _, "{}") ex_wrote) ∧
  length (rows_of (encode (λ _, "{}") ex_wrote) "session") = 1%nat.
Proof.
  split; [exact ex_wrote_reached|]. split; [exact (proj2 (schema_enforced (λ _, "{}") ex_wrote) ex_wrote_reached)|by vm_compute].
Defined.
