(* ===== verification/Lease.v ===== *)
(** Ownership as a lease. The registry lends each session to one worker, which
    keeps it by its heartbeats (internal/store/store.go RegisterWorker,
    ClaimOrphans, SetSessionOwner, ReleaseSession; manager.go runHeartbeat). The
    lease of one session is a small abstract machine; the store's statements
    refine it, and what a worker may count on follows from the machine alone. *)

From S2P Require Import Prelude GoStr Json Types Db Registry Counters Guard Sends Subs Tokens Delivery Integrity Worker.


(** ** The abstract lease of one session *)

(** Who holds it, and when each worker was last heard of. *)
Record lease := mkLease { le_holder : option string; le_seen : gmap string Z }.

Inductive label :=
| LBeat (w : string)
| LTake (w : string) (cutoff : Z)   (* a claim that got the session *)
| LPut (w : string)                 (* ownership asserted *)
| LGive                             (* ownership cleared *)
| LQuit (w : string)                (* cleared by its holder *)
| LLeave (w : string)
| LForget (before : Z)
| LSkip.

Definition lapsed (cutoff : Z) (l : lease) : bool :=
  match le_holder l ≫= λ w, le_seen l !! w with Some t => (t <=? cutoff)%Z | None => true end.

(** A step at time [t]; [None] where the machine does not allow it. *)
Definition lease_step (t : Z) (a : label) (l : lease) : option lease :=
  match a with
  | LBeat w => Some (mkLease (le_holder l) (<[w := t]> (le_seen l)))
  | LTake w cutoff => if lapsed cutoff l then Some (mkLease (Some w) (le_seen l)) else None
  | LPut w => Some (mkLease (Some w) (le_seen l))
  | LGive => Some (mkLease None (le_seen l))
  | LQuit w => if bool_decide (le_holder l = Some w) then Some (mkLease None (le_seen l)) else None
  | LLeave w => Some (mkLease (le_holder l) (delete w (le_seen l)))
  | LForget before => Some (mkLease (le_holder l) (filter (λ kv, (before <= kv.2)%Z) (le_seen l)))
  | LSkip => Some l
  end.

(** ** What a store of leases is asked, and what it promises *)

Inductive op :=
| OBeat (w addr : string)
| OClaim (w : string) (busy : gset string) (cutoff : Z) (limit : nat)
| OOwn (sid w : string)
| ORelease (sid : string)
| OReleaseAll (w : string)
| OLeave (w : string)
| OPurge (before : Z)
| ODelete (sid : string)
| OOther.

(** What an operation may be to the lease of [sid]. *)
Definition acts (sid : string) (o : op) (a : label) : Prop :=
  match o with
  | OBeat w _ => a = LBeat w
  | OClaim w _ cutoff _ => a = LTake w cutoff ∨ a = LSkip
  | OOwn s w => s = sid ∧ a = LPut w ∨ a = LSkip
  | ORelease s | ODelete s => s = sid ∧ a = LGive ∨ a = LSkip
  | OReleaseAll w => a = LQuit w ∨ a = LSkip
  | OLeave w => a = LLeave w
  | OPurge before => a = LForget before
  | OOther => a = LSkip
  end.

Class LeaseStore (D : Type) := {
  ls_view : string → D → lease;
  ls_act : Z → op → D → D → Prop;
  ls_sim : ∀ t o d d' sid, ls_act t o d d' →
    ∃ a, acts sid o a ∧ lease_step t a (ls_view sid d) = Some (ls_view sid d');
}.

(** ** What a worker may count on *)

Section client.
Context {D : Type} `{LeaseStore D}.

(** Operations at their times, one after the other. *)
Inductive fleet : D → list (Z * op) → D → Prop :=
| fleet_nil d : fleet d [] d
| fleet_cons d d1 d2 t o tr : ls_act t o d d1 → fleet d1 tr d2 → fleet d ((t, o) :: tr) d2.

(** The time of the worker's last beat. *)
Fixpoint last_beat (h : string) (last : Z) (tr : list (Z * op)) : Z :=
  match tr with
  | [] => last
  | (t, o) :: tr => last_beat h (match o with OBeat w _ => if String.eqb w h then t else last | _ => last end) tr
  end.

(** At no operation is the worker's last beat more than [gap] ago. *)
Fixpoint timely (h : string) (gap last : Z) (tr : list (Z * op)) : Prop :=
  match tr with
  | [] => True
  | (t, o) :: tr =>
      (t - last <= gap)%Z ∧
      timely h gap (match o with OBeat w _ => if String.eqb w h then t else last | _ => last end) tr
  end.

(** Nobody gives the session away: no other worker asserts it, it is not
    deleted, its holder does not let go; claims and purges reckon with clocks at
    most [skew] ahead. *)
Definition loyal (sid h : string) (skew : Z) (e : Z * op) : Prop :=
  match e.2 with
  | OClaim w _ cutoff _ => w = h ∨ (cutoff <= e.1 + skew - workerStale)%Z
  | OOwn s w => s = sid → w = h
  | ORelease s | ODelete s => s ≠ sid
  | OReleaseAll w | OLeave w => w ≠ h
  | OPurge before => (before <= e.1 + skew - workerStale)%Z
  | OBeat _ _ | OOther => True
  end.

Lemma lease_kept_view sid h gap skew d tr d' last :
  (gap + skew < workerStale)%Z → fleet d tr d' →
  le_holder (ls_view sid d) = Some h → le_seen (ls_view sid d) !! h = Some last →
  timely h gap last tr → Forall (loyal sid h skew) tr →
  le_holder (ls_view sid d') = Some h ∧ le_seen (ls_view sid d') !! h = Some (last_beat h last tr).
Proof.
  intros Hg Hf. revert last. induction Hf as [d|d d1 d2 t o tr Ha _ IH]; intros last Hh Hs Ht Hl; [done|].
  destruct Ht as [Ht Htr]. apply Forall_cons in Hl as [Ho Hl]. simpl.
  destruct (ls_sim t o d d1 sid Ha) as (a&Hacts&Hstep).
  assert (Hone : le_holder (ls_view sid d1) = Some h ∧
    le_seen (ls_view sid d1) !! h = Some (match o with OBeat w _ => if String.eqb w h then t else last | _ => last end)).
  { unfold loyal in Ho. destruct o as [w addr|w busy cutoff limit|s w|s|w|w|before|s|]; simpl in *;
      repeat match goal with H : _ ∨ _ |- _ => destruct H | H : _ ∧ _ |- _ => destruct H end; subst; simpl in Hstep;
      try (injection Hstep as <-; done); try (destruct (lapsed _ _) eqn:El; [|done]); try (injection Hstep as <-); simpl; try done.
    - split; [done|]. destruct (String.eqb_spec w h) as [->|]; [by rewrite lookup_insert_eq|by rewrite lookup_insert_ne].
    - exfalso. unfold lapsed in El. rewrite Hh in El. simpl in El. rewrite Hs in El. apply Z.leb_le in El. lia.
    - split; [|done]. by rewrite Ho.
    - rewrite bool_decide_eq_false_2 in Hstep by congruence. done.
    - split; [done|]. by rewrite lookup_delete_ne.
    - split; [done|]. apply map_lookup_filter_Some. split; [done|]. simpl. lia. }
  destruct Hone as [Hh1 Hs1]. by apply (IH _ Hh1 Hs1).
Qed.
End client.

(** ** The registry is such a store *)

Definition holder (sid : string) (d : db) : option string := sessions d !! sid ≫= s_worker.

Definition view (sid : string) (d : db) : lease := mkLease (holder sid d) (w_seen <$> workers d).

(** No lease is touched. *)
Definition steady (d d' : db) : Prop := workers d' = workers d ∧ ∀ sid, holder sid d' = holder sid d.

(** The store's statements as operations on leases. *)
Inductive act (t : Z) : op → db → db → Prop :=
| a_beat w addr d : act t (OBeat w addr) d (RegisterWorker t w addr d)
| a_claim w busy cutoff limit d : act t (OClaim w busy cutoff limit) d (ClaimOrphans t busy w cutoff limit d).2
| a_own sid w d : act t (OOwn sid w) d (SetSessionOwner t sid w d)
| a_release sid d : act t (ORelease sid) d (ReleaseSession t sid d)
| a_release_all w d : act t (OReleaseAll w) d (ReleaseSessions t w d).2
| a_leave w d : act t (OLeave w) d (DeregisterWorker w d)
| a_purge before d : act t (OPurge before) d (PurgeWorkers before d).2
| a_delete sid d : act t (ODelete sid) d (Registry.DeleteSession sid d).2
| a_other d d' : wrote d d' → steady d d' → act t OOther d d'.

(** ** Lemmas: the statements that touch no lease *)

Lemma steady_alike f d : alike s_worker (sessions d) (f (sessions d)) → steady d (with_sessions f d).
Proof.
  intros H. split; [done|]. intros sid. unfold holder. simpl. specialize (H sid).
  destruct (f (sessions d) !! sid), (sessions d !! sid); simpl in *; congruence.
Qed.

Lemma steady_same d d' : sessions d' = sessions d → workers d' = workers d → steady d d'.
Proof. intros Hs Hw. split; [done|]. intros sid. unfold holder. by rewrite Hs. Qed.

Lemma steady_trans d1 d2 d3 : steady d1 d2 → steady d2 d3 → steady d1 d3.
Proof. intros [Hw Hh] [Hw' Hh']. split; [congruence|]. intros sid. by rewrite Hh'. Qed.

Lemma steady_each {A} (f : A → db → Prelude.res dberr db) l d d' :
  (∀ x d d', f x d = Ok d' → steady d d') → each f l d = Ok d' → steady d d'.
Proof.
  intros Hf H. apply (each_keeps (steady d) f l d d'); [|done|by apply steady_same].
  intros x d1 d2 H12 H1. eapply steady_trans; [exact H1|by eapply Hf].
Qed.

Lemma steady_grant_app tid a d d' : grant_app tid a d = Ok d' → steady d d'.
Proof. unfold grant_app. destruct (_ && _); [|done]. intros [= <-]. by apply steady_same. Qed.

Lemma steady_grant_session tid s d d' : grant_session tid s d = Ok d' → steady d d'.
Proof. unfold grant_session. destruct (_ && _); [|done]. intros [= <-]. by apply steady_same. Qed.

Lemma steady_CreateToken id now name hash en all appIDs sids d r d' :
  CreateToken id now name hash en all appIDs sids d = Ok (r, d') → steady d d'.
Proof.
  unfold CreateToken. destruct (_ || _); [done|]. intros (d1&H1&[= _ <-])%res_bind_ok.
  unfold replaceTokenGrants in H1. apply res_bind_ok in H1 as (d2&H2&H3).
  eapply steady_trans; [|exact (steady_each _ _ _ _ (steady_grant_session id) H3)].
  eapply steady_trans; [|exact (steady_each _ _ _ _ (steady_grant_app id) H2)]. by apply steady_same.
Qed.

Lemma steady_patch id a s ra rs d d' : patchTokenGrants id a s ra rs d = Ok d' → steady d d'.
Proof.
  unfold patchTokenGrants. intros (d1&Ha&Hs)%res_bind_ok.
  assert (steady d d1).
  { destruct ra; [|by injection Ha as <-; apply steady_same].
    eapply steady_trans; [|exact (steady_each _ _ _ _ (steady_grant_app id) Ha)]. by apply steady_same. }
  eapply steady_trans; [done|]. destruct rs; [|by injection Hs as <-; apply steady_same].
  eapply steady_trans; [|exact (steady_each _ _ _ _ (steady_grant_session id) Hs)]. by apply steady_same.
Qed.

Lemma steady_UpdateToken id p d r d' : UpdateToken id p d = Ok (r, d') → steady d d'.
Proof.
  unfold UpdateToken. destruct (negb _); [by intros [= _ <-]; apply steady_same|]. intros H.
  assert (H0 : steady d (with_tokens (alter (patch_row p) id) d)) by by apply steady_same.
  destruct (tp_apps p), (tp_sessions p); try (by injection H as _ <-);
    apply res_bind_ok in H as (d2&H&[= _ <-]); (eapply steady_trans; [exact H0|by eapply steady_patch]).
Qed.

Lemma steady_CreateSession id now n d r d' : Registry.CreateSession id now n d = Ok (r, d') → steady d d'.
Proof.
  unfold Registry.CreateSession. destruct (negb _); [done|]. destruct (has id (sessions d)) eqn:Eh; [done|].
  destruct (negb _); [done|]. intros [= _ <-]. split; [done|]. intros sid. unfold holder. simpl.
  destruct (decide (id = sid)) as [<-|]; [|by rewrite lookup_insert_ne]. rewrite lookup_insert_eq. simpl.
  unfold has in Eh. apply bool_decide_eq_false in Eh. by destruct (sessions d !! id); [destruct Eh; eauto|].
Qed.

Lemma steady_UpdateSessionMeta now id label p d r d' :
  Registry.UpdateSessionMeta now id label p d = Ok (r, d') → steady d d'.
Proof.
  unfold Registry.UpdateSessionMeta. destruct label, p; repeat case_match; try done; intros [= _ <-];
    try (by apply steady_same); apply steady_alike, alike_alter; done.
Qed.

Lemma steady_DeleteToken id d : steady d (DeleteToken id d).2.
Proof. unfold DeleteToken. destruct (has id (tokens d)); by apply steady_same. Qed.

Lemma steady_SetSessionDBDir now id dir d d' : SetSessionDBDir now id dir d = Ok d' → steady d d'.
Proof. unfold SetSessionDBDir. destruct (_ && _); [done|]. intros [= <-]. by apply steady_alike, alike_alter. Qed.

Lemma steady_TakeCounters uses d r d' : TakeCounters uses d = Ok (r, d') → steady d d'.
Proof. unfold TakeCounters. intros ([i|m]&_&[= _ <-])%res_bind_ok; by apply steady_same. Qed.

(** A statement that leaves sessions and workers alone, whatever its outcome. *)
Ltac untouched H f := revert H; unfold f; intros; repeat case_match; simplify_eq; by apply steady_same.

(** The operation of a statement the machine knows by name. *)
Ltac leasing := lazymatch goal with
  | |- context [RegisterWorker] => eexists _, _; apply a_beat
  | |- context [ClaimOrphans] => eexists _, _; apply a_claim
  | |- context [SetSessionOwner] => eexists _, _; apply a_own
  | |- context [ReleaseSession] => eexists _, _; apply a_release
  | |- context [ReleaseSessions] => eexists _, _; apply a_release_all
  | |- context [DeregisterWorker] => exists 0%Z; eexists; apply a_leave
  | |- context [PurgeWorkers] => exists 0%Z; eexists; apply a_purge
  | |- context [Registry.DeleteSession] => exists 0%Z; eexists; apply a_delete
  end.

(** Every statement is one of the operations. *)
Lemma wrote_act d d' : wrote d d' → ∃ t o, act t o d d'.
Proof.
  intros Hw. cut (steady d d' ∨ ∃ t o, act t o d d').
  { intros [Hs|?]; [exists 0%Z, OOther; by constructor|done]. }
  destruct Hw; try (right; leasing; fail); left.
  - untouched H CreateApp.
  - untouched H CreateProxy.
  - by apply steady_same.
  - by apply steady_same.
  - by eapply steady_CreateSession.
  - by eapply steady_SetSessionDBDir.
  - by apply steady_alike, alike_alter.
  - by apply steady_alike, alike_update.
  - by eapply steady_UpdateSessionMeta.
  - untouched H CreateLimit.
  - untouched H UpdateLimit.
  - by apply steady_same.
  - by eapply steady_TakeCounters.
  - by apply steady_same.
  - by apply steady_same.
  - untouched H SetCooldown.
  - by apply steady_same.
  - by apply steady_same.
  - by apply steady_alike, alike_alter.
  - apply steady_alike, alike_alter. by destruct b.
  - by apply steady_alike, alike_alter.
  - untouched H RegisterSend.
  - untouched H RecordSendOutcome.
  - by apply steady_same.
  - untouched H CreateSubscription.
  - by apply steady_same.
  - by apply steady_same.
  - by eapply steady_CreateToken.
  - by eapply steady_UpdateToken.
  - apply steady_DeleteToken.
  - untouched H EnqueueDeliveries.
  - unfold MarkDelivered. case_match; by apply steady_same.
  - untouched H FailDelivery.
  - by apply steady_same.
Qed.

(** ** The registry refines the machine *)

Lemma holder_alter sid s (f : session_row → session_row) o d :
  (∀ r, s_worker (f r) = o) →
  holder sid (with_sessions (alter f s) d) = holder sid d ∨ s = sid ∧ holder sid (with_sessions (alter f s) d) = o.
Proof.
  intros Hf. unfold holder. simpl. destruct (decide (sid = s)) as [->|Hne]; [|left; by rewrite lookup_alter_ne].
  rewrite lookup_alter_eq. destruct (sessions d !! s); simpl; [right; by rewrite Hf|by left].
Qed.

Lemma holder_claim sid t busy w cutoff limit d :
  holder sid (ClaimOrphans t busy w cutoff limit d).2 = holder sid d ∨
  holder sid (ClaimOrphans t busy w cutoff limit d).2 = Some w ∧ lapsed cutoff (view sid d) = true.
Proof.
  unfold holder at 1 3. rewrite ClaimOrphans_session. destruct (decide _) as [Hin|]; [|left; by rewrite option_fmap_id].
  destruct (claim_row_orphan _ _ _ _ _ Hin) as (s&Hs&Ho&_&_). right. rewrite Hs. split; [done|].
  unfold lapsed. simpl. unfold holder. rewrite Hs. simpl. unfold orphan in Ho. apply andb_true_iff in Ho as [_ Ho%negb_true_iff].
  unfold live_opt, live in Ho. destruct (s_worker s) as [h|]; [|done]. simpl. rewrite lookup_fmap.
  destruct (workers d !! h) as [r|]; [|done]. simpl. apply Z.leb_le. by apply Z.ltb_ge in Ho.
Qed.

Lemma holder_release sid t w d :
  holder sid (ReleaseSessions t w d).2 = holder sid d ∨
  holder sid (ReleaseSessions t w d).2 = None ∧ holder sid d = Some w.
Proof.
  unfold holder, ReleaseSessions. simpl. rewrite lookup_update_where. destruct (sessions d !! sid) as [s|]; [|by left]. simpl.
  destruct (owned_authorized w s) eqn:E; [right|by left]. split; [done|]. unfold owned_authorized in E.
  apply andb_true_iff in E as [E _]. by apply opt_eqb_spec in E.
Qed.

Lemma holder_delete sid s d :
  holder sid (Registry.DeleteSession s d).2 = holder sid d ∨ s = sid ∧ holder sid (Registry.DeleteSession s d).2 = None.
Proof.
  unfold Registry.DeleteSession. destruct (sessions d !! s) eqn:E; [|by left]. unfold holder. simpl.
  destruct (decide (s = sid)) as [->|Hne]; [right; by rewrite lookup_delete_eq|left; by rewrite lookup_delete_ne].
Qed.

Lemma workers_delete s d : workers (Registry.DeleteSession s d).2 = workers d.
Proof. unfold Registry.DeleteSession. by destruct (sessions d !! s). Qed.

(** A step that leaves the heartbeats alone and makes the holder [o]. *)
Lemma view_eq sid d d' o : workers d' = workers d → holder sid d' = o → view sid d' = mkLease o (le_seen (view sid d)).
Proof. intros Hw <-. unfold view. by rewrite Hw. Qed.

Lemma seen_purged before (m : gmap string worker_row) :
  filter (λ kv, (before <= kv.2)%Z) (w_seen <$> m) = w_seen <$> delete_where (λ _ w, (w_seen w <? before)%Z) m.
Proof.
  unfold delete_where. rewrite map_filter_fmap. f_equal. apply map_filter_ext. intros w r _. simpl. by rewrite Z.ltb_ge.
Qed.

Lemma act_sim t o d d' sid :
  act t o d d' → ∃ a, acts sid o a ∧ lease_step t a (view sid d) = Some (view sid d').
Proof.
  assert (Hskip : ∀ d d', workers d' = workers d → holder sid d' = holder sid d → lease_step t LSkip (view sid d) = Some (view sid d')).
  { intros e e' Hw Hh. simpl. unfold view. by rewrite Hw, Hh. }
  destruct 1 as [w addr d|w busy cutoff limit d|s w d|s d|w d|w d|before d|s d|d d' _ [Hw Hh]].
  - exists (LBeat w). split; [done|]. simpl. unfold view. simpl. by rewrite fmap_insert.
  - destruct (holder_claim sid t busy w cutoff limit d) as [Hh|[Hh Hl]].
    + exists LSkip. split; [by right|]. by apply Hskip.
    + exists (LTake w cutoff). split; [by left|]. unfold lease_step. rewrite Hl. f_equal. symmetry. by apply view_eq.
  - destruct (holder_alter sid s (s_touch t ∘ s_set_worker (Some w)) (Some w) d) as [Hh|[-> Hh]]; [done|..].
    + exists LSkip. split; [by right|]. by apply Hskip.
    + exists (LPut w). split; [by left|]. simpl. f_equal. symmetry. by apply view_eq.
  - destruct (holder_alter sid s (s_touch t ∘ s_set_worker None) None d) as [Hh|[-> Hh]]; [done|..].
    + exists LSkip. split; [by right|]. by apply Hskip.
    + exists LGive. split; [by left|]. simpl. f_equal. symmetry. by apply view_eq.
  - destruct (holder_release sid t w d) as [Hh|[Hh Hw]].
    + exists LSkip. split; [by right|]. by apply Hskip.
    + exists (LQuit w). split; [by left|]. unfold lease_step. rewrite bool_decide_eq_true_2 by done.
      f_equal. symmetry. by apply view_eq.
  - exists (LLeave w). split; [done|]. simpl. unfold view. simpl. by rewrite fmap_delete.
  - exists (LForget before). split; [done|]. simpl. f_equal. unfold view, PurgeWorkers. simpl. f_equal.
    apply seen_purged.
  - destruct (holder_delete sid s d) as [Hh|[-> Hh]].
    + exists LSkip. split; [by right|]. apply Hskip; [apply workers_delete|done].
    + exists LGive. split; [by left|]. simpl. f_equal. symmetry. apply view_eq; [apply workers_delete|done].
  - exists LSkip. split; [done|]. by apply Hskip.
Qed.

#[export] Instance registry_leases : LeaseStore db := {| ls_view := view; ls_act := act; ls_sim := act_sim |}.

Lemma act_wrote t o d d' : act t o d d' → wrote d d'.
Proof.
  destruct 1; [apply w_RegisterWorker|apply w_ClaimOrphans|apply w_SetSessionOwner|apply w_ReleaseSession|apply w_ReleaseSessions
              |apply w_DeregisterWorker|apply w_PurgeWorkers|apply w_DeleteSession|done].
Qed.

(** C7: Ownership is a lease. The store's statements are, all of them, operations
    on leases, and seen from any one session each operation is a step of the
    lease machine that the operation allows: a heartbeat renews, a claim takes
    only a lease that has lapsed at its cutoff, a worker's release ends its own
    leases only, every other statement leaves holder and heartbeats alone. *)
Theorem lease_refinement :
  (∀ d d', wrote d d' ↔ ∃ t o, act t o d d') ∧
  (∀ t o d d' sid, act t o d d' → ∃ a, acts sid o a ∧ lease_step t a (view sid d) = Some (view sid d')).
Proof.
  split; [|intros t o d d' sid; apply act_sim]. intros d d'. split; [apply wrote_act|].
  intros (t&o&Ha). by eapply act_wrote.
Qed.

(** C3: A worker that beats in time is never robbed. If its beats are never more
    than [gap] apart, the clocks of those who claim, purge or route are at most
    [skew] ahead of the registry's, and the two together are less than the
    staleness window, then through any run of statements by any workers, short
    of someone giving the session away, the session stays its own and every
    gateway routes to it. The heartbeat of ten seconds leaves room for a missed
    beat and almost ten seconds of skew. *)
Theorem lease_kept sid h gap skew d tr d' r :
  (gap + skew < workerStale)%Z → fleet d tr d' →
  holder sid d = Some h → workers d !! h = Some r →
  timely h gap (w_seen r) tr → Forall (loyal sid h skew) tr →
  holder sid d' = Some h ∧
  ∀ t cutoff, (t - last_beat h (w_seen r) tr <= gap)%Z → (cutoff <= t + skew - workerStale)%Z →
    ∃ kind addr, SessionRoute sid cutoff d' = Some (kind, addr) ∧ w_addr <$> workers d' !! h = Some addr.
Proof.
  intros Hg Hf Hh Hr Ht Hl.
  destruct (lease_kept_view sid h gap skew d tr d' (w_seen r) Hg Hf) as [Hh' Hs']; [done|simpl; by rewrite lookup_fmap, Hr|done..|].
  simpl in Hh', Hs'. split; [done|]. intros t cutoff Htl Hc.
  rewrite lookup_fmap in Hs'. destruct (workers d' !! h) as [r'|] eqn:Er; [|done]. injection Hs' as Hseen.
  unfold holder in Hh'. destruct (sessions d' !! sid) as [s|] eqn:Es; [|done]. simpl in Hh'.
  exists (s_kind s), (w_addr r'). split; [|done]. unfold SessionRoute. rewrite Es, Hh', Er.
  by rewrite (proj2 (Z.ltb_lt cutoff (w_seen r'))) by lia.
Qed.

(** The beat of a worker's own loop [internal/session/manager.go:339-339#workerHeartbeat]. *)
Definition workerHeartbeat : Z := 10 * second.

(** Two workers; the second claims with every chance it has while the first
    beats, misses a beat, and beats again. *)
Definition ex_start : db :=
  with_workers (λ _, {["w1" := mkWorker "http://w1" 0; "w2" := mkWorker "http://w2" 0]})
    (with_sessions (λ _, {["s" := s_set_worker (Some "w1") ex_session]}) empty_db).

Definition ex_claim (t : Z) : Z * op := (t, OClaim "w2" ∅ (t + 5 * second - workerStale)%Z 8).

Definition ex_tr : list (Z * op) :=
  [(10 * second, OBeat "w1" "http://w1"); ex_claim (19 * second); ex_claim (29 * second);
   (30 * second, OBeat "w1" "http://w1"); ex_claim (45 * second)]%Z.

Definition ex_run (d : db) (e : Z * op) : db :=
  match e.2 with
  | OBeat w addr => RegisterWorker e.1 w addr d
  | OClaim w busy cutoff limit => (ClaimOrphans e.1 busy w cutoff limit d).2
  | _ => d
  end.

Lemma lease_kept_witness :
  holder "s" (foldl ex_run ex_start ex_tr) = Some "w1" ∧
  ∃ kind addr, SessionRoute "s" (20 * second)%Z (foldl ex_run ex_start ex_tr) = Some (kind, addr) ∧
    w_addr <$> workers (foldl ex_run ex_start ex_tr) !! "w1" = Some addr.
Proof.
  assert (Hf : fleet ex_start ex_tr (foldl ex_run ex_start ex_tr)).
  { unfold ex_tr. simpl foldl. repeat (eapply fleet_cons; [first [apply a_beat|apply a_claim]|]). apply fleet_nil. }
  destruct (lease_kept "s" "w1" (2 * workerHeartbeat)%Z (5 * second)%Z ex_start ex_tr _ (mkWorker "http://w1" 0)
              ltac:(vm_compute; reflexivity) Hf eq_refl eq_refl) as [Hh Hroute].
  - repeat split; vm_compute; discriminate.
  - repeat (apply Forall_cons; split; [first [exact I|right; vm_compute; discriminate]|]); apply Forall_nil_2.
  - split; [exact Hh|]. apply (Hroute (45 * second)%Z); vm_compute; discriminate.
Defined.

Lemma lease_refinement_witness :
  let d := (ClaimOrphans 1 ∅ "w2" 100 8 ex_start).2 in
  holder "s" d = Some "w2" ∧ ∃ a, acts "s" (OClaim "w2" ∅ 100%Z 8) a ∧ lease_step 1%Z a (view "s" ex_start) = Some (view "s" d).
Proof.
  intros d. split; [by vm_compute|]. apply (proj2 lease_refinement 1%Z (OClaim "w2" ∅ 100%Z 8)). apply a_claim.
Defined.
