(* ===== verification/System.v ===== *)
(** The whole path of a call (POST /v1/{kind}/{id}/call): the gateway's front and
    routing (internal/router/router.go), the worker's mux and handler
    (internal/api/server.go), the session manager down to TDLib. Composed as the
    processes are: what the gateway lets through goes to the address it found,
    with the identity header it sets, and the worker there handles it. *)

From S2P Require Import Prelude GoStr Json Types Tdjson Sha256 Quota Db Registry Counters Chats Guard Admit Paths UploadStore LocalFiles Call Tokens Auth Gateway Serving.


(** ** What a call sends *)

Section sends.
Context {T : Type} (td_send : T → rawRequest → T * td_reply).
Context (clock : nat → Z) (up : nat → bool) (gone : nat → bool).
Context (quote : string → string) (root sid kind : string).

(** The methods that make TDLib load a chat. *)
Definition loaders : list string := ["createPrivateChat"; "createSupergroupChat"; "createBasicGroupChat"].

(** What may be sent for a call of [method], whatever becomes of it. *)
Definition for_call (method : string) (r : rawRequest) : Prop :=
  is_lookup r ∨ rq_method r = method ∨ rq_method r ∈ loaders.

Lemma forceLoadChat_loader params m p : forceLoadChat params = Some (m, p) → m ∈ loaders.
Proof.
  unfold forceLoadChat. destruct (numericChatID params); [|done].
  repeat case_match; intros [= <- _]; unfold loaders; rewrite !elem_of_cons; auto.
Qed.

Lemma sends_dispatch method params : sends_only (all_req (for_call method)) (dispatch td_send quote method params).
Proof.
  assert (Hm : sends_only (all_req (for_call method)) (try (call_td td_send method params)))
    by (apply sends_try, sends_call; intros; right; by left).
  unfold dispatch. apply sends_bind_all; [done|]. intros [v|e]; [by apply sends_none|].
  destruct (isChatUnresolved _); [|by apply sends_none].
  destruct (forceLoadChat params) as [[lm lp]|] eqn:El; [|by apply sends_none].
  apply sends_bind_all; [|intros [v|e']; [done|by apply sends_none]].
  apply sends_try, sends_call. intros ps. right. right. by eapply forceLoadChat_loader.
Qed.

Lemma sends_Call tok h method params :
  sends_only (all_req (for_call method)) (Call.Call td_send clock up gone quote root sid kind tok h method params).
Proof.
  assert (Hlook : ∀ A (c : M T A), sends_only (all_req is_lookup) c → sends_only (all_req (for_call method)) c).
  { intros A c. apply sends_mono. intros l Hl. eapply Forall_impl; [exact Hl|by left]. }
  unfold Call.Call. destruct h; [by apply sends_none|by apply sends_none|].
  apply sends_bind_all; [by apply sends_none|]. intros dirs.
  apply sends_bind_all; [apply sends_none; intros; apply check_cooldown_log|]. intros _.
  apply sends_bind_all; [apply Hlook, sends_resolve; [by left|by right]|]. intros params'.
  apply sends_bind_all; [apply Hlook, sends_admit; by left|]. intros _.
  apply sends_bind_all; [apply sends_dispatch|]. intros r.
  apply sends_bind_all; [by apply sends_none|]. intros _. destruct r as [v|e]; [|by apply sends_none].
  apply sends_bind_all; [apply sends_none; intros; by destruct (bool_decide _)|]. intros _.
  apply sends_bind_all; [apply sends_none; intros; apply register_refs_log|]. intros _. by apply sends_none.
Qed.

(** Neither the lookups nor the loaders are reserved to the gateway. *)
Lemma for_call_open method r : IsBlockedMethod method = false → for_call method r → IsBlockedMethod (rq_method r) = false.
Proof.
  intros Hb [[->| ->]|[->|Hl]]; [reflexivity|reflexivity|done|].
  unfold loaders in Hl. rewrite !elem_of_cons in Hl. destruct Hl as [->|[->|[->|Hl]]]; [reflexivity..|].
  by apply not_elem_of_nil in Hl.
Qed.

(** The handler refuses a reserved method before anything is sent. *)
Lemma handleCall_sends h t method params w a w' :
  handleCall td_send clock up gone quote root sid kind h t method params w = (a, w') →
  ∃ l, w_log w' = l ++ w_log w ∧ Forall (λ r, IsBlockedMethod (rq_method r) = false) l.
Proof.
  unfold handleCall. destruct (String.eqb method ""); [intros [= _ <-]; by exists []|].
  destruct (IsBlockedMethod method) eqn:Eb; [intros [= _ <-]; by exists []|].
  pose proof (sends_Call t h method params w) as (l&Hl&Hp).
  destruct (Call.Call _ _ _ _ _ _ _ _ _ _ _ _ w) as [[v|e] w1]; simpl in Hl; intros H;
    (assert (w' = w1) as -> by (by repeat case_match; simplify_eq)); exists l; (split; [done|]);
    (eapply Forall_impl; [exact Hp|]); intros r; by apply for_call_open.
Qed.
End sends.

(** ** From the client to TDLib *)

Section system.
Context {T : Type} (td_send : T → rawRequest → T * td_reply).
Context (clock : nat → Z) (up : nat → bool) (gone : nat → bool) (quote : string → string) (root : string).
Context (url_ok : string → bool) (stale : Z) (master : string).

(** What the worker at an address holds of a session. *)
Record seat := mkSeat { st_kind : string; st_hold : hold; st_world : world T }.

(** What the client gets. *)
Inductive reply :=
| RGateway (status : Z) (msg : string)
| RMux (status : Z)
| RWorker (a : answer)
| RElsewhere.                        (* another endpoint *)

(** A call request through the gateway to the worker it is sent to: the reply,
    and the address, the session and its world after, if a worker was asked. The
    registry is the same for all; [gup] says which of the gateway's statements
    reach it, [now] is the gateway's clock; [peers] is what a worker has of a
    session, or why it cannot be reached
    [internal/router/router.go:670-675#Router.forward]. *)
Definition call_request (gup : nat → bool) (now : Z) (d : db) (peers : string → string → res string seat)
    (rq : request) (method : string) (params : raw) : reply * option (string * string * world T) :=
  match auth master gup d rq with
  | Refuse st msg => (RGateway st msg, None)
  | MuxReply st => (RMux st, None)
  | Run p h ps tok =>
      if negb (match h with H_scoped => true | _ => false end) then (RElsewhere, None)
      else match scoped url_ok stale (gup 2%nat) now rq (path_value "id" ps) tok d with
      | Err (st, msg) => (RGateway st msg, None)
      | Ok (addr, out) =>
          match serve out with
          | Some (_, W_call, ps') =>
              let sid := path_value "id" ps' in
              match peers addr sid with
              | Err e => (RGateway 502 ("worker unreachable: " +:+ e), None)
              | Ok s =>
              let (a, w) := handleCall td_send clock up gone quote root sid (st_kind s) (st_hold s)
                              (hq_token_id out) method params (w_set_db d (st_world s)) in
              (RWorker a, Some (addr, sid, w))
              end
          | _ => (RElsewhere, None)
          end
      end
  end.

(** Who made the request, as the registry has it: the master token, under no
    identity, or an enabled token that covers the session, under its own. *)
Definition entitled (d : db) (rq : request) (sid tok : string) : Prop :=
  (hq_auth rq = "Bearer " +:+ master ∧ tok = "") ∨
  ∃ secret t, hq_auth rq = "Bearer " +:+ secret ∧ tokens d !! tok = Some t ∧ t_hash t = sha256 secret ∧
    t_enabled t = true ∧ TokenGrantsSession tok sid d = true.

(** The worker that owns a session now. *)
Definition owner_at (now : Z) (d : db) (rq : request) (sid addr : string) : Prop :=
  ∃ s w r, sessions d !! sid = Some s ∧ s_kind s = pathKind (url_path (hq_segs rq)) ∧ s_worker s = Some w ∧
    workers d !! w = Some r ∧ (now - stale < w_seen r)%Z ∧ w_addr r = addr.

(** The worker's call routes. *)
Lemma call_routes p : (p, W_call) ∈ worker_routes → p ∉ open_routes ∧ p ∉ own_routes ∧ p ≠ "GET /healthz".
Proof.
  assert (H : Forall (λ r, r.2 = W_call → r.1 ∉ open_routes ∧ r.1 ∉ own_routes ∧ r.1 ≠ "GET /healthz") worker_routes).
  { apply (bool_decide_unpack _). vm_compute. exact I. }
  rewrite Forall_forall in H. intros Hp. by apply (H _ Hp).
Qed.

Lemma auth_master gup d rq p h ps tok :
  auth master gup d rq = Run p h ps tok → hq_auth rq = "Bearer " +:+ master → p ≠ "GET /healthz" → tok = "".
Proof.
  unfold auth. intros H Hm Hp. rewrite Hm in H. destruct (String.eqb_spec (url_path (hq_segs rq)) "/healthz"); [by apply mux_run in H as [-> _]|].
  destruct (String.eqb_spec ("Bearer " +:+ master) ""); [done|]. rewrite String.eqb_refl in H. by apply mux_run in H as [-> _].
Qed.

(** C2: From the client to Telegram. If a call makes a worker act, then whoever
    made it was entitled to that very session: it carried the master token, or
    the secret of a token that is enabled and covers the session. The worker is
    the session's live owner, and the path names the session's kind as the
    registry has it. The identity it acts under, which the operator's rules
    count, is the caller's own, whatever identity header the client forged, or
    none, and none for a token only if the client named the header among its
    Connection options; and nothing it sends to TDLib on behalf of the call is a
    method reserved to the gateway. Session ids hold no slash, being uuids. *)
Theorem call_entitled gup now d peers rq method params out addr sid w' :
  (∀ k, is_Some (sessions d !! k) → no_char "/" k) →
  call_request gup now d peers rq method params = (out, Some (addr, sid, w')) →
  ∃ s tok ident a l, peers addr sid = Ok s ∧ out = RWorker a ∧
    handleCall td_send clock up gone quote root sid (st_kind s) (st_hold s) ident method params
      (w_set_db d (st_world s)) = (a, w') ∧
    (ident = tok ∨ ident = "" ∧ existsb (same_header tokenIDHeader) (hq_connection rq) = true) ∧
    entitled d rq sid tok ∧ owner_at now d rq sid addr ∧
    w_log w' = l ++ w_log (st_world s) ∧
    Forall (λ r, IsBlockedMethod (rq_method r) = false) l.
Proof.
  intros Hids. unfold call_request. destruct (auth master gup d rq) as [| |p h ps tok] eqn:Ea; [done..|].
  destruct h; try done. cbn [negb].
  destruct (scoped _ _ _ _ _ _ _ _) as [[addr' rq']|[st msg]] eqn:Es; [|done].
  destruct (scoped_ok _ _ _ _ _ _ _ _ _ _ Es) as [-> Hown].
  destruct (served_same _ _ _ _ _ _ _ _ Ea eq_refl) as (wh&Hin&->). destruct wh; try done.
  destruct (call_routes p Hin) as (Hopen&Howned&Hhealth).
  destruct (peers addr' _) as [s|e] eqn:Ep; [|done].
  destruct (handleCall _ _ _ _ _ _ _ _ _ _ _ _ _) as [a w1] eqn:Eh. intros [= <- -> <- <-].
  destruct (handleCall_sends _ _ _ _ _ _ _ _ _ _ _ _ _ _ _ Eh) as (l&Hl&Hb).
  exists s, tok, (hq_token_id (at_worker rq tok)), a, l. split; [exact Ep|]. split; [done|]. split; [exact Eh|].
  split; [apply at_worker_id|]. split; [|split; [exact Hown|split; [exact Hl|exact Hb]]].
  destruct (decide (hq_auth rq = "Bearer " +:+ master)) as [Hm|Hm]; [left; split; [done|by eapply auth_master]|right].
  destruct (token_confined _ _ _ _ _ _ _ _ Ea Hm Hhealth) as (secret&tid&t&Hsec&Ht&Hhash&Hen&[[? _]|[[? _]|(->&_&Hg)]]); [done..|].
  exists secret, t. repeat (split; [done|]). apply Hg, Hids. destruct Hown as (row&w&r&Hs&_). by eexists.
Qed.
End system.

(** A scoped token's call on its session, with a forged identity header. *)
Definition ex_system_db : db :=
  with_workers (λ _, {["w1" := mkWorker "http://w1" 100]})
    (with_sessions (alter (s_set_worker (Some "w1")) "s1") ex_token_db2).

Definition ex_seat : string → string → res string seat := λ _ _, Ok $ mkSeat "user" HReady ex_world.

Definition ex_system_rq : request :=
  mkRequest "POST" ["v1"; "user"; "s1"; "call"] true "Bearer s3cret" "forged" [].

Definition ex_system (method : string) :=
  call_request ex_ok_td (λ _, 0%Z) (λ _, true) (λ _, false) (λ s, s) "/uploads" (λ _, true) (30 * second)%Z "master"
    (λ _, true) 50%Z ex_system_db ex_seat ex_system_rq method None.

Definition ex_system_after : world () := match (ex_system "getMe").2 with Some x => x.2 | None => ex_world end.

Lemma ex_system_ids k : is_Some (sessions ex_system_db !! k) → no_char "/" k.
Proof.
  destruct (decide (k = "s1")) as [->|Hne]; [intros _; by vm_compute|].
  replace (sessions ex_system_db) with (alter (s_set_worker (Some "w1")) "s1" {["s1" := ex_session]} : gmap string session_row)
    by (vm_compute; reflexivity).
  rewrite lookup_alter_ne, lookup_singleton_ne by done. by intros [? [=]].
Qed.

(** A client that names the identity header among its Connection options has the
    gateway's proxy remove what the gateway just set: the worker takes the call
    for the operator's own, and the token's rule (one call a day here) neither
    counts nor refuses it. *)
Definition ex_token_rule : Limit := mkLimit "l" "token" None None (Some "t") ["getMe"] 1 "day" None true 0.
Definition ex_counted (conn : list string) : list Z :=
  let d := with_limits (λ _, {["l" := ex_token_rule]}) ex_system_db in
  let rq := mkRequest "POST" ["v1"; "user"; "s1"; "call"] true "Bearer s3cret" "" conn in
  match (call_request ex_ok_td (λ _, 0%Z) (λ _, true) (λ _, false) (λ s, s) "/uploads" (λ _, true) (30 * second)%Z "master"
           (λ _, true) 50%Z d ex_seat rq "getMe" None).2 with
  | Some x => (map_to_list (counters (w_db x.2))).*2
  | None => []
  end.

Example identity_stripped : ex_counted ["keep-alive"] = [1%Z] ∧ ex_counted ["x-tgcontrol-token-id"] = [].
Proof. vm_compute. done. Qed.

Lemma call_entitled_witness :
  rq_method <$> w_log ex_system_after = ["getMe"] ∧ (ex_system "close").1 = RWorker (AGateway 403 "method reserved by the gateway") ∧
  ∃ tok ident a l, entitled "master" ex_system_db ex_system_rq "s1" tok ∧ (ex_system "getMe").1 = RWorker a ∧ (ident = tok ∨ ident = "" ∧ false = true) ∧
    w_log ex_system_after = l ++ w_log ex_world ∧ Forall (λ r, IsBlockedMethod (rq_method r) = false) l.
Proof.
  split; [vm_compute; reflexivity|]. split; [vm_compute; reflexivity|].
  destruct (call_entitled ex_ok_td (λ _, 0%Z) (λ _, true) (λ _, false) (λ s, s) "/uploads" (λ _, true) (30 * second)%Z "master"
    (λ _, true) 50%Z ex_system_db ex_seat ex_system_rq "getMe" None (ex_system "getMe").1 "http://w1" "s1" ex_system_after
    ex_system_ids) as (s&tok&ident&a&l&Hs&Ho&_&Hi&He&_&Hl&Hb); [vm_compute; reflexivity|]. injection Hs as <-.
  exists tok, ident, a, l. auto.
Defined.
