(* ===== verification/Obs.v ===== *)
(** Telemetry (internal/obs/obs.go): opt-in, and transparent. The OpenTelemetry
    SDK is a parameter: which of its constructors succeed, and how each pipeline
    shuts down. What the process keeps of it is which global providers are set
    and where the log goes. *)

From S2P Require Import Prelude GoStr.


(** The environment: [os.Getenv], "" for a variable that is not set. *)
Abbreviation environ := (string → string).

Inductive pipeline := Traces | Metrics | Logs.

#[export] Instance pipeline_eq_dec : EqDecision pipeline.
Proof. solve_decision. Defined.

(** Where the standard logger writes. *)
Inductive sink := Stderr | Teed (service : string).

(** The globals of a process. *)
Record globals := mkGlobals { gl_providers : list pipeline; gl_log : sink }.

Definition fresh_globals : globals := mkGlobals [] Stderr.

Definition install (p : pipeline) (g : globals) : globals := mkGlobals (gl_providers g ++ [p]) (gl_log g).

(** [internal/obs/obs.go#Enabled] *)
Definition Enabled (env : environ) : bool :=
  negb (String.eqb (env "OTEL_EXPORTER_OTLP_ENDPOINT") "") || String.eqb (env "OTEL_ENABLED") "true".

(** The function [Setup] returns. *)
Inductive closer := Noop | Flush.

Section obs.
Context (env : environ).
(** Whether the resource and each exporter can be made. *)
Context (resource : option string) (exporter : pipeline → option string).

(** Makes one pipeline and sets its global provider. *)
Definition make (p : pipeline) (g : globals) : res string globals :=
  match exporter p with
  | Some e => Err e
  | None => Ok (install p g)
  end.

(** The providers are global: those set before an error stay set
    [internal/obs/obs.go#Setup]. *)
Definition Setup (service : string) (g : globals) : res string closer * globals :=
  if negb (Enabled env) then (Ok Noop, g)
  else match resource with
  | Some e => (Err e, g)
  | None =>
      match make Traces g with
      | Err e => (Err e, g)
      | Ok g =>
          match make Metrics g with
          | Err e => (Err e, g)
          | Ok g =>
              match make Logs g with
              | Err e => (Err e, g)
              | Ok g => (Ok Flush, mkGlobals (gl_providers g) (Teed service))
              end
          end
      end
  end.

(** The closing loop: every pipeline is shut down, the first error is kept
    [internal/obs/obs.go:95-99#Setup]. *)
Fixpoint shut (down : pipeline → option string) (ps : list pipeline) (first : option string) (done : list pipeline)
    : option string * list pipeline :=
  match ps with
  | [] => (first, done)
  | p :: ps =>
      shut down ps (match first with Some e => Some e | None => down p end) (done ++ [p])
  end.

(** Shutting down: the log goes to stderr alone again before the pipelines close
    [internal/obs/obs.go:93-101#Setup]. *)
Definition close (down : pipeline → option string) (c : closer) (g : globals) : (option string * list pipeline) * globals :=
  match c with
  | Noop => ((None, []), g)
  | Flush => (shut down [Traces; Metrics; Logs] None [], mkGlobals (gl_providers g) Stderr)
  end.

(** Drops the newlines at the end. *)
Definition trim_newlines (s : string) : string := String.rev (drop_while (Ascii.eqb "010") (String.rev s)).

(** One line as a log record, and the count of bytes taken
    [internal/obs/obs.go#otelLogWriter.Write]. *)
Definition Write (line : string) : nat * option string :=
  let msg := trim_newlines line in
  (String.length line, if String.eqb msg "" then None else Some msg).

(** A write of the standard logger, [io.MultiWriter] when teed: the writers in
    turn, up to the first that fails or takes less; [took] is what stderr takes,
    [None] on an error. Gives the count returned, and the record emitted. *)
Definition log_line (took : option nat) (g : globals) (line : string) : option nat * option string :=
  match gl_log g, took with
  | Stderr, _ => (took, None)
  | Teed _, Some n =>
      if negb (Nat.eqb n (String.length line)) then (None, None)
      else let '(n, r) := Write line in (if Nat.eqb n (String.length line) then Some n else None, r)
  | Teed _, None => (None, None)
  end.
End obs.

(** ** Theorems *)

Lemma shut_all down ps first done :
  (shut down ps first done).2 = done ++ ps ∧
  (shut down ps first done).1 = match first with Some e => Some e | None => head (omap down ps) end.
Proof.
  revert first done. induction ps as [|p ps IH]; intros first done; simpl; [rewrite app_nil_r; by destruct first|].
  destruct (IH (match first with Some e => Some e | None => down p end) (done ++ [p])) as [-> ->].
  rewrite <- app_assoc. split; [done|]. destruct first; [done|]. simpl. by destruct (down p).
Qed.

(** Telemetry is opt-in and never in the way. Without an endpoint setting up
    changes nothing. With one it either fails, the log untouched, or sets up all
    three pipelines and tees the log; closing then shuts down every pipeline
    once, in order, whatever fails, reports the first error and gives the log
    back to stderr. A line that stderr takes counts as written wherever the log goes:
    the tee never makes a write fail. *)
Theorem telemetry_transparent env resource exporter service down line :
  let '(r, g) := Setup env resource exporter service fresh_globals in
  (Enabled env = false → r = Ok Noop ∧ g = fresh_globals) ∧
  (∀ e, r = Err e → Enabled env = true ∧ gl_log g = Stderr) ∧
  (r = Ok Flush → gl_providers g = [Traces; Metrics; Logs] ∧ gl_log g = Teed service) ∧
  (∀ c, r = Ok c →
     let '((err, closed), g') := close down c g in
     gl_log g' = Stderr ∧ closed = gl_providers g ∧ err = head (omap down (gl_providers g))) ∧
  (∀ g, (log_line (Some (String.length line)) g line).1 = Some (String.length line)).
Proof.
  assert (Hlog : ∀ g, (log_line (Some (String.length line)) g line).1 = Some (String.length line)).
  { intros g. unfold log_line, Write. destruct (gl_log g); [done|]. by rewrite Nat.eqb_refl. }
  unfold Setup, make. destruct (Enabled env) eqn:Ee; cbn [negb].
  2:{ repeat split; try done; intros c [= <-]; done. }
  destruct resource as [e|]; [repeat split; done|].
  destruct (exporter Traces) as [e|]; [repeat split; done|]. destruct (exporter Metrics) as [e|]; [repeat split; done|].
  destruct (exporter Logs) as [e|]; [repeat split; done|].
  split; [done|]. split; [done|]. split; [done|]. split; [|done]. intros c [= <-]. cbn [close].
  destruct (shut down [Traces; Metrics; Logs] None []) as [err closed] eqn:Es.
  destruct (shut_all down [Traces; Metrics; Logs] None []) as [H1 H2]. rewrite Es in H1, H2. done.
Qed.

Lemma telemetry_transparent_witness :
  let env := λ k, if String.eqb k "OTEL_ENABLED" then "true" else "" in
  Enabled env = true ∧
  (∀ c, (Setup env None (λ _, None) "gw" fresh_globals).1 = Ok c →
    (close (λ p, match p with Metrics => Some "timeout" | _ => None end) c (Setup env None (λ _, None) "gw" fresh_globals).2).1
    = (Some "timeout", [Traces; Metrics; Logs])) ∧ Write "up" = (2%nat, Some "up").
Proof.
  intros env. split; [reflexivity|]. split; [|reflexivity]. intros c Hc.
  pose proof (telemetry_transparent env None (λ _, None) "gw" (λ p, match p with Metrics => Some "timeout" | _ => None end) "up")
    as H. simpl in H. destruct H as (_&_&_&H&_). specialize (H c Hc).
  injection Hc as <-. reflexivity.
Defined.
