(* ===== verification/Duration.v ===== *)
(** Go's time.ParseDuration, as the settings of the entry points use it: exact on
    whole numbers, through float64 on fractions, with its overflow checks. *)

From S2P Require Import Prelude GoStr.


(** ** float64

    A positive float64 as a fraction; the exponents that occur here are far from
    the ends of its range, or the value vanishes all the same. *)

(** The nearest fraction with a 53-bit mantissa, ties to even. *)
Definition fl (q : Z * Z) : Z * Z :=
  let '(n, d) := q in
  if (n <=? 0)%Z then (0, 1)%Z
  else
    let k := (Z.log2 n - Z.log2 d)%Z in
    let e := if (n * 2 ^ Z.max 0 (- k) <? d * 2 ^ Z.max 0 k)%Z then (k - 1)%Z else k in
    let s := (52 - e)%Z in
    let n := (n * 2 ^ Z.max 0 s)%Z in
    let d := (d * 2 ^ Z.max 0 (- s))%Z in
    let m := (n / d)%Z in
    let r := (n mod d)%Z in
    let m := if ((d <? 2 * r) || ((2 * r =? d) && Z.odd m))%Z then (m + 1)%Z else m in
    (m * 2 ^ Z.max 0 (- s), 2 ^ Z.max 0 s)%Z.

Definition fl_of (z : Z) : Z * Z := fl (z, 1%Z).
Definition fl_mul (a b : Z * Z) : Z * Z := fl (a.1 * b.1, a.2 * b.2)%Z.
Definition fl_div (a b : Z * Z) : Z * Z := fl (a.1 * b.2, a.2 * b.1)%Z.
Definition fl_floor (a : Z * Z) : Z := (a.1 / a.2)%Z.

(** ** Parsing *)

Definition two63 : Z := 2 ^ 63.

(** Leading digits; [None] on overflow. *)
Fixpoint leadingInt (x : Z) (s : string) : option (Z * string) :=
  match s with
  | EmptyString => Some (x, s)
  | String c s' =>
      match digit_val c with
      | None => Some (x, s)
      | Some n =>
          if (two63 / 10 <? x)%Z then None
          else if (two63 <? 10 * x + n)%Z then None
          else leadingInt (10 * x + n) s'
      end
  end.

(** Leading digits of a fraction: those past the precision are dropped. *)
Fixpoint leadingFraction (x : Z) (scale : Z * Z) (over : bool) (s : string) : Z * (Z * Z) * string :=
  match s with
  | EmptyString => (x, scale, s)
  | String c s' =>
      match digit_val c with
      | None => (x, scale, s)
      | Some n =>
          if over || ((two63 - 1) / 10 <? x)%Z || (two63 <? 10 * x + n)%Z then leadingFraction x scale true s'
          else leadingFraction (10 * x + n) (fl_mul scale (fl_of 10)) false s'
      end
  end.

Definition unitMap : list (string * Z) :=
  [("ns", nanosecond); ("us", 1000 * nanosecond); (bytes [194; 181; 115]%nat, 1000 * nanosecond);
   (bytes [206; 188; 115]%nat, 1000 * nanosecond); ("ms", millisecond); ("s", second); ("m", minute); ("h", hour)]%Z.

(** The characters up to the next number. *)
Fixpoint take_unit (s : string) : string * string :=
  match s with
  | EmptyString => ("", s)
  | String c s' =>
      if Ascii.eqb c "." || bool_decide (is_Some (digit_val c)) then ("", s)
      else let '(u, r) := take_unit s' in (String c u, r)
  end.

(** One number with its unit: its value, and the rest. *)
Definition parse_term (s : string) : option (Z * string) :=
  match s with
  | EmptyString => None
  | String c _ =>
      if negb (Ascii.eqb c "." || bool_decide (is_Some (digit_val c))) then None
      else
        '(v, s1) ← leadingInt 0 s;
        let pre := negb (Nat.eqb (String.length s) (String.length s1)) in
        let '(f, scale, s2, post) :=
          match cut_prefix s1 "." with
          | Some s2 =>
              let '(f, scale, s3) := leadingFraction 0 (1, 1)%Z false s2 in
              (f, scale, s3, negb (Nat.eqb (String.length s2) (String.length s3)))
          | None => (0%Z, (1, 1)%Z, s1, false)
          end in
        if negb (pre || post) then None
        else
          let '(u, rest) := take_unit s2 in
          unit ← last_binding u unitMap;
          if (two63 / unit <? v)%Z then None
          else
            let v := (v * unit)%Z in
            if (0 <? f)%Z then
              let v := (v + fl_floor (fl_mul (fl_of f) (fl_div (fl_of unit) scale)))%Z in
              if (two63 <? v)%Z then None else Some (v, rest)
            else Some (v, rest)
  end.

(** The terms, summed in a uint64; each takes at least a byte, so the length of
    the text is fuel enough (lemma parse_terms_fuel). *)
Fixpoint parse_terms (fuel : nat) (d : Z) (s : string) : option Z :=
  if String.eqb s "" then Some d
  else match fuel with
  | O => None
  | S fuel =>
      '(v, rest) ← parse_term s;
      let d := ((d + v) mod 2 ^ 64)%Z in
      if (two63 <? d)%Z then None else parse_terms fuel d rest
  end.

(** [time.ParseDuration]. *)
Definition ParseDuration (s : string) : option Z :=
  let '(neg, s) :=
    match cut_prefix s "-", cut_prefix s "+" with
    | Some s', _ => (true, s')
    | _, Some s' => (false, s')
    | _, _ => (false, s)
    end in
  if String.eqb s "0" then Some 0%Z
  else if String.eqb s "" then None
  else
    d ← parse_terms (String.length s) 0 s;
    if neg then Some (- d)%Z
    else if (two63 - 1 <? d)%Z then None else Some d.

(** ** Lemmas *)

Lemma leadingInt_shorter x s n rest : leadingInt x s = Some (n, rest) → (String.length rest <= String.length s)%nat.
Proof.
  revert x. induction s as [|c s IH]; intros x; simpl; [by intros [= _ <-]|].
  destruct (digit_val c); [|by intros [= _ <-]]. destruct (_ <? _)%Z; [done|]. destruct (_ <? _)%Z; [done|].
  intros H%IH. lia.
Qed.

Lemma leadingFraction_shorter x sc o s : (String.length (leadingFraction x sc o s).2 <= String.length s)%nat.
Proof.
  revert x sc o. induction s as [|c s IH]; intros x sc o; simpl; [done|].
  destruct (digit_val c); [|done]. destruct (o || _ || _); etrans; [apply IH|lia|apply IH|lia].
Qed.

Lemma take_unit_length s : (String.length (take_unit s).1 + String.length (take_unit s).2)%nat = String.length s.
Proof.
  induction s as [|c s IH]; [done|]. simpl. destruct (_ || _); [done|]. destruct (take_unit s) as [u r]. simpl in *. lia.
Qed.

Lemma unitMap_nonempty u unit : last_binding u unitMap = Some unit → u ≠ "".
Proof. intros H ->. by vm_compute in H. Qed.

(** A term takes at least a byte. *)
Lemma parse_term_shorter s v rest : parse_term s = Some (v, rest) → (String.length rest < String.length s)%nat.
Proof.
  unfold parse_term. destruct s as [|c s0]; [done|]. set (s := String c s0). destruct (negb _); [done|]. clearbody s.
  destruct (leadingInt 0 s) as [[n s1]|] eqn:E1; [|done]. cbn [mbind option_bind].
  apply leadingInt_shorter in E1. destruct (cut_prefix s1 ".") as [s2|] eqn:Ec.
  - apply cut_prefix_some in Ec as ->. rewrite length_app_s in E1. simpl in E1.
    pose proof (leadingFraction_shorter 0 (1, 1)%Z false s2) as Hf.
    destruct (leadingFraction _ _ _ s2) as [[f scale] s3]. simpl in Hf. destruct (negb (_ || _)); [done|].
    pose proof (take_unit_length s3) as Hu. destruct (take_unit s3) as [u r]. simpl in Hu.
    destruct (last_binding u unitMap) as [unit|]; [|done]. cbn [mbind option_bind].
    destruct (_ <? _)%Z; [done|]. intros H. assert (rest = r) as -> by (by repeat case_match; simplify_eq). lia.
  - destruct (negb (_ || _)); [done|]. pose proof (take_unit_length s1) as Hu. destruct (take_unit s1) as [u r]. simpl in Hu.
    destruct (last_binding u unitMap) as [unit|] eqn:Eu; [|done]. cbn [mbind option_bind].
    apply unitMap_nonempty in Eu. destruct u as [|? u]; [done|]. simpl in Hu.
    destruct (_ <? _)%Z; [done|]. intros H. assert (rest = r) as -> by (by repeat case_match; simplify_eq). lia.
Qed.

(** More fuel than bytes changes nothing. *)
Lemma parse_terms_fuel fuel fuel' d s :
  (String.length s <= fuel)%nat → (String.length s <= fuel')%nat → parse_terms fuel d s = parse_terms fuel' d s.
Proof.
  revert fuel' d s. induction fuel as [|fuel IH]; intros fuel' d s H H'.
  - destruct s; [|simpl in H; lia]. by destruct fuel'.
  - destruct fuel' as [|fuel']; [by destruct s; [|simpl in H'; lia]|]. simpl. destruct (String.eqb s ""); [done|].
    destruct (parse_term s) as [[v rest]|] eqn:E; [|done]. cbn [mbind option_bind]. apply parse_term_shorter in E.
    destruct (_ <? _)%Z; [done|]. apply IH; lia.
Qed.

Lemma parse_terms_range fuel d s z : (0 <= d <= two63)%Z → parse_terms fuel d s = Some z → (0 <= z <= two63)%Z.
Proof.
  revert d s. induction fuel as [|fuel IH]; intros d s Hd; simpl; (destruct (String.eqb s ""); [by intros [= <-]|]); [done|].
  destruct (parse_term s) as [[v rest]|]; [|done]. cbn [mbind option_bind].
  destruct (Z.ltb_spec two63 ((d + v) mod 2 ^ 64)); [done|]. apply IH. split; [by apply Z.mod_pos_bound|done].
Qed.

(** A duration is an int64. *)
Lemma ParseDuration_range s z : ParseDuration s = Some z → in_int64 z = true.
Proof.
  unfold ParseDuration. rewrite in_int64_spec.
  destruct (match cut_prefix s "-" with Some s' => (true, s') | None => _ end) as [neg s'].
  destruct (String.eqb s' "0"); [by intros [= <-]|]. destruct (String.eqb s' ""); [done|].
  destruct (parse_terms _ 0 s') as [d|] eqn:E; [|done]. cbn [mbind option_bind].
  apply parse_terms_range in E; [|done]. unfold two63 in *. destruct neg; [intros [= <-]; lia|].
  destruct (Z.ltb_spec (2 ^ 63 - 1) d); [done|]. intros [= <-]. lia.
Qed.

Lemma digit_char (x : N) : (x < 10)%N → digit_val (pretty_N_char x) = Some (Z.of_N x).
Proof.
  intros H. assert (Hx : (x = 0 ∨ x = 1 ∨ x = 2 ∨ x = 3 ∨ x = 4 ∨ x = 5 ∨ x = 6 ∨ x = 7 ∨ x = 8 ∨ x = 9)%N) by lia.
  by repeat destruct Hx as [->|Hx]; [..|rewrite Hx].
Qed.

Lemma leadingInt_pretty (x : N) (s : string) :
  (Z.of_N x < two63)%Z → leadingInt 0 (pretty_N_go x s) = leadingInt (Z.of_N x) s.
Proof.
  revert s. induction (N.lt_wf_0 x) as [x _ IH]. intros s Hx.
  destruct (decide (x = 0)%N) as [->|Hn]; [by rewrite pretty_N_go_0|].
  rewrite pretty_N_go_step by lia. rewrite IH; [|apply N.div_lt; lia|rewrite N2Z.inj_div; apply Z.div_lt_upper_bound; lia].
  simpl. rewrite digit_char by (apply N.mod_lt; lia).
  assert (Hdm : (10 * Z.of_N (x `div` 10) + Z.of_N (x `mod` 10) = Z.of_N x)%Z).
  { rewrite N2Z.inj_div, N2Z.inj_mod by lia. symmetry. apply Z.div_mod. lia. }
  rewrite N2Z.inj_div in Hdm |- *. change (Z.of_N 10) with 10%Z in *.
  destruct (Z.ltb_spec (two63 / 10) (Z.of_N x / 10)) as [Hc|_].
  { assert (Z.of_N x / 10 <= two63 / 10)%Z by (apply Z.div_le_mono; lia). lia. }
  destruct (Z.ltb_spec two63 (10 * (Z.of_N x / 10) + Z.of_N (x `mod` 10))); [lia|]. by rewrite Hdm.
Qed.

(** The cases of the standard library's own tests. *)
Example durations :
  map ParseDuration ["1h"; "-2h45m"; "39h9m14.425s"; "0.3333333333333333333h"; "0.100000000000000000000h"; "9223372036854775807ns";
                     "-9223372036854775808ns"] =
  [Some hour; Some (- (2 * hour + 45 * minute)); Some (39 * hour + 9 * minute + 14425 * millisecond); Some (20 * minute);
   Some (6 * minute); Some (2 ^ 63 - 1); Some (- 2 ^ 63)]%Z ∧
  map ParseDuration [""; "3"; "-"; "s"; "."; ".s"; "1 h"; "9223372036854775808ns"] = repeat None 8.
Proof. by vm_compute. Qed.
