(* ===== verification/Entry.v ===== *)
(** The entry points (cmd/gateway/main.go, cmd/worker/main.go): from the
    environment to a running process, or to none. Each step that fails ends the
    process; what is left is what the rest of the library starts from. *)

From S2P Require Import Prelude GoStr Json Types Sha256 Gcm Db Registry Tokens Migrations Schema Secret UploadStore Auth Guard Login Worker Obs Duration.


(** ** The environment *)

(** [os.Getenv] gives "" for a variable that is not set
    [cmd/gateway/main.go#mustEnv]. *)
Definition mustEnv (env : environ) (k : string) : res string string :=
  if String.eqb (env k) "" then Err (k +:+ " is required") else Ok (env k).

(** [cmd/gateway/main.go#envOr] *)
Definition envOr (env : environ) (k def : string) : string := if String.eqb (env k) "" then def else env k.

(** A value that does not parse is the default
    [cmd/gateway/main.go#envInt64]. *)
Definition envInt64 (env : environ) (k : string) (def : Z) : Z :=
  if String.eqb (env k) "" then def else default def (atoi (env k)).

(** An int has 64 bits [cmd/worker/main.go#envInt]. *)
Definition envInt (env : environ) (k : string) (def : Z) : Z :=
  if String.eqb (env k) "" then def else default def (atoi (env k)).

(** [cmd/worker/main.go#envDur] *)
Definition envDur (env : environ) (k : string) (def : Z) : Z :=
  if String.eqb (env k) "" then def else default def (ParseDuration (env k)).

(** The worker's copies of the first two [cmd/worker/main.go#mustEnv]. *)
Definition worker_mustEnv : environ → string → res string string := mustEnv.
(** [cmd/worker/main.go#envOr] *)
Definition worker_envOr : environ → string → string → string := envOr.

(** The name the host gives itself, [None] on an error
    [cmd/worker/main.go#hostname]. *)
Definition hostname (host : option string) : string :=
  match host with
  | Some h => if String.eqb h "" then "worker" else h
  | None => "worker"
  end.

(** The address of the socket toward the outside, if it opens
    [cmd/worker/main.go#advertiseIP]. *)
Definition advertiseIP (local : option string) : string := default "127.0.0.1" local.

(** ** Starting *)

Section entry.
Context (env : environ).
(** The telemetry SDK, and which of the database's steps go through. *)
Context (resource : option string) (exporter : pipeline → option string) (up : nat → bool).

(** A process under way: its settings, the database and its globals. *)
Inductive start (A : Type) :=
| Fatal (msg : string)
| Started (a : A) (m : schema_db (S := pgdb)) (g : globals).
Arguments Fatal {A} _.
Arguments Started {A} _ _ _.

(** Telemetry and the store: both processes start with them, and what is needed
    between the two
    [cmd/gateway/main.go:30-41#main]. *)
Definition open_store {A B} (service : string) (between : res string B) (m : schema_db) (k : B → schema_db → globals → start A) : start A :=
  match Setup env resource exporter service fresh_globals with
  | (Err e, _) => Fatal ("obs: " +:+ e)
  | (Ok _, g) =>
      match between with
      | Err e => Fatal ("secret: " +:+ e)
      | Ok b =>
          match Migrations.New version_exec up m with
          | (false, _) => Fatal "store"
          | (true, m) => k b m g
          end
      end
  end.

(** What the gateway serves with. *)
Record gateway_cfg := mkGatewayCfg {
  gw_dsn : string;
  gw_token : string;
  gw_addr : string;
  gw_stale : Z;
  gw_uploads : UploadStore.Store;
}.

(** [cmd/gateway/main.go:25-55#main] *)
Definition gateway_main (m : schema_db) : start gateway_cfg :=
  match mustEnv env "DATABASE_URL" with
  | Err e => Fatal e
  | Ok dsn =>
      match mustEnv env "API_TOKEN" with
      | Err e => Fatal e
      | Ok token =>
          let addr := envOr env "LISTEN_ADDR" ":8080" in
          open_store "tg-control-api-server-gateway" (Ok ()) m (λ _ m g,
            Started (mkGatewayCfg dsn token addr (30 * second)
                       (UploadStore.mkStore (envOr env "UPLOADS_DIR" "/uploads")
                          (envInt64 env "MAX_SINGLE_SHOT_BYTES" (64 * 2 ^ 20))
                          (envInt64 env "MAX_CHUNK_BYTES" (16 * 2 ^ 20))
                          (envInt64 env "MAX_UPLOAD_BYTES" (2 * 2 ^ 30)))) m g)
      end
  end.

(** What a worker runs with; [wc_uploads] has no sizes, workers only sweep. *)
Record worker_cfg := mkWorkerCfg {
  wc_dsn : string;
  wc_box : Box;
  wc_data : string;
  wc_addr : string;
  wc_id : string;
  wc_self : string;
  wc_capacity : Z;
  wc_uploads : UploadStore.Store;
  wc_upload_ttl : Z;
  wc_send_ttl : Z;
}.

(** [cmd/worker/main.go:27-64#main] *)
Definition worker_main (host local : option string) (m : schema_db) : start worker_cfg :=
  match worker_mustEnv env "DATABASE_URL" with
  | Err e => Fatal e
  | Ok dsn =>
      match worker_mustEnv env "MASTER_KEY" with
      | Err e => Fatal e
      | Ok key =>
          let data := worker_envOr env "DATA_DIR" "/data" in
          let addr := worker_envOr env "LISTEN_ADDR" ":8080" in
          let capacity := envInt env "WORKER_CAPACITY" 200 in
          let uploads := worker_envOr env "UPLOADS_DIR" "/uploads" in
          let uploadTTL := envDur env "UPLOAD_TTL" (2 * hour) in
          let sendTTL := envDur env "SEND_TTL" (7 * 24 * hour) in
          open_store "tg-control-api-server-worker" (Secret.New key) m (λ box m g,
            let id := worker_envOr env "WORKER_ID" (hostname host) in
            let self := worker_envOr env "WORKER_ADVERTISE" ("http://" +:+ advertiseIP local +:+ addr) in
            Started (mkWorkerCfg dsn box data addr id self capacity (UploadStore.mkStore uploads 0 0 0) uploadTTL sendTTL) m g)
      end
  end.
End entry.
Arguments Fatal {A} _.
Arguments Started {A} _ _ _.

(** A manager just made: it holds nothing yet, and is registered if the registry
    can be reached [internal/session/manager.go:348-363#NewManager]. *)
Definition NewManager (up : bool) (now : Z) (workerID selfAddr : string) (d : db) : node :=
  mkNode 0 ∅ ∅ false (if up then RegisterWorker now workerID selfAddr d else d) [].

(** One context for all of the stopping [cmd/worker/main.go:80-80#main]. *)
Definition stop_grace : Z := 15 * second.

(** Stopping on a signal: requests are drained, then the sessions are handed
    over, then telemetry is flushed. The registry is first asked [drain] after the
    start, which the requests and aborted logins take. A statement under a
    context that has expired fails
    [cmd/worker/main.go:76-84#main]. *)
Definition worker_stop (clock : nat → Z) (up : nat → bool) (order : nat → list string → list string) (workerID : string)
    (down : pipeline → option string) (drain : Z) (c : closer) (n : node) (g : globals)
    : node * (option string * list pipeline) * globals :=
  let n := (Worker.Shutdown clock (λ i, up i && (drain <? stop_grace)%Z) order workerID n).2 in
  let '(r, g) := close down c g in (n, r, g).

(** The gateway has no sessions to hand over: it drains its requests and flushes
    telemetry [cmd/gateway/main.go:67-73#main]. *)
Definition gateway_stop (down : pipeline → option string) (c : closer) (g : globals) : (option string * list pipeline) * globals :=
  close down c g.

(** ** The smoke test *)

(** A run that ends: what it writes to standard error and standard output, and
    its exit code. *)
Record ended := mkEnded { en_err : list string; en_out : list string; en_code : Z }.

(** A number padded to two columns. *)
Definition pad2 (z : Z) : string := let s := itoa z in if (String.length s <? 2)%nat then " " +:+ s else s.

(** TDLib's answers to the two synchronous requests are given, entities with
    the name of their Go type [cmd/smoke/main.go:15-40#main]. *)
Definition smoke_main (verbosity : option string) (entities : res string (list (Z * Z * string))) (version : string) : ended :=
  match verbosity with
  | Some err => mkEnded ["SetLogVerbosityLevel: " +:+ err] [] 1
  | None =>
      match entities with
      | Err err => mkEnded ["GetTextEntities: " +:+ err] [] 1
      | Ok es =>
          mkEnded [] (("libtdjson OK. binding targets TDLib " +:+ version) ::
            ("parsed " +:+ itoa (Z.of_nat (length es)) +:+ " entities from sample text:") ::
            map (λ '(o, l, ty), "  offset=" +:+ pad2 o +:+ " len=" +:+ pad2 l +:+ " type=" +:+ ty) es) 0
      end
  end.

(** ** Lemmas *)

(** It succeeds exactly when both requests do. *)
Lemma smoke_verdict v es version : en_code (smoke_main v es version) = 0%Z ↔ v = None ∧ ∃ l, es = Ok l.
Proof. destruct v, es; naive_solver. Qed.

Example smoke_lines :
  en_out (smoke_main None (Ok [(6, 5, "*client.TextEntityTypeMention"); (21, 30, "*client.TextEntityTypeUrl")]%Z) "1.8.0") =
    ["libtdjson OK. binding targets TDLib 1.8.0"; "parsed 2 entities from sample text:";
     "  offset= 6 len= 5 type=*client.TextEntityTypeMention"; "  offset=21 len=30 type=*client.TextEntityTypeUrl"].
Proof. reflexivity. Qed.

Lemma mustEnv_ok env k v : mustEnv env k = Ok v ↔ v = env k ∧ env k ≠ "".
Proof.
  unfold mustEnv. destruct (String.eqb_spec (env k) ""); naive_solver.
Qed.

Lemma open_store_started {A B} env resource exporter up service (between : res string B) m (f : B → schema_db → globals → start A) a m' g :
  open_store env resource exporter up service between m f = Started a m' g →
  ∃ b m1 g1, between = Ok b ∧ Migrations.New version_exec up m = (true, m1) ∧ f b m1 g1 = Started a m' g.
Proof.
  unfold open_store. destruct (Setup _ _ _ _ _) as [[c|e] g1]; [|done]. destruct between as [b|e]; [|done].
  destruct (Migrations.New version_exec up m) as [[] m1]; [|done]. intros H. by exists b, m1, g1.
Qed.

Lemma New_key s b : Secret.New s = Ok b → String.length (bx_key b) = 32%nat.
Proof.
  unfold Secret.New. destruct (StdDecode s) as [key|]; [|done]. destruct (Nat.eqb_spec (String.length key) 32); [|done].
  by intros [= <-].
Qed.

Lemma hostname_name host : hostname host ≠ "".
Proof. unfold hostname. destruct host as [h|]; [|done]. by destruct (String.eqb_spec h ""). Qed.

Lemma worker_name env host : worker_envOr env "WORKER_ID" (hostname host) ≠ "".
Proof. unfold worker_envOr, envOr. destruct (String.eqb_spec (env "WORKER_ID") ""); [apply hostname_name|done]. Qed.

Lemma envDur_range env k def : in_int64 def = true → in_int64 (envDur env k def) = true.
Proof.
  unfold envDur. destruct (String.eqb _ _); [done|]. destruct (ParseDuration (env k)) eqn:E; [|done].
  intros _. by eapply ParseDuration_range.
Qed.

(** A refusal before any statement: no token, or none after the scheme. *)
Lemma auth_no_token master up d rq :
  master ≠ "" → url_path (hq_segs rq) ≠ "/healthz" → hq_auth rq = "" ∨ hq_auth rq = "Bearer " →
  ∃ msg, auth master up d rq = Refuse 401 msg.
Proof.
  intros Hm Hp Ha. unfold auth. rewrite (proj2 (String.eqb_neq _ _) Hp).
  destruct Ha as [-> | ->]; [by eexists|]. destruct (String.eqb_spec "Bearer " ""); [done|].
  destruct (String.eqb_spec "Bearer " ("Bearer " +:+ master)) as [E|]; [|by eexists].
  exfalso. apply (f_equal String.length) in E. rewrite length_app_s in E. destruct master; [done|]. simpl in E. lia.
Qed.

(** The grace is spent by the draining alone: a request that takes it all (the
    submit of a login code may wait 40 seconds) leaves none for the handover, and
    the sessions stay with the worker that is gone. *)
Theorem drained_no_handover clock up order workerID down drain c n g :
  (stop_grace <= drain)%Z → nd_db (worker_stop clock up order workerID down drain c n g).1.1 = nd_db n.
Proof.
  intros Hd. unfold worker_stop. rewrite (proj2 (Z.ltb_ge drain stop_grace) Hd). destruct (close down c g) as [r g'].
  cbn [fst]. set (up' := λ i, up i && false).
  assert (Hst : ∀ A (f : Z → db → A * db) w, nd_db (Worker.stmt clock up' f w).2 = nd_db w).
  { intros A f w. destruct (stmt_run clock up' f w) as (t&now&->). unfold up' at 1. by rewrite andb_false_r. }
  set (walk := order (nd_tick n) (elements (dom (nd_held n)))). set (w0 := n_set_stopping true n).
  set (w1 := (abort_pending w0 walk (n_set_tick (S (nd_tick n)) w0)).2). set (w2 := (close_ready w0 walk w1).2).
  set (w3 := (Worker.stmt clock up' (λ now d, ReleaseSessions now workerID d) w2).2).
  change ((Worker.Shutdown clock up' order workerID n).2)
    with (Worker.stmt clock up' (λ _ d, ((), DeregisterWorker workerID d)) w3).2.
  rewrite Hst. unfold w3. rewrite Hst. transitivity (nd_db w1); [exact (close_ready_db w0 walk w1)|].
  exact (abort_pending_db w0 walk _).
Qed.

(** C25: Nothing runs half configured. A gateway that starts has the API token the
    environment names, not an empty one, so a request without one is refused
    whatever the registry holds (the health check GET /healthz, which answers to
    anyone, apart); it takes a worker for live exactly as long as
    the workers do among themselves. A worker that starts has a box made of the
    master key's 32 bytes, a name, and lifetimes that are durations. Either has
    a database at the last version of the schema, whichever of the seven known
    versions (0, the empty database, to 6) it was at. And they do start when the
    required variables are there, the key is one, telemetry is off and the
    database can be reached. *)
Theorem entry_fails_closed env resource exporter up host local k x m :
  (k <= 6)%nat → at_version k x m →
  (∀ c m' g, gateway_main env resource exporter up m = Started c m' g →
     gw_token c = env "API_TOKEN" ∧ gw_stale c = workerStale ∧ (∃ x', at_version 6 x' m') ∧
     ∀ gup d rq, url_path (hq_segs rq) ≠ "/healthz" → hq_auth rq = "" ∨ hq_auth rq = "Bearer " →
       ∃ msg, auth (gw_token c) gup d rq = Refuse 401 msg) ∧
  (∀ c m' g, worker_main env resource exporter up host local m = Started c m' g →
     Secret.New (env "MASTER_KEY") = Ok (wc_box c) ∧ String.length (bx_key (wc_box c)) = 32%nat ∧ wc_id c ≠ "" ∧
     in_int64 (wc_upload_ttl c) = true ∧ in_int64 (wc_send_ttl c) = true ∧ ∃ x', at_version 6 x' m') ∧
  (deployed k x → Enabled env = false → (∀ i, up i = true) → env "DATABASE_URL" ≠ "" →
     (env "API_TOKEN" ≠ "" → ∃ c m' g, gateway_main env resource exporter up m = Started c m' g) ∧
     (∀ b, env "MASTER_KEY" ≠ "" → Secret.New (env "MASTER_KEY") = Ok b →
        ∃ c m' g, worker_main env resource exporter up host local m = Started c m' g)).
Proof.
  intros Hk Hm.
  assert (Hnew : ∀ m1, Migrations.New version_exec up m = (true, m1) → ∃ x', at_version 6 x' m1).
  { intros m1 H. destruct (New_cases version_exec up k x m Hk Hm) as [H'|(x'&m2&H'&_&Hv)]; rewrite H in H'; [done|].
    injection H' as <-. by exists x'. }
  split; [|split].
  - intros c m' g H. unfold gateway_main in H. destruct (mustEnv env "DATABASE_URL") as [dsn|]; [|done].
    destruct (mustEnv env "API_TOKEN") as [token|] eqn:Et; [|done]. apply mustEnv_ok in Et as [-> Hne].
    apply open_store_started in H as (b&m1&g1&_&Hn&[= <- <- <-]). split; [done|]. split; [done|]. split; [by apply Hnew|].
    intros gup d rq. by apply auth_no_token.
  - intros c m' g H. unfold worker_main, worker_mustEnv in H. destruct (mustEnv env "DATABASE_URL") as [dsn|]; [|done].
    destruct (mustEnv env "MASTER_KEY") as [key|] eqn:Et; [|done]. apply mustEnv_ok in Et as [-> Hne].
    apply open_store_started in H as (b&m1&g1&Hb&Hn&[= <- <- <-]). split; [done|].
    split; [by eapply New_key|]. split; [apply worker_name|]. split; [by apply envDur_range|].
    split; [by apply envDur_range|by apply Hnew].
  - intros Hdep He Hup Hdsn. destruct (deployed_sound k x Hk Hdep) as (d'&Hu&_).
    assert (Hst : ∀ A B service (between : res string B) b (f : B → schema_db → globals → start A), between = Ok b →
      ∃ m1, open_store env resource exporter up service between m f = f b m1 fresh_globals).
    { intros A B service between b f ->. unfold open_store, Setup. rewrite He. cbn [negb].
      rewrite (New_up version_exec up k x _ m Hup Hk Hm Hu). by eexists. }
    split.
    + intros Ht. unfold gateway_main. rewrite (proj2 (mustEnv_ok env "DATABASE_URL" _) (conj eq_refl Hdsn)).
      rewrite (proj2 (mustEnv_ok env "API_TOKEN" _) (conj eq_refl Ht)).
      edestruct Hst as [m1 ->]; [reflexivity|]. by eexists _, _, _.
    + intros b Ht Hb. unfold worker_main, worker_mustEnv. rewrite (proj2 (mustEnv_ok env "DATABASE_URL" _) (conj eq_refl Hdsn)).
      rewrite (proj2 (mustEnv_ok env "MASTER_KEY" _) (conj eq_refl Ht)).
      edestruct Hst as [m1 ->]; [exact Hb|]. by eexists _, _, _.
Qed.

(** An environment that names what is required, and a deployment from before
    there were versions. *)
Definition ex_env : environ := λ k,
  match find (λ e, String.eqb e.1 k)
          [("DATABASE_URL", "postgres://db"); ("API_TOKEN", "t0p"); ("MASTER_KEY", "AAAAAAAAAAAAAAAAAAAAAAAAAAAAAAAAAAAAAAAAAAA=");
           ("SEND_TTL", "36h"); ("UPLOAD_TTL", "soon")] with
  | Some e => e.2
  | None => ""
  end.

Lemma entry_fails_closed_witness :
  let m := mkSchemaDb None ex_legacy in
  (ex_env "LISTEN_ADDR", envDur ex_env "SEND_TTL" 0, envDur ex_env "UPLOAD_TTL" (2 * hour)) = ("", 36 * hour, 2 * hour)%Z ∧
  (∃ c m' g, gateway_main ex_env None (λ _, None) (λ _, true) m = Started c m' g) ∧
  (∃ c m' g, worker_main ex_env None (λ _, None) (λ _, true) (Some "host") None m = Started c m' g).
Proof.
  intros m. split; [vm_compute; reflexivity|].
  assert (Hm : at_version 0 ex_legacy m) by done.
  destruct (entry_fails_closed ex_env None (λ _, None) (λ _, true) (Some "host") None 0 ex_legacy m ltac:(lia) Hm) as (_&_&H).
  destruct (H ex_legacy_deployed ltac:(vm_compute; reflexivity) (λ _, eq_refl) ltac:(vm_compute; discriminate)) as [Hg Hw].
  split; [apply Hg; vm_compute; discriminate|].
  apply (Hw (mkBox (zeros 32))); [vm_compute; discriminate|vm_compute; reflexivity].
Defined.
