(* ===== verification/Loops.v ===== *)
(** The waits and the loops of a manager (internal/session/manager.go): how long a
    login call keeps its caller waiting, and what the timers do once the worker
    is stopping. *)

From S2P Require Import Prelude GoStr Json Types Gcm Db Registry Guard Secret Login Worker.


(** ** Waiting for a login to move on *)

(** [internal/session/manager.go#loginWait] *)
Definition loginWait : Z := 20 * second.
(** [internal/session/manager.go#loginAbortWait] *)
Definition loginAbortWait : Z := 10 * second.

Definition poll : Z := 100 * millisecond.

Section wait.
(** The status in each round, and the clock: first when the wait begins, then
    after each look at the status. *)
Context (status : nat → string) (clock : nat → Z).

(** The loop from round [k] on; [None] out of fuel. Gives the status and the
    round it was read in
    [internal/session/manager.go:1398-1407#waitLeave]. *)
Fixpoint waitLeave_from (fuel k : nat) (from : string) (deadline : Z) : option (string * nat) :=
  match fuel with
  | O => None
  | S fuel =>
      let st := status k in
      if negb (String.eqb st from) then Some (st, k)
      else if (deadline <? clock (S k))%Z then Some (st, k)
      else waitLeave_from fuel (S k) from deadline
  end.

(** [internal/session/manager.go#waitLeave] *)
Definition waitLeave (fuel : nat) (from : string) (timeout : Z) : option (string * nat) :=
  waitLeave_from fuel 0 from (clock 0%nat + timeout).

Lemma waitLeave_from_ends fuel k from deadline :
  (∀ i, clock (S i) + poll <= clock (S (S i)))%Z →
  (deadline - clock (S k) < (Z.of_nat fuel - 1) * poll)%Z → (0 < fuel)%nat →
  ∃ st j, waitLeave_from fuel k from deadline = Some (st, j) ∧ (k <= j)%nat ∧ st = status j ∧
    (∀ i, (k <= i < j)%nat → status i = from ∧ (clock (S i) <= deadline)%Z) ∧
    (st ≠ from ∨ (deadline < clock (S j))%Z).
Proof.
  intros Hc. revert k. induction fuel as [|fuel IH]; intros k Hf Hpos; [lia|]. simpl.
  destruct (String.eqb_spec (status k) from) as [Hst|Hst]; cbn [negb].
  2:{ exists (status k), k. split; [done|]. split; [lia|]. split; [done|]. split; [intros i Hi; lia|by left]. }
  destruct (Z.ltb_spec deadline (clock (S k))) as [Hd|Hd].
  { exists (status k), k. split; [done|]. split; [lia|]. split; [done|]. split; [intros i Hi; lia|by right]. }
  specialize (Hc k). destruct fuel as [|fuel]; [lia|].
  destruct (IH (S k)) as (st&j&Hw&Hj&Hs&Hb&He); [lia|lia|]. exists st, j. split; [done|]. split; [lia|]. split; [done|].
  split; [|done]. intros i Hi. destruct (decide (i = k)) as [->|]; [done|]. apply Hb. lia.
Qed.

(** C21: A login call answers in bounded time. If each sleep of 100 ms lasts at
    least that and a round takes at most [gap], the wait for a status to change
    ends after at most timeout / 100 ms + 2 rounds and by timeout + [gap]; it
    gives the first status that is not the one waited on, or, past the deadline,
    that one. *)
Theorem waitLeave_bounded from timeout gap fuel :
  (0 <= timeout)%Z → (∀ i, clock (S i) + poll <= clock (S (S i)) <= clock (S i) + gap)%Z →
  (clock 0%nat <= clock 1%nat <= clock 0%nat + gap)%Z →
  (timeout / poll + 2 <= Z.of_nat fuel)%Z →
  ∃ st j, waitLeave fuel from timeout = Some (st, j) ∧ st = status j ∧
    (Z.of_nat j <= timeout / poll + 1)%Z ∧ (clock (S j) <= clock 0%nat + timeout + gap)%Z ∧
    (∀ i, (i < j)%nat → status i = from) ∧ (st ≠ from ∨ (clock 0%nat + timeout < clock (S j))%Z).
Proof.
  intros Ht Hc H0 Hf. unfold waitLeave. assert (Hp : poll = 100000000%Z) by done.
  pose proof (Z.mul_succ_div_gt timeout poll) as Hdiv. assert (Hf' : (timeout < (timeout / poll + 1) * poll)%Z) by lia.
  destruct (waitLeave_from_ends fuel 0 from (clock 0%nat + timeout)) as (st&j&Hw&_&Hs&Hb&He); [intros i; by apply Hc|nia|lia|].
  exists st, j. split; [done|]. split; [done|].
  assert (Hlow : ∀ i, (clock 1%nat + Z.of_nat i * poll <= clock (S i))%Z).
  { induction i as [|i IHi]; [lia|]. specialize (Hc i). lia. }
  split; [|split; [|split; [|done]]].
  - destruct j as [|j]; [pose proof (Z.div_pos timeout poll Ht); lia|].
    destruct (Hb j) as [_ Hj]; [lia|]. specialize (Hlow j).
    assert (Z.of_nat j * poll <= timeout)%Z by lia. assert (Z.of_nat j <= timeout / poll)%Z by (apply Z.div_le_lower_bound; lia). lia.
  - destruct j as [|j]; [lia|]. destruct (Hb j) as [_ Hj]; [lia|]. specialize (Hc j). lia.
  - intros i Hi. apply Hb. lia.
Qed.
End wait.

(** A login that leaves "connecting" in the third round. *)
Lemma waitLeave_bounded_witness :
  let status := λ i, if (i <? 2)%nat then "connecting" else "awaiting_code" in
  let clock := λ i, (Z.of_nat i * poll)%Z in
  waitLeave status clock 202 "connecting" loginWait = Some ("awaiting_code", 2%nat) ∧
  ∃ st j, waitLeave status clock 202 "connecting" loginWait = Some (st, j) ∧ (clock (S j) <= 0 + loginWait + poll)%Z.
Proof.
  intros status clock. split; [vm_compute; reflexivity|].
  destruct (waitLeave_bounded status clock "connecting" loginWait poll 202) as (st&j&Hw&_&_&Hc&_);
    [vm_compute; discriminate|intros i; unfold clock; lia|unfold clock; split; vm_compute; discriminate|vm_compute; discriminate|].
  exists st, j. split; [exact Hw|exact Hc].
Defined.

(** The wait for an aborted login: [done] is when its goroutine ends, [None] for
    never, the outer [None] when there is no login. Gives when the wait is over
    [internal/session/manager.go#awaitLogin]. *)
Definition awaitLogin (now : Z) (done : option (option Z)) (d : Z) : Z :=
  match done with
  | None => now
  | Some None => (now + Z.max 0 d)%Z
  | Some (Some t) => Z.min (Z.max now t) (now + Z.max 0 d)
  end.

Lemma awaitLogin_bounded now done : (now <= awaitLogin now done loginAbortWait <= now + loginAbortWait)%Z.
Proof. assert (loginAbortWait = 10000000000%Z) by done. destruct done as [[t|]|]; unfold awaitLogin; lia. Qed.

(** ** The timers *)

Section timers.
Context (clock : nat → Z) (up : nat → bool).
Context (opens : nat → tdParams → option AddProxyRequest → option gerr).
Context (order : nat → list string → list string) (quote : string → string).
Context (box : Box) (workerID selfAddr : string) (capacity : Z).

(** The ticks of a timer: each first looks whether the worker is stopping, and
    then the loop ends. *)
Fixpoint ticks (body : N ()) (n : nat) : N () :=
  match n with
  | O => nret ()
  | S n => nbind nget (λ w, if nd_stopping w then nret () else nbind body (λ _, ticks body n))
  end.

(** The first beat asks nobody [internal/session/manager.go#runHeartbeat]. *)
Definition runHeartbeat (n : nat) : N () :=
  nbind (Worker.stmt clock up (λ now d, ((), RegisterWorker now workerID selfAddr d))) (λ _,
    ticks (beat clock up workerID selfAddr) n).

(** [internal/session/manager.go#runReconciler] *)
Definition runReconciler (locked : nat → gset string) (n : nat) : N () :=
  nbind (reconcile clock up opens order quote box workerID capacity locked) (λ _,
    ticks (reconcile clock up opens order quote box workerID capacity locked) n).

Lemma ticks_stopped body n w : nd_stopping w = true → ticks body n w = ((), w).
Proof. intros H. destruct n as [|n]; [done|]. simpl. unfold nbind, nget. simpl. by rewrite H. Qed.
End timers.
