(* ===== verification/Failover.v ===== *)
(** Failing over (internal/session/manager.go reconcile, runHeartbeat): when the
    other workers are gone, the one that is left takes over whatever can be
    reopened from disk. Each round of a beat and a pass claims up to eight of the
    sessions nobody live owns, so that all are served within a number of rounds
    that is known beforehand. *)

From S2P Require Import Prelude GoStr Json Types Gcm Db Registry Guard Subs Integrity Secret Login Worker.

(** ** Rows that stay as they are *)

(** What a row is to the reconciler. *)
Definition essence (s : session_row) : option string * bool * Rehydratable := (s_worker s, hydratable s, to_rehydratable ("", s)).

Definition same_rows (d d' : db) : Prop := alike essence (sessions d) (sessions d').

(** The tables an opening reads. *)
Definition same_tables (d d' : db) : Prop := apps d' = apps d ∧ proxies d' = proxies d.

#[export] Instance same_rows_preorder : PreOrder same_rows.
Proof. split; [by intros d k|]. intros d1 d2 d3 H1 H2 k. by rewrite H2, H1. Qed.

Lemma same_row d d' k s' : same_rows d d' → sessions d' !! k = Some s' → ∃ s, sessions d !! k = Some s ∧ essence s' = essence s.
Proof. apply alike_some. Qed.

Lemma same_row_back d d' k s : same_rows d d' → sessions d !! k = Some s → ∃ s', sessions d' !! k = Some s' ∧ essence s' = essence s.
Proof. intros H Hs. specialize (H k). rewrite Hs in H. destruct (sessions d' !! k) as [s'|]; [|done]. exists s'. split; [done|]. by apply (inj Some). Qed.

Lemma essence_id s s' k : essence s' = essence s → to_rehydratable (k, s') = to_rehydratable (k, s).
Proof. unfold essence, to_rehydratable. cbn. by intros [= _ _ -> -> -> -> ->]. Qed.

(** Mirroring the status of a session that could be reopened changes nothing to
    that. *)
Lemma same_rows_status now sid d :
  (∀ s, sessions d !! sid = Some s → hydratable s = true) → same_rows d (UpdateSessionStatus now sid "authorized" d).
Proof.
  intros H k. simpl. destruct (decide (k = sid)) as [->|]; [|by rewrite lookup_alter_ne]. rewrite lookup_alter_eq.
  destruct (sessions d !! sid) as [s|]; [|done]. specialize (H s eq_refl). cbn. f_equal. unfold essence. f_equal. f_equal.
  rewrite H. unfold hydratable in *. cbn in *. by destruct (s_db_dir s), (s_db_key_enc s); rewrite ?andb_false_r in H.
Qed.

Lemma same_rows_reap now cutoff grace d : same_rows d (ExpireStaleLogins now cutoff grace d).2.
Proof.
  intros k. simpl. rewrite lookup_update_where. destruct (sessions d !! k) as [s|]; [|done]. cbn.
  destruct (stale_login d cutoff grace now s) eqn:E; [|done]. f_equal. unfold essence. f_equal. f_equal.
  unfold stale_login, waiting in E. apply andb_true_iff in E as [[E _]%andb_true_iff _]. unfold hydratable.
  destruct (String.eqb (s_status s) "authorized") eqn:Es; [|done]. apply String.eqb_eq in Es. by rewrite Es in E.
Qed.

(** ** Counting rows *)

(** Rows named by [l] that are counted before and not after. *)
Lemma affected_drop {A} (P Q : A → bool) (m m' : gmap string A) (l : list string) :
  NoDup l → (∀ k, k ∈ l → ∃ a, m !! k = Some a ∧ P a = true) →
  (∀ k b, m' !! k = Some b → Q b = true → k ∉ l ∧ ∃ a, m !! k = Some a ∧ P a = true) →
  (affected (λ _, Q) m' + length l <= affected (λ _, P) m)%nat.
Proof.
  intros Hnd Hl Hq. unfold affected. rewrite <- (length_fmap fst (select (λ _, Q) m')), <- (length_fmap fst (select (λ _, P) m)), <- length_app.
  apply submseteq_length, NoDup_submseteq.
  - apply NoDup_app. split; [apply NoDup_select|]. split; [|done]. intros k ([k' b]&->&[Hb HQ]%elem_of_select)%list_elem_of_fmap. by eapply Hq.
  - assert (Hin : ∀ k a, m !! k = Some a → P a = true → k ∈ (select (λ _, P) m).*1).
    { intros k a Ha Hp. apply list_elem_of_fmap. exists (k, a). split; [done|]. by apply elem_of_select. }
    intros k [([k' b]&->&[Hb HQ]%elem_of_select)%list_elem_of_fmap|Hk]%elem_of_app.
    + destruct (Hq k' b Hb HQ) as [_ (a&Ha&Hp)]. by eapply Hin.
    + destruct (Hl k Hk) as (a&Ha&Hp). by eapply Hin.
Qed.

Lemma affected_same {A B} (f : A → B) (P : B → bool) (m m' : gmap string A) :
  alike f m m' → affected (λ _ a, P (f a)) m' = affected (λ _ a, P (f a)) m.
Proof.
  intros Hs. apply Nat.le_antisymm.
  - rewrite <- (Nat.add_0_r (affected _ m)). change 0%nat with (length (@nil string)). apply affected_le. intros k b Hb Hp. left.
    destruct (alike_some f m m' k b Hs Hb) as (a&Ha&E). exists a. by rewrite <- E.
  - rewrite <- (Nat.add_0_r (affected _ m')). change 0%nat with (length (@nil string)). apply affected_le. intros k a Ha Hp. left.
    pose proof (Hs k) as H. rewrite Ha in H. destruct (m' !! k) as [b|]; [|done]. exists b. split; [done|]. by apply (inj Some) in H as ->.
Qed.

Lemma affected_one {A} (P : A → bool) (m : gmap string A) k : (∀ x, (∃ a, m !! x = Some a ∧ P a = true) ↔ x = k) → affected (λ _, P) m = 1%nat.
Proof.
  intros H. destruct (proj2 (H k) eq_refl) as (a&Ha&Hp). apply Nat.le_antisymm.
  - change 1%nat with (affected (λ _ (_ : A), true) (∅ : gmap string A) + length [k])%nat. apply affected_le. intros x b Hb Hq. right.
    apply list_elem_of_singleton, H. by exists b.
  - pose proof (affected_drop P (λ _, true) m ∅ [k]) as Hd. change (length [k]) with 1%nat in Hd. etrans; [|apply Hd].
    + lia.
    + apply NoDup_singleton.
    + intros x ->%list_elem_of_singleton. by exists a.
    + intros x b Hb. by rewrite lookup_empty in Hb.
Qed.

Section failover.
Context (clock : nat → Z) (up : nat → bool).
Context (opens : nat → tdParams → option AddProxyRequest → option gerr).
Context (order : nat → list string → list string) (quote : string → string).
Context (box : Box) (workerID selfAddr : string) (capacity : Z).

Notation hydrate := (hydrate clock up opens quote box).
Notation reconcile := (reconcile clock up opens order quote box workerID capacity).
Notation beat := (beat clock up workerID selfAddr).

(** ** What an opening needs *)

Definition proxy_ok (d : db) (pid : string) : Prop :=
  pid = "" ∨ ∃ p, GetProxy pid d = Ok p ∧ Px_Type p ∈ proxy_types ∧
    match Px_SecretEnc p with Some ct => ct = "" ∨ ∃ x, decrypt box ct = Ok x | None => True end.

Definition openable (d : db) (r : Rehydratable) : Prop :=
  (∃ app hash, GetApp (rh_app r) d = Ok app ∧ decrypt box (App_HashEnc app) = Ok hash) ∧
  proxy_ok d (rh_proxy r) ∧ ∃ key, decrypt box (rh_db_key_enc r) = Ok key.

Lemma openable_tables d d' r : same_tables d d' → openable d r → openable d' r.
Proof. unfold openable, proxy_ok, GetApp, GetProxy. by intros [-> ->]. Qed.

(** The registry answers and TDLib opens. *)
Context (up_always : ∀ i, up i = true) (opens_all : ∀ i p x, opens i p x = None).

Lemma read_ok {A} (f : db → Prelude.res dberr A) a w : f (nd_db w) = Ok a →
  ∃ t, read clock up f w = (Ok a, n_set_tick t w).
Proof.
  intros Hf. unfold read, nbind. destruct (stmt_run clock up (λ _ d, (f d, d)) w) as (t&now&->). rewrite up_always. cbn.
  exists t. by rewrite Hf.
Qed.

Lemma proxyRequest_ok pid w : proxy_ok (nd_db w) pid → ∃ t px, proxyRequest clock up quote box pid w = (Ok px, n_set_tick t w).
Proof.
  intros Hp. unfold proxyRequest. destruct (String.eqb_spec pid "") as [->|Hne].
  { exists (nd_tick w), None. by destruct w. }
  destruct Hp as [|(p&Hp&Ht&Hs)]; [done|]. destruct (read_ok _ _ _ Hp) as [t Et]. unfold nbind. rewrite Et. cbn [fst snd].
  assert (Hsec : ∃ sec, match Px_SecretEnc p with Some ct => if String.eqb ct "" then Ok "" else decrypt box ct | None => Ok "" end = Ok sec).
  { destruct (Px_SecretEnc p) as [ct|]; [|by eexists]. destruct (String.eqb_spec ct "") as [|]; [by eexists|]. naive_solver. }
  destruct Hsec as [sec ->]. exists t. unfold proxy_types in Ht.
  repeat (apply elem_of_cons in Ht as [->|Ht]; [by eexists|]). by apply not_elem_of_nil in Ht.
Qed.

(** ** Opening a list *)

(** The sessions [ids] become usable, nothing else changes. *)
Record opening (ids : list string) (w w' : node) : Prop := mkOpening {
  og_run : nd_stopping w' = nd_stopping w;
  og_retry : nd_retry w' = ∅;
  og_workers : workers (nd_db w') = workers (nd_db w);
  og_tables : same_tables (nd_db w) (nd_db w');
  og_rows : same_rows (nd_db w) (nd_db w');
  og_held : ∀ k, k ∉ ids → nd_held w' !! k = nd_held w !! k;
  og_ready : ∀ k, k ∈ ids → ready w' k = true;
}.

Lemma opening_none t w : nd_retry w = ∅ → opening [] w (n_set_tick t w).
Proof. intros Hr. by split; try (intros k ?%not_elem_of_nil). Qed.

Lemma opening_app ids1 ids2 w w1 w2 : opening ids1 w w1 → opening ids2 w1 w2 → opening (ids1 ++ ids2) w w2.
Proof.
  intros [A1 A2 A3 [A4 A5] A6 A7 A8] [B1 B2 B3 [B4 B5] B6 B7 B8]. split; [congruence|done|congruence|split; congruence|by etrans|..].
  - intros k Hk. rewrite B7, A7; [done|set_solver..].
  - intros k [Hk|Hk]%elem_of_app; [|by apply B8]. destruct (decide (k ∈ ids2)) as [|Hn]; [by apply B8|].
    rewrite (ready_held w1); [by apply A8|by apply B7].
Qed.

Lemma setClient_ready s : readyClient (setClient s) = true.
Proof.
  unfold readyClient, setClient, setStatus. cbn. destruct (String.eqb (lv_status s) "authorized") eqn:E; [|done]. cbn. by rewrite E.
Qed.

Lemma open_done_opens sid w :
  nd_retry w = ∅ → is_Some (nd_held w !! sid) → (∀ s, sessions (nd_db w) !! sid = Some s → hydratable s = true) →
  opening [sid] w (open_done clock up sid w).2.
Proof.
  intros Hr [h Hh] Hs. unfold open_done, nbind, clearRetry, nupd, nret. cbn [fst snd]. set (w1 := n_set_held _ _).
  destruct (stmt_run clock up (λ now d, ((), UpdateSessionStatus now sid "authorized" d)) w1) as (t&now&->).
  rewrite up_always. cbn [fst snd]. split; try done.
  - cbn. rewrite Hr. by apply delete_id.
  - by apply same_rows_status.
  - intros k Hk. cbn. rewrite lookup_alter_ne; [done|set_solver].
  - intros k ->%list_elem_of_singleton. unfold ready. cbn [n_set_tick n_set_db nd_held w1 n_set_held n_set_retry].
    rewrite lookup_alter_eq, Hh. apply setClient_ready.
Qed.

Lemma hydrate_opens r w :
  nd_retry w = ∅ → openable (nd_db w) r → (∀ s, sessions (nd_db w) !! rh_id r = Some s → hydratable s = true) →
  opening [rh_id r] w (hydrate r w).2.
Proof.
  intros Hr ((app&hash&Happ&Hhash)&Hpx&key&Hkey) Hs. unfold Worker.hydrate, retryReady, nbind, nask, nget, nret. cbn [fst snd].
  cbn [nd_retry n_set_tick]. rewrite Hr, lookup_empty. unfold rehydrateOne, nbind at 1.
  destruct (read_ok (GetApp (rh_app r)) app (n_set_tick (S (nd_tick w)) w) Happ) as [t1 ->]. cbn [fst snd]. rewrite Hhash.
  unfold nbind at 1. destruct (proxyRequest_ok (rh_proxy r) (n_set_tick t1 (n_set_tick (S (nd_tick w)) w)) Hpx) as (t2&px&->).
  cbn [fst snd]. rewrite Hkey. unfold nbind, put, nupd, nask, nret. cbn [fst snd]. rewrite opens_all.
  set (w1 := n_set_held _ _).
  destruct (refresh_run clock up (rh_id r) (new_held (rh_kind r)) w1) as (t3&sn&Ew&_); [apply lookup_insert_eq|].
  assert (H2 : nd_held (RefreshSubscriptions clock up (rh_id r) w1).2 !! rh_id r = Some (h_set_subs sn (new_held (rh_kind r)))).
  { rewrite Ew. cbn. by rewrite lookup_alter_eq, lookup_insert_eq. }
  destruct (guard_run clock up _ _ _ H2) as (t4&now&ok&Eg). rewrite Eg, Ew.
  set (g := loadGuard now _ ok _ _) in *. set (w2 := n_set_tick _ (n_log _ _)).
  destruct (open_done_opens (rh_id r) w2) as [A1 A2 A3 A4 A5 A6 A7].
  - exact Hr.
  - cbn. rewrite !lookup_alter_eq, lookup_insert_eq. by eexists.
  - exact Hs.
  - split; [exact A1|exact A2|exact A3|exact A4|exact A5| |exact A7]. intros k Hk. rewrite A6 by done. cbn.
    assert (k ≠ rh_id r) by set_solver. by rewrite !lookup_alter_ne, lookup_insert_ne.
Qed.

(** Rows that can be reopened. *)
Definition fit (d : db) (r : Rehydratable) : Prop :=
  openable d r ∧ ∀ s, sessions d !! rh_id r = Some s → hydratable s = true.

Lemma fit_stays ids w w' r : opening ids w w' → fit (nd_db w) r → fit (nd_db w') r.
Proof.
  intros Ho [H1 H2]. split; [eapply openable_tables; [apply Ho|done]|]. intros s' Hs'.
  destruct (same_row _ _ _ _ (og_rows _ _ _ Ho) Hs') as (s&Hs&E). specialize (H2 s Hs). unfold essence in E. congruence.
Qed.

Lemma hydrate_all rs w : nd_retry w = ∅ → Forall (fit (nd_db w)) rs → opening (rh_id <$> rs) w (neach hydrate rs w).2.
Proof.
  intros Hr Hf. revert w Hr Hf. induction rs as [|r rs IH]; intros w Hr Hf; [destruct w as [t]; by apply (opening_none t)|].
  apply Forall_cons in Hf as [[H1 H2] Hf]. cbn [neach]. unfold nbind. cbn [fst snd].
  pose proof (hydrate_opens r w Hr H1 H2) as Ho. change (rh_id <$> r :: rs) with ([rh_id r] ++ (rh_id <$> rs)).
  eapply opening_app; [exact Ho|]. apply IH; [apply Ho|]. eapply Forall_impl; [exact Hf|]. intros x. by eapply fit_stays.
Qed.

(** ** The last worker *)

(** A session that could be reopened and is not this worker's. *)
Definition unowned (s : session_row) : bool := hydratable s && negb (opt_eqb (s_worker s) workerID).
Definition left_over (d : db) : nat := affected (λ _, unowned) (sessions d).

(** A worker running alone: its peers are gone for longer than the window, what
    is on disk can be opened, and it has room. *)
Record alone (w : node) : Prop := mkAlone {
  al_run : nd_stopping w = false;
  al_retry : nd_retry w = ∅;
  al_peers : ∀ x r i, workers (nd_db w) !! x = Some r → x ≠ workerID → (w_seen r <= clock i - workerStale)%Z;
  al_open : ∀ k s, sessions (nd_db w) !! k = Some s → hydratable s = true → openable (nd_db w) (to_rehydratable (k, s));
  al_held : ∀ k s, sessions (nd_db w) !! k = Some s → hydratable s = true → is_Some (nd_held w !! k) →
    ready w k = true ∧ s_worker s = Some workerID;
  al_room : (Z.of_nat (size (dom (nd_held w) ∪ dom (sessions (nd_db w)))) <= capacity)%Z;
}.

(** Everything it owns is usable. *)
Definition served (w : node) : Prop :=
  ∀ k s, sessions (nd_db w) !! k = Some s → hydratable s = true → s_worker s = Some workerID → ready w k = true.

Lemma alone_opening ids w w' :
  alone w → opening ids w w' →
  (∀ k, k ∈ ids → ∃ s, sessions (nd_db w) !! k = Some s ∧ s_worker s = Some workerID) → alone w'.
Proof.
  intros [A1 A2 A3 A4 A5 A6] [O1 O2 O3 O4 O5 O6 O7] Hids. split; [congruence|done|..].
  - intros x r i. rewrite O3. apply A3.
  - intros k s' Hs' Hh. destruct (same_row _ _ _ _ O5 Hs') as (s&Hs&E). rewrite (essence_id _ _ k E).
    eapply openable_tables; [exact O4|]. apply A4; [done|]. unfold essence in E. congruence.
  - intros k s' Hs' Hh Hheld. destruct (same_row _ _ _ _ O5 Hs') as (s&Hs&E). assert (hydratable s = true) by (unfold essence in E; congruence).
    destruct (decide (k ∈ ids)) as [Hk|Hk].
    + split; [by apply O7|]. destruct (Hids k Hk) as (s2&Hs2&Hw). unfold essence in E. congruence.
    + rewrite O6 in Hheld by done. destruct (A5 k s) as [Hr Hw]; [done..|]. split; [by rewrite (ready_held w w' k (O6 k Hk))|].
      unfold essence in E. congruence.
  - etrans; [|exact A6]. apply inj_le, subseteq_size. intros k. rewrite !elem_of_union, !elem_of_dom.
    assert (Hrow : is_Some (sessions (nd_db w') !! k) → is_Some (sessions (nd_db w) !! k)).
    { intros [s' Hs']. destruct (same_row _ _ _ _ O5 Hs') as (s&Hs&_). by exists s. }
    intros [H|H]; [|auto]. destruct (decide (k ∈ ids)) as [Hk|Hk]; [|rewrite O6 in H; auto].
    right. destruct (Hids k Hk) as (s&Hs&_). by exists s.
Qed.

Lemma served_opening ids w w' : opening ids w w' →
  (∀ k s, sessions (nd_db w) !! k = Some s → hydratable s = true → s_worker s = Some workerID → k ∈ ids ∨ ready w k = true) → served w'.
Proof.
  intros [O1 O2 O3 O4 O5 O6 O7] H k s' Hs' Hh Hw. destruct (same_row _ _ _ _ O5 Hs') as (s&Hs&E). unfold essence in E.
  destruct (decide (k ∈ ids)) as [|Hk]; [by apply O7|]. rewrite (ready_held w w' k (O6 k Hk)).
  destruct (H k s); [done|congruence|congruence|done|done].
Qed.

Lemma left_over_opening ids w w' : opening ids w w' → left_over (nd_db w') = left_over (nd_db w).
Proof.
  intros Ho. unfold left_over. exact (affected_same essence (λ e, e.1.2 && negb (opt_eqb e.1.1 workerID)) _ _ (og_rows _ _ _ Ho)).
Qed.

(** Of all workers only this one counts as live. *)
Definition only_live (cutoff : Z) (d : db) : Prop := ∀ x, Registry.live d cutoff x = true ↔ x = workerID.

Lemma only_live_orphan cutoff d s : only_live cutoff d → orphan d cutoff s = unowned s.
Proof.
  intros Hl. unfold orphan, unowned. f_equal. f_equal. destruct (s_worker s) as [x|]; [|done]. cbn.
  apply eq_iff_eq_true. rewrite (Hl x). by rewrite String.eqb_eq.
Qed.

Lemma only_live_stays cutoff ids w w' : opening ids w w' → only_live cutoff (nd_db w) → only_live cutoff (nd_db w').
Proof. intros Ho Hl x. rewrite (live_workers (nd_db w)); [apply Hl|apply Ho]. Qed.

(** ** A pass, step by step *)

Lemma reap_alone cutoff w : nd_retry w = ∅ → opening [] w (reap clock up cutoff w).2.
Proof.
  intros Hr. unfold reap, nbind, nret. cbn [fst snd].
  destruct (stmt_run clock up (λ now d, ExpireStaleLogins now cutoff staleLoginGrace d) w) as (t&now&->). rewrite up_always. cbn [snd].
  split; try done; [apply same_rows_reap|by intros k ?%not_elem_of_nil].
Qed.

Lemma fence_alone cutoff w : only_live cutoff (nd_db w) → ∃ t, (fence clock up workerID cutoff w).2 = n_set_tick t w.
Proof.
  intros Hl. unfold fence, nbind at 1, nget. cbn [fst snd]. unfold nbind at 1.
  destruct (stmt_run clock up (λ _ d, (ForeignOwned workerID (elements (dom (nd_held w))) cutoff d, d)) w) as (t&now&->).
  rewrite up_always. cbn [fst snd]. exists t.
  assert (Hn : ForeignOwned workerID (elements (dom (nd_held w))) cutoff (nd_db w) = []).
  { unfold ForeignOwned. destruct (bool_decide _); [done|]. apply elem_of_nil_inv. intros k ([k' s]&->&[_ Hf]%elem_of_select)%list_elem_of_fmap.
    apply andb_true_iff in Hf as [_ Hf]. destruct (s_worker s) as [x|]; [|done]. bool_props. destruct Hf as [Hne Hx]. by apply Hl in Hx. }
  by rewrite Hn.
Qed.

Lemma adopt_each rs w : nd_retry w = ∅ → Forall (fit (nd_db w)) rs →
  ∃ ids, opening ids w (neach (λ r, let+ w := nget in if has (rh_id r) (nd_held w) then nret () else hydrate r) rs w).2 ∧
    ids ⊆ rh_id <$> rs ∧ ∀ k, k ∈ rh_id <$> rs → k ∈ ids ∨ is_Some (nd_held w !! k).
Proof.
  revert w. induction rs as [|r rs IH]; intros w Hr Hf.
  { exists []. split; [destruct w as [t]; by apply (opening_none t)|]. split; [done|by intros k ?%not_elem_of_nil]. }
  apply Forall_cons in Hf as [[H1 H2] Hf]. cbn [neach]. unfold nbind at 1 2, nget. cbn [fst snd].
  destruct (has (rh_id r) (nd_held w)) eqn:Eh.
  - destruct (IH w Hr Hf) as (ids&Ho&Hsub&Hall). exists ids. split; [exact Ho|]. split; [set_solver|].
    intros k [->|Hk]%elem_of_cons; [right; by apply has_spec|by apply Hall].
  - pose proof (hydrate_opens r w Hr H1 H2) as Ho1. set (w1 := (hydrate r w).2) in *.
    destruct (IH w1 (og_retry _ _ _ Ho1)) as (ids&Ho&Hsub&Hall); [eapply Forall_impl; [exact Hf|intros x; by eapply fit_stays]|].
    exists ([rh_id r] ++ ids). split; [by eapply opening_app|]. split; [set_solver|].
    intros k [->|Hk]%elem_of_cons; [left; set_solver|]. destruct (decide (k = rh_id r)) as [->|Hne]; [left; set_solver|].
    destruct (Hall k Hk) as [|Hh]; [left; set_solver|]. right. rewrite (og_held _ _ _ Ho1) in Hh; [done|set_solver].
Qed.

Lemma fit_row w k s : alone w → sessions (nd_db w) !! k = Some s → hydratable s = true → fit (nd_db w) (to_rehydratable (k, s)).
Proof. intros Ha Hs Hh. split; [by apply (al_open w Ha)|]. intros s' Hs'. cbn in Hs'. congruence. Qed.

Lemma adopt_alone w : alone w → ∃ ids, opening ids w (adopt clock up opens quote box workerID w).2 ∧
  (∀ k, k ∈ ids → ∃ s, sessions (nd_db w) !! k = Some s ∧ s_worker s = Some workerID) ∧
  ∀ k s, sessions (nd_db w) !! k = Some s → hydratable s = true → s_worker s = Some workerID → k ∈ ids ∨ ready w k = true.
Proof.
  intros Ha. unfold adopt, nbind at 1. destruct (stmt_run clock up (λ _ d, (ListOwned workerID d, d)) w) as (t&now&->).
  rewrite up_always. cbn [fst snd]. set (w1 := n_set_tick t _).
  assert (Hin : ∀ r, r ∈ ListOwned workerID (nd_db w) ↔ ∃ k s, r = to_rehydratable (k, s) ∧ sessions (nd_db w) !! k = Some s ∧
    hydratable s = true ∧ s_worker s = Some workerID).
  { intros r. unfold ListOwned. rewrite list_elem_of_fmap. split.
    - intros ([k s]&->&[Hs H]%elem_of_select). apply andb_true_iff in H as [Hw%opt_eqb_spec Hh]. by exists k, s.
    - intros (k&s&->&Hs&Hh&Hw). exists (k, s). split; [done|]. apply elem_of_select. split; [done|]. rewrite Hh, andb_true_r.
      by apply opt_eqb_spec. }
  destruct (adopt_each (ListOwned workerID (nd_db w)) w1) as (ids&Ho&Hsub&Hall); [apply (al_retry w Ha)| |].
  { apply Forall_forall. intros r (k&s&->&Hs&Hh&_)%Hin. exact (fit_row w k s Ha Hs Hh). }
  exists ids. split; [|split].
  - by destruct Ho.
  - intros k Hk%Hsub. apply list_elem_of_fmap in Hk as (r&->&(k&s&->&Hs&_&Hw)%Hin). by exists s.
  - intros k s Hs Hh Hw. destruct (Hall k) as [|Hheld]; [|by left|].
    + apply list_elem_of_fmap. exists (to_rehydratable (k, s)). split; [done|]. apply Hin. by exists k, s.
    + right. by apply (al_held w Ha k s).
Qed.

(** The sessions left over fit in the share and in the room there is. *)
Lemma left_over_share d : (left_over d + mine_of workerID d <= affected (λ _ s, authorized s) (sessions d))%nat.
Proof.
  unfold mine_of. set (l := (select (λ _ s, owned_authorized workerID s) (sessions d)).*1).
  replace (affected (λ _ s, owned_authorized workerID s) (sessions d)) with (length l) by (unfold l; by rewrite length_fmap).
  apply (affected_drop authorized unowned); [apply NoDup_select|..].
  - intros k ([k' s]&->&[Hs Ho]%elem_of_select)%list_elem_of_fmap. exists s. split; [done|]. unfold owned_authorized in Ho. cbn in *. by apply andb_true_iff in Ho as [_ ?].
  - intros k s Hs Hu. unfold unowned in Hu. apply andb_true_iff in Hu as [Hh Hw%negb_true_iff]. split.
    + intros ([k' s']&->&[Hs' Ho]%elem_of_select)%list_elem_of_fmap. cbn in *. simplify_eq. unfold owned_authorized in Ho. by rewrite Hw in Ho.
    + exists s. split; [done|]. by apply andb_true_iff in Hh as [[Hst _]%andb_true_iff _].
Qed.

Lemma left_over_room w : alone w → (Z.of_nat (left_over (nd_db w)) <= capacity - Z.of_nat (size (nd_held w)))%Z.
Proof.
  intros Ha. etrans; [|apply Z.sub_le_mono_r, (al_room w Ha)]. set (d := nd_db w). set (X := dom (nd_held w)).
  set (L := list_to_set (select (λ _, unowned) (sessions d)).*1 : gset string).
  assert (HL : size L = left_over d) by (unfold L; rewrite size_list_to_set by apply NoDup_select; by rewrite length_fmap).
  assert (Hdis : X ## L).
  { intros k Hk%elem_of_dom Hl. apply elem_of_list_to_set, list_elem_of_fmap in Hl as ([k' s]&->&[Hs Hu]%elem_of_select). cbn in *.
    unfold unowned in Hu. apply andb_true_iff in Hu as [Hh Hw%negb_true_iff]. destruct (al_held w Ha k' s Hs Hh Hk) as [_ Hw'].
    apply opt_eqb_spec in Hw'. congruence. }
  assert (Hle : (size (X ∪ L) <= size (X ∪ dom (sessions d)))%nat).
  { apply subseteq_size, union_mono_l. intros k Hl. apply elem_of_list_to_set, list_elem_of_fmap in Hl as ([k' s]&->&[Hs _]%elem_of_select).
    apply elem_of_dom. by exists s. }
  rewrite size_union in Hle by done. rewrite HL in Hle. unfold X in *. rewrite size_dom in Hle. lia.
Qed.

Notation balance := (balance clock up opens order quote box workerID capacity (λ _, ∅)).

Lemma balance_takes cutoff w : alone w → only_live cutoff (nd_db w) →
  (left_over (nd_db w) = 0%nat ∧ ∃ t, (balance cutoff w).2 = n_set_tick t w) ∨
  ∃ limit now t, let c := ClaimOrphans now ∅ workerID cutoff limit (nd_db w) in
    (Nat.min 8 (left_over (nd_db w)) <= limit)%nat ∧
    (balance cutoff w).2 = (neach hydrate c.1 (n_set_tick t (n_set_db (λ _, c.2) w))).2.
Proof.
  intros Ha Hl. pose proof (left_over_share (nd_db w)) as Hshare. pose proof (left_over_room w Ha) as Hroom.
  set (O := left_over (nd_db w)) in *. destruct (balance cutoff w) as [u w'] eqn:Eb. cbn [snd].
  unfold Worker.balance, nbind at 1 in Eb.
  destruct (stmt_run clock up (λ _ d, (WorkerLoad workerID cutoff d, d)) w) as (t&now&Er). rewrite Er in Eb. clear Er.
  rewrite up_always in Eb. cbv beta iota zeta delta [fst snd nbind nget] in Eb. unfold WorkerLoad in Eb.
  rewrite (affected_one (λ r, (cutoff <? w_seen r)%Z) (workers (nd_db w)) workerID) in Eb.
  2:{ intros x. rewrite <- (Hl x). unfold Registry.live. destruct (workers (nd_db w) !! x); naive_solver. }
  change (affected (λ _ s, owned_authorized workerID s) (sessions (nd_db w))) with (mine_of workerID (nd_db w)) in Eb.
  set (mine := mine_of workerID (nd_db w)) in *. set (total := affected _ _) in *.
  assert (Hfair : fair_share total 1 = Z.of_nat total) by (unfold fair_share; cbn; rewrite Z.div_1_r; lia). rewrite Hfair in Eb. clear Hfair.
  change (nd_held (n_set_tick t (n_set_db (λ _, nd_db w) w))) with (nd_held w) in Eb.
  clearbody mine total O. destruct (Z.ltb_spec (Z.of_nat total) (Z.of_nat mine)); [lia|].
  destruct (Z.ltb_spec (Z.of_nat mine) (Z.of_nat total)); [|left; split; [lia|]; injection Eb as _ <-; by exists t].
  destruct (Z.ltb_spec (Z.of_nat (size (nd_held w))) capacity); [|left; split; [lia|]; injection Eb as _ <-; by exists t]. cbn [andb] in Eb.
  unfold claimBatch in Eb. set (limit := Z.min _ (capacity - _)) in *.
  assert (Hlim : (Z.min 8 (Z.of_nat O) <= limit)%Z) by lia. clearbody limit.
  destruct (Z.leb_spec limit 0); [left; split; [lia|]; injection Eb as _ <-; by exists t|].
  destruct (stmt_run clock up (λ now d, ClaimOrphans now ∅ workerID cutoff (Z.to_nat limit) d) (n_set_tick t (n_set_db (λ _, nd_db w) w)))
    as (t'&now'&Er). rewrite Er in Eb. rewrite up_always in Eb. right. exists (Z.to_nat limit), now', t'. split; [lia|].
  exact (eq_sym (f_equal snd Eb)).
Qed.

(** What a row keeps when its owner changes. *)
Definition core (s : session_row) : bool * Rehydratable := (hydratable s, to_rehydratable ("", s)).
Definition same_cores (d d' : db) : Prop := alike core (sessions d) (sessions d').

#[local] Instance same_cores_preorder : PreOrder same_cores.
Proof. split; [by intros d k|]. intros d1 d2 d3 H1 H2 k. by rewrite H2, H1. Qed.

Lemma same_rows_cores d d' : same_rows d d' → same_cores d d'.
Proof.
  intros H k. specialize (H k). destruct (sessions d !! k), (sessions d' !! k); try done. apply (inj Some) in H. cbn. f_equal.
  unfold essence in H. unfold core. congruence.
Qed.

Lemma claim_cores now busy cutoff limit d : same_cores d (ClaimOrphans now busy workerID cutoff limit d).2.
Proof. intros k. rewrite ClaimOrphans_session. destruct (decide _); by destruct (sessions d !! k). Qed.

(** A row after a claim, and the row it was. *)
Lemma claim_back now busy cutoff limit d k s : sessions (ClaimOrphans now busy workerID cutoff limit d).2 !! k = Some s →
  ∃ s0, sessions d !! k = Some s0 ∧ hydratable s = hydratable s0 ∧ to_rehydratable (k, s) = to_rehydratable (k, s0) ∧
    (k ∈ (claim_rows busy cutoff limit d).*1 ∧ s_worker s = Some workerID ∨ k ∉ (claim_rows busy cutoff limit d).*1 ∧ s = s0).
Proof.
  rewrite ClaimOrphans_session. destruct (sessions d !! k) as [s0|]; [|done]. intros [= <-]. exists s0. destruct (decide _); naive_solver.
Qed.

Lemma claimed_unowned busy cutoff limit d k : only_live cutoff d → k ∈ (claim_rows busy cutoff limit d).*1 →
  ∃ s, sessions d !! k = Some s ∧ unowned s = true.
Proof. intros Hl (s&Hs&Ho&_)%claim_row_orphan. exists s. split; [done|]. by rewrite <- (only_live_orphan cutoff d). Qed.

(** Nothing claimed was held, so the claimer still holds its own. *)
Lemma alone_claim now cutoff limit t w : alone w → only_live cutoff (nd_db w) →
  alone (n_set_tick t (n_set_db (λ _, (ClaimOrphans now ∅ workerID cutoff limit (nd_db w)).2) w)).
Proof.
  intros [A1 A2 A3 A4 A5 A6] Hl. split; [done|done|done|..].
  - intros k s (s0&Hs0&Hh&->&_)%claim_back Hhs. rewrite Hh in Hhs. eapply (openable_tables (nd_db w)); [done|by apply A4].
  - intros k s (s0&Hs0&Hh&_&[[Hk _]|[Hk ->]])%claim_back Hhs Hheld; [|by apply A5].
    destruct (claimed_unowned _ _ _ _ _ Hl Hk) as (s1&Hs1&Hu). assert (s1 = s0) as -> by congruence. unfold unowned in Hu.
    apply andb_true_iff in Hu as [Hu1 Hu2%negb_true_iff]. destruct (A5 k s0 Hs0 Hu1 Hheld) as [_ Hw%opt_eqb_spec]. congruence.
  - etrans; [|exact A6]. apply inj_le, subseteq_size, union_mono_l. intros k. rewrite !elem_of_dom. cbn [n_set_tick n_set_db nd_db].
    by rewrite ClaimOrphans_session, fmap_is_Some.
Qed.

(** Each row claimed is one less left over. *)
Lemma left_over_claim now cutoff limit d : only_live cutoff d →
  (left_over (ClaimOrphans now ∅ workerID cutoff limit d).2 + Nat.min limit (left_over d) <= left_over d)%nat.
Proof.
  intros Hl. destruct (claim_rows_spec ∅ cutoff limit d) as (_&Hnd&Hlen).
  replace (Nat.min limit (left_over d)) with (length (claim_rows ∅ cutoff limit d).*1).
  2:{ rewrite length_fmap, Hlen. f_equal. unfold left_over, affected, select. f_equal. apply list_filter_iff. intros [k s]. cbn.
      rewrite (only_live_orphan cutoff) by done. rewrite bool_decide_eq_true_2 by set_solver. by rewrite andb_true_r. }
  apply affected_drop; [done|intros k; by apply claimed_unowned|].
  intros k s (s0&Hs0&Hh&_&[[Hk Hw]|[Hk ->]])%claim_back Hu; [|by split; [|exists s0]].
  unfold unowned in Hu. rewrite Hw in Hu. cbn in Hu. by rewrite String.eqb_refl, andb_false_r in Hu.
Qed.

(** The rows change hands, then they are opened. *)
Lemma claim_alone now cutoff limit t w :
  alone w → only_live cutoff (nd_db w) → served w →
  let c := ClaimOrphans now ∅ workerID cutoff limit (nd_db w) in
  let w' := (neach hydrate c.1 (n_set_tick t (n_set_db (λ _, c.2) w))).2 in
  alone w' ∧ served w' ∧ same_cores (nd_db w) (nd_db w') ∧ workers (nd_db w') = workers (nd_db w) ∧
  (left_over (nd_db w') + Nat.min limit (left_over (nd_db w)) <= left_over (nd_db w))%nat.
Proof.
  intros Ha Hl Hsv c w'. set (rows := claim_rows ∅ cutoff limit (nd_db w)). set (w1 := n_set_tick t (n_set_db (λ _, c.2) w)) in *.
  assert (Ho : opening rows.*1 w1 w').
  { unfold rows. rewrite <- ids_to_rehydratable. apply hydrate_all; [apply (al_retry w Ha)|]. apply Forall_forall. intros r Hr.
    apply list_elem_of_fmap in Hr as ([k s]&->&Hks).
    destruct (claim_rows_spec ∅ cutoff limit (nd_db w)) as (Hsub&_&_). pose proof (Hsub _ Hks) as [Hs Hor]%elem_of_select. cbn in Hor.
    apply andb_true_iff in Hor as [[Hh _]%andb_true_iff _]. split.
    - apply (openable_tables (nd_db w)); [done|]. by apply (al_open w Ha).
    - intros s' (s0&Hs0&->&_)%claim_back. cbn in Hs0. congruence. }
  split; [|split; [|split; [|split]]].
  - apply (alone_opening rows.*1 w1); [by apply alone_claim|done|]. intros k Hk. destruct (claimed_unowned _ _ _ _ _ Hl Hk) as (s&Hs&_).
    cbn. rewrite lookup_update_where, Hs, bool_decide_eq_true_2 by done. eexists. by split.
  - apply (served_opening rows.*1 w1); [done|]. intros k s (s0&Hs0&Hh&_&[[Hk _]|[Hk ->]])%claim_back Hhs Hw; [by left|right].
    by apply (Hsv k s0).
  - etrans; [apply (claim_cores now ∅ cutoff limit)|]. exact (same_rows_cores _ _ (og_rows _ _ _ Ho)).
  - apply (og_workers _ _ _ Ho).
  - rewrite (left_over_opening _ _ _ Ho). by apply left_over_claim.
Qed.

(** Asking changes nothing of it. *)
Lemma alone_tick t w : alone w → alone (n_set_tick t w).
Proof. by intros [A1 A2 A3 A4 A5 A6]. Qed.

(** ** Rounds *)

(** A beat, then a pass. *)
Definition round : N () := let+ _ := beat in reconcile (λ _, ∅).

(** Questions follow each other within the staleness window. *)
Context (prompt : ∀ i, (clock (S i) - workerStale < clock i)%Z).

Lemma beat_alone w : alone w → ∃ now, (beat w).2 = n_set_tick (S (S (nd_tick w))) (n_set_db (RegisterWorker now workerID selfAddr) w) ∧
  now = clock (S (nd_tick w)).
Proof.
  intros Ha. unfold Worker.beat, nbind, nget, stmt, nask, nret. cbn [fst snd]. rewrite (al_run w Ha). cbn. unfold nbind, nask. cbn.
  rewrite up_always. cbn. by eexists.
Qed.

Lemma round_alone w : alone w → let w' := (round w).2 in
  alone w' ∧ served w' ∧ same_cores (nd_db w) (nd_db w') ∧ (left_over (nd_db w') <= left_over (nd_db w) - 8)%nat ∧
  ∃ r, workers (nd_db w') !! workerID = Some r ∧ w_addr r = selfAddr.
Proof.
  intros Ha. unfold round, nbind. cbn [fst snd]. destruct (beat_alone w Ha) as (now&->&Hnow). set (w1 := n_set_tick _ _).
  assert (H1 : alone w1).
  { destruct Ha as [A1 A2 A3 A4 A5 A6]. split; try done. intros x r i Hx Hne. apply (A3 x); [|done]. cbn in Hx. by rewrite lookup_insert_ne in Hx. }
  rewrite reconcile_run, (al_run w1 H1). cbv zeta. set (cutoff := (clock (nd_tick w1) - workerStale)%Z). set (w2 := n_set_tick (S (nd_tick w1)) w1).
  assert (Hl : only_live cutoff (nd_db w2)).
  { intros x. unfold Registry.live. destruct (decide (x = workerID)) as [->|Hne].
    - cbn. rewrite lookup_insert_eq. split; [done|]. intros _. apply Z.ltb_lt. cbn. subst now. unfold cutoff. apply prompt.
    - split; [|done]. cbn. rewrite lookup_insert_ne by done. destruct (workers (nd_db w) !! x) as [r|] eqn:Hx; [|done].
      intros Hlt%Z.ltb_lt. pose proof (al_peers w Ha x r (nd_tick w1) Hx Hne). unfold cutoff in Hlt. lia. }
  assert (Hw : ∀ ids w', opening ids w2 w' → ∃ r, workers (nd_db w') !! workerID = Some r ∧ w_addr r = selfAddr).
  { intros ids w' Ho. rewrite (og_workers _ _ _ Ho). cbn. rewrite lookup_insert_eq. by eexists. }
  pose proof (reap_alone cutoff w2 (al_retry w1 H1)) as Hreap. set (w3 := (reap clock up cutoff w2).2) in *.
  assert (H3 : alone w3) by (eapply alone_opening; [exact (alone_tick (S (nd_tick w1)) w1 H1)|exact Hreap|by intros k ?%not_elem_of_nil]).
  pose proof (only_live_stays _ _ _ _ Hreap Hl) as Hl3. destruct (fence_alone cutoff w3 Hl3) as [t4 E4]. rewrite E4. set (w4 := n_set_tick t4 w3).
  pose proof (alone_tick t4 w3 H3) as H4. destruct (adopt_alone w4 H4) as (ids&Hadopt&Hmine&Hall). set (w5 := (adopt clock up opens quote box workerID w4).2) in *.
  pose proof (alone_opening ids w4 w5 H4 Hadopt Hmine) as H5. pose proof (served_opening ids w4 w5 Hadopt Hall) as Hsv.
  pose proof (only_live_stays _ _ _ _ Hadopt Hl3) as Hl5.
  assert (Ho : opening ids w2 w5).
  { eapply (opening_app [] ids w2 w3 w5); [exact Hreap|]. eapply (opening_app [] ids w3 w4 w5); [apply opening_none, (al_retry w3 H3)|exact Hadopt]. }
  assert (Hcore : same_cores (nd_db w) (nd_db w5)) by (exact (same_rows_cores _ _ (og_rows _ _ _ Ho))).
  assert (Hleft : left_over (nd_db w5) = left_over (nd_db w)) by exact (left_over_opening _ _ _ Ho).
  destruct (balance_takes cutoff w5 H5 Hl5) as [[Hz [t ->]]|(limit&nw&t&Hlim&->)].
  - split; [by apply alone_tick|]. split; [exact Hsv|]. split; [done|]. split; [cbn; lia|]. exact (Hw _ _ Ho).
  - destruct (claim_alone nw cutoff limit t w5 H5 Hl5 Hsv) as (HA&HB&HC&HD&HE). split; [exact HA|]. split; [exact HB|].
    split; [by etrans|]. split; [lia|]. rewrite HD. exact (Hw _ _ Ho).
Qed.

Definition rounds (k : nat) (w : node) : node := Nat.iter k (λ w, (round w).2) w.

Lemma rounds_alone k w : alone w → let w' := rounds (S k) w in
  alone w' ∧ served w' ∧ same_cores (nd_db w) (nd_db w') ∧ (left_over (nd_db w') <= left_over (nd_db w) - 8 * S k)%nat ∧
  ∃ r, workers (nd_db w') !! workerID = Some r ∧ w_addr r = selfAddr.
Proof.
  intros Ha. induction k as [|k IH]; [exact (round_alone w Ha)|]. cbv zeta in *. destruct IH as (A&_&C&D&_).
  destruct (round_alone _ A) as (A'&B'&C'&D'&E'). change (rounds (S (S k)) w) with (round (rounds (S k) w)).2.
  split; [exact A'|]. split; [exact B'|]. split; [by etrans|]. split; [lia|exact E'].
Qed.

Lemma left_over_none d k s : left_over d = 0%nat → sessions d !! k = Some s → hydratable s = true → s_worker s = Some workerID.
Proof.
  intros Hz Hs Hh. unfold left_over, affected in Hz. apply length_zero_iff_nil in Hz. apply opt_eqb_spec.
  destruct (opt_eqb (s_worker s) workerID) eqn:E; [done|]. exfalso. apply (not_elem_of_nil (k, s)). rewrite <- Hz. apply elem_of_select.
  split; [done|]. unfold unowned. by rewrite Hh, E.
Qed.

(** C5: A failover completes. Let every other worker be gone for longer than
    the staleness window, the registry answer, TDLib open what it is given, and
    let this worker have room; let no session of it be waiting for a retry after
    a failed open, and each reopenable session in its live map be usable and its
    own in the registry. Then whatever the others left behind, of any
    number n of sessions that can be reopened from disk and are not its own, and
    whichever of its own it does not hold yet (it may just have started), after
    n / 8 rounds of a beat and a pass, rounded up and at least one, each such
    session is held with a usable client, belongs to this worker, and is routed
    to it by every cutoff its last beat is after. *)
Theorem failover_completes k w :
  alone w → (1 <= k)%nat → (left_over (nd_db w) <= 8 * k)%nat →
  let w' := rounds k w in
  ∃ r, workers (nd_db w') !! workerID = Some r ∧
    ∀ sid s, sessions (nd_db w) !! sid = Some s → hydratable s = true →
      ready w' sid = true ∧ s_worker <$> sessions (nd_db w') !! sid = Some (Some workerID) ∧
      ∀ cutoff, (cutoff < w_seen r)%Z → SessionRoute sid cutoff (nd_db w') = Some (s_kind s, selfAddr).
Proof.
  intros Ha Hk Hn. destruct k as [|k]; [lia|]. destruct (rounds_alone k w Ha) as (_&Hsv&Hc&Hl&r&Hr&Haddr). cbv zeta.
  exists r. split; [done|]. intros sid s Hs Hh. specialize (Hc sid). rewrite Hs in Hc.
  destruct (sessions (nd_db (rounds (S k) w)) !! sid) as [s'|] eqn:Hs'; [|done]. apply (inj Some) in Hc. unfold core in Hc.
  assert (Hh' : hydratable s' = true) by congruence. assert (Hkind : s_kind s' = s_kind s) by (by injection Hc).
  assert (Hw : s_worker s' = Some workerID) by (eapply left_over_none; [|exact Hs'|done]; lia).
  split; [by eapply Hsv|]. split; [cbn; by rewrite Hw|]. intros cutoff Hcut. unfold SessionRoute. rewrite Hs', Hw, Hr.
  by rewrite (proj2 (Z.ltb_lt _ _) Hcut), Hkind, Haddr.
Qed.
End failover.

(** ** Examples *)

(** Worker "A" has just started again, "B" has been gone for a minute. *)
Definition ex_left : node := mkNode 0 ∅ ∅ false (with_workers <["B" := mkWorker "http://b" (40 * second)%Z]> (ex_reg 0)) [].

Lemma ex_left_rows k s : sessions (nd_db ex_left) !! k = Some s → s = ex_row "A" "/data/s" ∨ s = ex_row "B" "/data/t".
Proof.
  change (sessions (nd_db ex_left)) with ({["s" := ex_row "A" "/data/s"; "t" := ex_row "B" "/data/t"]} : gmap string session_row).
  intros [[_ <-]|[_ [_ <-]%lookup_singleton_Some]]%lookup_insert_Some; auto.
Qed.

Lemma ex_alone : alone (λ _, 100 * second)%Z ex_box "A" 10 ex_left.
Proof.
  split; [done|done|..].
  - intros x r i. change (workers (nd_db ex_left)) with (<["B" := mkWorker "http://b" (40 * second)%Z]>
      ({["A" := mkWorker "http://a" 0; "B" := mkWorker "http://b" (100 * second)%Z]} : gmap string worker_row)).
    intros [[_ <-]|[Hb [[<- <-]|[_ [<- _]%lookup_singleton_Some]]%lookup_insert_Some]]%lookup_insert_Some Hne; done.
  - intros k s Hs _. split; [|split].
    + exists (mkAppOut "app" 1 ex_ct ""), "hash". split; [|vm_compute; reflexivity]. by destruct (ex_left_rows k s Hs) as [-> | ->].
    + left. by destruct (ex_left_rows k s Hs) as [-> | ->].
    + exists "hash". destruct (ex_left_rows k s Hs) as [-> | ->]; vm_compute; reflexivity.
  - intros k s _ _ Hheld. by destruct Hheld.
  - vm_compute. done.
Qed.

Lemma failover_completes_witness :
  let w' := rounds (λ _, 100 * second)%Z (λ _, true) (λ _ _ _, None) (λ _ l, l) (λ s, s) ex_box "A" "http://a" 10 1 ex_left in
  left_over "A" (nd_db ex_left) = 1%nat ∧ ready w' "s" = true ∧ ready w' "t" = true ∧
  s_worker <$> sessions (nd_db w') !! "t" = Some (Some "A").
Proof.
  assert (Hl : left_over "A" (nd_db ex_left) = 1%nat) by (vm_compute; reflexivity).
  destruct (failover_completes (λ _, 100 * second)%Z (λ _, true) (λ _ _ _, None) (λ _ l, l) (λ s, s) ex_box "A" "http://a" 10
    (λ _, eq_refl) (λ _ _ _, eq_refl) (λ _, eq_refl) 1 ex_left ex_alone (le_n 1) ltac:(rewrite Hl; lia)) as (r&_&H).
  split; [exact Hl|]. split; [|split].
  - apply (H "s" (ex_row "A" "/data/s") eq_refl eq_refl).
  - apply (H "t" (ex_row "B" "/data/t") eq_refl eq_refl).
  - apply (H "t" (ex_row "B" "/data/t") eq_refl eq_refl).
Defined.
