(* ===== verification/Fleet.v ===== *)
(** Workers side by side (internal/session/manager.go reconcile, rehydrateOne,
    shed, Shutdown): each runs its passes while the others run theirs, over one
    registry. A pass is cut where others may come in between, at its statements
    and around the opening of a client; run alone the pieces are Worker's pass.
    While heartbeats arrive in time no two workers ever have a client on the
    same session. *)

From S2P Require Import Prelude GoStr Json Types Gcm Db Registry Guard Subs Integrity Secret Tdjson Login Worker Lease Manage Entry.


(** ** A pass in pieces *)

(** What is left to do of a pass. *)
Inductive task :=
| TReap (cutoff : Z)
| TFence (cutoff : Z)
| TFenceOne (sid : string)
| TAdopt
| TAdoptOne (r : Rehydratable)
| TBalance (cutoff : Z)
| TClaim (cutoff : Z) (limit : nat)
| TOpen (r : Rehydratable)
| TNewClient (r : Rehydratable) (p : tdParams) (px : option AddProxyRequest)   (* NewClient is waited for *)
| TShed (n : nat)
| TShedOne (sid : string)
| TRelease (sid : string).

Section pass.
Context (clock : nat → Z) (up : nat → bool).
Context (opens : nat → tdParams → option AddProxyRequest → option gerr).
Context (order : nat → list string → list string) (quote : string → string).
Context (box : Box) (workerID : string) (capacity : Z) (locked : nat → gset string).

(** Reopening up to the call of [client.NewClient]; [None] when it does not come
    to that [internal/session/manager.go:728-758#rehydrateOne]. *)
Definition reopen_begin (r : Rehydratable) : N (option (tdParams * option AddProxyRequest)) :=
  let sid := rh_id r in
  let+ app := read clock up (GetApp (rh_app r)) in
  match app with
  | Err _ => nret None
  | Ok app =>
  match decrypt box (App_HashEnc app) with
  | Err _ => nret None
  | Ok apiHash =>
  let+ px := proxyRequest clock up quote box (rh_proxy r) in
  match px with
  | Err _ => nret None
  | Ok proxyReq =>
  match decrypt box (rh_db_key_enc r) with
  | Err _ => nret None
  | Ok dbKey =>
      let+ _ := put sid (new_held (rh_kind r)) in
      let+ _ := RefreshSubscriptions clock up sid in
      let+ _ := loadHeldGuard clock up sid in
      let+ _ := nupd (n_log (Opened sid)) in
      nret (Some (buildParams (rh_db_dir r) dbKey (App_APIID app) apiHash, proxyReq))
  end end end end.

(** From there on [internal/session/manager.go:759-778#rehydrateOne]. *)
Definition reopen_end (r : Rehydratable) (p : tdParams) (px : option AddProxyRequest) : N () :=
  let+ res := nask (λ i, opens i p px) in
  match res with Some e => open_failed clock up (rh_id r) e | None => open_done clock up (rh_id r) end.

(** One piece of a pass, or of the shedding and reopening it calls, and what it
    leaves to do next [internal/session/manager.go:423-515#reconcile]. *)
Definition perform (t : task) : N (list task) :=
  match t with
  | TReap cutoff => let+ _ := reap clock up cutoff in nret []
  | TFence cutoff =>
      let+ w := nget in
      let+ foreign := stmt clock up (λ _ d, (ForeignOwned workerID (elements (dom (nd_held w))) cutoff d, d)) in
      nret (match foreign with Some l => TFenceOne <$> l | None => [] end)
  | TFenceOne sid =>
      let+ w := nget in
      let+ _ := (if ready w sid then let+ _ := stmt clock up (λ now d, ((), SetSessionOwner now sid workerID d)) in nret ()
                 else drop sid) in nret []
  | TAdopt =>
      let+ owned := stmt clock up (λ _ d, (ListOwned workerID d, d)) in
      nret (match owned with Some l => TAdoptOne <$> l | None => [] end)
  | TAdoptOne r => let+ w := nget in nret (if has (rh_id r) (nd_held w) then [] else [TOpen r])
  | TOpen r =>
      let+ go := retryReady clock (rh_id r) in
      if go : bool then
        let+ o := reopen_begin r in
        nret (match o with Some (p, px) => [TNewClient r p px] | None => [] end)
      else nret []
  | TNewClient r p px => let+ _ := reopen_end r p px in nret []
  | TBalance cutoff =>
      let+ load := stmt clock up (λ _ d, (WorkerLoad workerID cutoff d, d)) in
      match load with
      | None => nret []
      | Some (mine, total, alive) =>
          let mine := Z.of_nat mine in
          let share := fair_share total alive in
          let+ w := nget in
          let heldN := Z.of_nat (size (nd_held w)) in
          nret (if (share <? mine)%Z then [TShed (Z.to_nat (Z.min (mine - share) shedPerTick))]
                else if ((mine <? share) && (heldN <? capacity))%Z then
                  let limit := Z.min (Z.min (share - mine) claimBatch) (capacity - heldN) in
                  if (limit <=? 0)%Z then [] else [TClaim cutoff (Z.to_nat limit)]
                else [])
      end
  | TClaim cutoff limit =>
      let+ w := nget in
      let+ rows := stmt clock up (λ now d, ClaimOrphans now (locked (nd_tick w)) workerID cutoff limit d) in
      nret (match rows with Some l => TOpen <$> l | None => [] end)
  | TShed n =>
      let+ w := nget in
      let+ walk := nask (λ i, order i (elements (dom (nd_held w)))) in
      nret (TShedOne <$> take n (filter (λ sid, ready w sid = true) walk))
  | TShedOne sid =>
      let+ w := nget in
      let+ _ := (if ready w sid then nupd (n_close sid) else nret ()) in
      let+ _ := drop sid in
      nret [TRelease sid]
  | TRelease sid =>
      let+ done := stmt clock up (λ now d, ((), ReleaseSession now sid d)) in
      let+ _ := (if is_set done then nupd (n_log (Released sid)) else nret ()) in nret []
  end.

(** The pass begins by reading the clock
    [internal/session/manager.go:413-472#reconcile]. *)
Definition pass_begin : N (list task) :=
  let+ w := nget in
  if nd_stopping w then nret []
  else
    let+ now := nask clock in
    let cutoff := (now - workerStale)%Z in
    nret [TReap cutoff; TFence cutoff; TAdopt; TBalance cutoff].

(** Working off the list with nobody in between. *)
Inductive drains : list task → node → node → Prop :=
| dr_nil w : drains [] w w
| dr_task t l w w' : drains ((perform t w).1 ++ l) (perform t w).2 w' → drains (t :: l) w w'.

Lemma drains_app l1 l2 w w1 w2 : drains l1 w w1 → drains l2 w1 w2 → drains (l1 ++ l2) w w2.
Proof. induction 1 as [|t l w w' _ IH]; intros H2; [done|]. constructor. rewrite app_assoc. by apply IH. Qed.

Lemma drains_one t w w' : drains (perform t w).1 (perform t w).2 w' → drains [t] w w'.
Proof. intros H. constructor. by rewrite app_nil_r. Qed.

Lemma drains_each {A} (f : A → task) (g : A → N ()) (l : list A) w :
  (∀ a w, drains [f a] w (g a w).2) → drains (f <$> l) w (neach g l w).2.
Proof.
  intros H. revert w. induction l as [|a l IH]; intros w; [constructor|].
  change (f <$> a :: l) with ([f a] ++ (f <$> l)). eapply drains_app; [apply H|apply IH].
Qed.

Lemma hydrate_split r w :
  (hydrate clock up opens quote box r w).2 =
    let a := retryReady clock (rh_id r) w in
    if a.1 : bool then
      let b := reopen_begin r a.2 in
      match b.1 with Some (p, px) => (reopen_end r p px b.2).2 | None => b.2 end
    else a.2.
Proof.
  unfold hydrate, reopen_begin, rehydrateOne, nbind. cbn [fst snd]. destruct (retryReady _ _ _) as [[] w1]; [|done]. cbn [fst snd].
  destruct (read clock up _ _) as [[app|] w2]; [|done]. cbn [fst snd]. destruct (decrypt _ _); [|done].
  destruct (proxyRequest _ _ _ _ _ _) as [[px|] w3]; [|done]. cbn [fst snd]. destruct (decrypt box (rh_db_key_enc r)); done.
Qed.

Lemma drains_open r w : drains [TOpen r] w (hydrate clock up opens quote box r w).2.
Proof.
  rewrite hydrate_split. apply drains_one. cbn [perform]. unfold nbind at 1 3. destruct (retryReady _ _ _) as [[] w1]; [|constructor].
  cbn [fst snd]. unfold nbind. cbn [fst snd nret]. destruct (reopen_begin r w1) as [[[p px]|] w2]; [|constructor]. cbn [fst snd].
  apply drains_one. unfold perform, nbind, nret. cbn [fst snd]. constructor.
Qed.

(** ** Alone, the pieces are the pass *)

Lemma drains_fence cutoff w : drains [TFence cutoff] w (fence clock up workerID cutoff w).2.
Proof.
  apply drains_one. cbn [perform]. unfold fence, nbind, nget, nret. cbn [fst snd].
  destruct (stmt clock up _ w) as [[l|] w1]; [|constructor]. cbn [fst snd].
  apply drains_each. clear. intros sid w. apply drains_one. cbn [perform]. unfold nbind, nget, nret. cbn [fst snd].
  destruct (ready w sid); constructor.
Qed.

Lemma drains_adopt w : drains [TAdopt] w (adopt clock up opens quote box workerID w).2.
Proof.
  apply drains_one. cbn [perform]. unfold adopt, nbind, nget, nret. cbn [fst snd].
  destruct (stmt clock up _ w) as [[l|] w1]; [|constructor]. cbn [fst snd].
  apply drains_each. clear. intros r w. apply drains_one. cbn [perform]. unfold nbind, nget, nret. cbn [fst snd].
  destruct (has (rh_id r) (nd_held w)); [constructor|apply drains_open].
Qed.

Lemma drains_shed n w : drains [TShed n] w (shed clock up order n w).2.
Proof.
  apply drains_one. unfold perform, shed, nbind, nget, nask, nret. cbn [fst snd]. apply drains_each. clear. intros sid w.
  apply drains_one. unfold perform, shed_one, nbind, nget, nret, drop, nupd. cbn [fst snd]. apply drains_one. cbn [perform]. unfold nbind, nret.
  cbn [fst snd]. destruct (ready w sid); cbn [snd]; destruct (stmt clock up _ _) as [o w1]; cbn [fst snd]; destruct (is_set o); constructor.
Qed.

Lemma drains_balance cutoff w : drains [TBalance cutoff] w (balance clock up opens order quote box workerID capacity locked cutoff w).2.
Proof.
  apply drains_one. cbn [perform]. unfold balance, nbind, nget, nret. cbn [fst snd].
  destruct (stmt clock up _ w) as [[[[mine total] alive]|] w1]; [|constructor]. cbn [fst snd].
  destruct (_ <? _)%Z; [apply drains_shed|]. destruct (_ && _); [|constructor]. destruct (_ <=? 0)%Z; [constructor|].
  apply drains_one. cbn [perform]. unfold nbind, nget, nret. cbn [fst snd].
  destruct (stmt clock up _ w1) as [[l|] w2]; [|constructor]. cbn [fst snd]. apply drains_each, drains_open.
Qed.

(** A pass with nobody in between is Worker's pass. *)
Lemma pass_alone w :
  drains (pass_begin w).1 (pass_begin w).2 (reconcile clock up opens order quote box workerID capacity locked w).2.
Proof.
  rewrite reconcile_run. unfold pass_begin, nbind, nget, nask, nret. cbn [fst snd].
  destruct (nd_stopping w); [constructor|]. cbn [fst snd].
  change [TReap ?c; TFence ?c; TAdopt; TBalance ?c] with ([TReap c] ++ [TFence c] ++ [TAdopt] ++ [TBalance c]).
  eapply drains_app; [apply drains_one; unfold perform, nbind, nret; cbn [fst snd]; constructor|].
  eapply drains_app; [apply drains_fence|]. eapply drains_app; [apply drains_adopt|apply drains_balance].
Qed.
End pass.

(** ** What a piece does *)

(** Owners stay, and no row appears. *)
Definition keeps_owners (d d' : db) : Prop :=
  ∀ k, holder k d' = holder k d ∧ (sessions d !! k = None → sessions d' !! k = None).

Lemma keeps_alike f d : alike s_worker (sessions d) (f (sessions d)) → keeps_owners d (with_sessions f d).
Proof.
  intros H k. split; [by apply steady_alike|]. simpl. intros Hk. specialize (H k). rewrite Hk in H.
  by destruct (f (sessions d) !! k).
Qed.

(** Of the entries only [ids] may be new; owners stay. *)
Record mild (ids : list string) (w w' : node) : Prop := mkMild {
  mi_held : ∀ k, is_Some (nd_held w' !! k) → is_Some (nd_held w !! k) ∨ k ∈ ids;
  mi_owners : keeps_owners (nd_db w) (nd_db w');
}.

#[export] Instance mild_preorder ids : PreOrder (mild ids).
Proof.
  split; [intros w; split; [by left|by intros k]|]. intros w1 w2 w3 [A1 A2] [B1 B2]. split.
  - intros k [H|H]%B1; [by apply A1|by right].
  - intros k. destruct (A2 k) as [H1 H2], (B2 k) as [H3 H4]. split; [congruence|auto].
Qed.

#[export] Instance mild_timeless ids : Timeless (mild ids).
Proof. intros t w. split; [by left|by intros k]. Qed.

Lemma mild_same ids w w' : dom (nd_held w') ⊆ dom (nd_held w) → nd_db w' = nd_db w → mild ids w w'.
Proof.
  intros Hh Hd. split; [intros k; rewrite <- !elem_of_dom; left; by apply Hh|]. intros k. by rewrite Hd.
Qed.

Lemma mild_stmt ids clock up {A} (f : Z → db → A * db) :
  (∀ now d, keeps_owners d (f now d).2) → moves (mild ids) (stmt clock up f).
Proof. intros Hf. apply moves_stmt; [apply _..|]. intros w now. split; [by left|apply Hf]. Qed.

Lemma keeps_same d : keeps_owners d d.
Proof. by intros k. Qed.

Lemma keeps_status now sid st d : keeps_owners d (UpdateSessionStatus now sid st d).
Proof. by apply keeps_alike, alike_alter. Qed.

(** Runs of a bind. *)
Ltac mild_bind := apply moves_bind; [apply _|..].
Ltac mild_done := intros; first [apply moves_ret; apply _|apply moves_get; apply _|apply moves_ask; apply _|
  intros ?; apply mild_same; [simpl; rewrite ?dom_alter_L, ?dom_delete_L; set_solver|reflexivity]].

Section pieces.
Context (clock : nat → Z) (up : nat → bool).
Context (opens : nat → tdParams → option AddProxyRequest → option gerr).
Context (order : nat → list string → list string) (quote : string → string).
Context (box : Box) (workerID : string) (capacity : Z) (locked : nat → gset string).

Lemma mild_refresh ids sid : moves (mild ids) (RefreshSubscriptions clock up sid).
Proof.
  unfold RefreshSubscriptions. mild_bind; [mild_done|intros w]. destruct (has sid (nd_held w)); [|mild_done].
  mild_bind; [apply mild_stmt; intros; apply keeps_same|]. intros [fs|]; mild_done.
Qed.

Lemma mild_guard ids sid : moves (mild ids) (loadHeldGuard clock up sid).
Proof. unfold loadHeldGuard. repeat (mild_bind; [mild_done|intros ?]). mild_done. Qed.

Lemma mild_begin r : moves (mild [rh_id r]) (reopen_begin clock up quote box r).
Proof.
  unfold reopen_begin. mild_bind; [apply moves_read; apply _|]. intros [app|]; [|mild_done].
  destruct (decrypt box (App_HashEnc app)); [|mild_done]. mild_bind; [apply moves_proxyRequest; apply _|]. intros [px|]; [|mild_done].
  destruct (decrypt box (rh_db_key_enc r)); [|mild_done]. mild_bind.
  { intros w. split; [|apply keeps_same]. simpl. intros k. destruct (decide (k = rh_id r)) as [->|Hne]; [right; left|].
    rewrite lookup_insert_ne by done. by left. }
  intros _. mild_bind; [apply mild_refresh|intros _]. mild_bind; [apply mild_guard|intros _]. mild_bind; mild_done.
Qed.

Lemma mild_mirror ids sid st :
  moves (mild ids) (let+ _ := stmt clock up (λ now d, ((), UpdateSessionStatus now sid st d)) in nret ()).
Proof. mild_bind; [apply mild_stmt; intros; apply keeps_status|mild_done]. Qed.

Lemma mild_end r p px : moves (mild []) (reopen_end clock up opens r p px).
Proof.
  unfold reopen_end. mild_bind; [mild_done|]. intros [e|].
  - unfold open_failed. mild_bind; [mild_done|intros _]. destruct (is_expired e).
    + mild_bind; [mild_done|intros _]. apply mild_mirror.
    + unfold backoff. mild_bind; mild_done.
  - unfold open_done. mild_bind; [mild_done|intros _]. mild_bind; [mild_done|intros _]. apply mild_mirror.
Qed.

Notation perform := (perform clock up opens order quote box workerID capacity locked).

(** The pieces that leave the owners alone, and what they may open. *)
Lemma mild_perform t :
  match t with
  | TFenceOne _ | TClaim _ _ | TRelease _ => True
  | TOpen r => moves (mild [rh_id r]) (perform t)
  | _ => moves (mild []) (perform t)
  end.
Proof.
  destruct t as [c|c|sid| |r|c|c limit|r|r p px|n|sid|sid]; cbn [Fleet.perform]; try done.
  - mild_bind; [|mild_done]. unfold reap. mild_bind; [|mild_done]. apply mild_stmt. intros now d. by apply keeps_alike, alike_update.
  - mild_bind; [mild_done|intros w]. mild_bind; [apply mild_stmt; intros; apply keeps_same|mild_done].
  - mild_bind; [apply mild_stmt; intros; apply keeps_same|mild_done].
  - mild_bind; mild_done.
  - mild_bind; [apply mild_stmt; intros; apply keeps_same|]. intros [[[mine total] alive]|]; [|mild_done]. mild_bind; mild_done.
  - mild_bind; [unfold retryReady; mild_bind; [mild_done|intros ?]; mild_bind; mild_done|]. intros []; [|mild_done].
    mild_bind; [apply mild_begin|mild_done].
  - mild_bind; [apply mild_end|mild_done].
  - mild_bind; [mild_done|intros w]. mild_bind; mild_done.
  - mild_bind; [mild_done|intros w]. mild_bind; [destruct (ready w sid); mild_done|intros _]. mild_bind; mild_done.
Qed.
End pieces.

(** ** The fleet *)

(** A worker under way, with what is left of its pass. The registry in its node
    is a copy that each step replaces. *)
Record member := mkMember { mb_node : node; mb_todo : list task }.

Record fleet_state := mkFleet { fl_db : db; fl_members : gmap string member }.

(** A member's code run on the shared registry. *)
Definition run_on {A} (c : N A) (d : db) (m : member) : A * node := c (n_set_db (λ _, d) (mb_node m)).

(** The session a piece is about, if it relies on owning it. *)
Definition task_sid (t : task) : option string :=
  match t with
  | TAdoptOne r | TOpen r | TNewClient r _ _ => Some (rh_id r)
  | TShedOne sid | TRelease sid => Some sid
  | _ => None
  end.

(** A worker is under way until it has been told to stop and no pass of it is
    going on. *)
Definition active (m : member) : Prop := nd_stopping (mb_node m) = false ∨ mb_todo m ≠ [].

(** In a worker's map, or about to be opened or let go by it. *)
Definition hands (m : member) (sid : string) : Prop :=
  is_Some (nd_held (mb_node m) !! sid) ∨ ∃ t, t ∈ mb_todo m ∧ task_sid t = Some sid.

(** A worker under way has a session in its hands. *)
Definition uses (m : member) (sid : string) : Prop := active m ∧ hands m sid.

(** What the rest of the world may do to the registry: beats, purges and
    deregistrations, deletions, and every statement that touches no owner. Claims,
    assertions and releases of ownership are the workers' own. *)
Definition outside (o : op) : bool :=
  match o with OClaim _ _ _ _ | OOwn _ _ | ORelease _ | OReleaseAll _ => false | _ => true end.

Section fleet.
Context (clock : string → nat → Z) (up : string → nat → bool).
Context (opens : string → nat → tdParams → option AddProxyRequest → option gerr).
Context (order : string → nat → list string → list string) (quote : string → string).
Context (box : Box) (addr dataDir : string → string) (capacity : string → Z) (locked : string → nat → gset string).
Context (rand : string → nat → nat → option string) (fresh : string → nat → string) (td : nat → string → rawRequest → td_reply).
(** How far a worker's clock may be ahead of the registry's. *)
Context (skew : Z).

Notation perform w := (perform (clock w) (up w) (opens w) (order w) quote box w (capacity w) (locked w)).

(** Rows that appear have ids nobody has seen: they are random. *)
Definition unused (s : fleet_state) (d' : db) : Prop :=
  ∀ k, sessions (fl_db s) !! k = None → is_Some (sessions d' !! k) → ∀ x m, fl_members s !! x = Some m → ¬ hands m k.

(** The steps that the code leaves room to go wrong in. *)
Inductive flabel := FStop (w : string) | FNew (w : string) | FStep.

(** One step at the registry's time [t]. *)
Inductive fstep (t : Z) (s : fleet_state) : flabel → fleet_state → Prop :=
| f_pass w m r : fl_members s !! w = Some m → mb_todo m = [] →
    (clock w (nd_tick (mb_node m)) <= t + skew)%Z →
    run_on (pass_begin (clock w)) (fl_db s) m = r →
    fstep t s FStep (mkFleet (nd_db r.2) (<[w := mkMember r.2 r.1]> (fl_members s)))
| f_task w m a l r : fl_members s !! w = Some m → mb_todo m = a :: l →
    run_on (perform w a) (fl_db s) m = r →
    fstep t s FStep (mkFleet (nd_db r.2) (<[w := mkMember r.2 (r.1 ++ l)]> (fl_members s)))
| f_beat w m r : fl_members s !! w = Some m →
    run_on (beat (clock w) (up w) w (addr w)) (fl_db s) m = r →
    fstep t s FStep (mkFleet (nd_db r.2) (<[w := mkMember r.2 (mb_todo m)]> (fl_members s)))
| f_user w m appID phone proxyID label r : fl_members s !! w = Some m →
    run_on (CreateUser (clock w) (up w) quote box w (dataDir w) (rand w) (fresh w) appID phone proxyID label) (fl_db s) m = r →
    unused s (nd_db r.2) →
    fstep t s (FNew w) (mkFleet (nd_db r.2) (<[w := mkMember r.2 (mb_todo m)]> (fl_members s)))
| f_bot w m opened appID token proxyID label r : fl_members s !! w = Some m →
    run_on (CreateBot (clock w) (up w) quote box w (dataDir w) (rand w) (fresh w) td opened appID token proxyID label) (fl_db s) m = r →
    unused s (nd_db r.2) →
    fstep t s (FNew w) (mkFleet (nd_db r.2) (<[w := mkMember r.2 (mb_todo m)]> (fl_members s)))
(** Entries change, as logins go on, and go, as sessions are deleted. *)
| f_inner w m n : fl_members s !! w = Some m → dom (nd_held n) ⊆ dom (nd_held (mb_node m)) →
    nd_stopping n = nd_stopping (mb_node m) →
    fstep t s FStep (mkFleet (fl_db s) (<[w := mkMember n (mb_todo m)]> (fl_members s)))
(** A stop does not wait for a pass under way, which goes on. *)
| f_stop w m r : fl_members s !! w = Some m →
    run_on (Shutdown (clock w) (up w) (order w) w) (fl_db s) m = r →
    fstep t s (FStop w) (mkFleet (nd_db r.2) (<[w := mkMember r.2 (mb_todo m)]> (fl_members s)))
(** A process ends, after a stop or without. *)
| f_exit w : fstep t s FStep (mkFleet (fl_db s) (delete w (fl_members s)))
| f_join w ok now k n : fl_members s !! w = None → n_set_tick k (NewManager ok now w (addr w) (fl_db s)) = n →
    fstep t s FStep (mkFleet (nd_db n) (<[w := mkMember n []]> (fl_members s)))
| f_outside o d' : act t o (fl_db s) d' → outside o = true → unused s d' →
    fstep t s FStep (mkFleet d' (fl_members s)).

(** What the code does not ensure: a worker stops between its passes (a pass
    under way is a [straggler]), takes on no account afterwards, and a session
    made by it is its own (the write of the owner may be lost). *)
Definition tidy (s : fleet_state) (l : flabel) (s' : fleet_state) : Prop :=
  match l with
  | FStop w => ∀ m, fl_members s !! w = Some m → mb_todo m = []
  | FNew w =>
      (∀ m, fl_members s !! w = Some m → nd_stopping (mb_node m) = false) ∧
      ∀ k, sessions (fl_db s) !! k = None → is_Some (sessions (fl_db s') !! k) → holder k (fl_db s') = Some w
  | FStep => True
  end.

(** Every worker under way was heard of at most [gap] ago. *)
Definition punctual (gap t : Z) (s : fleet_state) : Prop :=
  ∀ w m, fl_members s !! w = Some m → active m → ∃ r, workers (fl_db s) !! w = Some r ∧ (t - w_seen r <= gap)%Z.

(** Tidy runs in which everybody is punctual whenever something happens. *)
Inductive fruns (gap : Z) (t : Z) (s : fleet_state) : Z → fleet_state → Prop :=
| fr_start : fruns gap t s t s
| fr_step t1 s1 t2 l s2 : fruns gap t s t1 s1 → (t1 <= t2)%Z → punctual gap t2 s1 →
    fstep t2 s1 l s2 → tidy s1 l s2 → fruns gap t s t2 s2.

(** ** The invariant *)

Definition is_last (t : task) : bool := match t with TBalance _ | TClaim _ _ | TShed _ => true | _ => false end.
Definition is_shed (t : task) : bool := match t with TShedOne _ | TRelease _ => true | _ => false end.

Fixpoint last_only (l : list task) : Prop :=
  match l with [] => True | t :: l => (is_last t = true → l = []) ∧ last_only l end.

(** Shedding comes last, and each session once. *)
Definition orderly (l : list task) : Prop :=
  Forall (λ t, is_shed t = true) l ∧ NoDup (task_sid <$> l) ∨ Forall (λ t, is_shed t = false) l ∧ last_only l.

Definition task_cutoff (t : task) : option Z :=
  match t with TReap c | TFence c | TBalance c | TClaim c _ => Some c | _ => None end.

Record sane (bound : Z) (m : member) : Prop := mkSane {
  sa_orderly : orderly (mb_todo m);
  sa_released : ∀ sid, TRelease sid ∈ mb_todo m → nd_held (mb_node m) !! sid = None;
  sa_cutoff : ∀ t c, t ∈ mb_todo m → task_cutoff t = Some c → (c <= bound)%Z;
}.

(** The registry says so, or has forgotten the session. *)
Definition mine (w sid : string) (d : db) : Prop := holder sid d = Some w ∨ sessions d !! sid = None.

Record finv (t : Z) (s : fleet_state) : Prop := mkFinv {
  fi_mine : ∀ w m sid, fl_members s !! w = Some m → uses m sid → mine w sid (fl_db s);
  fi_one : ∀ w w' m m' sid, fl_members s !! w = Some m → fl_members s !! w' = Some m' → uses m sid → uses m' sid → w = w';
  fi_sane : ∀ w m, fl_members s !! w = Some m → sane (t + skew - workerStale) m;
}.

(** ** Preservation *)

Context (order_perm : ∀ w i l, order w i l ≡ₚ l).

Lemma mine_keeps w k d d' : keeps_owners d d' → mine w k d → mine w k d'.
Proof. intros H [Hh|Hn]; destruct (H k) as [H1 H2]; [left; congruence|right; auto]. Qed.

(** A step of one member. *)
Lemma finv_update t s w m' d' :
  finv t s →
  (∀ x m k, fl_members s !! x = Some m → x ≠ w → uses m k → mine x k d') →
  (∀ k, uses m' k → mine w k d' ∧ ∀ x m, fl_members s !! x = Some m → uses m k → x = w) →
  sane (t + skew - workerStale) m' →
  finv t (mkFleet d' (<[w := m']> (fl_members s))).
Proof.
  intros [I1 I2 I3] Hothers Hown Hsane. split; simpl.
  - intros x m k Hx Hu. destruct (decide (x = w)) as [->|Hne].
    + rewrite lookup_insert_eq in Hx. injection Hx as <-. by apply Hown.
    + rewrite lookup_insert_ne in Hx by done. by eapply Hothers.
  - intros x y mx my k Hx Hy Hux Huy. destruct (decide (x = w)) as [->|Hx'], (decide (y = w)) as [->|Hy']; [done|..].
    + rewrite lookup_insert_eq in Hx. injection Hx as <-. rewrite lookup_insert_ne in Hy by done.
      symmetry. by eapply (proj2 (Hown k Hux)).
    + rewrite lookup_insert_eq in Hy. injection Hy as <-. rewrite lookup_insert_ne in Hx by done.
      by eapply (proj2 (Hown k Huy)).
    + rewrite lookup_insert_ne in Hx, Hy by done. by eapply I2.
  - intros x m Hx. destruct (decide (x = w)) as [->|Hne].
    + rewrite lookup_insert_eq in Hx. by injection Hx as <-.
    + rewrite lookup_insert_ne in Hx by done. by eapply I3.
Qed.

(** One that takes up nothing new, in a registry with the same owners. *)
Lemma finv_shrink t s w m m' d' :
  finv t s → fl_members s !! w = Some m → keeps_owners (fl_db s) d' → (∀ k, uses m' k → uses m k) →
  sane (t + skew - workerStale) m' → finv t (mkFleet d' (<[w := m']> (fl_members s))).
Proof.
  intros HI Hm Hk Hu Hs. apply finv_update; [done| | |done].
  - intros x mx k Hx _ Hux. eapply mine_keeps; [exact Hk|]. by eapply (fi_mine t s HI).
  - intros k Huk. split; [eapply mine_keeps; [exact Hk|by eapply (fi_mine t s HI); [|apply Hu]]|].
    intros x mx Hx Hux. eapply (fi_one t s HI x w mx m k); auto.
Qed.

(** One that takes up sessions no other has, which the registry gives it. *)
Lemma finv_grow t s w m m' d' :
  finv t s → fl_members s !! w = Some m → keeps_owners (fl_db s) d' →
  (∀ k, uses m' k → uses m k ∨ holder k (fl_db s) = Some w) →
  sane (t + skew - workerStale) m' → finv t (mkFleet d' (<[w := m']> (fl_members s))).
Proof.
  intros HI Hm Hk Hu Hs. apply finv_update; [done| | |done].
  - intros x mx k Hx _ Hux. eapply mine_keeps; [exact Hk|]. by eapply (fi_mine t s HI).
  - intros k Huk. destruct (Hu k Huk) as [Hum|Hh].
    + split; [eapply mine_keeps; [exact Hk|by eapply (fi_mine t s HI)]|].
      intros x mx Hx Hux. eapply (fi_one t s HI x w mx m k); auto.
    + split; [left; destruct (Hk k) as [-> _]; done|]. intros x mx Hx Hux.
      destruct (fi_mine t s HI x mx k Hx Hux) as [Hh'|Hn]; [congruence|]. unfold holder in Hh. by rewrite Hn in Hh.
Qed.

Lemma last_only_app ts l : Forall (λ u, is_last u = false) ts → last_only l → last_only (ts ++ l).
Proof. induction 1 as [|u ts Hu _ IH]; [done|]. intros Hl. simpl. split; [congruence|by apply IH]. Qed.

(** What a piece leaves to do, by what it was. *)
Definition follows (w : string) (n : node) (a u : task) : Prop :=
  match a, u with
  | TFence _, TFenceOne _ | TBalance _, TShed _ => True
  | TAdopt, TAdoptOne r => holder (rh_id r) (nd_db n) = Some w
  | TAdoptOne r, TOpen r' | TOpen r, TNewClient r' _ _ => r' = r
  | TBalance c, TClaim c' _ => c' = c
  | TClaim _ _, TOpen _ => True
  | TShed _, TShedOne sid => is_Some (nd_held n !! sid)
  | TShedOne sid, TRelease sid' => sid' = sid
  | _, _ => False
  end.

Lemma perform_follows w a n : Forall (follows w n a) (perform w a n).1.
Proof.
  destruct a as [c|c|sid| |r|c|c limit|r|r p px|k|sid|sid]; cbn [Fleet.perform]; unfold nbind, nget, nret, nask; cbn [fst snd];
    try apply Forall_nil_2.
  - destruct (stmt _ _ _ n) as [[l|] n1]; [|apply Forall_nil_2]. apply Forall_fmap, Forall_true. by intros sid.
  - destruct (stmt_run (clock w) (up w) (λ _ d, (ListOwned w d, d)) n) as (t&now&->).
    destruct (up w (nd_tick n)); [|apply Forall_nil_2]. cbn [fst]. apply Forall_fmap, Forall_forall. intros r Hr. cbn.
    unfold ListOwned in Hr. apply list_elem_of_fmap in Hr as ([k s]&->&[Hs Ho]%elem_of_select). cbn. unfold holder. rewrite Hs. cbn.
    apply andb_true_iff in Ho as [Ho _]. by apply opt_eqb_spec in Ho.
  - destruct (has _ _); [apply Forall_nil_2|]. by apply Forall_singleton.
  - destruct (stmt _ _ _ n) as [[[[mine total] alive]|] n1]; [|apply Forall_nil_2]. cbn [fst snd].
    repeat case_match; try apply Forall_nil_2; by apply Forall_singleton.
  - destruct (stmt _ _ _ n) as [[l|] n1]; [|apply Forall_nil_2]. apply Forall_fmap, Forall_true. by intros r.
  - destruct (retryReady _ _ n) as [[] n1]; [|apply Forall_nil_2]. cbn [fst snd].
    destruct (reopen_begin _ _ _ _ _ n1) as [[[p px]|] n2]; [by apply Forall_singleton|apply Forall_nil_2].
  - apply Forall_fmap, Forall_forall. intros sid [_ Hin]%take_subseteq%list_elem_of_filter. cbn.
    rewrite order_perm in Hin. by apply elem_of_elements, elem_of_dom in Hin.
  - by apply Forall_singleton.
Qed.

Lemma NoDup_task_sids (ids : list string) : NoDup ids → NoDup (task_sid <$> (TShedOne <$> ids)).
Proof. intros H. rewrite <- list_fmap_compose. apply NoDup_fmap_2; [|done]. by intros x y [= ->]. Qed.

Lemma perform_orderly w a l n : orderly (a :: l) → orderly ((perform w a n).1 ++ l).
Proof.
  intros [[[Ha Hl]%Forall_cons Hnd]|[[Ha Hl]%Forall_cons [Hlast Hll]]].
  - left. destruct a as [| | | | | | | | | |sid|sid]; try discriminate Ha.
    + change (orderly (TRelease sid :: l)) with (orderly ([TRelease sid] ++ l)). split; [by apply Forall_cons|exact Hnd].
    + cbn [fmap list_fmap] in Hnd. apply NoDup_cons in Hnd as [_ Hnd]. replace (perform w (TRelease sid) n).1 with (@nil task); [by split|].
      cbn [Fleet.perform]. unfold nbind, nret. done.
  - destruct (is_last a) eqn:El.
    + rewrite (Hlast eq_refl), app_nil_r. destruct a as [| | | | |c|c limit| | |k| |]; try discriminate El; cbn [Fleet.perform].
      * right. unfold nbind, nget, nret. cbn [fst snd]. destruct (stmt _ _ _ n) as [[[[mine total] alive]|] n1]; [|by split]. cbn [fst snd].
        repeat case_match; (split; [by repeat constructor|done]).
      * right. unfold nbind, nget, nret. cbn [fst snd]. destruct (stmt _ _ _ n) as [[rows|] n1]; [|by split]. cbn [fst snd].
        split; [by apply Forall_fmap, Forall_true|]. rewrite <- (app_nil_r (TOpen <$> rows)).
        apply last_only_app; [by apply Forall_fmap, Forall_true|done].
      * left. unfold nbind, nget, nret, nask. cbn [fst snd]. split; [by apply Forall_fmap, Forall_true|].
        apply NoDup_task_sids. apply NoDup_take, NoDup_filter. rewrite order_perm. apply NoDup_elements.
    + right. pose proof (perform_follows w a n) as Hf.
      assert (Hts : Forall (λ u, is_shed u = false ∧ is_last u = false) (perform w a n).1).
      { eapply Forall_impl; [exact Hf|]. intros u Hu. destruct a, u; try discriminate; by cbn in *. }
      apply Forall_and in Hts as [Hs Hnl]. split; [by apply Forall_app|]. by apply last_only_app.
Qed.

(** The session of what follows is the piece's own, one the registry gives the
    worker, or one it holds. *)
Lemma follows_uses w n a u k : follows w n a u → task_sid u = Some k →
  task_sid a = Some k ∨ holder k (nd_db n) = Some w ∨ is_Some (nd_held n !! k) ∨ ∃ c limit, a = TClaim c limit.
Proof. destruct a, u; cbn; intros Hf [= <-]; subst; eauto 10; done. Qed.

Lemma perform_owners_held w a n k :
  is_Some (nd_held (perform w a n).2 !! k) → is_Some (nd_held n !! k) ∨ ∃ r, a = TOpen r ∧ rh_id r = k.
Proof.
  pose proof (mild_perform (clock w) (up w) (opens w) (order w) quote box w (capacity w) (locked w) a) as Hm.
  destruct a as [c|c|sid| |r|c|c limit|r|r p px|n'|sid|sid];
    try (destruct (Hm n) as [Hh _]; intros Hk; destruct (Hh k Hk) as [|Hin];
         [by left|by apply not_elem_of_nil in Hin || (apply list_elem_of_singleton in Hin as ->; right; by eexists)]);
    cbn [Fleet.perform]; unfold nbind, nget, nret; cbn [fst snd].
  - destruct (ready n sid).
    + destruct (stmt_run (clock w) (up w) (λ now d, ((), SetSessionOwner now sid w d)) n) as (t&now&->).
      destruct (up w (nd_tick n)); by left.
    + simpl. intros [h Hk]. apply lookup_delete_Some in Hk as [_ Hk]. left. by eexists.
  - destruct (stmt_run (clock w) (up w) (λ now d, ClaimOrphans now (locked w (nd_tick n)) w c limit d) n) as (t&now&->).
    destruct (up w (nd_tick n)); by left.
  - destruct (stmt_run (clock w) (up w) (λ now d, ((), ReleaseSession now sid d)) n) as (t&now&->).
    destruct (up w (nd_tick n)); by left.
Qed.

(** Everything but a claim and a release leaves the owners alone. *)
Lemma perform_owners w a n :
  (∀ sid, a = TFenceOne sid → is_Some (nd_held n !! sid) → mine w sid (nd_db n)) →
  match a with TClaim _ _ | TRelease _ => True | _ => keeps_owners (nd_db n) (nd_db (perform w a n).2) end.
Proof.
  intros Hmine. pose proof (mild_perform (clock w) (up w) (opens w) (order w) quote box w (capacity w) (locked w) a) as Hm.
  destruct a as [c|c|sid| |r|c|c limit|r|r p px|k|sid|sid]; try done; try (by destruct (Hm n)).
  cbn [Fleet.perform]. unfold nbind, nget, nret. cbn [fst snd]. destruct (ready n sid) eqn:Er; [|by intros k].
  destruct (stmt_run (clock w) (up w) (λ now d, ((), SetSessionOwner now sid w d)) n) as (t&now&->).
  destruct (up w (nd_tick n)); cbn [fst snd nd_db nd_held n_set_tick n_set_db]; [|by intros k].
  assert (Hheld : is_Some (nd_held n !! sid)) by (unfold ready in Er; destruct (nd_held n !! sid); [by eexists|done]).
  intros k. destruct (holder_alter k sid (s_touch now ∘ s_set_worker (Some w)) (Some w) (nd_db n)) as [Hh|[-> Hh]]; [done|..].
  - split; [exact Hh|]. simpl. intros Hn. destruct (decide (k = sid)) as [->|]; [by rewrite lookup_alter_eq, Hn|by rewrite lookup_alter_ne].
  - split; [|simpl; intros Hn'; by rewrite lookup_alter_eq, Hn'].
    destruct (Hmine k eq_refl Hheld) as [Hown|Hn]; [by etrans|]. unfold holder. simpl. by rewrite lookup_alter_eq, Hn.
Qed.

(** Whoever has something to do is under way. *)
Lemma uses_task m a l k : mb_todo m = a :: l → hands m k → uses m k.
Proof. intros El H. split; [right; by rewrite El|done]. Qed.

(** A claim takes what no member could have in its hands. *)
Lemma finv_claim t s w m c limit l r gap :
  finv t s → punctual gap t s → (gap + skew < workerStale)%Z →
  fl_members s !! w = Some m → mb_todo m = TClaim c limit :: l → run_on (perform w (TClaim c limit)) (fl_db s) m = r →
  sane (t + skew - workerStale) (mkMember r.2 (r.1 ++ l)) →
  finv t (mkFleet (nd_db r.2) (<[w := mkMember r.2 (r.1 ++ l)]> (fl_members s))).
Proof.
  intros HI Hp Hg Hm El Er Hsane.
  assert (Hc : (c <= t + skew - workerStale)%Z) by (eapply (sa_cutoff _ _ (fi_sane t s HI w m Hm)); [rewrite El; left|done]).
  unfold run_on in Er. cbn [Fleet.perform] in Er. unfold nbind, nget, nret in Er. cbn [fst snd] in Er.
  set (n := n_set_db (λ _, fl_db s) (mb_node m)) in *. set (busy := locked w (nd_tick n)) in *.
  destruct (stmt_run (clock w) (up w) (λ now d, ClaimOrphans now busy w c limit d) n) as (tk&now&E). rewrite E in Er. clear E.
  assert (Huses : ∀ ts, uses (mkMember r.2 (ts ++ l)) = uses (mkMember (mb_node m) (ts ++ l))).
  { intros ts. unfold uses. cbn [mb_node mb_todo]. subst r. by destruct (up w (nd_tick n)). }
  destruct (up w (nd_tick n)); subst r; cbn [fst snd] in *.
  2:{ eapply finv_shrink; [done|exact Hm|by intros k| |exact Hsane]. intros k Hu. rewrite Huses in Hu. eapply uses_task; [exact El|].
      destruct Hu as [_ [Hu|(u&Hu&Hs)]]; [by left|right]. exists u. split; [rewrite El; by right|done]. }
  change (nd_db (n_set_tick tk (n_set_db (λ _, (ClaimOrphans now busy w c limit (nd_db n)).2) n)))
    with (ClaimOrphans now busy w c limit (fl_db s)).2 in *.
  set (rows := claim_rows busy c limit (fl_db s)).
  assert (Hfree : ∀ k x mx, k ∈ rows.*1 → fl_members s !! x = Some mx → ¬ uses mx k).
  { intros k x mx Hk Hx Hu. destruct (claim_row_orphan _ _ _ _ _ Hk) as (row&Hrow&Ho&_&_).
    destruct (fi_mine t s HI x mx k Hx Hu) as [Hh|Hn]; [|congruence]. unfold holder in Hh. rewrite Hrow in Hh. cbn in Hh.
    destruct (Hp x mx Hx (proj1 Hu)) as (wr&Hw&Hseen). unfold orphan in Ho. rewrite Hh in Ho. cbn in Ho. unfold Registry.live in Ho. rewrite Hw in Ho.
    apply andb_true_iff in Ho as [_ Ho%negb_true_iff%Z.ltb_ge]. lia. }
  assert (Hrows : ∀ k, k ∉ rows.*1 → sessions (ClaimOrphans now busy w c limit (fl_db s)).2 !! k = sessions (fl_db s) !! k).
  { intros k Hk. rewrite ClaimOrphans_session, decide_False by done. by rewrite option_fmap_id. }
  assert (Hmine : ∀ x mx k, fl_members s !! x = Some mx → uses mx k → mine x k (ClaimOrphans now busy w c limit (fl_db s)).2).
  { intros x mx k Hx Hu. unfold mine, holder. rewrite Hrows; [by apply (fi_mine t s HI x mx)|]. intros Hk. by eapply Hfree. }
  apply finv_update; [done| | |exact Hsane].
  - intros x mx k Hx _. by apply Hmine.
  - intros k Hu. rewrite Huses in Hu. destruct Hu as [_ [Hu|(u&[Hu|Hu]%elem_of_app&Hs)]]; cbn [mb_node mb_todo] in *.
    + assert (uses m k) by (eapply uses_task; [exact El|by left]). split; [by eapply Hmine|]. intros x mx Hx Hux. by eapply (fi_one t s HI).
    + apply list_elem_of_fmap in Hu as (rh&->&Hin). cbn in Hs. injection Hs as <-.
      assert (Hk : rh_id rh ∈ rows.*1) by (unfold rows; rewrite <- ids_to_rehydratable; by apply list_elem_of_fmap_2).
      split; [left|intros x mx Hx Hux; by destruct (Hfree _ _ _ Hk Hx)].
      destruct (claim_row_orphan _ _ _ _ _ Hk) as (row&Hrow&_). unfold holder. rewrite ClaimOrphans_session, decide_True, Hrow by done. done.
    + assert (uses m k) by (eapply uses_task; [exact El|]; right; exists u; split; [rewrite El; by right|done]).
      split; [by eapply Hmine|]. intros x mx Hx Hux. by eapply (fi_one t s HI).
Qed.

(** A release gives up what the worker no longer has in its hands. *)
Lemma finv_release t s w m sid l r :
  finv t s → fl_members s !! w = Some m → mb_todo m = TRelease sid :: l → run_on (perform w (TRelease sid)) (fl_db s) m = r →
  sane (t + skew - workerStale) (mkMember r.2 (r.1 ++ l)) →
  finv t (mkFleet (nd_db r.2) (<[w := mkMember r.2 (r.1 ++ l)]> (fl_members s))).
Proof.
  intros HI Hm El Er Hsane. unfold run_on in Er. set (n := n_set_db (λ _, fl_db s) (mb_node m)) in *.
  assert (Hr1 : r.1 = []) by (rewrite <- Er; by cbn [Fleet.perform]; unfold nbind, nret). rewrite Hr1 in *.
  assert (Hhn : nd_held r.2 = nd_held (mb_node m) ∧
                (nd_db r.2 = fl_db s ∨ ∃ now, nd_db r.2 = ReleaseSession now sid (fl_db s))).
  { rewrite <- Er. cbn [Fleet.perform]. unfold nbind, nret. cbn [fst snd].
    destruct (stmt_run (clock w) (up w) (λ now d, ((), ReleaseSession now sid d)) n) as (tk&now&->).
    destruct (up w (nd_tick n)); (split; [done|]); [right; by exists now|by left]. }
  destruct Hhn as [Hheld Hdb].
  assert (Hin : uses m sid) by (eapply uses_task; [exact El|]; right; exists (TRelease sid); rewrite El; split; [left|done]).
  assert (Huses : ∀ k, uses (mkMember r.2 ([] ++ l)) k → uses m k ∧ k ≠ sid).
  { intros k [_ Hu]. destruct (fi_sane t s HI w m Hm) as [S1 S2 _].
    assert (Hut : hands m k → uses m k) by (by eapply uses_task). rewrite El in *.
    destruct Hu as [Hu|(u&Hu&Hs)]; cbn [mb_node mb_todo] in *.
    - rewrite Hheld in Hu. split; [apply Hut; by left|]. intros ->. rewrite (S2 sid) in Hu by left. by destruct Hu.
    - split; [apply Hut; right; exists u; rewrite El; split; [by right|done]|]. intros ->. destruct S1 as [[_ Hnd]|[Hf _]].
      + cbn in Hnd. apply NoDup_cons in Hnd as [Hnot _]. apply Hnot. rewrite <- Hs. by apply list_elem_of_fmap_2.
      + by apply Forall_cons in Hf as [? _]. }
  assert (Hmine : ∀ x mx k, fl_members s !! x = Some mx → uses mx k → k ≠ sid → mine x k (nd_db r.2)).
  { intros x mx k Hx Hu Hne. pose proof (fi_mine t s HI x mx k Hx Hu) as H. destruct Hdb as [->|[now ->]]; [done|].
    unfold mine, holder. simpl. by rewrite lookup_alter_ne. }
  apply finv_update; [done| | |exact Hsane].
  - intros x mx k Hx Hne Hu. eapply Hmine; [done..|]. intros ->. apply Hne. by eapply (fi_one t s HI).
  - intros k Hu. destruct (Huses k Hu) as [Hum Hne]. split; [by eapply Hmine|]. intros x mx Hx Hux. by eapply (fi_one t s HI).
Qed.

Lemma sane_perform w bound m a l r d :
  sane bound m → mb_todo m = a :: l → run_on (perform w a) d m = r → sane bound (mkMember r.2 (r.1 ++ l)).
Proof.
  intros [S1 S2 S3] El <-. rewrite El in *. unfold run_on. set (n := n_set_db (λ _, d) (mb_node m)).
  pose proof (perform_follows w a n) as Hf. rewrite Forall_forall in Hf. split; cbn [mb_todo mb_node].
  - by apply perform_orderly.
  - intros sid [Hin|Hin]%elem_of_app.
    + specialize (Hf _ Hin). destruct a; try done. cbn in Hf. subst. unfold Fleet.perform, nbind, nget, nret, drop, nupd. cbn [fst snd].
      destruct (ready n _); simpl; apply lookup_delete_eq.
    + assert (Hno : ¬ is_Some (nd_held n !! sid)) by (change (nd_held n) with (nd_held (mb_node m)); rewrite (S2 sid) by (by right); by intros [? [=]]).
      apply eq_None_not_Some. intros Hs. apply (perform_owners_held w a n) in Hs as [|(r&->&_)]; [done|].
      destruct S1 as [[Ha _]|[Ha _]]; [by apply Forall_cons in Ha as [? _]|].
      rewrite Forall_forall in Ha. by specialize (Ha (TRelease sid) ltac:(by right)).
  - intros u c [Hin|Hin]%elem_of_app Hc; [|by eapply S3; [right|]].
    specialize (Hf _ Hin). destruct a, u; try done; cbn in *; simplify_eq. by eapply S3; [left|].
Qed.

Lemma finv_task t s w m a l r gap :
  finv t s → punctual gap t s → (gap + skew < workerStale)%Z →
  fl_members s !! w = Some m → mb_todo m = a :: l → run_on (perform w a) (fl_db s) m = r →
  finv t (mkFleet (nd_db r.2) (<[w := mkMember r.2 (r.1 ++ l)]> (fl_members s))).
Proof.
  intros HI Hp Hg Hm El Er. pose proof (sane_perform w _ m a l r _ (fi_sane t s HI w m Hm) El Er) as Hsane.
  unfold run_on in Er. set (n := n_set_db (λ _, fl_db s) (mb_node m)) in *.
  assert (Hheld : ∀ k, is_Some (nd_held r.2 !! k) → uses m k).
  { rewrite <- Er. intros k Hk. eapply uses_task; [exact El|]. revert Hk.
    intros [Hk|(x&->&<-)]%(perform_owners_held w a n); [by left|]. right. exists (TOpen x). split; [|done].
    rewrite El. left. }
  assert (Huse : ∀ k, uses (mkMember r.2 (r.1 ++ l)) k → uses m k ∨ holder k (fl_db s) = Some w ∨
      ∃ c limit, a = TClaim c limit ∧ ∃ u, u ∈ r.1 ∧ task_sid u = Some k).
  { intros k [_ [Hk|(u&[Hu|Hu]%elem_of_app&Hsid)]]; cbn [mb_node mb_todo] in *; [left; by apply Hheld| |].
    - pose proof (perform_follows w a n) as Hf. rewrite Er, Forall_forall in Hf. specialize (Hf u Hu).
      destruct (follows_uses w n a u k Hf Hsid) as [Ha|[Hh|[Hh|(c&limit&Ha)]]].
      + left. eapply uses_task; [exact El|]. right. exists a. rewrite El. split; [left|done].
      + right. by left.
      + left. eapply uses_task; [exact El|]. by left.
      + right. right. exists c, limit. split; [done|]. by exists u.
    - left. eapply uses_task; [exact El|]. right. exists u. rewrite El. split; [by right|done]. }
  assert (Hown := perform_owners w a n ltac:(intros sid _ Hs; apply (fi_mine t s HI w m sid Hm); eapply uses_task; [exact El|by left])).
  destruct a as [c|c|sid| |x|c|c limit|x|x p px|k|sid|sid];
    try (eapply finv_grow; [done|exact Hm| | |exact Hsane];
         [rewrite <- Er; exact Hown
         |intros k' Hk'; destruct (Huse k' Hk') as [|[|(?&?&[=]&_)]]; auto]).
  - by apply (finv_claim t s w m c limit l r gap).
  - by apply (finv_release t s w m sid l r).
Qed.

Lemma keeps_workers f d : keeps_owners d (with_workers f d).
Proof. by intros k. Qed.

Lemma finv_later t t' s : finv t s → (t <= t')%Z → finv t' s.
Proof.
  intros [I1 I2 I3] Ht. split; [done..|]. intros w m Hm. destruct (I3 w m Hm) as [S1 S2 S3]. split; [done..|].
  intros u c Hu Hc. specialize (S3 u c Hu Hc). lia.
Qed.

(** The registry changes, and members may go. *)
Lemma finv_less t s d' ms :
  finv t s → (∀ x m, ms !! x = Some m → fl_members s !! x = Some m) →
  (∀ x m k, ms !! x = Some m → uses m k → mine x k d') → finv t (mkFleet d' ms).
Proof. intros [I1 I2 I3] Hsub Hmine. split; simpl; [done|..]; eauto. Qed.

Lemma finv_begin t s w m r :
  finv t s → fl_members s !! w = Some m → (clock w (nd_tick (mb_node m)) <= t + skew)%Z →
  run_on (pass_begin (clock w)) (fl_db s) m = r →
  finv t (mkFleet (nd_db r.2) (<[w := mkMember r.2 r.1]> (fl_members s))).
Proof.
  intros HI Hm Hc <-. unfold run_on, pass_begin, nbind, nget, nask, nret. cbn [fst snd].
  set (n := n_set_db (λ _, fl_db s) (mb_node m)). set (c := (clock w (nd_tick n) - workerStale)%Z).
  assert (Hcase : ∀ n' ts, nd_db n' = fl_db s → nd_held n' = nd_held n → nd_stopping n' = nd_stopping n →
    ts = [] ∨ nd_stopping n = false ∧ ts = [TReap c; TFence c; TAdopt; TBalance c] →
    finv t (mkFleet (nd_db n') (<[w := mkMember n' ts]> (fl_members s)))).
  { intros n' ts -> Hheld Hst Hts. eapply finv_shrink; [done|exact Hm|by intros k|..].
    - intros k [Ha Hk]. split.
      { left. change (nd_stopping n = false). destruct Ha as [Ha|Ha]; cbn in Ha; [by rewrite <- Hst|]. by destruct Hts as [|[]]. }
      destruct Hk as [Hk|(u&Hu&Hs)]; [left; cbn in Hk; by rewrite Hheld in Hk|]. cbn in Hu. destruct Hts as [->|[_ ->]]; [by apply not_elem_of_nil in Hu|].
      repeat (apply elem_of_cons in Hu as [->|Hu]; [done|]). by apply not_elem_of_nil in Hu.
    - split; cbn [mb_todo mb_node]; [right| |]; destruct Hts as [->|[_ ->]].
      + by split.
      + split; [by repeat constructor|done].
      + by intros sid ?%not_elem_of_nil.
      + intros sid Hu. repeat (apply elem_of_cons in Hu as [[=]|Hu]). by apply not_elem_of_nil in Hu.
      + by intros u c' ?%not_elem_of_nil.
      + intros u c' Hu Hc'. unfold c in *. change (nd_tick n) with (nd_tick (mb_node m)) in *.
        repeat (apply elem_of_cons in Hu as [->|Hu]; [cbn in Hc'; simplify_eq; lia|]). by apply not_elem_of_nil in Hu. }
  destruct (nd_stopping n) eqn:Es; cbn [fst snd]; apply Hcase; auto.
Qed.

Lemma finv_born t s w m n' :
  finv t s → fl_members s !! w = Some m → bears (n_set_db (λ _, fl_db s) (mb_node m)) n' →
  unused s (nd_db n') → nd_stopping (mb_node m) = false →
  (∀ k, sessions (fl_db s) !! k = None → is_Some (sessions (nd_db n') !! k) → holder k (nd_db n') = Some w) →
  finv t (mkFleet (nd_db n') (<[w := mkMember n' (mb_todo m)]> (fl_members s))).
Proof.
  intros HI Hm Hb Hun Hrun Hnew. pose proof (fi_sane t s HI w m Hm) as [S1 S2 S3]. destruct Hb as [->|(id&Hnone&Hsome&Hrest)].
  { eapply finv_shrink; [done|exact Hm|by intros k|by intros k|by split]. }
  cbn [nd_db nd_held n_set_db] in *. pose proof (Hnew id Hnone Hsome) as Hown. pose proof (Hun id Hnone Hsome) as Hfree.
  assert (Hsame : ∀ x k, k ≠ id → mine x k (fl_db s) → mine x k (nd_db n')).
  { intros x k Hk H. unfold mine, holder. by destruct (Hrest k Hk) as [_ ->]. }
  assert (Hne : ∀ x mx k, fl_members s !! x = Some mx → hands mx k → k ≠ id) by (intros x mx k Hx Hu ->; by eapply Hfree).
  apply finv_update; [done|..].
  - intros x mx k Hx _ Hu. apply Hsame; [eapply Hne; [exact Hx|apply Hu]|by eapply (fi_mine t s HI)].
  - intros k [_ Hu]. destruct (decide (k = id)) as [->|Hk].
    + split; [by left|]. intros x mx Hx [_ Hux]. by destruct (Hfree x mx Hx).
    + assert (uses m k) by (split; [by left|]; destruct Hu as [Hu|Hu]; [left; cbn in Hu; by destruct (Hrest k Hk) as [<- _]|by right]).
      split; [apply Hsame; [done|by eapply (fi_mine t s HI)]|]. intros x mx Hx Hux. by eapply (fi_one t s HI).
  - split; cbn [mb_todo mb_node]; [done| |done]. intros sid Hin. destruct (Hrest sid) as [-> _]; [|by apply S2].
    apply (Hne w m sid Hm). right. by exists (TRelease sid).
Qed.

Lemma Shutdown_db w n :
  let d := nd_db n in let d' := nd_db (Shutdown (clock w) (up w) (order w) w n).2 in
  ∀ k, (sessions d !! k = None → sessions d' !! k = None) ∧ (holder k d' = holder k d ∨ holder k d = Some w).
Proof.
  cbv zeta. set (walk := order w (nd_tick n) (elements (dom (nd_held n)))). set (n0 := n_set_stopping true n).
  set (n1 := (abort_pending n0 walk (n_set_tick (S (nd_tick n)) n0)).2). set (n2 := (close_ready n0 walk n1).2).
  set (n3 := (stmt (clock w) (up w) (λ now d, ReleaseSessions now w d) n2).2).
  change (Shutdown (clock w) (up w) (order w) w n).2 with (stmt (clock w) (up w) (λ _ d, ((), DeregisterWorker w d)) n3).2.
  assert (H2 : nd_db n2 = nd_db n).
  { transitivity (nd_db n1); [exact (close_ready_db n0 walk n1)|exact (abort_pending_db n0 walk _)]. }
  assert (H3 : ∀ k, (sessions (nd_db n) !! k = None → sessions (nd_db n3) !! k = None) ∧
    (holder k (nd_db n3) = holder k (nd_db n) ∨ holder k (nd_db n) = Some w)).
  { unfold n3. destruct (stmt_run (clock w) (up w) (λ now d, ReleaseSessions now w d) n2) as (tk&now&->). intros k.
    destruct (up w (nd_tick n2)); cbn [snd nd_db n_set_tick n_set_db]; rewrite H2; [|by auto]. split.
    - intros Hn. unfold ReleaseSessions. simpl. by rewrite lookup_update_where, Hn.
    - destruct (holder_release k now w (nd_db n)) as [|[_ ?]]; auto. }
  intros k. destruct (stmt_run (clock w) (up w) (λ _ d, ((), DeregisterWorker w d)) n3) as (tk&now&->).
  destruct (up w (nd_tick n3)); exact (H3 k).
Qed.

Lemma Shutdown_stops w n : nd_stopping (Shutdown (clock w) (up w) (order w) w n).2 = true.
Proof.
  set (walk := order w (nd_tick n) (elements (dom (nd_held n)))). set (n0 := n_set_stopping true n).
  set (n1 := (abort_pending n0 walk (n_set_tick (S (nd_tick n)) n0)).2). set (n2 := (close_ready n0 walk n1).2).
  set (n3 := (stmt (clock w) (up w) (λ now d, ReleaseSessions now w d) n2).2).
  change (Shutdown (clock w) (up w) (order w) w n).2 with (stmt (clock w) (up w) (λ _ d, ((), DeregisterWorker w d)) n3).2.
  assert (H2 : nd_stopping n2 = true).
  { transitivity (nd_stopping n1); [exact (proj2 (close_ready_held n0 walk n1))|exact (abort_pending_stop n0 walk _)]. }
  assert (Hs : ∀ {A} (f : Z → db → A * db) v, nd_stopping (stmt (clock w) (up w) f v).2 = nd_stopping v).
  { intros A f v. rewrite stmt_at. by destruct (up w (nd_tick v)). }
  rewrite Hs. unfold n3. by rewrite Hs.
Qed.

Lemma finv_outside t s o d' :
  finv t s → act t o (fl_db s) d' → outside o = true → unused s d' →
  finv t (mkFleet d' (fl_members s)).
Proof.
  intros HI Ha Ho Hfresh. apply (finv_less t s); [done|done|]. intros x m k Hx Hu. pose proof (fi_mine t s HI x m k Hx Hu) as Hmine.
  inversion Ha; subst; try discriminate Ho; try exact Hmine.
  - destruct (holder_delete k sid (fl_db s)) as [Hh|[-> _]].
    + destruct Hmine as [Hm1|Hm1]; [left; by rewrite Hh|right]. unfold Registry.DeleteSession.
      destruct (sessions (fl_db s) !! sid); [|done]. simpl. destruct (decide (k = sid)) as [->|]; [apply lookup_delete_eq|by rewrite lookup_delete_ne].
    + right. unfold Registry.DeleteSession. destruct (sessions (fl_db s) !! k) eqn:E; [|done]. simpl. apply lookup_delete_eq.
  - match goal with H : steady _ _ |- _ => destruct H as [_ Hh] end.
    destruct Hmine as [Hm1|Hm1]; [left; by rewrite Hh|right]. destruct (sessions d' !! k) eqn:E; [|done].
    destruct (Hfresh k Hm1 ltac:(by rewrite E) x m Hx (proj2 Hu)).
Qed.

Lemma finv_step gap t s l s' : finv t s → punctual gap t s → (gap + skew < workerStale)%Z →
  fstep t s l s' → tidy s l s' → finv t s'.
Proof.
  intros HI Hp Hg Hs Htidy.
  destruct Hs as [w m r Hm _ Hc Hr|w m a l' r Hm El Hr|w m r Hm Hr|w m appID phone proxyID label r Hm Hr Hn
                 |w m opened appID token proxyID label r Hm Hr Hn|w m n Hm Hd Hst|w m r Hm Hr|w|w ok now k n Hm Hn|o d' Ha Ho Hf].
  - by apply (finv_begin t s w m r).
  - by apply (finv_task t s w m a l' r gap).
  - unfold run_on, beat, nbind, nget in Hr. cbn [fst snd] in Hr. set (n := n_set_db _ _) in Hr.
    assert (Hsame : keeps_owners (fl_db s) (nd_db r.2) ∧ nd_held r.2 = nd_held (mb_node m) ∧ nd_stopping r.2 = nd_stopping (mb_node m)).
    { subst r. destruct (nd_stopping n) eqn:En; [by split; [intros k|]|].
      destruct (stmt_run (clock w) (up w) (λ now d, ((), RegisterWorker now w (addr w) d)) n) as (tk&now&->).
      unfold nret. cbn [snd]. destruct (up w (nd_tick n)); (split; [by intros k|by split]). }
    destruct Hsame as (Hk&Hh&Hst). eapply finv_shrink; [done|exact Hm|exact Hk| |].
    + intros k. unfold uses, active, hands. cbn. by rewrite Hh, Hst.
    + destruct (fi_sane t s HI w m Hm) as [S1 S2 S3]. split; cbn; [done| |done]. by rewrite Hh.
  - destruct Htidy as [Hrun Hown]. apply (finv_born t s w m); [done|done| |done|by apply Hrun|done]. subst r. apply user_bears. exact td.
  - destruct Htidy as [Hrun Hown]. apply (finv_born t s w m); [done|done| |done|by apply Hrun|done]. subst r. apply bot_bears.
  - eapply finv_shrink; [done|exact Hm|by intros k| |].
    + intros k [Ha Hk]. split; [unfold active in *; cbn in Ha; by rewrite <- Hst|].
      destruct Hk as [Hk|Hk]; [left|by right]. cbn in Hk. by apply elem_of_dom, Hd, elem_of_dom.
    + destruct (fi_sane t s HI w m Hm) as [S1 S2 S3]. split; cbn; [done| |done]. intros sid Hin.
      specialize (S2 sid Hin). apply not_elem_of_dom in S2. apply not_elem_of_dom. set_solver.
  - assert (Hst : nd_stopping r.2 = true) by (subst r; apply Shutdown_stops). pose proof (Htidy m Hm) as El.
    assert (Hmine : ∀ x mx k, fl_members s !! x = Some mx → x ≠ w → uses mx k → mine x k (nd_db r.2)).
    { intros x mx k Hx Hne Hu. subst r. unfold run_on.
      destruct (Shutdown_db w (n_set_db (λ _, fl_db s) (mb_node m)) k) as [H1 H2]. cbn [nd_db n_set_db] in *.
      destruct (fi_mine t s HI x mx k Hx Hu) as [H|H]; [left|right; by apply H1]. destruct H2 as [->|H2]; [done|congruence]. }
    apply finv_update; [done|exact Hmine|..].
    + intros k [[Ha|Ha] _]; cbn in Ha; [congruence|by rewrite El in Ha].
    + rewrite El. split; cbn; [left; split; [done|apply NoDup_nil_2]|by intros ? ?%not_elem_of_nil|by intros ? ? ?%not_elem_of_nil].
  - apply (finv_less t s); [done|by intros x mx [_ ?]%lookup_delete_Some|].
    intros x mx k [_ Hx]%lookup_delete_Some. by apply (fi_mine t s HI).
  - subst n. cbn [n_set_tick NewManager nd_db]. assert (Hk : keeps_owners (fl_db s) (if ok then RegisterWorker now w (addr w) (fl_db s) else fl_db s)).
    { destruct ok; by intros x. }
    apply finv_update; [done|..].
    + intros x mx k' Hx _ Hu. eapply mine_keeps; [exact Hk|by eapply (fi_mine t s HI)].
    + intros k' [_ [Hu|(u&Hu&_)]]; [cbn in Hu; rewrite lookup_empty in Hu; by destruct Hu|by apply not_elem_of_nil in Hu].
    + split; cbn; [left; split; [done|apply NoDup_nil_2]|by intros ? ?%not_elem_of_nil|by intros ? ? ?%not_elem_of_nil].
  - by apply (finv_outside t s o d').
Qed.

Lemma finv_runs gap t s t' s' : (gap + skew < workerStale)%Z → finv t s → fruns gap t s t' s' → finv t' s'.
Proof.
  intros Hg HI. induction 1 as [|t1 s1 t2 l s2 _ IH Ht Hp Hs Htidy]; [done|]. eapply finv_step; [|exact Hp|done|exact Hs|exact Htidy].
  by eapply finv_later.
Qed.
Lemma finv_start t d : finv t (mkFleet d ∅).
Proof. split; simpl; intros *; by rewrite lookup_empty. Qed.

(** C4: One client per session, whoever runs when. Take any registry, let
    workers join, run their passes and log accounts in, stop, exit and crash,
    their pieces interleaved in any way and with deletions, purges and everything
    else that assigns no owner going on beside them. Suppose that no worker under
    way is heard of more than [gap] late, and [gap] with the lead of a worker's
    clock stays below the staleness window; and what the code itself does not
    ensure: a worker stops between two of its passes, not during one
    ([straggler]), and takes on no account after it was told to stop, and the
    write that makes it the owner of a session it created is not lost
    ([Manage.owner_write_lost]). Then two workers under way that have the same
    session in their hands are one: it is in the map of one of them at most, and
    no other is about to open or to let go of it. Unless its row was deleted
    meanwhile the registry names that worker as the owner, and every cutoff a
    punctual clock can ask for routes requests to it. *)
Theorem one_client gap t0 d t s w w' m m' sid :
  (gap + skew < workerStale)%Z → fruns gap t0 (mkFleet d ∅) t s →
  fl_members s !! w = Some m → fl_members s !! w' = Some m' → uses m sid → uses m' sid →
  w = w' ∧
  (∀ row, sessions (fl_db s) !! sid = Some row → s_worker row = Some w ∧
    (punctual gap t s → ∃ r, workers (fl_db s) !! w = Some r ∧
       ∀ cutoff, (cutoff <= t + skew - workerStale)%Z → SessionRoute sid cutoff (fl_db s) = Some (s_kind row, w_addr r))).
Proof.
  intros Hg Hr Hm Hm' Hu Hu'. pose proof (finv_runs gap _ _ _ _ Hg (finv_start t0 d) Hr) as HI.
  split; [by eapply (fi_one t s HI)|]. intros row Hrow.
  destruct (fi_mine t s HI w m sid Hm Hu) as [Hh|Hn]; [|congruence]. unfold holder in Hh. rewrite Hrow in Hh. cbn in Hh.
  split; [done|]. intros Hp. destruct (Hp w m Hm (proj1 Hu)) as (r&Hw&Hseen). exists r. split; [done|]. intros cutoff Hc.
  unfold SessionRoute. rewrite Hrow, Hh, Hw, (proj2 (Z.ltb_lt _ _)) by lia. done.
Qed.

(** ** Turns *)

Definition punctualb (gap t : Z) (s : fleet_state) : bool :=
  bool_decide (map_Forall (λ w _, match workers (fl_db s) !! w with Some r => (t - w_seen r <=? gap)%Z | None => false end = true)
                 (fl_members s)).

Lemma punctualb_sound gap t s : punctualb gap t s = true → punctual gap t s.
Proof.
  intros H%bool_decide_eq_true w m Hm _. specialize (H w m Hm). cbn in H.
  destruct (workers (fl_db s) !! w) as [r|]; [|done]. exists r. split; [done|]. by apply Z.leb_le.
Qed.

(** The next piece of a worker's pass, or the begin of one. *)
Definition turn (w : string) (s : fleet_state) : fleet_state :=
  match fl_members s !! w with
  | None => s
  | Some m =>
      match mb_todo m with
      | [] => let r := run_on (pass_begin (clock w)) (fl_db s) m in
              mkFleet (nd_db r.2) (<[w := mkMember r.2 r.1]> (fl_members s))
      | a :: l => let r := run_on (perform w a) (fl_db s) m in
                  mkFleet (nd_db r.2) (<[w := mkMember r.2 (r.1 ++ l)]> (fl_members s))
      end
  end.

(** Turns taken as scheduled, as long as everybody is punctual. *)
Fixpoint turns (gap t : Z) (ws : list string) (s : fleet_state) : option fleet_state :=
  match ws with
  | [] => Some s
  | w :: ws => if punctualb gap t s then turns gap t ws (turn w s) else None
  end.

Lemma turns_run gap t0 s0 t ws s s' :
  (∀ w i, (clock w i <= t + skew)%Z) → fruns gap t0 s0 t s → turns gap t ws s = Some s' → fruns gap t0 s0 t s'.
Proof.
  intros Hc. revert s. induction ws as [|w ws IH]; intros s Hr E; [by injection E as <-|]. cbn in E.
  destruct (punctualb gap t s) eqn:Hp; [|done]. apply (IH (turn w s)); [|done]. unfold turn.
  destruct (fl_members s !! w) as [m|] eqn:Hm; [|done].
  eapply (fr_step _ _ _ _ _ _ FStep); [exact Hr|lia|by apply punctualb_sound| |done]. destruct (mb_todo m) as [|a l] eqn:El.
  - eapply f_pass; [done..|apply Hc|reflexivity].
  - by eapply f_task.
Qed.

(** A worker that starts and reaches the registry. *)
Definition enter (w : string) (now : Z) (s : fleet_state) : fleet_state :=
  let n := n_set_tick 0 (NewManager true now w (addr w) (fl_db s)) in
  mkFleet (nd_db n) (<[w := mkMember n []]> (fl_members s)).

Lemma enter_run gap t0 s0 t w now s :
  fruns gap t0 s0 t s → punctualb gap t s = true → fl_members s !! w = None → fruns gap t0 s0 t (enter w now s).
Proof.
  intros Hr Hp Hn. eapply (fr_step _ _ _ _ _ _ FStep); [exact Hr|done|by apply punctualb_sound| |done]. by eapply (f_join _ _ w true now 0).
Qed.
End fleet.

(** ** Examples *)

Definition ex_clock : string → nat → Z := λ _ _, (100 * second)%Z.
Definition ex_addr : string → string := λ w, if String.eqb w "A" then "http://a" else "http://b".
Definition ex_turn (opens : string → nat → tdParams → option AddProxyRequest → option gerr) :=
  turn ex_clock (λ _ _, true) opens (λ _ _ l, l) (λ s, s) ex_box (λ _, 10%Z) (λ _ _, ∅).
Definition ex_turns := turns ex_clock (λ _ _, true) (λ _ _ _ _, None) (λ _ _ l, l) (λ s, s) ex_box (λ _, 10%Z) (λ _ _, ∅).

(** Workers "A" and "B" start anew over a registry that knows them. *)
Definition ex_two : fleet_state :=
  enter ex_addr "B" (100 * second) (enter ex_addr "A" (100 * second) (mkFleet (ex_reg 0) ∅)).

(** Both run a pass at once. *)
Definition ex_both : list string := concat (replicate 8 ["A"; "B"]).
Definition ex_after : fleet_state := default ex_two (ex_turns 0 (100 * second) ex_both ex_two).

Lemma ex_joined :
  fruns ex_clock (λ _ _, true) (λ _ _ _ _, None) (λ _ _ l, l) (λ s, s) ex_box ex_addr (λ _, "/data") (λ _, 10%Z) (λ _ _, ∅)
    (λ _ _ n, Some (zeros n)) (λ _ i, itoa (Z.of_nat i)) (λ _ _ _, TdResult JNull) 0 0 (100 * second) (mkFleet (ex_reg 0) ∅)
    (100 * second) ex_two.
Proof. apply enter_run; [apply enter_run; [apply fr_start|..]|..]; vm_compute; reflexivity. Qed.

Lemma one_client_witness :
  ∃ m, fl_members ex_after !! "A" = Some m ∧ ready (mb_node m) "s" = true ∧
    ∀ w' m', fl_members ex_after !! w' = Some m' → uses m' "s" → "A" = w'.
Proof.
  assert (E : ex_turns 0 (100 * second) ex_both ex_two = Some ex_after) by (vm_compute; reflexivity).
  set (ok := λ m, match nd_held (mb_node m) !! "s" with Some h => readyClient (hd_live h) | None => false end).
  assert (HA : ok <$> fl_members ex_after !! "A" = Some true) by (vm_compute; reflexivity).
  destruct (fl_members ex_after !! "A") as [m|] eqn:Hm; [|discriminate HA]. injection HA as HA. exists m.
  split; [reflexivity|]. split; [exact HA|]. intros w' m' Hm' Hu'.
  eapply (one_client ex_clock (λ _ _, true) (λ _ _ _ _, None) (λ _ _ l, l) (λ s, s) ex_box ex_addr (λ _, "/data") (λ _, 10%Z) (λ _ _, ∅)
    (λ _ _ n, Some (zeros n)) (λ _ i, itoa (Z.of_nat i)) (λ _ _ _, TdResult JNull) 0 ltac:(reflexivity) 0 (100 * second) (ex_reg 0)
    (100 * second) ex_after "A" w' m m' "s"); [reflexivity| |exact Hm|exact Hm'| |exact Hu'].
  - eapply turns_run; [|apply ex_joined|exact E]. by intros.
  - assert (Hst : (λ m, nd_stopping (mb_node m)) <$> fl_members ex_after !! "A" = Some false) by (vm_compute; reflexivity).
    rewrite Hm in Hst. injection Hst as Hst. split; [left; exact Hst|].
    left. unfold ok in HA. destruct (nd_held (mb_node m) !! "s"); [by eexists|discriminate HA].
Defined.

(** ** A pass under way when its worker stops *)

(** Worker "A" is waiting for the client of "s". *)
Definition ex_opening : fleet_state := default ex_two (ex_turns 0 (100 * second) (replicate 6 "A") ex_two).

(** [Shutdown] beside a pass: it only raises the flag that the next pass looks at. *)
Definition ex_stop (s : fleet_state) : fleet_state :=
  match fl_members s !! "A" with
  | None => s
  | Some m => let r := run_on (Shutdown (ex_clock "A") (λ _, true) (λ _ l, l) "A") (fl_db s) m in
              mkFleet (nd_db r.2) (<["A" := mkMember r.2 (mb_todo m)]> (fl_members s))
  end.

(** It is a step, though not a tidy one. *)
Lemma ex_stop_step s m : fl_members s !! "A" = Some m →
  fstep ex_clock (λ _ _, true) (λ _ _ _ _, None) (λ _ _ l, l) (λ s, s) ex_box ex_addr (λ _, "/data") (λ _, 10%Z) (λ _ _, ∅)
    (λ _ _ n, Some (zeros n)) (λ _ i, itoa (Z.of_nat i)) (λ _ _ _, TdResult JNull) 0 (100 * second) s (FStop "A") (ex_stop s).
Proof. intros Hm. unfold ex_stop. rewrite Hm. by eapply f_stop. Qed.

(** A stopping worker does not wait for a pass under way, nor keep it from
    going on. Stopped while it waits for a client, it has released the session
    and left the registry before the client is there. A peer claims the session,
    finds its directory locked and drops it; then the client of the stopped
    worker becomes ready. It is not closed, and no request reaches it. *)
Example straggler :
  let s1 := ex_stop ex_opening in
  let s2 := Nat.iter 12 (ex_turn (λ _ _ _ _, Some (EMsg "Can't lock file")) "B") s1 in
  let s3 := ex_turn (λ _ _ _ _, None) "A" s2 in
  (s_worker <$> sessions (fl_db s1) !! "s") = Some None ∧
  holder "s" (fl_db s3) = Some "B" ∧
  ((λ m, (nd_stopping (mb_node m), ready (mb_node m) "s", nd_log (mb_node m))) <$> fl_members s3 !! "A") =
    Some (true, true, [Opened "s"]) ∧
  ((λ m, nd_held (mb_node m) !! "s") <$> fl_members s3 !! "B") = Some None.
Proof. vm_compute. done. Qed.
